(** * Antigravity proxy gateway: account pool, upstream failover, retry loop
      and stream mappers

    A shallow embedding of [src/server/modules/proxy/proxy.service.ts]
    (the [ProxyService] orchestrator followed by [TokenManagerService]) and of
    [src/server/modules/proxy/clients/gemini.client.ts] ([GeminiClient]).
    The API key guard ([proxy.guard.ts], [guards/api-key-auth.util.ts]), the
    model routing ([lib/antigravity/ModelMapping.ts]), the error replies of
    [proxy.controller.ts] and the OpenAI compatibility mappers of
    [ProxyService] follow in modules of their own.

    Conventions of the embedding.
    - JavaScript strings are [string] (sequences of 8-bit code units);
      [toLowerCase] and [toUpperCase] fold the letters below 256 as
      [String.prototype] does, [trim] strips the white space code units
      below 256.  Messages outside that alphabet are not modelled.
    - [Date.now()] is an explicit argument or a field of the world.
    - A thrown [Error] is its message; every exception the modelled code
      sees is an [Error] instance.
    - Collaborators that live outside the two files (the account store,
      the token refresher, axios, [JSON.parse], the Claude mappers) are
      [Variable]s of the enclosing [Section]. *)

From Stdlib Require Import ZArith Ascii String List Lia Bool Sorted.
From stdpp Require Import base option list gmap strings pretty.

Open Scope string_scope.
Open Scope list_scope.
Set Warnings "-register-all".

(** ** JavaScript string primitives *)

Module Js.

(** The capital letters below 256: A-Z and U+00C0-U+00DE without the
    multiplication sign U+00D7. *)
Definition isUpper (c : ascii) : bool :=
  let n := nat_of_ascii c in
  (Nat.leb 65 n && Nat.leb n 90) ||
  (Nat.leb 192 n && Nat.leb n 222 && negb (Nat.eqb n 215)).

Definition lowerChar (c : ascii) : ascii :=
  if isUpper c then ascii_of_nat (nat_of_ascii c + 32) else c.

(** The small letters below 256 whose capital is 32 below them: a-z and
    U+00E0-U+00FE without the division sign U+00F7. *)
Definition isLower (c : ascii) : bool :=
  let n := nat_of_ascii c in
  (Nat.leb 97 n && Nat.leb n 122) ||
  (Nat.leb 224 n && Nat.leb n 254 && negb (Nat.eqb n 247)).

(** [toUpperCase] of one code unit.  The capital of U+00DF is SS; the
    capitals of U+00B5 and U+00FF are U+039C and U+0178, outside the
    alphabet: [None]. *)
Definition upperChar (c : ascii) : option string :=
  let n := nat_of_ascii c in
  if Nat.eqb n 181 || Nat.eqb n 255 then None
  else if Nat.eqb n 223 then Some "SS"
  else if isLower c then Some (String (ascii_of_nat (n - 32)) EmptyString)
  else Some (String c EmptyString).

Fixpoint toLowerCase (s : string) : string :=
  match s with
  | EmptyString => EmptyString
  | String c r => String (lowerChar c) (toLowerCase r)
  end.

(** [s.toUpperCase()]; [None] when the result holds a code unit above
    255. *)
Fixpoint toUpperCase (s : string) : option string :=
  match s with
  | EmptyString => Some EmptyString
  | String c r =>
      match upperChar c, toUpperCase r with
      | Some u, Some r' => Some (u +:+ r')
      | _, _ => None
      end
  end.

(** [s.startsWith(p)] *)
Definition startsWith (s p : string) : bool := String.prefix p s.

(** [s.includes(sub)] *)
Fixpoint includes (s sub : string) : bool :=
  match s with
  | EmptyString => String.prefix sub EmptyString
  | String _ r => String.prefix sub s || includes r sub
  end.

(** White space recognised by [String.prototype.trim] among the code units
    below 256: TAB, LF, VT, FF, CR, SP and NBSP. *)
Definition isSpace (c : ascii) : bool :=
  let n := nat_of_ascii c in
  (Nat.leb 9 n && Nat.leb n 13) || Nat.eqb n 32 || Nat.eqb n 160.

Fixpoint trimStart (s : string) : string :=
  match s with
  | EmptyString => EmptyString
  | String c r => if isSpace c then trimStart r else s
  end.

Fixpoint trimEnd (s : string) : string :=
  match s with
  | EmptyString => EmptyString
  | String c r =>
      match trimEnd r with
      | EmptyString => if isSpace c then EmptyString else String c EmptyString
      | r' => String c r'
      end
  end.

Definition trim (s : string) : string := trimEnd (trimStart s).

(** [s.slice(n)] for [0 <= n] *)
Fixpoint sliceFrom (n : nat) (s : string) : string :=
  match n, s with
  | O, _ => s
  | S k, EmptyString => EmptyString
  | S k, String _ r => sliceFrom k r
  end.

Definition isDigit (c : ascii) : bool :=
  let n := nat_of_ascii c in Nat.leb 48 n && Nat.leb n 57.

Fixpoint allDigits (s : string) : bool :=
  match s with
  | EmptyString => true
  | String c r => isDigit c && allDigits r
  end.

(** [s.split('\n')] : always at least one piece. *)
Fixpoint splitLines (s : string) : list string :=
  match s with
  | EmptyString => [EmptyString]
  | String c r =>
      if Ascii.eqb c "010"%char then EmptyString :: splitLines r
      else match splitLines r with
           | [] => [String c EmptyString]
           | l :: ls => String c l :: ls
           end
  end.

(** JavaScript truthiness of a string. *)
Definition truthy (s : string) : bool :=
  match s with EmptyString => false | _ => true end.

(** [Map.prototype.set]: replace in place when the key exists, append
    otherwise. *)
Fixpoint mapSet {V : Type} (k : string) (v : V) (m : list (string * V))
  : list (string * V) :=
  match m with
  | [] => [(k, v)]
  | (k', v') :: r =>
      if String.eqb k' k then (k, v) :: r else (k', v') :: mapSet k v r
  end.

Fixpoint mapGet {V : Type} (k : string) (m : list (string * V)) : option V :=
  match m with
  | [] => None
  | (k', v') :: r => if String.eqb k' k then Some v' else mapGet k r
  end.

(** *** Numbers

    A JavaScript number that is an integer is the [Z] it denotes; the
    integers that are numbers are those with a significand of 53 bits.
    Fractions, [NaN] and the infinities (magnitudes from [2 ^ 1024]) are
    not modelled. *)

(** The number nearest to an integer, ties to the even significand: what an
    integer result of an arithmetic operation is rounded to. *)
Definition roundDouble (z : Z) : Z :=
  let a := Z.abs z in
  if (a <? 2 ^ 53)%Z then z
  else
    let e := (Z.log2 a - 52)%Z in
    let q := Z.shiftr a e in
    let r := (a - Z.shiftl q e)%Z in
    let half := Z.shiftl 1 (e - 1) in
    let q' := if (half <? r)%Z || ((r =? half)%Z && Z.odd q) then (q + 1)%Z else q in
    (Z.sgn z * Z.shiftl q' e)%Z.

(** The candidates with [k] significant digits for the decimal text of the
    number [a] of [n] digits: the two multiples of [10 ^ (n - k)] around
    [a]; the one that reads back as [a], the closer one when both do, the
    one with the even digit string when they are equally close. *)
Definition decimalCandidate (a : Z) (n k : nat) : option Z :=
  let p := (10 ^ Z.of_nat (n - k))%Z in
  let lo := (a / p)%Z in
  let below := (lo * p)%Z in
  let above := ((lo + 1) * p)%Z in
  let fromBelow := (roundDouble below =? a)%Z in
  let fromAbove := (roundDouble above =? a)%Z in
  if fromBelow && fromAbove then
    if (a - below <? above - a)%Z then Some below
    else if (above - a <? a - below)%Z then Some above
    else if Z.even lo then Some below else Some above
  else if fromBelow then Some below
  else if fromAbove then Some above
  else None.

(** The integer with the fewest significant digits that reads back as the
    number [a] (for [0 < a]). *)
Definition shortestDecimal (a : Z) : Z :=
  let n := String.length (pretty a) in
  default a
    (fold_right (fun k found =>
                   match decimalCandidate a n k with
                   | Some v => Some v
                   | None => found
                   end) None (seq 1 n)).

Fixpoint stripTrailingZeros (digits : string) : string :=
  match digits with
  | EmptyString => EmptyString
  | String c r =>
      match stripTrailingZeros r with
      | EmptyString => if Ascii.eqb c "0"%char then EmptyString else String c EmptyString
      | r' => String c r'
      end
  end.

(** [String(x)] for an integer number [x]: the digits up to 21 of them,
    the exponent notation beyond. *)
Definition numberToString (x : Z) : string :=
  let a := Z.abs x in
  let v := if (a <? 2 ^ 53)%Z then a else shortestDecimal a in
  let digits := pretty v in
  let n := String.length digits in
  let text :=
    if Nat.leb n 21 then digits
    else
      match stripTrailingZeros digits with
      | EmptyString => digits
      | String d EmptyString =>
          String d EmptyString +:+ "e+" +:+ pretty (Z.of_nat (n - 1))
      | String d rest =>
          String d EmptyString +:+ "." +:+ rest +:+ "e+" +:+ pretty (Z.of_nat (n - 1))
      end in
  if (x <? 0)%Z then "-" +:+ text else text.

End Js.

(** A message contains keyword [kw] "case-insensitively" when some factor of
    the message lower-cases to [kw]. *)
Definition ContainsCI (msg kw : string) : Prop :=
  exists pre mid post, msg = pre +:+ mid +:+ post /\ Js.toLowerCase mid = kw.

Definition AnyCI (msg : string) (kws : list string) : Prop :=
  Exists (ContainsCI msg) kws.


(** ** JSON values

    What [JSON.parse] returns and what axios hands over as [response.data].
    Numbers are integers; [undefined] is an absent [option]. *)

Module Json.

Inductive json : Type :=
| JNull
| JBool (b : bool)
| JNum (n : Z)
| JStr (s : string)
| JArr (items : list json)
| JObj (fields : list (string * json)).

(** A JavaScript value that may be [undefined]. *)
Abbreviation jsval := (option json).

Definition truthy (v : jsval) : bool :=
  match v with
  | None | Some JNull => false
  | Some (JBool b) => b
  | Some (JNum n) => negb (n =? 0)%Z
  | Some (JStr s) => Js.truthy s
  | Some (JArr _) | Some (JObj _) => true
  end.

(** [v.k] for one of the property names the service reads
    ([candidates], [content], [parts], [text], ...): only plain objects
    carry them. *)
Definition prop (k : string) (v : json) : jsval :=
  match v with
  | JObj fields => Js.mapGet k fields
  | _ => None
  end.

(** [v?.k] *)
Definition optProp (k : string) (v : jsval) : jsval :=
  match v with
  | None | Some JNull => None
  | Some x => prop k x
  end.

(** [v.k] where reading a property of [undefined] or [null] throws a
    [TypeError] ([None]). *)
Definition strictProp (k : string) (v : jsval) : option jsval :=
  match v with
  | None | Some JNull => None
  | Some x => Some (prop k x)
  end.

(** [v?.[0]] *)
Definition optIndex0 (v : jsval) : jsval :=
  match v with
  | Some (JArr items) => head items
  | Some (JStr (String c _)) => Some (JStr (String c EmptyString))
  | Some (JObj fields) => Js.mapGet "0" fields
  | _ => None
  end.

(** [value !== null && typeof value === 'object' && !Array.isArray(value)] *)
Definition isRecord (v : json) : bool :=
  match v with JObj _ => true | _ => false end.

(** [typeof v === 'object'] (true of [null], arrays and objects) *)
Definition typeofObject (v : jsval) : bool :=
  match v with
  | Some JNull | Some (JArr _) | Some (JObj _) => true
  | _ => false
  end.

Definition quote : string := String "034"%char EmptyString.

Definition hexDigit (n : nat) : ascii :=
  ascii_of_nat (if Nat.ltb n 10 then 48 + n else 87 + n).

(** The escapes [JSON.stringify] applies inside a string literal. *)
Definition escapeChar (c : ascii) : string :=
  let n := nat_of_ascii c in
  if Nat.eqb n 34 then String "092"%char quote
  else if Nat.eqb n 92 then String "092"%char (String "092"%char EmptyString)
  else if Nat.eqb n 8 then String "092"%char "b"
  else if Nat.eqb n 12 then String "092"%char "f"
  else if Nat.eqb n 10 then String "092"%char "n"
  else if Nat.eqb n 13 then String "092"%char "r"
  else if Nat.eqb n 9 then String "092"%char "t"
  else if Nat.ltb n 32 then
    String "092"%char
      ("u00" +:+ String (hexDigit (n / 16)) (String (hexDigit (n mod 16)) EmptyString))
  else String c EmptyString.

Fixpoint escape (s : string) : string :=
  match s with
  | EmptyString => EmptyString
  | String c r => escapeChar c +:+ escape r
  end.

Definition quoted (s : string) : string := quote +:+ escape s +:+ quote.

Definition joinWith (sep : string) (l : list string) : string :=
  match l with
  | [] => EmptyString
  | x :: r => fold_left (fun acc y => acc +:+ sep +:+ y) r x
  end.

(** [JSON.stringify(v)] *)
Fixpoint stringify (v : json) : string :=
  match v with
  | JNull => "null"
  | JBool true => "true"
  | JBool false => "false"
  | JNum n => Js.numberToString n
  | JStr s => quoted s
  | JArr items => "[" +:+ joinWith "," (List.map stringify items) +:+ "]"
  | JObj fields =>
      "{" +:+ joinWith ","
               (List.map (fun kv => quoted kv.1 +:+ ":" +:+ stringify kv.2) fields)
          +:+ "}"
  end.

(** [String(v)], the coercion of template literals. *)
Fixpoint toStr (v : json) : string :=
  match v with
  | JNull => "null"
  | JBool true => "true"
  | JBool false => "false"
  | JNum n => Js.numberToString n
  | JStr s => s
  | JArr items =>
      joinWith ","
        (List.map (fun x => match x with JNull => EmptyString | _ => toStr x end) items)
  | JObj _ => "[object Object]"
  end.

Definition toStrV (v : jsval) : string :=
  match v with None => "undefined" | Some x => toStr x end.

(** An object literal: members whose value is [undefined] are dropped, as
    [JSON.stringify] would. *)
Definition obj (members : list (string * jsval)) : json :=
  JObj (omap (fun kv => match kv.2 with Some v => Some (kv.1, v) | None => None end)
             members).

End Json.

(** ** Token pool ([TokenManagerService]) *)

Module TokenManagerService.

(** [CloudTokenData] of [types/cloudAccount.ts]; optional fields are
    [option]s. *)
Record CloudTokenData := mkCloudToken {
  access_token : string;
  refresh_token : string;
  expires_in : Z;
  expiry_timestamp : Z;
  token_type : string;
  project_id : option string;
  session_id : option string;
  upstream_proxy_url : option string
}.

(** [CloudAccount].  [token] is optional only for records read from the
    store ([convertAccountToToken] guards against its absence). *)
Record CloudAccount := mkAccount {
  id : string;
  provider : string;
  email : string;
  token : option CloudTokenData;
  created_at : Z;
  last_used : Z
}.

(** The pool's private [TokenData]. *)
Record TokenData := mkTokenData {
  td_email : string;
  td_account_id : string;
  td_access_token : string;
  td_refresh_token : string;
  td_token_type : string;
  td_expires_in : Z;
  td_expiry_timestamp : Z;
  td_project_id : option string;
  td_session_id : option string;
  td_upstream_proxy_url : option string
}.

Record SessionBinding := mkBinding {
  accountId : string;
  expiresAt : Z
}.

(** The service's fields.  [tokens] is a JavaScript [Map]: keys are unique and
    iteration follows insertion order, which round-robin depends on. *)
Record TokenManager := mkTM {
  currentIndex : nat;
  tokens : list (string * TokenData);
  cooldowns : gmap string Z;
  sessionBindings : gmap string SessionBinding
}.

Definition stickySessionTtlMs : Z := 10 * 60 * 1000.
Definition rateLimitCooldownMs : Z := 5 * 60 * 1000.
Definition forbiddenCooldownMs : Z := 30 * 60 * 1000.

Definition emptyTokenManager : TokenManager := mkTM 0 [] ∅ ∅.

(** [x || undefined] on an optional string. *)
Definition orUndefined (o : option string) : option string :=
  match o with
  | Some s => if Js.truthy s then Some s else None
  | None => None
  end.

Definition setCurrentIndex (n : nat) (tm : TokenManager) : TokenManager :=
  mkTM n (tokens tm) (cooldowns tm) (sessionBindings tm).
Definition setTokens (t : list (string * TokenData)) (tm : TokenManager) : TokenManager :=
  mkTM (currentIndex tm) t (cooldowns tm) (sessionBindings tm).
Definition setCooldowns (c : gmap string Z) (tm : TokenManager) : TokenManager :=
  mkTM (currentIndex tm) (tokens tm) c (sessionBindings tm).
Definition setSessionBindings (b : gmap string SessionBinding) (tm : TokenManager)
  : TokenManager :=
  mkTM (currentIndex tm) (tokens tm) (cooldowns tm) b.

(** [/^cloud-code-\d+$/i.test(s)] *)
Definition isSyntheticProjectId (s : string) : bool :=
  let l := Js.toLowerCase s in
  let digits := Js.sliceFrom 11 l in
  String.prefix "cloud-code-" l && Js.truthy digits && Js.allDigits digits.

(** What the pattern [^cloud-code-\d+$] with flag [i] matches: the letters
    of cloud-code- in any case, then one or more digits, and nothing else. *)
Definition MatchesCloudCode (s : string) : Prop :=
  exists pfx digits,
    s = pfx +:+ digits /\ Js.toLowerCase pfx = "cloud-code-" /\
    digits <> "" /\ Js.allDigits digits = true.

(** The guard of [finalizeSelectedToken] that clears [project_id]. *)
Definition discardsProjectId (p : option string) : bool :=
  match p with
  | None => true
  | Some s =>
      negb (Js.truthy (Js.trim s)) || isSyntheticProjectId (Js.trim s)
  end.

Definition sanitizeProjectId (td : TokenData) : TokenData :=
  if discardsProjectId (td_project_id td)
  then mkTokenData (td_email td) (td_account_id td) (td_access_token td)
         (td_refresh_token td) (td_token_type td) (td_expires_in td)
         (td_expiry_timestamp td) None (td_session_id td)
         (td_upstream_proxy_url td)
  else td.

Definition toCloudAccount (accId : string) (td : TokenData) (timestamp : Z)
  : CloudAccount :=
  mkAccount accId "google" (td_email td)
    (Some (mkCloudToken (td_access_token td) (td_refresh_token td)
             (td_expires_in td) (td_expiry_timestamp td) (td_token_type td)
             (td_project_id td) (td_session_id td) (td_upstream_proxy_url td)))
    timestamp timestamp.

Definition clearExpiredSessionBindings (now : Z) (tm : TokenManager) : TokenManager :=
  setSessionBindings
    (filter (fun kb : string * SessionBinding => (now < expiresAt kb.2)%Z)
            (sessionBindings tm))
    tm.

(** The cooldown test of [getNextToken]:
    [!cooldownUntil || cooldownUntil <= now]. *)
Definition notCooling (cd : gmap string Z) (now : Z) (accId : string) : bool :=
  match cd !! accId with
  | None => true
  | Some u => (u =? 0)%Z || (u <=? now)%Z
  end.

Definition resolveAccountId (tm : TokenManager) (accountIdOrEmail : string)
  : option string :=
  match Js.mapGet accountIdOrEmail (tokens tm) with
  | Some _ => Some accountIdOrEmail
  | None =>
      fst <$> List.find (fun e => String.eqb (td_email e.2) accountIdOrEmail)
                        (tokens tm)
  end.

(** [markInCooldown]; [now] is [Date.now()]. *)
Definition markInCooldown (now : Z) (accountIdOrEmail : string) (durationMs : Z)
  (tm : TokenManager) : TokenManager :=
  let accId := default accountIdOrEmail (resolveAccountId tm accountIdOrEmail) in
  setCooldowns (<[accId := (now + durationMs)%Z]> (cooldowns tm)) tm.

Definition markAsRateLimited (now : Z) (a : string) (tm : TokenManager) :=
  markInCooldown now a rateLimitCooldownMs tm.

Definition markAsForbidden (now : Z) (a : string) (tm : TokenManager) :=
  markInCooldown now a forbiddenCooldownMs tm.

Definition getAccountCount (tm : TokenManager) : nat := length (tokens tm).

Section TokenPool.

(** [CloudAccountRepo.getAccounts()]; [None] when it throws. *)
Variable getAccounts : option (list CloudAccount).
(** [GoogleAPIService.refreshAccessToken]: the new access token and its
    [expires_in]; [None] when it throws. *)
Variable refreshAccessToken : string -> option (string * Z).
(** The random id drawn by [generateSessionId]. *)
Variable generateSessionId : string.

Definition convertAccountToToken (account : CloudAccount) : option TokenData :=
  match token account with
  | None => None
  | Some t =>
      Some (mkTokenData (email account) (id account) (access_token t)
              (refresh_token t)
              (if Js.truthy (token_type t) then token_type t else "Bearer")
              (expires_in t) (expiry_timestamp t)
              (orUndefined (project_id t))
              (Some (default generateSessionId (orUndefined (session_id t))))
              (orUndefined (upstream_proxy_url t)))
  end.

Definition loadAccounts (tm : TokenManager) : nat * TokenManager :=
  match getAccounts with
  | None => (0, tm)
  | Some accounts =>
      fold_left
        (fun (acc : nat * TokenManager) account =>
           match convertAccountToToken account with
           | Some td => (S acc.1, setTokens (Js.mapSet (id account) td (tokens acc.2)) acc.2)
           | None => acc
           end)
        accounts (0, tm)
  end.

(** [finalizeSelectedToken].  [tokenData] is the very object stored in
    [tokens], so both the refresh and the [project_id] reset are visible in
    the pool afterwards.  [nowFinal] is [Date.now()] read after the refresh
    was awaited. *)
Definition finalizeSelectedToken (accId : string) (tokenData : TokenData)
  (nowSeconds nowFinal : Z) (sessionKey : option string) (tm : TokenManager)
  : option CloudAccount * TokenManager :=
  let refreshed :=
    if (td_expiry_timestamp tokenData - 300 <=? nowSeconds)%Z then
      match refreshAccessToken (td_refresh_token tokenData) with
      | Some (newAccess, newExpiresIn) =>
          mkTokenData (td_email tokenData) (td_account_id tokenData) newAccess
            (td_refresh_token tokenData) (td_token_type tokenData) newExpiresIn
            (nowSeconds + newExpiresIn)%Z (td_project_id tokenData)
            (td_session_id tokenData) (td_upstream_proxy_url tokenData)
      | None => tokenData
      end
    else tokenData in
  let td := sanitizeProjectId refreshed in
  let tm1 := setTokens (Js.mapSet accId td (tokens tm)) tm in
  let tm2 :=
    match sessionKey with
    | Some k =>
        if Js.truthy k
        then setSessionBindings
               (<[k := mkBinding accId (nowFinal + stickySessionTtlMs)%Z]>
                  (sessionBindings tm1)) tm1
        else tm1
    | None => tm1
    end in
  (Some (toCloudAccount accId td nowFinal), tm2).

(** The candidate computation of [getNextToken], on the pool as it stands
    after the reload. *)
Definition excludedFilteredTokens (excluded : gset string) (tm : TokenManager) :=
  List.filter (fun e : string * TokenData => negb (bool_decide (e.1 ∈ excluded)))
              (tokens tm).

Definition allTokens (excluded : gset string) (tm : TokenManager) :=
  match excludedFilteredTokens excluded tm with
  | [] => tokens tm
  | l => l
  end.

Definition validTokens (excluded : gset string) (now : Z) (tm : TokenManager) :=
  List.filter
    (fun e : string * TokenData =>
       if bool_decide (e.1 ∈ excluded) then false
       else notCooling (cooldowns tm) now e.1)
    (allTokens excluded tm).

Definition candidateTokens (excluded : gset string) (now : Z) (tm : TokenManager) :=
  match validTokens excluded now tm with
  | [] => allTokens excluded tm
  | l => l
  end.

(** The first two statements of [getNextToken]: reload when empty. *)
Definition reloadIfEmpty (tm : TokenManager) : TokenManager :=
  if Nat.eqb (length (tokens tm)) 0 then (loadAccounts tm).2 else tm.

(** The [if (sessionKey) { ... }] block of [getNextToken]: the candidate the
    session is bound to, if the binding is still valid. *)
Definition stickyMatch (sessionKey : option string) (now : Z) (tm : TokenManager)
  (candidates : list (string * TokenData)) : option (string * TokenData) :=
  match sessionKey with
  | Some k =>
      if Js.truthy k then
        match sessionBindings tm !! k with
        | Some stickyBinding =>
            if (now <? expiresAt stickyBinding)%Z
            then List.find (fun e => String.eqb e.1 (accountId stickyBinding))
                           candidates
            else None
        | None => None
        end
      else None
  | None => None
  end.

(** [getNextToken].  [now] is the [Date.now()] read at entry. *)
Definition getNextToken (sessionKeyOpt : option string)
  (excludeAccountIds : list string) (now nowFinal : Z) (tm0 : TokenManager)
  : option CloudAccount * TokenManager :=
  let tm1 := reloadIfEmpty tm0 in
  if Nat.eqb (length (tokens tm1)) 0 then (None, tm1)
  else
    let nowSeconds := (now / 1000)%Z in
    let sessionKey := Js.trim <$> sessionKeyOpt in
    let excluded : gset string := list_to_set excludeAccountIds in
    let tm := clearExpiredSessionBindings now tm1 in
    let candidates := candidateTokens excluded now tm in
    match candidates with
    | [] => (None, tm)
    | _ =>
        match stickyMatch sessionKey now tm candidates with
        | Some (stickyAccountId, stickyTokenData) =>
            finalizeSelectedToken stickyAccountId stickyTokenData nowSeconds
              nowFinal sessionKey tm
        | None =>
            match candidates !! (currentIndex tm mod length candidates) with
            | Some (accId, tokenData) =>
                finalizeSelectedToken accId tokenData nowSeconds nowFinal
                  sessionKey (setCurrentIndex (S (currentIndex tm)) tm)
            | None => (None, tm)
            end
        end
    end.

(** The choice [getNextToken] makes on a non-empty pool, before
    finalization: the entry selected and the pool with the round-robin index
    advanced. *)
Definition chosen (sk : option string) (ex : list string) (now : Z)
  (tm : TokenManager) : option (string * TokenData * TokenManager) :=
  let tmc := clearExpiredSessionBindings now tm in
  let cands := candidateTokens (list_to_set ex) now tmc in
  match stickyMatch (Js.trim <$> sk) now tmc cands with
  | Some (a, td) => Some (a, td, tmc)
  | None =>
      match cands !! (currentIndex tmc mod length cands) with
      | Some (a, td) => Some (a, td, setCurrentIndex (S (currentIndex tmc)) tmc)
      | None => None
      end
  end.

End TokenPool.

End TokenManagerService.

(** ** Upstream client ([GeminiClient]) *)

Module GeminiClient.

Import Json.

(** What [axios.post] can throw: an axios error (with the response, if one
    arrived: status and body) or anything else. *)
Record AxiosResponse := mkResponse {
  status : Z;
  data : jsval
}.

Inductive Thrown : Type :=
| AxiosError (message : string) (response : option AxiosResponse)
| OtherError (message : string).

Definition defaultInternalBaseUrls : list string :=
  ["https://cloudcode-pa.googleapis.com/v1internal";
   "https://daily-cloudcode-pa.googleapis.com/v1internal"].

(** [s.split(',')] *)
Fixpoint splitComma (s : string) : list string :=
  match s with
  | EmptyString => [EmptyString]
  | String c r =>
      if Ascii.eqb c ","%char then EmptyString :: splitComma r
      else match splitComma r with
           | [] => [String c EmptyString]
           | l :: ls => String c l :: ls
           end
  end.

(** [url.replace(/\/+$/, '')] *)
Fixpoint stripTrailingSlashes (s : string) : string :=
  match s with
  | EmptyString => EmptyString
  | String c r =>
      match stripTrailingSlashes r with
      | EmptyString => if Ascii.eqb c "/"%char then EmptyString else String c EmptyString
      | r' => String c r'
      end
  end.

(** [getInternalBaseUrls]; [fromEnv] is
    [PROXY_INTERNAL_BASE_URLS ?? ANTIGRAVITY_INTERNAL_BASE_URLS]. *)
Definition getInternalBaseUrls (fromEnv : option string) : list string :=
  let configured :=
    match fromEnv with
    | Some e => List.filter Js.truthy (List.map Js.trim (splitComma e))
    | None => []
    end in
  match configured with
  | [] => List.map stripTrailingSlashes defaultInternalBaseUrls
  | _ => List.map stripTrailingSlashes configured
  end.

Definition shouldSwitchEndpointOnError (error : Thrown) : bool :=
  match error with
  | OtherError _ => false
  | AxiosError _ None => true
  | AxiosError _ (Some r) =>
      if (status r =? 401)%Z || (status r =? 403)%Z then false
      else (status r =? 408)%Z || (status r =? 429)%Z || (500 <=? status r)%Z
  end.

Definition extractAxiosErrorMessage (responseData : jsval) : option string :=
  if negb (truthy responseData) || negb (typeofObject responseData) then None
  else
    let errorRecord := optProp "error" responseData in
    if negb (truthy errorRecord) || negb (typeofObject errorRecord) then None
    else
      match optProp "message" errorRecord with
      | Some (JStr message) =>
          if Js.truthy (Js.trim message) then Some message else None
      | _ => None
      end.

(** [handleAxiosError] never returns: the result is the message of the
    [Error] it throws. *)
Definition handleAxiosError (error : Thrown) : string :=
  match error with
  | AxiosError message response =>
      match extractAxiosErrorMessage (response ≫= data) with
      | Some upstreamMessage => upstreamMessage
      | None => message
      end
  | OtherError message => message
  end.

Section Failover.

Context {T : Type}.
(** [axios.post(url, body, config)] for the request at hand. *)
Variable axiosPost : string -> Thrown + T.

(** The [for] loop of [requestWithEndpointFailover]: the urls requested, in
    order, and the outcome ([inl] is the message of the thrown [Error]). *)
Fixpoint failoverLoop (path : string) (baseUrls : list string)
  : list string * (string + T) :=
  match baseUrls with
  | [] => ([], inl "null")
  | baseUrl :: rest =>
      let url := baseUrl +:+ path in
      match axiosPost url with
      | inr response => ([url], inr response)
      | inl error =>
          let hasNextEndpoint := match rest with [] => false | _ => true end in
          if negb hasNextEndpoint || negb (shouldSwitchEndpointOnError error)
          then ([url], inl (handleAxiosError error))
          else let '(tried, result) := failoverLoop path rest in
               (url :: tried, result)
      end
  end.

Definition requestWithEndpointFailover (fromEnv : option string) (path : string)
  : list string * (string + T) :=
  failoverLoop path (getInternalBaseUrls fromEnv).

End Failover.

(** [generateInternal] unwraps a [{ response: ... }] envelope. *)
Definition unwrapPayload (payload : jsval) : jsval :=
  match payload with
  | Some (JArr _) => payload
  | Some (JObj fields) =>
      match Js.mapGet "response" fields with
      | Some inner => Some inner
      | None => payload
      end
  | _ => payload
  end.

(** The failures after which the next endpoint may be tried: no HTTP
    response, or status 408, 429 or at least 500. *)
Definition Transient (e : Thrown) : Prop :=
  match e with
  | AxiosError _ None => True
  | AxiosError _ (Some r) => (status r = 408 \/ status r = 429 \/ 500 <= status r)%Z
  | OtherError _ => False
  end.

Definition statusOf (e : Thrown) : option Z :=
  match e with
  | AxiosError _ (Some r) => Some (status r)
  | _ => None
  end.

(** The transport error's own message. *)
Definition ownMessage (e : Thrown) : string :=
  match e with
  | AxiosError message _ => message
  | OtherError message => message
  end.

(** The [error.message] member of the upstream response body, if any. *)
Definition upstreamErrorMessage (e : Thrown) : jsval :=
  match e with
  | AxiosError _ response => optProp "message" (optProp "error" (response ≫= data))
  | OtherError _ => None
  end.

(** The message the thrown [Error] carries: the upstream [error.message]
    when it is a string that is not blank, the transport message otherwise. *)
Definition carriedMessage (e : Thrown) : string :=
  match upstreamErrorMessage e with
  | Some (JStr m) => if Js.truthy (Js.trim m) then m else ownMessage e
  | _ => ownMessage e
  end.

End GeminiClient.

(** ** The orchestrator ([ProxyService]) *)

Module ProxyService.

Import Json.
Module TM := TokenManagerService.

(** *** Error classification *)

Record RetryDecision := mkDecision {
  retry : bool;
  markAsForbidden : bool;
  markAsRateLimited : bool
}.

Definition classifyUpstreamError (errorMessage : string) : RetryDecision :=
  let msg := Js.toLowerCase errorMessage in
  let isForbidden :=
    Js.includes msg "401" ||
    Js.includes msg "unauthorized" ||
    Js.includes msg "invalid_grant" ||
    Js.includes msg "403" ||
    Js.includes msg "permission_denied" ||
    Js.includes msg "forbidden" in
  if isForbidden then mkDecision true true false
  else
    let isRateLimitedSignal :=
      Js.includes msg "429" ||
      Js.includes msg "resource_exhausted" ||
      Js.includes msg "quota" ||
      Js.includes msg "rate_limit" ||
      Js.includes msg "rate limit" in
    let shouldRetryByStatus :=
      Js.includes msg "408" ||
      Js.includes msg "429" ||
      Js.includes msg "500" ||
      Js.includes msg "502" ||
      Js.includes msg "503" ||
      Js.includes msg "504" in
    let shouldRetryByKeyword :=
      Js.includes msg "resource_exhausted" ||
      Js.includes msg "quota" ||
      Js.includes msg "rate_limit" ||
      Js.includes msg "timeout" ||
      Js.includes msg "socket hang up" ||
      Js.includes msg "empty response stream" ||
      Js.includes msg "connection reset" in
    if shouldRetryByStatus || shouldRetryByKeyword
    then mkDecision true false isRateLimitedSignal
    else mkDecision false false false.

Definition isProjectLicenseError (errorMessage : string) : bool :=
  let msg := Js.toLowerCase errorMessage in
  Js.includes msg "#3501" ||
  (Js.includes msg "google cloud project" && Js.includes msg "code assist license").

Definition isProjectNotFoundError (errorMessage : string) : bool :=
  let msg := Js.toLowerCase errorMessage in
  (Js.includes msg "resource projects/" && Js.includes msg "could not be found") ||
  (Js.includes msg "project" && Js.includes msg "not found").

Definition isProjectContextError (errorMessage : string) : bool :=
  isProjectLicenseError errorMessage || isProjectNotFoundError errorMessage.

Definition isQuotaExhaustedError (errorMessage : string) : bool :=
  let msg := Js.toLowerCase errorMessage in
  Js.includes msg "resource has been exhausted" ||
  Js.includes msg "resource_exhausted" ||
  Js.includes msg "quota".

(** The keyword tables of the retry taxonomy. *)
Definition forbiddenKeywords : list string :=
  ["401"; "unauthorized"; "invalid_grant"; "403"; "permission_denied"; "forbidden"].
Definition rateLimitKeywords : list string :=
  ["429"; "resource_exhausted"; "quota"; "rate_limit"].
Definition quotaKeywords : list string :=
  ["resource has been exhausted"; "resource_exhausted"; "quota"].
Definition transientKeywords : list string :=
  ["408"; "500"; "502"; "503"; "504";
   "socket hang up"; "timeout"; "empty response stream"; "connection reset"].



(** *** Upstream streams and subscribers *)

Inductive StreamEnd : Type :=
| End
| Error (message : string).

(** A [NodeJS.ReadableStream] as the listeners see it: the ['data'] chunks
    (already decoded), then ['end'] or ['error']. *)
Record ReadableStream := mkStream {
  chunks : list string;
  ending : StreamEnd
}.

Inductive Closing : Type :=
| Completed
| Errored (message : string).

(** An RxJS subscriber: once completed or errored, [next] is ignored. *)
Record Subscriber := mkSub {
  emitted : list string;
  closed : option Closing
}.

Definition newSubscriber : Subscriber := mkSub [] None.

Definition next (value : string) (sub : Subscriber) : Subscriber :=
  match closed sub with
  | None => mkSub (emitted sub ++ [value]) None
  | Some _ => sub
  end.

Definition complete (sub : Subscriber) : Subscriber :=
  match closed sub with
  | None => mkSub (emitted sub) (Some Completed)
  | Some _ => sub
  end.

Definition error (message : string) (sub : Subscriber) : Subscriber :=
  match closed sub with
  | None => mkSub (emitted sub) (Some (Errored message))
  | Some _ => sub
  end.

Definition nl : string := String "010"%char EmptyString.

(** [buffer.split('\n')] followed by [lines.pop() || '']: the complete lines
    and the new buffer. *)
Definition splitBuffer (buffer : string) : list string * string :=
  let lines := Js.splitLines buffer in
  (removelast lines, List.last lines EmptyString).

(** The prologue shared by the ['data'] listeners: the text after [data: ]
    of a line that is an SSE data line other than the [DONE] sentinel. *)
Definition dataOfLine (line : string) : option string :=
  let trimmed := Js.trim line in
  if negb (Js.startsWith trimmed "data: ") then None
  else
    let dataStr := Js.sliceFrom 6 trimmed in
    if String.eqb dataStr "[DONE]" then None else Some dataStr.

Definition isGeminiPart (value : json) : bool := isRecord value.

Definition hasUsableGeminiCandidate (response : jsval) : bool :=
  match optProp "candidates" response with
  | Some (JArr (first :: _)) =>
      match optProp "parts" (optProp "content" (Some first)) with
      | Some (JArr (_ :: _)) => true
      | _ => false
      end
  | _ => false
  end.

Definition mapGeminiFinishReasonToOpenAIFinishReason (finishReason : option string)
  : option string :=
  match finishReason with
  | None => None
  | Some r =>
      if negb (Js.truthy r) then None
      else
        let normalized := Js.toUpperCase r in
        (* a text with a code unit above 255 equals none of the constants *)
        let equals (constant : string) :=
          match normalized with
          | Some upper => String.eqb upper constant
          | None => false
          end in
        if equals "STOP" then Some "stop"
        else if equals "MAX_TOKENS" then Some "length"
        else if equals "SAFETY" || equals "RECITATION" then Some "content_filter"
        else Some (Js.toLowerCase r)
  end.

Section StreamMappers.

(** [JSON.parse]; [None] when it throws. *)
Variable JSON_parse : string -> option json.

(** **** [collectGeminiStreamAsResponse] *)

(** The three accumulators of the promise body. *)
Record Collected := mkCollected {
  mergedParts : list json;
  finishReason : jsval;
  usageMetadata : jsval
}.

Record Collector := mkCollector {
  c_buffer : string;
  c_receivedData : bool;
  c_collected : Collected
}.

Definition newCollector : Collector :=
  mkCollector "" false (mkCollected [] None None).

Definition frameCandidate (parsed : json) : jsval :=
  optIndex0 (optProp "candidates" (Some parsed)).

(** The parts a frame contributes: those of [candidates[0].content.parts]
    that are parts at all ([isGeminiPart]). *)
Definition frameParts (parsed : json) : list json :=
  match optProp "parts" (optProp "content" (frameCandidate parsed)) with
  | Some (JArr parts) => List.filter isGeminiPart parts
  | _ => []
  end.

Definition frameFinishReason (parsed : json) : jsval :=
  optProp "finishReason" (frameCandidate parsed).

Definition frameUsage (parsed : json) : jsval :=
  optProp "usageMetadata" (Some parsed).

(** [if (v) x = v] *)
Definition assignIfTruthy (x v : jsval) : jsval := if truthy v then v else x.

(** The [try] block once the frame is parsed. *)
Definition mergeFrame (acc : Collected) (parsed : json) : Collected :=
  mkCollected (mergedParts acc ++ frameParts parsed)
    (assignIfTruthy (finishReason acc) (frameFinishReason parsed))
    (assignIfTruthy (usageMetadata acc) (frameUsage parsed)).

(** The frame carried by a line, if the line is a data line that parses. *)
Definition frameOfLine (line : string) : option json :=
  match dataOfLine line with
  | None => None
  | Some dataStr => JSON_parse dataStr
  end.

(** One iteration of [for (const line of lines)]. *)
Definition collectLine (acc : Collected) (line : string) : Collected :=
  match frameOfLine line with
  | None => acc
  | Some parsed => mergeFrame acc parsed
  end.

(** The ['data'] listener. *)
Definition collectData (c : Collector) (chunk : string) : Collector :=
  let '(lines, rest) := splitBuffer (c_buffer c +:+ chunk) in
  mkCollector rest true (fold_left collectLine lines (c_collected c)).

Definition synthesizedResponse (acc : Collected) : json :=
  obj [("candidates",
        Some (JArr [obj [("content",
                          Some (obj [("role", Some (JStr "model"));
                                     ("parts", Some (JArr (mergedParts acc)))]));
                         ("finishReason", finishReason acc)]]));
       ("usageMetadata", usageMetadata acc)].

(** The promise: [inr] when resolved, [inl] with the message when rejected. *)
Definition collectGeminiStreamAsResponse (upstreamStream : ReadableStream)
  : string + jsval :=
  let c := fold_left collectData (chunks upstreamStream) newCollector in
  match ending upstreamStream with
  | End =>
      if negb (c_receivedData c) then inl "Empty response stream"
      else inr (Some (synthesizedResponse (c_collected c)))
  | Error message => inl message
  end.

(** The text a stream delivers, and its data frames: the frames of the
    lines that are terminated by a line feed. *)
Definition streamText (upstreamStream : ReadableStream) : string :=
  fold_right String.append "" (chunks upstreamStream).

Definition completeLines (text : string) : list string :=
  removelast (Js.splitLines text).

Definition dataFrames (upstreamStream : ReadableStream) : list json :=
  omap frameOfLine (completeLines (streamText upstreamStream)).

(** The last truthy value of a sequence, [undefined] when there is none. *)
Definition lastTruthy (values : list jsval) : jsval :=
  fold_left assignIfTruthy values None.

(** **** [processStreamResponse] *)

Record OpenAIStreamState := mkOS {
  o_buffer : string;
  o_sub : Subscriber;
  hasEmittedChunk : bool;
  hasSentDone : bool;
  o_uuids : nat
}.

Variable uuidv4 : nat -> string.

Section OneStream.

Variable streamId : string.
Variable created : Z.
Variable model : string.

Definition sseFrame (payload : json) : string :=
  "data: " +:+ stringify payload +:+ nl +:+ nl.

Definition doneFrame : string := "data: [DONE]" +:+ nl +:+ nl.

Definition chunkPayload (delta : json) (finish_reason : option string) : json :=
  JObj [("id", JStr streamId);
        ("object", JStr "chat.completion.chunk");
        ("created", JNum created);
        ("model", JStr model);
        ("choices",
         JArr [JObj [("index", JNum 0);
                     ("delta", delta);
                     ("finish_reason",
                      match finish_reason with Some r => JStr r | None => JNull end)]])].

Definition pushChunk (payload : json) (st : OpenAIStreamState) : OpenAIStreamState :=
  mkOS (o_buffer st) (next (sseFrame payload) (o_sub st)) true (hasSentDone st)
       (o_uuids st).

(** One iteration of [for (const part of parts)]; [None] when the iteration
    throws (reading a property of [null]). *)
Definition processPart (part : json) (st : OpenAIStreamState)
  : option OpenAIStreamState :=
  match part with
  | JNull => None
  | _ =>
      let text := prop "text" part in
      let functionCall := prop "functionCall" part in
      let inlineData := prop "inlineData" part in
      if truthy (prop "thought" part) && truthy text then
        Some (pushChunk (chunkPayload (obj [("reasoning_content", text)]) None) st)
      else if truthy functionCall then
        let fcId := optProp "id" functionCall in
        let fcName := optProp "name" functionCall in
        let fcArgs := optProp "args" functionCall in
        let '(callId, uuids') :=
          if truthy fcId then (fcId, o_uuids st)
          else (Some (JStr (toStrV fcName +:+ "-" +:+ uuidv4 (o_uuids st))),
                S (o_uuids st)) in
        let arguments :=
          stringify (if truthy fcArgs then default (JObj []) fcArgs else JObj []) in
        let st' := mkOS (o_buffer st) (o_sub st) (hasEmittedChunk st)
                        (hasSentDone st) uuids' in
        Some (pushChunk
                (chunkPayload
                   (obj [("tool_calls",
                          Some (JArr [obj [("index", Some (JNum 0));
                                           ("id", callId);
                                           ("type", Some (JStr "function"));
                                           ("function",
                                            Some (obj [("name", fcName);
                                                       ("arguments",
                                                        Some (JStr arguments))]))]]))])
                   None) st')
      else if truthy inlineData then
        let mimeType :=
          let m := optProp "mimeType" inlineData in
          if truthy m then toStrV m else "image/jpeg" in
        let data :=
          let d := optProp "data" inlineData in
          if truthy d then toStrV d else "" in
        let imageMarkdown :=
          nl +:+ nl +:+ "![Generated Image](data:" +:+ mimeType +:+ ";base64," +:+ data
             +:+ ")" +:+ nl +:+ nl in
        Some (pushChunk (chunkPayload (obj [("content", Some (JStr imageMarkdown))]) None)
                        st)
      else if truthy text then
        Some (pushChunk (chunkPayload (obj [("content", text)]) None) st)
      else Some st
  end.

(** The [for] loop over [parts]: the state reached and whether an iteration
    threw. *)
Fixpoint processParts (parts : list json) (st : OpenAIStreamState)
  : OpenAIStreamState * bool :=
  match parts with
  | [] => (st, false)
  | part :: rest =>
      match processPart part st with
      | None => (st, true)
      | Some st' => processParts rest st'
      end
  end.

(** What [for ... of] iterates over; [None] when the value is not iterable. *)
Definition iterate (parts : json) : option (list json) :=
  match parts with
  | JArr ps => Some ps
  | JStr t => Some (List.map (fun c => JStr (String c EmptyString)) (list_ascii_of_string t))
  | _ => None
  end.

(** The body of the [try] block for one data line; whatever was pushed
    before a throw stays pushed. *)
Definition processFrame (json : json) (st : OpenAIStreamState) : OpenAIStreamState :=
  match strictProp "candidates" (Some json) with
  | None => st
  | Some candidates =>
      let candidate := optIndex0 candidates in
      let partsV := optProp "parts" (optProp "content" candidate) in
      let parts := if truthy partsV then default (JArr []) partsV else JArr [] in
      match iterate parts with
      | None => st
      | Some ps =>
          let '(st1, threw) := processParts ps st in
          if threw then st1
          else
            match optProp "finishReason" candidate with
            | Some (JStr r) =>
                if Js.truthy r then
                  let st2 :=
                    pushChunk
                      (chunkPayload (JObj [])
                         (mapGeminiFinishReasonToOpenAIFinishReason (Some r))) st1 in
                  mkOS (o_buffer st2) (complete (next doneFrame (o_sub st2)))
                       (hasEmittedChunk st2) true (o_uuids st2)
                else st1
            | _ => st1
            end
      end
  end.

Definition processLine (st : OpenAIStreamState) (line : string) : OpenAIStreamState :=
  match frameOfLine line with
  | None => st
  | Some json => processFrame json st
  end.

(** The ['data'] listener. *)
Definition onData (st : OpenAIStreamState) (chunk : string) : OpenAIStreamState :=
  let '(lines, rest) := splitBuffer (o_buffer st +:+ chunk) in
  let st1 := mkOS rest (o_sub st) (hasEmittedChunk st) (hasSentDone st) (o_uuids st) in
  fold_left processLine lines st1.

(** The ['end'] listener. *)
Definition onEnd (st : OpenAIStreamState) : OpenAIStreamState :=
  let st1 :=
    if negb (hasEmittedChunk st)
    then pushChunk (chunkPayload (JObj [("content", JStr "")]) None) st
    else st in
  let st2 :=
    if negb (hasSentDone st1)
    then mkOS (o_buffer st1) (next doneFrame (o_sub st1)) (hasEmittedChunk st1) true
              (o_uuids st1)
    else st1 in
  mkOS (o_buffer st2) (complete (o_sub st2)) (hasEmittedChunk st2) (hasSentDone st2)
       (o_uuids st2).

(** The ['error'] listener. *)
Definition onError (message : string) (st : OpenAIStreamState) : OpenAIStreamState :=
  mkOS (o_buffer st) (error message (o_sub st)) (hasEmittedChunk st) (hasSentDone st)
       (o_uuids st).

Definition newOpenAIStreamState : OpenAIStreamState :=
  mkOS "" newSubscriber false false 0.

(** What a subscriber of [processStreamResponse(upstreamStream, model)]
    observes. *)
Definition processStreamResponse (upstreamStream : ReadableStream) : Subscriber :=
  let st := fold_left onData (chunks upstreamStream) newOpenAIStreamState in
  o_sub (match ending upstreamStream with
         | End => onEnd st
         | Error message => onError message st
         end).

End OneStream.

(** Two conditions a stream state can be in: nothing was pushed yet, or
    the subscriber has received something. *)
Definition silent (st : OpenAIStreamState) : Prop :=
  hasEmittedChunk st = false /\ hasSentDone st = false /\ o_sub st = newSubscriber.

Definition spoke (st : OpenAIStreamState) : Prop := emitted (o_sub st) <> [].

Definition settled (st : OpenAIStreamState) : Prop := silent st \/ spoke st.

End StreamMappers.

(** *** Requests, responses and the world the handlers run in *)

Record GeminiInternalRequest := mkInternal {
  project : string;
  requestId : string;
  request : json;
  model : string;
  userAgent : string;
  requestType : string
}.

(** The public Gemini request. *)
Record GeminiRequest := mkGeminiRequest {
  contents : jsval;
  generationConfig : jsval;
  systemInstruction : option (list json)
}.

(** [AnthropicChatRequest]: [a_rest] stands for messages, system, tools and
    sampling parameters, which the handlers only pass along. *)
Record AnthropicChatRequest := mkAnthropicRequest {
  a_model : string;
  a_stream : bool;
  a_metadata : jsval;
  a_rest : json
}.

Record OpenAIChatRequest := mkOpenAIRequest {
  o_model : string;
  o_stream : bool;
  o_extra : jsval;
  o_rest : json
}.

Record ClaudeRequest := mkClaudeRequest {
  cr_model : string;
  cr_stream : bool;
  cr_metadata : jsval;
  cr_rest : json
}.

(** [ClaudeResponse]: [cl_fields] stands for id, type, role, content,
    stop_reason and stop_sequence. *)
Record ClaudeResponse := mkClaudeResponse {
  cl_model : string;
  cl_usage : jsval;
  cl_fields : json
}.

Record AnthropicChatResponse := mkAnthropicResponse {
  ar_model : string;
  ar_usage : json;
  ar_fields : json
}.

(** [OpenAIChatResponse]: the choices and usage are computed from
    [oa_source] by [convertClaudeToOpenAIResponse]. *)
Record OpenAIChatResponse := mkOpenAIResponse {
  oa_model : string;
  oa_source : ClaudeResponse
}.

(** What the Anthropic handler returns: a message, or the observable
    [processAnthropicInternalStream(upstreamStream, streamModel)]. *)
Inductive AnthropicResult : Type :=
| AnthropicMessage (response : AnthropicChatResponse)
| AnthropicStream (upstreamStream : ReadableStream) (streamModel : string).

(** What the OpenAI handler returns: a completion, the observable
    [processStreamResponse(upstreamStream, streamModel)], or the observable
    [createSyntheticOpenAIStream(response)]. *)
Inductive ChatResult : Type :=
| ChatCompletion (response : OpenAIChatResponse)
| ChatStream (upstreamStream : ReadableStream) (streamModel : string)
| SyntheticChatStream (response : OpenAIChatResponse).

(** One call of [geminiClient.generateInternal] ([uc_stream = false]) or
    [geminiClient.streamGenerateInternal] ([uc_stream = true]). *)
Record UpstreamCall := mkCall {
  uc_stream : bool;
  uc_body : GeminiInternalRequest;
  uc_accessToken : string;
  uc_upstreamProxyUrl : option string;
  uc_extraHeaders : list (string * string)
}.

Inductive Event : Type :=
| EvSelect (sessionKey : option string) (excludeAccountIds : list string)
           (selected : option string)
| EvSleep (delay : Z)
| EvUpstream (call : UpstreamCall)
| EvMarkForbidden (accountId : string)
| EvMarkRateLimited (accountId : string).

Record World := mkWorld {
  pool : TokenManagerService.TokenManager;
  clock : Z;
  trace : list Event;
  upstreamCalls : nat;
  uuids : nat
}.

(** Computations of the service: a state over [World] that may throw an
    [Error] ([inl] its message). *)
Definition M (A : Type) : Type := World -> (string + A) * World.

Definition ret {A : Type} (a : A) : M A := fun w => (inr a, w).

Definition throw {A : Type} (message : string) : M A := fun w => (inl message, w).

Definition bind {A B : Type} (m : M A) (k : A -> M B) : M B :=
  fun w =>
    match m w with
    | (inl e, w') => (inl e, w')
    | (inr a, w') => k a w'
    end.

Definition tryCatch {A : Type} (m : M A) (handler : string -> M A) : M A :=
  fun w =>
    match m w with
    | (inl e, w') => handler e w'
    | (inr a, w') => (inr a, w')
    end.

#[export] Instance M_ret : MRet M := @ret.
#[export] Instance M_bind : MBind M := fun A B k m => bind m k.
#[export] Instance M_fmap : FMap M := fun A B f m => bind m (fun a => ret (f a)).

Definition liftResult {A : Type} (r : string + A) : M A := fun w => (r, w).

(** [m] appends to the trace only events that satisfy [P], and a value it
    returns satisfies [Q]. *)
Definition hoare {A : Type} (m : M A) (P : Event -> Prop) (Q : A -> Prop) : Prop :=
  forall w, exists evs,
    trace (m w).2 = trace w ++ evs /\ Forall P evs /\
    forall a, (m w).1 = inr a -> Q a.

(** An event that is not an upstream request carrying a project. *)
Definition sendsNoProject (e : Event) : Prop :=
  match e with
  | EvUpstream call => project (uc_body call) = ""
  | _ => True
  end.

(** An event other than a selection. *)
Definition notSelection (e : Event) : Prop :=
  match e with
  | EvSelect _ _ _ => False
  | _ => True
  end.

(** Upstream requests for project [p] have property [P]. *)
Definition allowsProject (P : Event -> Prop) (p : string) : Prop :=
  forall s body tok proxy headers,
    project body = p -> P (EvUpstream (mkCall s body tok proxy headers)).

Definition maxRetries : nat := 3.

Definition defaultRequestUserAgent : string := "antigravity/1.11.9 windows/amd64".

Definition normalizeGeminiModel (m : string) : string :=
  if String.prefix "models/" (Js.toLowerCase m) then Js.sliceFrom 7 m else m.

Definition buildModelSpecificHeaders (m : string) : list (string * string) :=
  if negb (Js.truthy m) then []
  else if Js.includes (Js.toLowerCase m) "claude" then
    [("anthropic-beta",
      "claude-code-20250219,interleaved-thinking-2025-05-14,fine-grained-tool-streaming-2025-05-14")]
  else [].

(** [a ?? b] *)
Definition nullish (a b : jsval) : jsval :=
  match a with
  | None | Some JNull => b
  | _ => a
  end.

Definition sessionCandidate (metadata : jsval) : jsval :=
  nullish (optProp "session_id" metadata)
    (nullish (optProp "sessionId" metadata)
       (nullish (optProp "user_id" metadata) (optProp "userId" metadata))).

Definition sessionKeyWith (prefix : string) (metadata : jsval) : option string :=
  match sessionCandidate metadata with
  | Some (JStr c) =>
      if Js.truthy (Js.trim c) then Some (prefix +:+ Js.trim c) else None
  | _ => None
  end.

Definition getSessionKeyFromAnthropic (r : AnthropicChatRequest) : option string :=
  sessionKeyWith "anthropic:" (a_metadata r).

Definition getSessionKeyFromOpenAI (r : OpenAIChatRequest) : option string :=
  sessionKeyWith "openai:" (o_extra r).

Definition toClaudeRequest (r : AnthropicChatRequest) : ClaudeRequest :=
  mkClaudeRequest (a_model r) (a_stream r) (a_metadata r) (a_rest r).

Definition toAnthropicChatResponse (r : ClaudeResponse) : AnthropicChatResponse :=
  mkAnthropicResponse (cl_model r)
    (obj [("input_tokens",
           Some (default (JNum 0) (nullish (optProp "input_tokens" (cl_usage r)) None)));
          ("output_tokens",
           Some (default (JNum 0) (nullish (optProp "output_tokens" (cl_usage r)) None)));
          ("cache_creation_input_tokens",
           optProp "cache_creation_input_tokens" (cl_usage r));
          ("cache_read_input_tokens", optProp "cache_read_input_tokens" (cl_usage r))])
    (cl_fields r).

Definition toInternalGeminiRequest (r : GeminiRequest) : json :=
  obj [("contents", contents r);
       ("generationConfig", generationConfig r);
       ("systemInstruction",
        match systemInstruction r with
        | Some parts =>
            Some (JObj [("parts",
                         JArr (omap (fun part =>
                                       match prop "text" part with
                                       | Some (JStr t) => Some (JObj [("text", JStr t)])
                                       | _ => None
                                       end) parts))])
        | None => None
        end)].

(** [normalizeGeminiGenerateResponse]; [None] when reading
    [response.candidates] throws. *)
Definition normalizeGeminiGenerateResponse (response : jsval) : option json :=
  match strictProp "candidates" response, strictProp "usageMetadata" response with
  | Some cands, Some usage =>
      let candidates :=
        match cands with
        | Some (JArr cs) =>
            imap (fun index candidate =>
                    obj [("content", optProp "content" (Some candidate));
                         ("finishReason", optProp "finishReason" (Some candidate));
                         ("index",
                          match optProp "index" (Some candidate) with
                          | Some (JNum n) => Some (JNum n)
                          | _ => Some (JNum (Z.of_nat index))
                          end)]) cs
        | _ => []
        end in
      let usageMetadata :=
        if truthy usage then
          obj (List.map (fun k => (k, optProp k usage))
                 ["promptTokenCount"; "candidatesTokenCount"; "totalTokenCount";
                  "thoughtsTokenCount"; "promptTokensDetails";
                  "candidatesTokensDetails"; "trafficType"])
        else JObj [] in
      Some (obj [("candidates", Some (JArr candidates));
                 ("usageMetadata",
                  match usageMetadata with
                  | JObj [] => None
                  | u => Some u
                  end)])
  | _, _ => None
  end.

(** [Set.prototype.add] on the insertion-ordered set of attempted ids. *)
Definition setAdd (x : string) (l : list string) : list string :=
  if bool_decide (x ∈ l) then l else l ++ [x].

(** *** The handlers *)

Section Handlers.

Variable getAccounts : option (list TM.CloudAccount).
Variable refreshAccessToken : string -> option (string * Z).
Variable generateSessionId : string.
Variable JSON_parse : string -> option json.
(** The injected [GeminiClient]: the answer to the n-th upstream call of the
    run, [inl] when the promise is rejected. *)
Variable generateInternal : nat -> UpstreamCall -> string + jsval.
Variable streamGenerateInternal : nat -> UpstreamCall -> string + ReadableStream.
(** [calculateRetryDelay] of lib/antigravity/retry-utils, jitter included. *)
Variable calculateRetryDelay : nat -> Z.
Variable uuidv4 : nat -> string.
(** [mapModel] under the current server configuration. *)
Variable mapModel : string -> string.
(** [process.env.PROXY_REQUEST_USER_AGENT] *)
Variable envUserAgent : option string.
(** [transformResponse] of lib/antigravity/ClaudeResponseMapper. *)
Variable transformResponse : jsval -> ClaudeResponse.
(** What [transformClaudeRequestIn] derives from the Claude request alone:
    the [request] member, the upstream model and the user agent. *)
Variable claudeRequestToGemini : ClaudeRequest -> json.
Variable claudeTargetModel : ClaudeRequest -> string.
Variable claudeUserAgent : string.
(** The message and tool conversion of [convertOpenAIToClaude]; [inl] with
    the message of the [TypeError] when it throws, as it does on a message
    whose content is [null]. *)
Variable convertOpenAIContent : json -> string + json.

Definition freshUuid : M string :=
  fun w => (inr (uuidv4 (uuids w)),
            mkWorld (pool w) (clock w) (trace w) (upstreamCalls w) (S (uuids w))).

Definition sleep (delay : Z) : M unit :=
  fun w => (inr tt,
            mkWorld (pool w) (clock w + Z.max 0 delay)%Z (trace w ++ [EvSleep delay])
                    (upstreamCalls w) (uuids w)).

(** [tokenManager.getNextToken({ sessionKey, excludeAccountIds })] *)
Definition selectToken (sessionKey : option string) (excludeAccountIds : list string)
  : M (option TM.CloudAccount) :=
  fun w =>
    let '(r, tm) :=
      TM.getNextToken getAccounts refreshAccessToken generateSessionId sessionKey
        excludeAccountIds (clock w) (clock w) (pool w) in
    (inr r,
     mkWorld tm (clock w)
       (trace w ++ [EvSelect sessionKey excludeAccountIds (TM.id <$> r)])
       (upstreamCalls w) (uuids w)).

Definition tmMarkAsForbidden (accId : string) : M unit :=
  fun w => (inr tt,
            mkWorld (TM.markAsForbidden (clock w) accId (pool w)) (clock w)
                    (trace w ++ [EvMarkForbidden accId]) (upstreamCalls w) (uuids w)).

Definition tmMarkAsRateLimited (accId : string) : M unit :=
  fun w => (inr tt,
            mkWorld (TM.markAsRateLimited (clock w) accId (pool w)) (clock w)
                    (trace w ++ [EvMarkRateLimited accId]) (upstreamCalls w) (uuids w)).

Definition callGenerateInternal (body : GeminiInternalRequest) (accessToken : string)
  (upstreamProxyUrl : option string) (extraHeaders : list (string * string))
  : M jsval :=
  fun w =>
    let call := mkCall false body accessToken upstreamProxyUrl extraHeaders in
    (generateInternal (upstreamCalls w) call,
     mkWorld (pool w) (clock w) (trace w ++ [EvUpstream call]) (S (upstreamCalls w))
             (uuids w)).

Definition callStreamGenerateInternal (body : GeminiInternalRequest)
  (accessToken : string) (upstreamProxyUrl : option string)
  (extraHeaders : list (string * string)) : M ReadableStream :=
  fun w =>
    let call := mkCall true body accessToken upstreamProxyUrl extraHeaders in
    (streamGenerateInternal (upstreamCalls w) call,
     mkWorld (pool w) (clock w) (trace w ++ [EvUpstream call]) (S (upstreamCalls w))
             (uuids w)).

Definition generateInternalWithStreamFallback (body : GeminiInternalRequest)
  (accessToken : string) (upstreamProxyUrl : option string)
  (extraHeaders : list (string * string)) : M jsval :=
  direct ← callGenerateInternal body accessToken upstreamProxyUrl extraHeaders;
  if hasUsableGeminiCandidate direct then mret direct
  else
    stream ← callStreamGenerateInternal body accessToken upstreamProxyUrl extraHeaders;
    liftResult (collectGeminiStreamAsResponse JSON_parse stream).

Definition createGeminiInternalRequest (targetModel : string) (r : GeminiRequest)
  (projectId requestType : string) : M GeminiInternalRequest :=
  u ← freshUuid;
  mret (mkInternal projectId u (toInternalGeminiRequest r) targetModel
          (default defaultRequestUserAgent envUserAgent) requestType).

(** Modelled from the spec: [transformClaudeRequestIn(claudeReq, projectId)]
    of lib/antigravity/ClaudeRequestMapper is not among the sources.  The
    specification gives its result as
    [{ project, requestId: new UUID, request, model, userAgent,
       requestType: "generate-content" }] with [project] the second
    argument. *)
Definition transformClaudeRequestIn (claudeReq : ClaudeRequest) (projectId : string)
  : M GeminiInternalRequest :=
  u ← freshUuid;
  mret (mkInternal projectId u (claudeRequestToGemini claudeReq)
          (claudeTargetModel claudeReq) claudeUserAgent "generate-content").

Definition convertOpenAIToClaude (r : OpenAIChatRequest) : string + ClaudeRequest :=
  match convertOpenAIContent (o_rest r) with
  | inl thrown => inl thrown
  | inr converted =>
      inr (mkClaudeRequest (o_model r) (o_stream r)
             (Some (JObj (Js.mapSet "source" (JStr "openai")
                            match o_extra r with
                            | Some (JObj fields) => fields
                            | _ => []
                            end)))
             converted)
  end.

Definition convertClaudeToOpenAIResponse (claudeResponse : ClaudeResponse)
  (requestedModel : string) : OpenAIChatResponse :=
  mkOpenAIResponse requestedModel claudeResponse.

(** [token.token]: the pool always fills it in. *)
Definition withToken {A : Type} (account : TM.CloudAccount) (k : TM.CloudTokenData -> M A)
  : M A :=
  match TM.token account with
  | Some t => k t
  | None => throw "Cannot read properties of undefined"
  end.

(** The tail of every [catch] block: classify and mark. *)
Definition markByDecision (decision : RetryDecision) (accId : string) : M unit :=
  if retry decision then
    if markAsForbidden decision then tmMarkAsForbidden accId
    else if markAsRateLimited decision then tmMarkAsRateLimited accId
    else mret tt
  else mret tt.

(** An inline recovery inside a [catch] block: when [applies error], run
    [retryInline]; its result is returned to the caller, its failure
    replaces [error]. *)
Definition recoverWith {A : Type} (applies : string -> bool) (retryInline : M A)
  (err : string) : M A :=
  if applies err then retryInline else throw err.

(** The [for (let i = 0; i < maxRetries; i++)] loop common to the four
    handlers.  [attempt] is the [try] block together with the inline
    recoveries of its [catch]; when it throws, the error is recorded as
    [lastError], classified, the account possibly marked, and the loop goes
    on to the next iteration. *)
Fixpoint retryLoop {A : Type} (noAccounts failed : string)
  (sessionKey : option string) (attempt : TM.CloudAccount -> M A)
  (remaining i : nat) (lastError : option string)
  (attemptedAccountIds : list string) : M A :=
  match remaining with
  | O => throw (default failed lastError)
  | S remaining' =>
      (if Nat.ltb 0 i then sleep (calculateRetryDelay (i - 1)) else mret tt);;
      selected ← selectToken sessionKey attemptedAccountIds;
      match selected with
      | None => throw noAccounts
      | Some account =>
          let attempted' := setAdd (TM.id account) attemptedAccountIds in
          tryCatch (attempt account)
            (fun err =>
               markByDecision (classifyUpstreamError err) (TM.id account);;
               retryLoop noAccounts failed sessionKey attempt remaining' (S i)
                 (Some err) attempted')
      end
  end.

(** **** [handleGeminiGenerateContent] *)

Definition liftOption {A : Type} (o : option A) : M A :=
  match o with
  | Some a => mret a
  | None => throw "Cannot read properties of undefined"
  end.

Definition geminiGenerate (targetModel : string)
  (extraHeaders : list (string * string)) (r : GeminiRequest) (projectId : string)
  (t : TM.CloudTokenData) : M json :=
  internalBody ← createGeminiInternalRequest targetModel r projectId "generate-content";
  response ← generateInternalWithStreamFallback internalBody (TM.access_token t)
               (TM.upstream_proxy_url t) extraHeaders;
  liftOption (normalizeGeminiGenerateResponse response).

Definition geminiGenerateAttempt (targetModel : string)
  (extraHeaders : list (string * string)) (r : GeminiRequest)
  (account : TM.CloudAccount) : M json :=
  tryCatch
    (withToken account (fun t =>
       geminiGenerate targetModel extraHeaders r (default "" (TM.project_id t)) t))
    (recoverWith isProjectContextError
       (withToken account (geminiGenerate targetModel extraHeaders r ""))).

Definition handleGeminiGenerateContent (requestedModel : string) (r : GeminiRequest)
  : M json :=
  let normalizedModel := normalizeGeminiModel requestedModel in
  let targetModel := mapModel normalizedModel in
  let extraHeaders := buildModelSpecificHeaders normalizedModel in
  retryLoop "No available accounts (all exhausted or rate limited)"
    "Gemini request failed after retries" None
    (geminiGenerateAttempt targetModel extraHeaders r) maxRetries 0 None [].

(** **** [handleGeminiStreamGenerateContent] *)

Definition geminiStream (targetModel : string)
  (extraHeaders : list (string * string)) (r : GeminiRequest) (projectId : string)
  (t : TM.CloudTokenData) : M ReadableStream :=
  internalBody ← createGeminiInternalRequest targetModel r projectId "generate-content";
  callStreamGenerateInternal internalBody (TM.access_token t) (TM.upstream_proxy_url t)
    extraHeaders.

Definition geminiStreamAttempt (targetModel : string)
  (extraHeaders : list (string * string)) (r : GeminiRequest)
  (account : TM.CloudAccount) : M ReadableStream :=
  tryCatch
    (withToken account (fun t =>
       geminiStream targetModel extraHeaders r (default "" (TM.project_id t)) t))
    (recoverWith isProjectContextError
       (withToken account (geminiStream targetModel extraHeaders r ""))).

(** The stream returned is the argument of [passthroughSseStream]. *)
Definition handleGeminiStreamGenerateContent (requestedModel : string)
  (r : GeminiRequest) : M ReadableStream :=
  let normalizedModel := normalizeGeminiModel requestedModel in
  let targetModel := mapModel normalizedModel in
  let extraHeaders := buildModelSpecificHeaders normalizedModel in
  retryLoop "No available accounts (all exhausted or rate limited)"
    "Gemini stream request failed after retries" None
    (geminiStreamAttempt targetModel extraHeaders r) maxRetries 0 None [].

(** **** [handleChatCompletions] *)

Definition chatUnary (r : OpenAIChatRequest) (extraHeaders : list (string * string))
  (body : GeminiInternalRequest) (t : TM.CloudTokenData) : M OpenAIChatResponse :=
  response ← generateInternalWithStreamFallback body (TM.access_token t)
               (TM.upstream_proxy_url t) extraHeaders;
  mret (convertClaudeToOpenAIResponse (transformResponse response) (o_model r)).

Definition chatStream (r : OpenAIChatRequest) (extraHeaders : list (string * string))
  (body : GeminiInternalRequest) (t : TM.CloudTokenData) : M ChatResult :=
  stream ← callStreamGenerateInternal body (TM.access_token t) (TM.upstream_proxy_url t)
             extraHeaders;
  mret (ChatStream stream (o_model r)).

Definition chatAttempt (r : OpenAIChatRequest) (extraHeaders : list (string * string))
  (account : TM.CloudAccount) : M ChatResult :=
  tryCatch
    (claudeRequest ← liftResult (convertOpenAIToClaude r);
     withToken account (fun t =>
       let projectId := default "" (TM.project_id t) in
       geminiBody ← transformClaudeRequestIn claudeRequest projectId;
       if o_stream r then
         tryCatch (chatStream r extraHeaders geminiBody t)
           (fun _ => SyntheticChatStream <$> chatUnary r extraHeaders geminiBody t)
       else ChatCompletion <$> chatUnary r extraHeaders geminiBody t))
    (recoverWith isProjectContextError
       (claudeRequest ← liftResult (convertOpenAIToClaude r);
        fallbackBody ← transformClaudeRequestIn claudeRequest "";
        withToken account (fun t =>
          if o_stream r then chatStream r extraHeaders fallbackBody t
          else ChatCompletion <$> chatUnary r extraHeaders fallbackBody t))).

Definition handleChatCompletions (r : OpenAIChatRequest) : M ChatResult :=
  let sessionKey := getSessionKeyFromOpenAI r in
  let extraHeaders := buildModelSpecificHeaders (o_model r) in
  retryLoop "No available accounts (all exhausted or rate limited)"
    "Request failed after retries" sessionKey
    (chatAttempt r extraHeaders) maxRetries 0 None [].

(** **** [handleAnthropicMessages] *)

(** The stream-or-unary call made three times in the handler.
    [finish] builds the unary result. *)
Definition anthropicCall (r : AnthropicChatRequest)
  (extraHeaders : list (string * string)) (body : GeminiInternalRequest)
  (t : TM.CloudTokenData) (finish : AnthropicChatResponse -> AnthropicChatResponse)
  : M AnthropicResult :=
  if a_stream r then
    stream ← callStreamGenerateInternal body (TM.access_token t) (TM.upstream_proxy_url t)
               extraHeaders;
    mret (AnthropicStream stream (model body))
  else
    response ← generateInternalWithStreamFallback body (TM.access_token t)
                 (TM.upstream_proxy_url t) extraHeaders;
    mret (AnthropicMessage (finish (toAnthropicChatResponse (transformResponse response)))).

Definition downgradedRequest (r : AnthropicChatRequest) : ClaudeRequest :=
  let c := toClaudeRequest r in
  mkClaudeRequest "gemini-2.5-flash" (cr_stream c) (cr_metadata c) (cr_rest c).

Definition withRequestedModel (r : AnthropicChatRequest)
  (transformed : AnthropicChatResponse) : AnthropicChatResponse :=
  mkAnthropicResponse (a_model r) (ar_usage transformed) (ar_fields transformed).

(** The [try] block and the project-context recovery of its [catch]. *)
Definition anthropicPrimary (r : AnthropicChatRequest)
  (extraHeaders : list (string * string)) (account : TM.CloudAccount)
  : M AnthropicResult :=
  tryCatch
    (withToken account (fun t =>
       let projectId := default "" (TM.project_id t) in
       geminiBody ← transformClaudeRequestIn (toClaudeRequest r) projectId;
       anthropicCall r extraHeaders geminiBody t (fun x => x)))
    (recoverWith isProjectContextError
       (fallbackBody ← transformClaudeRequestIn (toClaudeRequest r) "";
        withToken account (fun t =>
          anthropicCall r extraHeaders fallbackBody t (fun x => x)))).

(** The quota recovery: same account, model [gemini-2.5-flash]. *)
Definition anthropicDowngrade (r : AnthropicChatRequest)
  (extraHeaders : list (string * string)) (account : TM.CloudAccount)
  : M AnthropicResult :=
  withToken account (fun t =>
    downgradedBody ← transformClaudeRequestIn (downgradedRequest r)
                       (default "" (TM.project_id t));
    anthropicCall r extraHeaders downgradedBody t (withRequestedModel r)).

Definition anthropicAttempt (r : AnthropicChatRequest)
  (extraHeaders : list (string * string)) (account : TM.CloudAccount)
  : M AnthropicResult :=
  tryCatch (anthropicPrimary r extraHeaders account)
    (recoverWith isQuotaExhaustedError (anthropicDowngrade r extraHeaders account)).

Definition handleAnthropicMessages (r : AnthropicChatRequest) : M AnthropicResult :=
  let sessionKey := getSessionKeyFromAnthropic r in
  let extraHeaders := buildModelSpecificHeaders (a_model r) in
  retryLoop "No available accounts" "Request failed after retries" sessionKey
    (anthropicAttempt r extraHeaders) maxRetries 0 None [].

End Handlers.

Definition initialWorld (tm : TokenManagerService.TokenManager) (now : Z) : World :=
  mkWorld tm now [] 0 0.

(** The upstream calls of a trace, in order. *)
Definition upstreamCallsOf (t : list Event) : list UpstreamCall :=
  omap (fun e => match e with EvUpstream c => Some c | _ => None end) t.

(** The selections of a trace: exclusion list and selected id. *)
Definition selectionsOf (t : list Event) : list (list string * option string) :=
  omap (fun e => match e with EvSelect _ ex sel => Some (ex, sel) | _ => None end) t.

(** A sequence of selections in which each excludes exactly the accounts
    selected before it, starting from [attempted], and nothing follows a
    selection that found no account. *)
Fixpoint chained (attempted : list string)
  (selections : list (list string * option string)) : Prop :=
  match selections with
  | [] => True
  | (excluded, selected) :: rest =>
      excluded = attempted /\
      match selected with
      | Some a => chained (setAdd a attempted) rest
      | None => rest = []
      end
  end.

(** The selections a handler run adds to the trace: at most three, the
    first with nothing excluded, each later one excluding the accounts
    selected before it. *)
Definition boundedSelections {A : Type} (m : M A) : Prop :=
  forall w, exists evs,
    trace (m w).2 = trace w ++ evs /\
    length (selectionsOf evs) <= 3 /\ chained [] (selectionsOf evs).

End ProxyService.

(** ** Sample data for the worked instances *)

Module Sample.

Module TM := TokenManagerService.

Definition tokenData (accId : string) (projectId : option string) : TM.TokenData :=
  TM.mkTokenData (accId +:+ "@example.test") accId ("access-" +:+ accId)
    ("refresh-" +:+ accId) "Bearer" 3600 100000 projectId (Some "-1") None.

(** The token of account [accId] as the pool returns it when the account
    carries no project. *)
Definition tokenData_cloud (accId : string) : TM.CloudTokenData :=
  TM.mkCloudToken ("access-" +:+ accId) ("refresh-" +:+ accId) 3600 100000 "Bearer"
    None (Some "-1") None.

(** A pool of two fresh accounts, loaded in the order A, B. *)
Definition poolAB : TM.TokenManager :=
  TM.mkTM 0 [("A", tokenData "A" (Some "cloud-code-42")); ("B", tokenData "B" (Some "proj-b"))]
    ∅ ∅.

(** The same pool with session [k] bound to B until time 5000. *)
Definition poolABbound : TM.TokenManager :=
  TM.mkTM 0 (TM.tokens poolAB) ∅ {["k" := TM.mkBinding "B" 5000]}.

Definition noRefresh (refreshToken : string) : option (string * Z) := None.

(** An upstream that answers 503 on the production endpoint and 403, with an
    error body, on the daily one. *)
Definition flakyAxios (url : string) : GeminiClient.Thrown + Json.jsval :=
  if String.eqb url "https://cloudcode-pa.googleapis.com/v1internal:generateContent"
  then inl (GeminiClient.AxiosError "Request failed with status code 503"
              (Some (GeminiClient.mkResponse 503 None)))
  else inl (GeminiClient.AxiosError "Request failed with status code 403"
              (Some (GeminiClient.mkResponse 403
                       (Some (Json.JObj [("error",
                                          Json.JObj [("message", Json.JStr "denied")])])))))
.

(** An upstream that answers 400 with a blank [error.message]. *)
Definition blankMessageError : GeminiClient.Thrown :=
  GeminiClient.AxiosError "Request failed with status code 400"
    (Some (GeminiClient.mkResponse 400
             (Some (Json.JObj [("error", Json.JObj [("message", Json.JStr " ")])])))).

(** A frame carrying the text "hello world" and finish reason STOP, the
    parser that reads it from the line [data: HELLO], and a stream that
    delivers that line. *)
Definition helloFrame : Json.json :=
  Json.JObj
    [("candidates",
      Json.JArr
        [Json.JObj
           [("content",
             Json.JObj [("parts", Json.JArr [Json.JObj [("text", Json.JStr "hello world")]])]);
            ("finishReason", Json.JStr "STOP")]])].

Definition parseHello (text : string) : option Json.json :=
  if String.eqb text "HELLO" then Some helloFrame else None.

Definition helloStream : ProxyService.ReadableStream :=
  ProxyService.mkStream
    ["data: HELLO" +:+ ProxyService.nl +:+ ProxyService.nl] ProxyService.End.

Definition someBody : ProxyService.GeminiInternalRequest :=
  ProxyService.mkInternal "" "req-1" Json.JNull "gemini-2.5-flash" "agent"
    "generate-content".

(** A client whose unary answer is [{candidates: []}] and whose stream is
    [helloStream]. *)
Definition emptyUnary (n : nat) (call : ProxyService.UpstreamCall)
  : string + Json.jsval :=
  inr (Some (Json.JObj [("candidates", Json.JArr [])])).

Definition helloStreaming (n : nat) (call : ProxyService.UpstreamCall)
  : string + ProxyService.ReadableStream :=
  inr helloStream.

(** The frame of the OpenAI streaming scenario: a thought, a function call
    and a text part, finish reason STOP. *)
Definition scenarioFrame : Json.json :=
  Json.JObj
    [("candidates",
      Json.JArr
        [Json.JObj
           [("content",
             Json.JObj
               [("parts",
                 Json.JArr
                   [Json.JObj [("thought", Json.JBool true);
                               ("text", Json.JStr "reasoning")];
                    Json.JObj [("functionCall",
                                Json.JObj [("id", Json.JStr "fc1");
                                           ("name", Json.JStr "search");
                                           ("args", Json.JObj [("q", Json.JStr "x")])])];
                    Json.JObj [("text", Json.JStr "answer")]])]);
            ("finishReason", Json.JStr "STOP")]])].

(** The upstream stream that delivers [scenarioFrame] as one SSE frame. *)
Definition scenarioStream : ProxyService.ReadableStream :=
  ProxyService.mkStream
    ["data: " +:+ Json.stringify scenarioFrame +:+ ProxyService.nl +:+ ProxyService.nl]
    ProxyService.End.

(** A parser that knows the text of [scenarioFrame] only. *)
Definition parseScenario (text : string) : option Json.json :=
  if String.eqb text (Json.stringify scenarioFrame) then Some scenarioFrame else None.

(** Three fresh accounts, a client that rejects every call with a message
    no rung of the taxonomy matches, and the collaborators needed to run
    the handlers. *)
Definition poolABC : TM.TokenManager :=
  TM.mkTM 0 [("A", tokenData "A" None); ("B", tokenData "B" None);
             ("C", tokenData "C" None)] ∅ ∅.

Definition rejectUnary (n : nat) (call : ProxyService.UpstreamCall)
  : string + Json.jsval := inl "400 invalid argument".

Definition rejectStreaming (n : nat) (call : ProxyService.UpstreamCall)
  : string + ProxyService.ReadableStream := inl "400 invalid argument".

Definition delay (attempt : nat) : Z := 1000.

Definition uuid (n : nat) : string := "uuid".

Definition claudeOf (response : Json.jsval) : ProxyService.ClaudeResponse :=
  ProxyService.mkClaudeResponse "upstream-model" None Json.JNull.

Definition chatRequest : ProxyService.OpenAIChatRequest :=
  ProxyService.mkOpenAIRequest "gpt-4o" false None Json.JNull.

Definition anthropicRequest : ProxyService.AnthropicChatRequest :=
  ProxyService.mkAnthropicRequest "claude-sonnet-4-5" false None Json.JNull.

Definition geminiRequest : ProxyService.GeminiRequest :=
  ProxyService.mkGeminiRequest None None None.

(** A client for the quota scenario: the first unary call is rejected with
    a quota message, the next one answers with a usable candidate. *)
Definition quotaThenOk (n : nat) (call : ProxyService.UpstreamCall)
  : string + Json.jsval :=
  match n with
  | O => inl "Resource has been exhausted (e.g. check quota)."
  | _ => inr (Some helloFrame)
  end.

End Sample.

(** ** API key check ([guards/api-key-auth.util.ts] and [proxy.guard.ts]) *)

Module ApiKeyAuth.

Import Json.

(** [RequestHeaderValue]: a string or an array of values; [undefined] is an
    absent entry of [RequestHeaders]. *)
Inductive RequestHeaderValue : Type :=
| HeaderString (value : string)
| HeaderArray (values : list json).

Abbreviation RequestHeaders := (gmap string RequestHeaderValue).

Definition hasConfiguredApiKey (apiKey : option string) : bool :=
  match apiKey with
  | Some key => Js.truthy (Js.trim key)
  | None => false
  end.

(** [s.split(/\s+/)]: the pieces between the maximal runs of white space,
    an empty piece included where the string starts or ends with one.
    [afterSpace] tells that the previous code unit was white space. *)
Fixpoint splitWhitespaceFrom (afterSpace : bool) (s : string) : list string :=
  match s with
  | EmptyString => [EmptyString]
  | String c r =>
      if Js.isSpace c then
        if afterSpace then splitWhitespaceFrom true r
        else EmptyString :: splitWhitespaceFrom true r
      else
        match splitWhitespaceFrom false r with
        | piece :: pieces => String c piece :: pieces
        | [] => [String c EmptyString]
        end
  end.

Definition splitWhitespace (s : string) : list string := splitWhitespaceFrom false s.

(** The loop of [readHeaderValue] over an array value. *)
Fixpoint firstNonBlank (values : list json) : option string :=
  match values with
  | [] => None
  | JStr value :: rest =>
      let trimmedValue := Js.trim value in
      if Js.truthy trimmedValue then Some trimmedValue else firstNonBlank rest
  | _ :: rest => firstNonBlank rest
  end.

Definition readHeaderValue (headerValue : option RequestHeaderValue) : option string :=
  match headerValue with
  | Some (HeaderString value) =>
      let trimmedValue := Js.trim value in
      if Js.truthy trimmedValue then Some trimmedValue else None
  | Some (HeaderArray values) => firstNonBlank values
  | None => None
  end.

(** The [Authorization] branch of [extractApiKeyToken]:
    [[scheme, token, ...rest]] with [rest] empty, [token] not empty and
    [scheme] reading bearer in any letter case. *)
Definition bearerToken (authorizationHeader : string) : option string :=
  match splitWhitespace (Js.trim authorizationHeader) with
  | [scheme; token] =>
      if Js.truthy token && String.eqb (Js.toLowerCase scheme) "bearer"
      then Some token else None
  | _ => None
  end.

(** A string without white space. *)
Fixpoint noWhitespace (s : string) : bool :=
  match s with
  | EmptyString => true
  | String c r => negb (Js.isSpace c) && noWhitespace r
  end.

Definition extractApiKeyToken (headers : RequestHeaders) : option string :=
  match readHeaderValue (headers !! "authorization") ≫= bearerToken with
  | Some token => Some token
  | None =>
      match readHeaderValue (headers !! "x-api-key") with
      | Some xApiKeyHeader => Some xApiKeyHeader
      | None => readHeaderValue (headers !! "x-goog-api-key")
      end
  end.

End ApiKeyAuth.

Module ProxyGuard.

(** [canActivate]; [apiKey] is [getServerConfig()?.api_key].  [inr true]
    lets the request through, [inl] is the message of the
    [UnauthorizedException]. *)
Definition canActivate (apiKey : option string) (headers : ApiKeyAuth.RequestHeaders)
  : string + bool :=
  let clientToken := ApiKeyAuth.extractApiKeyToken headers in
  if negb (ApiKeyAuth.hasConfiguredApiKey apiKey) then inr true
  else if bool_decide (clientToken = apiKey) then inr true
  else inl "API key validation failed".

End ProxyGuard.

(** ** Model routing ([lib/antigravity/ModelMapping.ts]) *)

Module ModelMapping.

(** A [Record<string, string>] written as an object literal or filled by
    assignment: its own entries in insertion order.  Reading [record[key]]
    also sees the members every plain object inherits from
    [Object.prototype]. *)
Definition StringRecord : Type := list (string * string).

Definition objectPrototypeKeys : list string :=
  ["constructor"; "__defineGetter__"; "__defineSetter__"; "hasOwnProperty";
   "__lookupGetter__"; "__lookupSetter__"; "isPrototypeOf";
   "propertyIsEnumerable"; "toString"; "valueOf"; "__proto__"; "toLocaleString"].

(** What a routing function returns: a model name, or, when the name looked
    up is a member of [Object.prototype], that member (a function or, for
    [__proto__], the prototype object), which is not a string. *)
Inductive Routed : Type :=
| Model (name : string)
| PrototypeMember (key : string).

(** [if (record[key]) return record[key]]: the value returned, if the test
    passes. *)
Definition lookup (record : StringRecord) (key : string) : option Routed :=
  match Js.mapGet key record with
  | Some value => if Js.truthy value then Some (Model value) else None
  | None =>
      if bool_decide (key ∈ objectPrototypeKeys) then Some (PrototypeMember key)
      else None
  end.

Definition CLAUDE_TO_GEMINI : StringRecord :=
  [("claude-opus-4-5-thinking", "claude-opus-4-5-thinking");
   ("claude-opus-4-6-thinking", "claude-opus-4-6-thinking");
   ("claude-sonnet-4-5", "claude-sonnet-4-5");
   ("claude-sonnet-4-5-thinking", "claude-sonnet-4-5-thinking");
   ("claude-sonnet-4-5-20250929", "claude-sonnet-4-5-thinking");
   ("claude-3-5-sonnet-20241022", "claude-sonnet-4-5");
   ("claude-3-5-sonnet-20240620", "claude-sonnet-4-5");
   ("claude-opus-4", "claude-opus-4-5-thinking");
   ("claude-opus-4-5-20251101", "claude-opus-4-5-thinking");
   ("claude-opus-4-6", "claude-opus-4-6-thinking");
   ("claude-opus-4-6-20260201", "claude-opus-4-6-thinking");
   ("claude-haiku-4", "claude-sonnet-4-5");
   ("claude-3-haiku-20240307", "claude-sonnet-4-5");
   ("claude-haiku-4-5-20251001", "claude-sonnet-4-5");
   ("gpt-4", "gemini-2.5-flash");
   ("gpt-4-turbo", "gemini-2.5-flash");
   ("gpt-4-turbo-preview", "gemini-2.5-flash");
   ("gpt-4-0125-preview", "gemini-2.5-flash");
   ("gpt-4-1106-preview", "gemini-2.5-flash");
   ("gpt-4-0613", "gemini-2.5-flash");
   ("gpt-4o", "gemini-2.5-flash");
   ("gpt-4o-2024-05-13", "gemini-2.5-flash");
   ("gpt-4o-2024-08-06", "gemini-2.5-flash");
   ("gpt-4o-mini", "gemini-2.5-flash");
   ("gpt-4o-mini-2024-07-18", "gemini-2.5-flash");
   ("gpt-3.5-turbo", "gemini-2.5-flash");
   ("gpt-3.5-turbo-16k", "gemini-2.5-flash");
   ("gpt-3.5-turbo-0125", "gemini-2.5-flash");
   ("gpt-3.5-turbo-1106", "gemini-2.5-flash");
   ("gpt-3.5-turbo-0613", "gemini-2.5-flash");
   ("gemini-2.5-flash-lite", "gemini-2.5-flash");
   ("gemini-2.5-flash-thinking", "gemini-2.5-flash-thinking");
   ("gemini-3-pro-low", "gemini-3-pro-preview");
   ("gemini-3-pro-high", "gemini-3-pro-preview");
   ("gemini-3-pro-preview", "gemini-3-pro-preview");
   ("gemini-3-pro", "gemini-3-pro-preview");
   ("gemini-2.5-flash", "gemini-2.5-flash");
   ("gemini-3-flash", "gemini-3-flash");
   ("gemini-3-pro-image", "gemini-3-pro-image");
   ("internal-background-task", "gemini-2.5-flash")].

Definition DYNAMIC_IMAGE_BASE_MODEL : string := "gemini-3-pro-image".
Definition DYNAMIC_IMAGE_RESOLUTIONS : list string := [""; "-2k"; "-4k"].
Definition DYNAMIC_IMAGE_RATIOS : list string :=
  [""; "-1x1"; "-4x3"; "-3x4"; "-16x9"; "-9x16"; "-21x9"].
Definition EXTRA_DYNAMIC_MODELS : list string :=
  ["gemini-2.0-flash-exp"; "gemini-2.5-flash"; "gemini-3-flash";
   "gemini-3-pro-high"; "gemini-3-pro-low"].

Definition MODEL_LIST_CREATED_AT : Z := 1770652800.
Definition MODEL_LIST_OWNER : string := "antigravity".

Definition getSupportedModels : list string := List.map fst CLAUDE_TO_GEMINI.

(** [Array.prototype.sort()] on strings: ascending by code units. *)
Fixpoint insertSorted (x : string) (l : list string) : list string :=
  match l with
  | [] => [x]
  | y :: r => if String.leb x y then x :: l else y :: insertSorted x r
  end.

Definition sort (l : list string) : list string := fold_right insertSorted [] l.

(** The image model names added by the two nested loops, in order. *)
Definition dynamicImageModels : list string :=
  List.concat
    (List.map (fun resolution =>
                 List.map (fun ratio => DYNAMIC_IMAGE_BASE_MODEL +:+ resolution +:+ ratio)
                          DYNAMIC_IMAGE_RATIOS)
              DYNAMIC_IMAGE_RESOLUTIONS).

(** [getAllDynamicModels(customMapping)]; [modelIds] is the [Set], in
    insertion order. *)
Definition getAllDynamicModels (customMapping : StringRecord) : list string :=
  let add (modelIds : list string) (modelId : string) :=
    ProxyService.setAdd modelId modelIds in
  let modelIds := fold_left add getSupportedModels [] in
  let modelIds := fold_left add (List.map fst customMapping) modelIds in
  let modelIds := fold_left add dynamicImageModels modelIds in
  let modelIds := fold_left add EXTRA_DYNAMIC_MODELS modelIds in
  sort modelIds.

Definition mapClaudeModelToGemini (input : string) : Routed :=
  match lookup CLAUDE_TO_GEMINI input with
  | Some mappedModel => mappedModel
  | None => Model input
  end.

(** [a] if the test on it passes, [b] otherwise. *)
Definition orElse (a : option Routed) (b : option Routed) : option Routed :=
  match a with Some r => Some r | None => b end.

Definition isGpt4Family (lowerModel : string) : bool :=
  (Js.startsWith lowerModel "gpt-4" &&
   negb (Js.includes lowerModel "o") &&
   negb (Js.includes lowerModel "mini") &&
   negb (Js.includes lowerModel "turbo")) ||
  Js.startsWith lowerModel "o1-" ||
  Js.startsWith lowerModel "o3-" ||
  String.eqb lowerModel "gpt-4".

Definition isGpt4oFamily (lowerModel : string) : bool :=
  Js.includes lowerModel "4o" ||
  Js.startsWith lowerModel "gpt-3.5" ||
  (Js.includes lowerModel "mini" && negb (Js.includes lowerModel "gemini")) ||
  Js.includes lowerModel "turbo".

Definition claudeFamilyKey (lowerModel : string) : string :=
  if Js.includes lowerModel "4-5" || Js.includes lowerModel "4.5" then "claude-4.5-series"
  else if Js.includes lowerModel "3-5" || Js.includes lowerModel "3.5"
       then "claude-3.5-series"
       else "claude-default".

(** [resolveModelRoute]: the first rule that returns. *)
Definition resolveModelRoute (originalModel : string)
  (customMapping openaiMapping anthropicMapping : StringRecord) : Routed :=
  let lowerModel := Js.toLowerCase originalModel in
  let rules : list (option Routed) :=
    [lookup customMapping originalModel;
     if isGpt4Family lowerModel then lookup openaiMapping "gpt-4-series" else None;
     if isGpt4oFamily lowerModel then lookup openaiMapping "gpt-4o-series" else None;
     if Js.startsWith lowerModel "gpt-5"
     then orElse (lookup openaiMapping "gpt-5-series")
                 (lookup openaiMapping "gpt-4-series")
     else None;
     if Js.startsWith lowerModel "claude-"
     then orElse (lookup anthropicMapping (claudeFamilyKey lowerModel))
                 (lookup anthropicMapping originalModel)
     else None] in
  default (mapClaudeModelToGemini originalModel) (fold_right orElse None rules).

End ModelMapping.

(** ** [ProxyService.mapModel] *)

Module ModelRouting.

Import ModelMapping.

(** [{ ...a, ...b }] and [Object.entries]: entries in insertion order, a
    key written twice keeping its first place and its last value.  (Keys
    that are array indices come first in JavaScript; such a key holds no
    [*], so the order of the wildcard rules is the order given here, and
    the exact entries are looked up by key.) *)
Definition spread (a b : StringRecord) : StringRecord :=
  fold_left (fun merged entry => Js.mapSet entry.1 entry.2 merged) (a ++ b) [].

(** [record[key] = target] on a plain object: the inherited [__proto__]
    setter swallows the assignment of a string. *)
Definition assign (key target : string) (record : StringRecord) : StringRecord :=
  if String.eqb key "__proto__" then record else Js.mapSet key target record.

(** The code units the dot of a regular expression does not match. *)
Definition isLineTerminator (c : ascii) : bool :=
  let n := nat_of_ascii c in Nat.eqb n 10 || Nat.eqb n 13.

(** The canonical form under which flag [i] compares two code units below
    256: the upper-case letter of a-z and of the Latin-1 letters. *)
Definition canonicalize (c : ascii) : ascii :=
  let n := nat_of_ascii c in
  if (Nat.leb 97 n && Nat.leb n 122) ||
     (Nat.leb 224 n && Nat.leb n 254 && negb (Nat.eqb n 247))
  then ascii_of_nat (n - 32) else c.

(** [new RegExp('^' + escaped + '$', 'i').test(s)] where [escaped] is [key]
    with every regular-expression metacharacter escaped and every [*]
    replaced by [.*]. *)
Fixpoint wildcardTest (key : string) (s : string) {struct key} : bool :=
  match key with
  | EmptyString => match s with EmptyString => true | _ => false end
  | String c key' =>
      if Ascii.eqb c "*"%char then
        (fix star (s : string) : bool :=
           wildcardTest key' s ||
           match s with
           | EmptyString => false
           | String d s' => negb (isLineTerminator d) && star s'
           end) s
      else
        match s with
        | EmptyString => false
        | String d s' =>
            Ascii.eqb (canonicalize c) (canonicalize d) && wildcardTest key' s'
        end
  end.

(** An entry the loop over [configuredMapping] keeps. *)
Definition usable (entry : string * string) : bool :=
  Js.truthy entry.1 && Js.truthy entry.2.

Definition isWildcard (entry : string * string) : bool := Js.includes entry.1 "*".

(** [mapModel]; [custom_mapping] and [anthropic_mapping] are the members of
    [getServerConfig()], [None] when the configuration or the member is
    missing. *)
Definition mapModel (custom_mapping anthropic_mapping : option StringRecord)
  (model : string) : Routed :=
  let normalizedModel := Js.trim (ProxyService.normalizeGeminiModel model) in
  let configuredMapping :=
    spread (default [] custom_mapping) (default [] anthropic_mapping) in
  let entries := List.filter usable configuredMapping in
  let wildcardMapping := List.filter isWildcard entries in
  let customExactMapping :=
    fold_left (fun record entry => assign entry.1 entry.2 record)
              (List.filter (fun entry => negb (isWildcard entry)) entries) [] in
  match List.find (fun rule => wildcardTest rule.1 normalizedModel) wildcardMapping with
  | Some wildcardRule => Model wildcardRule.2
  | None => resolveModelRoute normalizedModel customExactMapping [] []
  end.

End ModelRouting.

(** ** The HTTP surface ([proxy.controller.ts]) *)

Module ProxyController.

Import Json.

Definition resolveUpstreamStatus (message : string) : Z :=
  let lowered := Js.toLowerCase message in
  if Js.includes lowered "all accounts failed or unhealthy" then 503
  else if Js.includes lowered "all accounts exhausted" ||
          Js.includes lowered "no available accounts" then 429
  else if Js.includes lowered "network socket disconnected" ||
          Js.includes lowered "secure tls connection was established" ||
          Js.includes lowered "socket hang up" ||
          Js.includes lowered "econnreset" ||
          Js.includes lowered "eai_again" then 503
  else if Js.includes lowered "401" || Js.includes lowered "unauthorized" then 401
  else if Js.includes lowered "403" || Js.includes lowered "forbidden" then 403
  else if Js.includes lowered "429" || Js.includes lowered "rate limit" ||
          Js.includes lowered "quota" then 429
  else if Js.includes lowered "503" || Js.includes lowered "service unavailable" then 503
  else if Js.includes lowered "502" || Js.includes lowered "bad gateway" then 502
  else if Js.includes lowered "504" || Js.includes lowered "timeout" then 504
  else 500.

Definition isProjectContextErrorMessage (message : string) : bool :=
  let lowered := Js.toLowerCase message in
  Js.includes lowered "#3501" ||
  (Js.includes lowered "google cloud project" &&
   Js.includes lowered "code assist license") ||
  (Js.includes lowered "resource projects/" && Js.includes lowered "could not be found") ||
  (Js.includes lowered "project" && Js.includes lowered "not found").

(** What a route handler does with the reply object: [res.status(200).send]
    of the result, [writeSseResponse] of an observable, or
    [res.status(status).send] of an error body. *)
Inductive Reply (R : Type) : Type :=
| Sent (result : R)
| Streamed (stream : R)
| Failed (status : Z) (body : json).

Arguments Sent {R} result.
Arguments Streamed {R} stream.
Arguments Failed {R} status body.

(** [isObservableLike] on what [handleChatCompletions] returns. *)
Definition isObservableLike (result : ProxyService.ChatResult) : bool :=
  match result with
  | ProxyService.ChatCompletion _ => false
  | ProxyService.ChatStream _ _ | ProxyService.SyntheticChatStream _ => true
  end.

(** [sendOpenAIChatCompletionResponse], the body of [POST chat/completions];
    [handleChatCompletions] is the method of the injected service. *)
Definition sendOpenAIChatCompletionResponse
  (handleChatCompletions : ProxyService.OpenAIChatRequest
                           -> ProxyService.M ProxyService.ChatResult)
  (body : ProxyService.OpenAIChatRequest) (w : ProxyService.World)
  : Reply ProxyService.ChatResult * ProxyService.World :=
  match handleChatCompletions body w with
  | (inr result, w') =>
      if ProxyService.o_stream body && isObservableLike result
      then (Streamed result, w')
      else (Sent result, w')
  | (inl message, w') =>
      (Failed (resolveUpstreamStatus message)
         (JObj [("error", JObj [("message", JStr message);
                                ("type", JStr "server_error")])]),
       w')
  end.

(** [anthropicMessages], the body of [POST messages]. *)
Definition anthropicMessages
  (handleAnthropicMessages : ProxyService.AnthropicChatRequest
                             -> ProxyService.M ProxyService.AnthropicResult)
  (body : ProxyService.AnthropicChatRequest) (w : ProxyService.World)
  : Reply ProxyService.AnthropicResult * ProxyService.World :=
  match handleAnthropicMessages body w with
  | (inr result, w') =>
      if ProxyService.a_stream body &&
         match result with
         | ProxyService.AnthropicStream _ _ => true
         | ProxyService.AnthropicMessage _ => false
         end
      then (Streamed result, w')
      else (Sent result, w')
  | (inl message, w') =>
      (Failed (resolveUpstreamStatus message)
         (JObj [("type", JStr "error");
                ("error", JObj [("type", JStr "api_error");
                                ("message", JStr message)])]),
       w')
  end.

End ProxyController.

(** ** [ProxyService]: the OpenAI compatibility mappers and the Gemini
    pass-through stream *)

Module OpenAICompat.

Import Json.

(** *** [passthroughSseStream] *)

Record PassthroughState := mkPassthrough {
  p_sub : ProxyService.Subscriber;
  receivedData : bool
}.

Definition passthroughData (st : PassthroughState) (chunk : string) : PassthroughState :=
  mkPassthrough (ProxyService.next chunk (p_sub st)) true.

Definition passthroughEnd (st : PassthroughState) : ProxyService.Subscriber :=
  if negb (receivedData st)
  then ProxyService.error "Empty response stream" (p_sub st)
  else ProxyService.complete (p_sub st).

(** What a subscriber of [passthroughSseStream(upstreamStream)] observes. *)
Definition passthroughSseStream (upstreamStream : ProxyService.ReadableStream)
  : ProxyService.Subscriber :=
  let st := fold_left passthroughData (ProxyService.chunks upstreamStream)
              (mkPassthrough ProxyService.newSubscriber false) in
  match ProxyService.ending upstreamStream with
  | ProxyService.End => passthroughEnd st
  | ProxyService.Error message => ProxyService.error message (p_sub st)
  end.

(** *** Responses: Claude to OpenAI *)

(** [a || b] *)
Definition orValue (a : jsval) (b : json) : json :=
  match a with
  | Some v => if truthy a then v else b
  | None => b
  end.

(** [block?.type === name] *)
Definition hasType (name : string) (block : json) : bool :=
  match optProp "type" (Some block) with
  | Some (JStr t) => String.eqb t name
  | _ => false
  end.

(** [ToNumber] of the values that are not converted through a string. *)
Definition toNumber (v : json) : option Z :=
  match v with
  | JNum n => Some n
  | JBool b => Some (if b then 1 else 0)%Z
  | JNull => Some 0%Z
  | _ => None
  end.

(** [a + b]: the sum of two numbers is rounded to a number. *)
Definition add (a b : json) : json :=
  match toNumber a, toNumber b with
  | Some x, Some y => JNum (Js.roundDouble (x + y))
  | _, _ => JStr (toStr a +:+ toStr b)
  end.

(** [v === text] *)
Definition isString (text : string) (v : jsval) : bool :=
  match v with
  | Some (JStr s) => String.eqb s text
  | _ => false
  end.

Definition mapAnthropicStopReasonToOpenAIFinishReason (stopReason : jsval) : json :=
  if negb (truthy stopReason) then JNull
  else if isString "end_turn" stopReason then JStr "stop"
  else if isString "max_tokens" stopReason then JStr "length"
  else if isString "tool_use" stopReason then JStr "tool_calls"
  else default JNull stopReason.

(** [normalizeToolCallArguments]: [JSON.stringify] does not throw on a
    JSON value. *)
Definition normalizeToolCallArguments (input : jsval) : string :=
  match input with
  | Some (JStr s) => s
  | None | Some JNull => "{}"
  | Some v => stringify v
  end.

(** The blocks of [claudeResponse.content] of one type, each reduced to
    [block[member] || ''] and joined. *)
Definition joinedBlocks (type member : string) (contentBlocks : list json) : string :=
  String.concat ""
    (List.map (fun block => toStr (orValue (prop member block) (JStr "")))
              (List.filter (hasType type) contentBlocks)).

Definition toolCallsOf (contentBlocks : list json) : list json :=
  imap (fun index block =>
          JObj [("id",
                 orValue (prop "id" block)
                   (JStr ("tool-call-" +:+ Js.numberToString (Z.of_nat index))));
                ("type", JStr "function");
                ("function",
                 JObj [("name", orValue (prop "name" block) (JStr "unknown_tool"));
                       ("arguments",
                        JStr (normalizeToolCallArguments (prop "input" block)))])])
       (List.filter (hasType "tool_use") contentBlocks).

(** [convertClaudeToOpenAIResponse(claudeResponse, model)]; [uuid] is what
    [uuidv4()] returns and [now] is [Date.now()].  [None] when
    [claudeResponse] is [null] or [undefined] and reading its
    [stop_reason] throws. *)
Definition convertClaudeToOpenAIResponse (uuid : string) (now : Z)
  (claudeResponse : jsval) (model : string) : option json :=
  let contentBlocks :=
    match optProp "content" claudeResponse with
    | Some (JArr blocks) => blocks
    | _ => []
    end in
  let textContent := joinedBlocks "text" "text" contentBlocks in
  let reasoningContent := joinedBlocks "thinking" "thinking" contentBlocks in
  let toolCalls := toolCallsOf contentBlocks in
  stop_reason ← strictProp "stop_reason" claudeResponse;
  let usage := optProp "usage" claudeResponse in
  let input_tokens := orValue (optProp "input_tokens" usage) (JNum 0) in
  let output_tokens := orValue (optProp "output_tokens" usage) (JNum 0) in
  Some (obj
    [("id", Some (JStr ("chatcmpl-" +:+ uuid)));
     ("object", Some (JStr "chat.completion"));
     ("created", Some (JNum (now / 1000)));
     ("model", Some (JStr model));
     ("choices",
      Some (JArr
        [obj [("index", Some (JNum 0));
              ("message",
               Some (obj
                 [("role", Some (JStr "assistant"));
                  ("content",
                   Some (if Js.truthy textContent then JStr textContent else JNull));
                  ("tool_calls",
                   match toolCalls with [] => None | _ => Some (JArr toolCalls) end);
                  ("reasoning_content",
                   if Js.truthy reasoningContent then Some (JStr reasoningContent)
                   else None)]));
              ("finish_reason",
               Some (mapAnthropicStopReasonToOpenAIFinishReason stop_reason))]]));
     ("usage",
      Some (JObj [("prompt_tokens", input_tokens);
                  ("completion_tokens", output_tokens);
                  ("total_tokens", add input_tokens output_tokens)]))]).

(** *** [createSyntheticOpenAIStream] *)

Definition chunkSize : nat := 80.

Section Synthetic.

Variable streamId : json.
Variable created : json.
Variable model : jsval.
Variable finishReason : json.
Variable usage : jsval.
Variable content : string.

Definition syntheticChunk (delta : json) (finish_reason : json) (chunkUsage : jsval)
  : json :=
  obj [("id", Some streamId);
       ("object", Some (JStr "chat.completion.chunk"));
       ("created", Some created);
       ("model", model);
       ("choices",
        Some (JArr [JObj [("index", JNum 0);
                          ("delta", delta);
                          ("finish_reason", finish_reason)]]));
       ("usage", chunkUsage)].

Definition zeroUsage : json :=
  JObj [("prompt_tokens", JNum 0); ("completion_tokens", JNum 0);
        ("total_tokens", JNum 0)].

(** The iteration of the [for] loop that starts at [index]. *)
Definition pieceAt (index : nat) : string := String.substring index chunkSize content.

Definition isLastAt (index : nat) : bool :=
  Nat.leb (String.length content) (index + chunkSize).

Definition contentChunk (index : nat) : json :=
  syntheticChunk (JObj [("content", JStr (pieceAt index))])
    (if isLastAt index then finishReason else JNull)
    (if isLastAt index then usage else Some zeroUsage).

(** [for (let index = 0; index < content.length; index += chunkSize)]: the
    indices visited.  [fuel] bounds the number of iterations; the length of
    [content] is enough. *)
Fixpoint loopIndices (fuel index : nat) : list nat :=
  match fuel with
  | O => []
  | S fuel' =>
      if Nat.ltb index (String.length content)
      then index :: loopIndices fuel' (index + chunkSize)
      else []
  end.

End Synthetic.

(** The constants [finishReason] and [content] of
    [createSyntheticOpenAIStream], read off [response.choices?.[0]]. *)
Definition syntheticFinishReason (response : json) : json :=
  let choice := optIndex0 (prop "choices" response) in
  default JNull (ProxyService.nullish (optProp "finish_reason" choice)
                   (Some (JStr "stop"))).

Definition syntheticContent (response : json) : string :=
  let choice := optIndex0 (prop "choices" response) in
  if truthy (optProp "message" choice) then
    match optProp "content" (optProp "message" choice) with
    | Some (JStr s) => s
    | _ => ""
    end
  else "".

(** The chunk objects written by [createSyntheticOpenAIStream(response)];
    [uuid] is what [uuidv4()] would return and [now] is [Date.now()]. *)
Definition syntheticPayloads (uuid : string) (now : Z) (response : json) : list json :=
  let streamId := orValue (prop "id" response) (JStr ("chatcmpl-" +:+ uuid)) in
  let created := orValue (prop "created" response) (JNum (now / 1000)) in
  let chunk := syntheticChunk streamId created (prop "model" response) in
  let finishReason := syntheticFinishReason response in
  let content := syntheticContent response in
  match content with
  | EmptyString => [chunk (JObj []) finishReason (prop "usage" response)]
  | _ =>
      List.map (contentChunk streamId created (prop "model" response) finishReason
                  (prop "usage" response) content)
               (loopIndices content (String.length content) 0)
  end.

(** What a subscriber of [createSyntheticOpenAIStream(response)] observes. *)
Definition createSyntheticOpenAIStream (uuid : string) (now : Z) (response : json)
  : ProxyService.Subscriber :=
  ProxyService.complete
    (fold_left (fun sub frame => ProxyService.next frame sub)
       (List.map ProxyService.sseFrame (syntheticPayloads uuid now response)
        ++ [ProxyService.doneFrame])
       ProxyService.newSubscriber).

End OpenAICompat.

(** ** Claude content blocks

    The three variants of [ClaudeResponse['content'][number]] the
    conversion to OpenAI distinguishes, and the JSON value of each. *)

Module ClaudeBlocks.

Import Json.

Inductive Block : Type :=
| Text (text : string)
| Thinking (thinking : string)
| ToolUse (id name : string) (input : json).

Definition blockJson (block : Block) : json :=
  match block with
  | Text text => JObj [("type", JStr "text"); ("text", JStr text)]
  | Thinking thinking => JObj [("type", JStr "thinking"); ("thinking", JStr thinking)]
  | ToolUse id name input =>
      JObj [("type", JStr "tool_use"); ("id", JStr id); ("name", JStr name);
            ("input", input)]
  end.

(** The text a block contributes to the message: its own for a text
    block, none for the others. *)
Definition textOf (block : Block) : string :=
  match block with
  | Text text => text
  | _ => ""
  end.

End ClaudeBlocks.

(** ** [ProxyService]: OpenAI requests to Claude requests

    The request is a value of the TypeScript type the method declares
    ([OpenAIChatRequest]); a member the client may omit or send as [null]
    is an [option].  A [TypeError] thrown by the conversion is [None]. *)

Module OpenAIRequests.

Import Json.

(** [OpenAIContentPart]; [part_image_url] is [part.image_url?.url]. *)
Record OpenAIContentPart := mkPart {
  part_type : string;
  part_text : option string;
  part_image_url : option string
}.

Inductive OpenAIContent : Type :=
| ContentString (text : string)
| ContentParts (parts : list OpenAIContentPart).

(** An entry of [tool_calls]; [call_name] and [call_arguments] are
    [function.name] and [function.arguments]. *)
Record OpenAIToolCall := mkToolCall {
  call_id : string;
  call_name : string;
  call_arguments : string
}.

Record OpenAIMessage := mkMessage {
  role : string;
  content : option OpenAIContent;
  tool_calls : option (list OpenAIToolCall);
  tool_call_id : option string;
  name : option string
}.

(** An entry of [tools]: the members of [tool.function]. *)
Record OpenAITool := mkTool {
  tool_name : string;
  tool_description : option string;
  tool_parameters : jsval
}.

Record OpenAIChatRequest := mkRequest {
  model : string;
  messages : option (list OpenAIMessage);
  tools : option (list OpenAITool);
  max_tokens : jsval;
  temperature : jsval;
  top_p : jsval;
  stream : jsval;
  extra : option (list (string * json))
}.

(** [x || ''] on an optional string *)
Definition orEmpty (x : option string) : string := default "" x.

(** [extractOpenAITextContent]: a content that is [null] or [undefined]
    has no [filter] method. *)
Definition extractOpenAITextContent (c : option OpenAIContent) : option string :=
  match c with
  | Some (ContentString text) => Some text
  | Some (ContentParts parts) =>
      Some (joinWith ProxyService.nl
              (List.map (fun part => orEmpty (part_text part))
                 (List.filter (fun part => String.eqb (part_type part) "text") parts)))
  | None => None
  end.

(** The longest prefix without a semicolon, and the rest. *)
Fixpoint untilSemicolon (s : string) : string * string :=
  match s with
  | EmptyString => (EmptyString, EmptyString)
  | String c r =>
      if Ascii.eqb c ";"%char then (EmptyString, s)
      else let '(a, b) := untilSemicolon r in (String c a, b)
  end.

Fixpoint noLineTerminator (s : string) : bool :=
  match s with
  | EmptyString => true
  | String c r => negb (ModelRouting.isLineTerminator c) && noLineTerminator r
  end.

(** [url.match(/^data:(?<mime>[^;]+);base64,(?<data>.+)$/)]: the groups
    [mime] and [data]. *)
Definition matchDataUri (url : string) : option (string * string) :=
  if Js.startsWith url "data:" then
    let '(mime, rest) := untilSemicolon (Js.sliceFrom 5 url) in
    if Js.truthy mime && Js.startsWith rest ";base64," then
      let data := Js.sliceFrom 8 rest in
      if Js.truthy data && noLineTerminator data then Some (mime, data) else None
    else None
  else None.

Definition textBlock (text : string) : json :=
  JObj [("type", JStr "text"); ("text", JStr text)].

(** One iteration of [for (const part of content)]: the blocks pushed. *)
Definition convertPart (part : OpenAIContentPart) : list json :=
  if String.eqb (part_type part) "text" && Js.truthy (orEmpty (part_text part))
  then [textBlock (orEmpty (part_text part))]
  else if String.eqb (part_type part) "image_url" &&
          Js.truthy (orEmpty (part_image_url part))
  then
    let url := orEmpty (part_image_url part) in
    match matchDataUri url with
    | Some (mime, data) =>
        [JObj [("type", JStr "image");
               ("source", JObj [("type", JStr "base64");
                                ("media_type", JStr mime);
                                ("data", JStr data)])]]
    | None => [textBlock ("[image_url] " +:+ url)]
    end
  else [].

(** [convertOpenAIPartsToAnthropicContent]: a content that is [null] or
    [undefined] is not iterable. *)
Definition convertOpenAIPartsToAnthropicContent (c : option OpenAIContent)
  : option (list json) :=
  match c with
  | Some (ContentString text) =>
      Some (if Js.truthy (Js.trim text) then [textBlock text] else [])
  | Some (ContentParts parts) => Some (List.concat (List.map convertPart parts))
  | None => None
  end.

Definition convertOpenAIToolsToAnthropicTools (t : option (list OpenAITool)) : jsval :=
  match t with
  | None | Some [] => None
  | Some l =>
      Some (JArr
        (List.map (fun tool =>
                     obj [("name", Some (JStr (tool_name tool)));
                          ("description", JStr <$> tool_description tool);
                          ("input_schema",
                           Some (OpenAICompat.orValue (tool_parameters tool)
                                   (JObj [("type", JStr "object");
                                          ("properties", JObj [])])))])
                  l))
  end.

Section Conversion.

(** [JSON.parse]; [None] when it throws. *)
Variable JSON_parse : string -> option json.
(** The successive results of [uuidv4()]. *)
Variable uuidv4 : nat -> string.

Definition parseOpenAIFunctionArguments (argumentsString : string) : json :=
  if negb (Js.truthy argumentsString) || negb (Js.truthy (Js.trim argumentsString))
  then JObj []
  else
    match JSON_parse argumentsString with
    | Some parsed => if isRecord parsed then parsed else JObj [("value", parsed)]
    | None => JObj [("raw", JStr argumentsString)]
    end.

Definition toolUseBlock (toolCall : OpenAIToolCall) : json :=
  JObj [("type", JStr "tool_use");
        ("id", JStr (call_id toolCall));
        ("name", JStr (call_name toolCall));
        ("input", parseOpenAIFunctionArguments (call_arguments toolCall))].

(** The variables of the loop of [convertOpenAIToClaude], with the number
    of ids drawn so far. *)
Record Converted := mkConverted {
  systemPromptParts : list string;
  anthropicMessages : list json;
  drawn : nat
}.

(** One iteration of [for (const msg of messages)]. *)
Definition convertMessage (acc : Converted) (msg : OpenAIMessage) : option Converted :=
  if String.eqb (role msg) "system" then
    systemText ← extractOpenAITextContent (content msg);
    Some (mkConverted
            (if Js.truthy systemText then systemPromptParts acc ++ [systemText]
             else systemPromptParts acc)
            (anthropicMessages acc) (drawn acc))
  else if String.eqb (role msg) "tool" then
    toolResultText ← extractOpenAITextContent (content msg);
    let '(tool_use_id, drawn') :=
      if Js.truthy (orEmpty (tool_call_id msg)) then (orEmpty (tool_call_id msg), drawn acc)
      else if Js.truthy (orEmpty (name msg)) then (orEmpty (name msg), drawn acc)
      else ("tool-result-" +:+ uuidv4 (drawn acc), S (drawn acc)) in
    Some (mkConverted (systemPromptParts acc)
            (anthropicMessages acc ++
             [JObj [("role", JStr "user");
                    ("content",
                     JArr [JObj [("type", JStr "tool_result");
                                 ("tool_use_id", JStr tool_use_id);
                                 ("content", JStr toolResultText);
                                 ("is_error", JBool false)]])]])
            drawn')
  else
    textBlocks ← convertOpenAIPartsToAnthropicContent (content msg);
    let contentBlocks :=
      textBlocks ++
      (if String.eqb (role msg) "assistant"
       then List.map toolUseBlock (default [] (tool_calls msg))
       else []) in
    Some (mkConverted (systemPromptParts acc)
            (anthropicMessages acc ++
             [JObj [("role",
                     JStr (if String.eqb (role msg) "assistant" then "assistant"
                           else "user"));
                    ("content",
                     match contentBlocks with
                     | [] => JStr ""
                     | _ => JArr contentBlocks
                     end)]])
            (drawn acc)).

Fixpoint convertMessages (msgs : list OpenAIMessage) (acc : Converted)
  : option Converted :=
  match msgs with
  | [] => Some acc
  | msg :: rest => acc' ← convertMessage acc msg; convertMessages rest acc'
  end.

Definition convertOpenAIToClaude (request : OpenAIChatRequest) : option json :=
  converted ← convertMessages (default [] (messages request)) (mkConverted [] [] 0);
  Some (obj
    [("model", Some (JStr (model request)));
     ("messages", Some (JArr (anthropicMessages converted)));
     ("system",
      match systemPromptParts converted with
      | [] => None
      | parts => Some (JStr (joinWith ProxyService.nl parts))
      end);
     ("tools", convertOpenAIToolsToAnthropicTools (tools request));
     ("max_tokens", max_tokens request);
     ("temperature", temperature request);
     ("top_p", top_p request);
     ("stream", stream request);
     ("metadata",
      Some (JObj (Js.mapSet "source" (JStr "openai") (default [] (extra request)))))]).

End Conversion.

End OpenAIRequests.

(** ** Successive calls *)

Module Runs.

Module TM := TokenManagerService.

Section Selections.

Variable getAccounts : option (list TM.CloudAccount).
Variable refreshAccessToken : string -> option (string * Z).
Variable generateSessionId : string.

(** Successive calls of [getNextToken()] without options, one for each
    entry of [times] (the two readings of [Date.now()] of the call): the ids
    of the accounts returned and the pool left. *)
Fixpoint selectMany (times : list (Z * Z)) (tm : TM.TokenManager)
  : list (option string) * TM.TokenManager :=
  match times with
  | [] => ([], tm)
  | (now, nowFinal) :: rest =>
      let '(account, tm') :=
        TM.getNextToken getAccounts refreshAccessToken generateSessionId None []
          now nowFinal tm in
      let '(ids, tm'') := selectMany rest tm' in
      ((TM.id <$> account) :: ids, tm'')
  end.

End Selections.

(** A computation that fails with [message] in every world, leaving the
    pool and the clock as they are and selecting no account. *)
Definition failsWith {A : Type} (message : string) (m : ProxyService.M A) : Prop :=
  forall w, exists evs,
    (m w).1 = inl message /\
    ProxyService.pool (m w).2 = ProxyService.pool w /\
    ProxyService.clock (m w).2 = ProxyService.clock w /\
    ProxyService.trace (m w).2 = ProxyService.trace w ++ evs /\
    Forall ProxyService.notSelection evs.

(** Account [a] is in cooldown until [since] or later. *)
Definition benched (since : Z) (tm : TM.TokenManager) (a : string) : Prop :=
  exists cooldownUntil,
    TM.cooldowns tm !! a = Some cooldownUntil /\ (since <= cooldownUntil)%Z.

(** A handler run that fails with [message] after three selections, every
    account selected being benched for 30 minutes or more from the start
    of the run. *)
Definition benchesEveryAttempt {A : Type} (message : string) (m : ProxyService.M A)
  : Prop :=
  forall w, TM.tokens (ProxyService.pool w) <> [] ->
    exists evs,
      (m w).1 = inl message /\
      ProxyService.trace (m w).2 = ProxyService.trace w ++ evs /\
      length (ProxyService.selectionsOf evs) = 3 /\
      forall ex a, In (ex, Some a) (ProxyService.selectionsOf evs) ->
                   benched (ProxyService.clock w + 30 * 60 * 1000)
                           (ProxyService.pool (m w).2) a.

End Runs.

(** ** The conditions of an OpenAI stream

    What the subscriber of [processStreamResponse] has seen, in the two
    conditions the listeners keep the stream in. *)

Module StreamStates.

Import ProxyService.

(** The stream is open: nothing closed it, no [[DONE]] frame went out, and
    [hasEmittedChunk] tells whether something was emitted. *)
Definition streaming (st : OpenAIStreamState) : Prop :=
  closed (o_sub st) = None /\
  hasSentDone st = false /\
  (hasEmittedChunk st = false <-> emitted (o_sub st) = []) /\
  ~ In doneFrame (emitted (o_sub st)).

(** The subscriber was completed after some frames and, last, one
    [[DONE]] frame. *)
Definition terminated (sub : Subscriber) : Prop :=
  closed sub = Some Completed /\
  exists frames : list string,
    emitted sub = frames ++ [doneFrame] /\ frames <> [] /\ ~ In doneFrame frames.

Definition finished (st : OpenAIStreamState) : Prop :=
  hasSentDone st = true /\ terminated (o_sub st).

Definition wellFormed (st : OpenAIStreamState) : Prop := streaming st \/ finished st.

End StreamStates.

(** ** Data frames of the upstream stream

    A frame as the internal API sends it in one SSE event: the parts of its
    first candidate (each a record), its finish reason and its usage
    metadata (a record), the last two present or not. *)

Module GeminiFrames.

Import Json.

Record Frame := mkFrame {
  parts : list (list (string * json));
  finishReason : option string;
  usageMetadata : option (list (string * json))
}.

Definition whenPresent {A : Type} (name : string) (value : option A) (asJson : A -> json)
  : list (string * json) :=
  match value with
  | Some v => [(name, asJson v)]
  | None => []
  end.

Definition frameJson (frame : Frame) : json :=
  JObj ([("candidates",
          JArr [JObj ([("content",
                        JObj [("role", JStr "model");
                              ("parts", JArr (List.map JObj (parts frame)))])]
                      ++ whenPresent "finishReason" (finishReason frame) JStr)])]
        ++ whenPresent "usageMetadata" (usageMetadata frame) JObj).

(** The last of the values that are present. *)
Definition lastPresent {A : Type} (values : list (option A)) : option A :=
  fold_left (fun found value => match value with Some v => Some v | None => found end)
            values None.

Definition lineFeed : string := String "010"%char EmptyString.

(** The SSE event that carries [text]. *)
Definition sseEvent (text : string) : string :=
  "data: " +:+ text +:+ lineFeed +:+ lineFeed.

(** A text that can travel in one SSE event and is read as data: not
    empty, on one line, without white space at its end, and not the
    [DONE] sentinel. *)
Definition dataText (text : string) : Prop :=
  text <> "" /\ text <> "[DONE]" /\ Js.trimEnd text = text /\
  forall c, In c (list_ascii_of_string text) -> c <> "010"%char.

(** The response that holds the parts of all [frames], the last finish
    reason and the last usage metadata. *)
Definition merged (frames : list Frame) : json :=
  JObj ([("candidates",
          JArr [JObj ([("content",
                        JObj [("role", JStr "model");
                              ("parts",
                               JArr (List.map JObj (List.concat (List.map parts frames))))])]
                      ++ whenPresent "finishReason"
                           (lastPresent (List.map finishReason frames)) JStr)])]
        ++ whenPresent "usageMetadata"
             (lastPresent (List.map usageMetadata frames)) JObj).

End GeminiFrames.

(** ** Further sample data *)

Module Scenarios.

(** A refresher that always answers, with a token that lives one hour. *)
Definition alwaysRefresh (refreshToken : string) : option (string * Z) :=
  Some ("fresh-" +:+ refreshToken, 3600%Z).

(** A client that rejects every call as forbidden. *)
Definition forbidUnary (n : nat) (call : ProxyService.UpstreamCall)
  : string + Json.jsval := inl "403 Forbidden".

Definition forbidStreaming (n : nat) (call : ProxyService.UpstreamCall)
  : string + ProxyService.ReadableStream := inl "403 Forbidden".

(** An Anthropic request that names its session, with white space around
    the name. *)
Definition anthropicWithSession : ProxyService.AnthropicChatRequest :=
  ProxyService.mkAnthropicRequest "claude-sonnet-4-5" false
    (Some (Json.JObj [("session_id", Json.JStr " s1 ")])) Json.JNull.

(** A streaming client for the quota scenario: the first call is rejected
    with a quota message, the next one answers with a stream. *)
Definition quotaThenStream (n : nat) (call : ProxyService.UpstreamCall)
  : string + ProxyService.ReadableStream :=
  match n with
  | O => inl "Resource has been exhausted (e.g. check quota)."
  | _ => inr Sample.helloStream
  end.

(** A line feed, and a text with its apostrophes read as double quotes:
    the way JSON texts are written down here. *)
Definition lineFeed : string := String "010"%char EmptyString.

Fixpoint doubleQuoted (text : string) : string :=
  match text with
  | EmptyString => EmptyString
  | String c rest =>
      String (if Ascii.eqb c "039"%char then "034"%char else c) (doubleQuoted rest)
  end.

(** An Anthropic request whose [session_id] is [null] and which names the
    session in [sessionId]. *)
Definition anthropicSecondMember : ProxyService.AnthropicChatRequest :=
  ProxyService.mkAnthropicRequest "claude-sonnet-4-5" false
    (Some (Json.JObj [("session_id", Json.JNull); ("sessionId", Json.JStr "x");
                      ("user_id", Json.JStr "u")]))
    Json.JNull.

(** A Claude response with a thinking block, two text blocks and a usage. *)
Definition claudeHello : Json.json :=
  Json.JObj
    [("id", Json.JStr "msg_1");
     ("content",
      Json.JArr
        [Json.JObj [("type", Json.JStr "thinking"); ("thinking", Json.JStr "hm")];
         Json.JObj [("type", Json.JStr "text"); ("text", Json.JStr "Hello, ")];
         Json.JObj [("type", Json.JStr "text"); ("text", Json.JStr "world")]]);
     ("stop_reason", Json.JStr "end_turn");
     ("usage", Json.JObj [("input_tokens", Json.JNum 3); ("output_tokens", Json.JNum 4)])].

(** Two frames, the second with finish reason and usage metadata; the
    parser that reads their texts; and the stream that delivers their
    events in three chunks cut in mid-line. *)
Definition frameHello : GeminiFrames.Frame :=
  GeminiFrames.mkFrame [[("text", Json.JStr "hello ")]] None None.

Definition frameWorld : GeminiFrames.Frame :=
  GeminiFrames.mkFrame [[("text", Json.JStr "world")]] (Some "STOP")
    (Some [("totalTokenCount", Json.JNum 7)]).

Definition textHello : string :=
  doubleQuoted "{'candidates':[{'content':{'role':'model','parts':[{'text':'hello '}]}}]}".

Definition textWorld : string :=
  doubleQuoted
    ("{'candidates':[{'content':{'role':'model','parts':[{'text':'world'}]}," +:+
     "'finishReason':'STOP'}],'usageMetadata':{'totalTokenCount':7}}").

Definition parseFrames (text : string) : option Json.json :=
  if String.eqb text textHello then Some (GeminiFrames.frameJson frameHello)
  else if String.eqb text textWorld then Some (GeminiFrames.frameJson frameWorld)
  else None.

Definition framesStream : ProxyService.ReadableStream :=
  ProxyService.mkStream
    ["data: " +:+ String.substring 0 20 textHello;
     String.substring 20 200 textHello +:+ lineFeed +:+ lineFeed +:+ "data: ";
     textWorld +:+ lineFeed +:+ lineFeed]
    ProxyService.End.

Definition framesStreaming (n : nat) (call : ProxyService.UpstreamCall)
  : string + ProxyService.ReadableStream :=
  inr framesStream.

End Scenarios.

(** * Properties *)

(** ** Strings *)

Section StringFacts.

Lemma append_cons (c : ascii) (s t : string) :
  String c s +:+ t = String c (s +:+ t).
Proof. reflexivity. Qed.

Lemma append_nil_l (s : string) : "" +:+ s = s.
Proof. reflexivity. Qed.

Lemma append_nil_r (s : string) : s +:+ "" = s.
Proof.
  induction s as [|c s IH]; [reflexivity|]. now rewrite append_cons, IH.
Qed.

Lemma append_assoc (a b c : string) : (a +:+ b) +:+ c = a +:+ (b +:+ c).
Proof.
  induction a as [|x a IH]; [reflexivity|]. now rewrite !append_cons, IH.
Qed.

Lemma toLowerCase_app (a b : string) :
  Js.toLowerCase (a +:+ b) = Js.toLowerCase a +:+ Js.toLowerCase b.
Proof.
  induction a as [|x a IH]; [reflexivity|].
  rewrite append_cons. simpl. now rewrite IH.
Qed.

(** Lower-casing is letter by letter, so any factorisation of the result
    comes from a factorisation of the argument. *)
Lemma toLowerCase_split (s a b : string) :
  Js.toLowerCase s = a +:+ b ->
  exists a' b', s = a' +:+ b' /\ Js.toLowerCase a' = a /\ Js.toLowerCase b' = b.
Proof.
  revert s. induction a as [|x a IH]; intros s H.
  - exists "", s. auto.
  - destruct s as [|c s]; rewrite append_cons in H; simpl in H; [discriminate|].
    injection H as Hc Hs. destruct (IH _ Hs) as (a' & b' & -> & Ha & Hb).
    exists (String c a'), b'. rewrite append_cons. simpl. now rewrite Hc, Ha.
Qed.

Lemma prefix_app (p s : string) : String.prefix p (p +:+ s) = true.
Proof.
  induction p as [|c p IH]; [now destruct s|].
  rewrite append_cons. simpl.
  destruct (ascii_dec c c); [exact IH | congruence].
Qed.

Lemma prefix_split (p s : string) :
  String.prefix p s = true -> exists r, s = p +:+ r.
Proof.
  revert s. induction p as [|c p IH]; intros s H.
  - exists s. reflexivity.
  - destruct s as [|d s]; simpl in H; [discriminate|].
    destruct (ascii_dec c d) as [->|]; [|discriminate].
    destruct (IH _ H) as [r ->]. now exists r.
Qed.

(** [includes] decides the factor relation. *)
Lemma includes_iff (s sub : string) :
  Js.includes s sub = true <-> exists pre post, s = pre +:+ sub +:+ post.
Proof.
  split.
  - induction s as [|c s IH]; intros H.
    + apply prefix_split in H as [r Hr]. exists "", r. exact Hr.
    + cbn [Js.includes] in H. apply orb_true_iff in H as [H|H].
      * apply prefix_split in H as [r Hr]. exists "", r. exact Hr.
      * destruct (IH H) as (pre & post & ->). now exists (String c pre), post.
  - intros (pre & post & ->). induction pre as [|c pre IH].
    + rewrite append_nil_l. destruct (sub +:+ post) eqn:E.
      * destruct sub; [reflexivity | discriminate].
      * cbn [Js.includes]. rewrite <- E. now rewrite prefix_app.
    + rewrite append_cons. cbn [Js.includes]. rewrite IH. apply orb_true_r.
Qed.

Lemma includes_lower_iff (msg kw : string) :
  Js.includes (Js.toLowerCase msg) kw = true <-> ContainsCI msg kw.
Proof.
  rewrite includes_iff. split.
  - intros (pre & post & H).
    apply toLowerCase_split in H as (pre' & rest & -> & _ & H).
    apply toLowerCase_split in H as (mid & post' & -> & Hm & _).
    now exists pre', mid, post'.
  - intros (pre & mid & post & -> & <-).
    exists (Js.toLowerCase pre), (Js.toLowerCase post).
    now rewrite !toLowerCase_app.
Qed.

Lemma includes_lower_false (msg kw : string) :
  ~ ContainsCI msg kw -> Js.includes (Js.toLowerCase msg) kw = false.
Proof.
  intros H. destruct (Js.includes _ _) eqn:E; [|reflexivity].
  now apply includes_lower_iff in E.
Qed.

End StringFacts.

(** ** Error classification *)

Import ProxyService.

Section Classification.

Lemma AnyCI_includes (msg : string) (kws : list string) :
  AnyCI msg kws -> exists kw, In kw kws /\ Js.includes (Js.toLowerCase msg) kw = true.
Proof.
  intros H. apply List.Exists_exists in H as (kw & Hin & Hc).
  exists kw. split; [exact Hin | now apply includes_lower_iff].
Qed.

Lemma not_AnyCI_includes (msg : string) (kws : list string) :
  ~ AnyCI msg kws ->
  Forall (fun kw => Js.includes (Js.toLowerCase msg) kw = false) kws.
Proof.
  intros H. apply List.Forall_forall. intros kw Hin.
  apply includes_lower_false. intros Hc. apply H.
  apply List.Exists_exists. now exists kw.
Qed.

End Classification.

(** Rewrites every [includes] test of a keyword table known to fail. *)
Ltac kill_keywords H :=
  apply not_AnyCI_includes in H;
  cbv [forbiddenKeywords rateLimitKeywords transientKeywords] in H;
  repeat match type of H with
         | Forall _ (_ :: _) =>
             let E := fresh "E" in
             apply List.Forall_cons_iff in H as [E H]; rewrite ?E
         end.

(** Settles a classification once one keyword of a table is known to occur. *)
Ltac hit_keyword H :=
  apply AnyCI_includes in H as (? & Hin & Hhit);
  cbn [In forbiddenKeywords rateLimitKeywords transientKeywords] in Hin;
  repeat (destruct Hin as [<-|Hin]; [rewrite Hhit | ]); [.. | destruct Hin].

Section Cascade.

Variable msg : string.

Lemma classify_forbidden :
  AnyCI msg forbiddenKeywords ->
  classifyUpstreamError msg = mkDecision true true false.
Proof.
  intros H. unfold classifyUpstreamError.
  hit_keyword H. all: now rewrite ?orb_true_r.
Qed.

Lemma classify_rate_limited :
  ~ AnyCI msg forbiddenKeywords -> AnyCI msg rateLimitKeywords ->
  classifyUpstreamError msg = mkDecision true false true.
Proof.
  intros Hf H. unfold classifyUpstreamError. kill_keywords Hf. cbn [orb].
  hit_keyword H. all: rewrite ?orb_true_r; cbn [orb]. all: now rewrite ?orb_true_r.
Qed.

Lemma classify_transient :
  ~ AnyCI msg forbiddenKeywords -> ~ AnyCI msg rateLimitKeywords ->
  AnyCI msg transientKeywords ->
  classifyUpstreamError msg =
  mkDecision true false (Js.includes (Js.toLowerCase msg) "rate limit").
Proof.
  intros Hf Hr Ht.
  unfold classifyUpstreamError. kill_keywords Hf. kill_keywords Hr. cbn [orb].
  hit_keyword Ht. all: rewrite ?orb_true_r; cbn [orb]. all: now rewrite ?orb_true_r.
Qed.

End Cascade.

(** C2, as amended.  The taxonomy is a cascade.  A message with a forbidden
    keyword is retried and marked forbidden.  Otherwise, a message with one
    of 429, resource_exhausted, quota, rate_limit is retried and marked
    rate-limited.  Otherwise, a message with one of 408, 500, 502, 503, 504,
    socket hang up, timeout, empty response stream, connection reset is
    retried and not marked forbidden; it is marked rate-limited exactly
    when it contains "rate limit". *)
Theorem C2_classification_cascade (msg : string) :
  (AnyCI msg forbiddenKeywords ->
   classifyUpstreamError msg = mkDecision true true false) /\
  (~ AnyCI msg forbiddenKeywords -> AnyCI msg rateLimitKeywords ->
   classifyUpstreamError msg = mkDecision true false true) /\
  (~ AnyCI msg forbiddenKeywords -> ~ AnyCI msg rateLimitKeywords ->
   AnyCI msg transientKeywords ->
   retry (classifyUpstreamError msg) = true /\
   markAsForbidden (classifyUpstreamError msg) = false /\
   (markAsRateLimited (classifyUpstreamError msg) = true <->
    ContainsCI msg "rate limit")).
Proof.
  split; [apply classify_forbidden | split; [apply classify_rate_limited |]].
  intros Hf Hr Ht. rewrite (classify_transient _ Hf Hr Ht).
  cbn [retry markAsForbidden markAsRateLimited].
  split; [reflexivity | split; [reflexivity | apply includes_lower_iff]].
Qed.

Section ClassificationInstances.

Lemma AnyCI_decide_true (msg : string) (kws : list string) :
  existsb (Js.includes (Js.toLowerCase msg)) kws = true -> AnyCI msg kws.
Proof.
  intros H. apply existsb_exists in H as (kw & Hin & Hc).
  apply List.Exists_exists. exists kw. split; [exact Hin | now apply includes_lower_iff].
Qed.

Lemma AnyCI_decide_false (msg : string) (kws : list string) :
  existsb (Js.includes (Js.toLowerCase msg)) kws = false -> ~ AnyCI msg kws.
Proof.
  intros H Hc. apply AnyCI_includes in Hc as (kw & Hin & Hk).
  assert (existsb (Js.includes (Js.toLowerCase msg)) kws = true)
    by (apply existsb_exists; eauto).
  congruence.
Qed.

End ClassificationInstances.

(** Witness of [C2_classification_cascade]: one message per rung of the
    cascade. *)
Lemma C2_classification_cascade_witness :
  (AnyCI "403 Forbidden" forbiddenKeywords /\
   classifyUpstreamError "403 Forbidden" = mkDecision true true false) /\
  (~ AnyCI "429 Quota exceeded" forbiddenKeywords /\
   AnyCI "429 Quota exceeded" rateLimitKeywords /\
   classifyUpstreamError "429 Quota exceeded" = mkDecision true false true) /\
  (~ AnyCI "Socket hang up" forbiddenKeywords /\
   ~ AnyCI "Socket hang up" rateLimitKeywords /\
   AnyCI "Socket hang up" transientKeywords /\
   retry (classifyUpstreamError "Socket hang up") = true /\
   markAsForbidden (classifyUpstreamError "Socket hang up") = false).
Proof.
  assert (F1 : AnyCI "403 Forbidden" forbiddenKeywords)
    by (apply AnyCI_decide_true; reflexivity).
  assert (F2 : ~ AnyCI "429 Quota exceeded" forbiddenKeywords)
    by (apply AnyCI_decide_false; reflexivity).
  assert (R2 : AnyCI "429 Quota exceeded" rateLimitKeywords)
    by (apply AnyCI_decide_true; reflexivity).
  assert (F3 : ~ AnyCI "Socket hang up" forbiddenKeywords)
    by (apply AnyCI_decide_false; reflexivity).
  assert (R3 : ~ AnyCI "Socket hang up" rateLimitKeywords)
    by (apply AnyCI_decide_false; reflexivity).
  assert (T3 : AnyCI "Socket hang up" transientKeywords)
    by (apply AnyCI_decide_true; reflexivity).
  split; [|split].
  - split; [exact F1|]. exact (proj1 (C2_classification_cascade _) F1).
  - split; [exact F2|]. split; [exact R2|].
    exact (proj1 (proj2 (C2_classification_cascade _)) F2 R2).
  - split; [exact F3|]. split; [exact R3|]. split; [exact T3|].
    destruct (proj2 (proj2 (C2_classification_cascade _)) F3 R3 T3) as (A & B & _).
    split; [exact A | exact B].
Defined.

(** C2 as stated fails.  "rate limit timeout" carries the transport keyword
    timeout, no forbidden keyword and none of 429, resource_exhausted,
    quota, rate_limit, yet the account is marked rate-limited.  And
    "403 quota exceeded" carries the rate-limit keyword quota, yet the
    account is marked forbidden and not rate-limited. *)
Lemma C2_counterexample :
  (AnyCI "rate limit timeout" transientKeywords /\
   ~ AnyCI "rate limit timeout" forbiddenKeywords /\
   ~ AnyCI "rate limit timeout" rateLimitKeywords /\
   classifyUpstreamError "rate limit timeout" = mkDecision true false true /\
   classifyUpstreamError "rate limit timeout" <> mkDecision true false false) /\
  (AnyCI "403 quota exceeded" rateLimitKeywords /\
   classifyUpstreamError "403 quota exceeded" = mkDecision true true false /\
   classifyUpstreamError "403 quota exceeded" <> mkDecision true false true).
Proof.
  split.
  - split; [apply AnyCI_decide_true; reflexivity|].
    split; [apply AnyCI_decide_false; reflexivity|].
    split; [apply AnyCI_decide_false; reflexivity|].
    split; [reflexivity | discriminate].
  - split; [apply AnyCI_decide_true; reflexivity|].
    split; [reflexivity | discriminate].
Qed.

(** ** Marking after a classified failure *)

Section Marking.

Lemma resolveAccountId_known (tm : TM.TokenManager) (accId : string) :
  is_Some (Js.mapGet accId (TM.tokens tm)) ->
  TM.resolveAccountId tm accId = Some accId.
Proof. intros [td H]. unfold TM.resolveAccountId. now rewrite H. Qed.

Lemma markInCooldown_known (now d : Z) (tm : TM.TokenManager) (accId : string) :
  is_Some (Js.mapGet accId (TM.tokens tm)) ->
  TM.cooldowns (TM.markInCooldown now accId d tm) !! accId = Some (now + d)%Z.
Proof.
  intros H. unfold TM.markInCooldown. rewrite (resolveAccountId_known _ _ H).
  cbn. apply lookup_insert_eq.
Qed.

End Marking.



(** ** The token pool *)

Section ListFacts.

Lemma length_zero_nil {A : Type} (l : list A) :
  Nat.eqb (length l) 0 = true <-> l = [].
Proof. destruct l; cbn; split; congruence. Qed.

Lemma find_key_in {V : Type} (k : string) (l : list (string * V)) (e : string * V) :
  List.find (fun e => String.eqb e.1 k) l = Some e -> e.1 = k /\ In e l.
Proof.
  intros H. apply find_some in H as [Hin Hk].
  apply String.eqb_eq in Hk. auto.
Qed.

Lemma find_key_some {V : Type} (k : string) (l : list (string * V)) :
  In k (List.map fst l) -> is_Some (List.find (fun e => String.eqb e.1 k) l).
Proof.
  induction l as [|[k' v] l IH]; cbn; [tauto|].
  intros [->|H].
  - rewrite String.eqb_refl. eauto.
  - destruct (String.eqb k' k); eauto.
Qed.

Lemma filter_all_false {A : Type} (f : A -> bool) (l : list A) :
  (forall x, In x l -> f x = false) -> List.filter f l = [].
Proof.
  induction l as [|x l IH]; cbn; intros H; [reflexivity|].
  rewrite (H x (or_introl eq_refl)). apply IH. intros y Hy. apply H. now right.
Qed.

End ListFacts.

Section PoolFacts.

Variable getAccounts : option (list TM.CloudAccount).
Variable refreshAccessToken : string -> option (string * Z).
Variable generateSessionId : string.

Local Abbreviation getNextToken :=
  (TM.getNextToken getAccounts refreshAccessToken generateSessionId).
Local Abbreviation finalizeSelectedToken := (TM.finalizeSelectedToken refreshAccessToken).
Local Abbreviation reloadIfEmpty := (TM.reloadIfEmpty getAccounts generateSessionId).

Lemma finalize_fst (accId : string) (td : TM.TokenData) (ns nf : Z)
  (sk : option string) (tm : TM.TokenManager) :
  exists td', (finalizeSelectedToken accId td ns nf sk tm).1
              = Some (TM.toCloudAccount accId td' nf)
              /\ TM.td_project_id td' =
                 TM.td_project_id (TM.sanitizeProjectId td).
Proof.
  unfold TM.finalizeSelectedToken. cbn [fst].
  destruct (_ <=? _)%Z; [destruct (refreshAccessToken _) as [[a e]|]|];
    eexists; (split; [reflexivity|]); unfold TM.sanitizeProjectId; cbn;
    destruct (TM.discardsProjectId _); reflexivity.
Qed.

Lemma finalize_id (accId : string) (td : TM.TokenData) (ns nf : Z)
  (sk : option string) (tm : TM.TokenManager) :
  exists acc, (finalizeSelectedToken accId td ns nf sk tm).1 = Some acc
              /\ TM.id acc = accId.
Proof.
  destruct (finalize_fst accId td ns nf sk tm) as (td' & E & _).
  rewrite E. eexists. split; reflexivity.
Qed.

Lemma allTokens_nonempty (ex : gset string) (tm : TM.TokenManager) :
  TM.tokens tm <> [] -> TM.allTokens ex tm <> [].
Proof.
  intros H. unfold TM.allTokens.
  destruct (TM.excludedFilteredTokens ex tm); [exact H | discriminate].
Qed.

Lemma candidateTokens_nonempty (ex : gset string) (now : Z) (tm : TM.TokenManager) :
  TM.tokens tm <> [] -> TM.candidateTokens ex now tm <> [].
Proof.
  intros H. unfold TM.candidateTokens.
  destruct (TM.validTokens ex now tm); [now apply allTokens_nonempty | discriminate].
Qed.

Lemma candidateTokens_clearExpired (ex : gset string) (now t : Z) (tm : TM.TokenManager) :
  TM.candidateTokens ex now (TM.clearExpiredSessionBindings t tm)
  = TM.candidateTokens ex now tm.
Proof. reflexivity. Qed.

(** The selection made on a non-empty pool: always an account, and one of
    the candidates. *)
Lemma getNextToken_selects (sk : option string) (ex : list string) (now nf : Z)
  (tm : TM.TokenManager) :
  TM.tokens (reloadIfEmpty tm) <> [] ->
  exists acc,
    (getNextToken sk ex now nf tm).1 = Some acc /\
    In (TM.id acc)
       (List.map fst (TM.candidateTokens (list_to_set ex) now (reloadIfEmpty tm))).
Proof.
  intros Hne. unfold TM.getNextToken.
  destruct (Nat.eqb _ 0) eqn:E0; [apply length_zero_nil in E0; contradiction|].
  cbv zeta. rewrite candidateTokens_clearExpired.
  pose proof (candidateTokens_nonempty (list_to_set ex) now _ Hne) as Hc.
  set (cands := TM.candidateTokens _ _ _) in *.
  destruct cands as [|c0 cs] eqn:Ec; [contradiction|]. rewrite <- Ec in *.
  destruct (TM.stickyMatch _ _ _ _) as [[sa std]|] eqn:Es.
  - destruct (finalize_id sa std (now / 1000) nf (Js.trim <$> sk)
                (TM.clearExpiredSessionBindings now (reloadIfEmpty tm)))
      as (acc & E & Hid).
    exists acc. split; [exact E|]. rewrite Hid.
    unfold TM.stickyMatch in Es.
    destruct (Js.trim <$> sk) as [k|]; [|discriminate].
    destruct (Js.truthy k); [|discriminate].
    destruct (_ !! k) as [b|]; [|discriminate].
    destruct (_ <? _)%Z; [|discriminate].
    apply find_key_in in Es as [_ Hin]. now apply (in_map fst) in Hin.
  - destruct (cands !! _) as [[a td]|] eqn:El.
    + destruct (finalize_id a td (now / 1000) nf (Js.trim <$> sk)
                  (TM.setCurrentIndex
                     (S (TM.currentIndex
                           (TM.clearExpiredSessionBindings now (reloadIfEmpty tm))))
                     (TM.clearExpiredSessionBindings now (reloadIfEmpty tm))))
        as (acc & E & Hid).
      exists acc. split; [exact E|]. rewrite Hid.
      apply list_elem_of_lookup_2 in El. apply list_elem_of_In in El.
      now apply (in_map fst) in El.
    + exfalso. apply lookup_ge_None in El.
      assert (length cands <> 0) by (rewrite Ec; cbn; lia).
      pose proof (Nat.mod_upper_bound
                    (TM.currentIndex
                       (TM.clearExpiredSessionBindings now (reloadIfEmpty tm)))
                    (length cands) H). lia.
Qed.

Lemma getNextToken_empty (sk : option string) (ex : list string) (now nf : Z)
  (tm : TM.TokenManager) :
  TM.tokens (reloadIfEmpty tm) = [] -> (getNextToken sk ex now nf tm).1 = None.
Proof.
  intros H. unfold TM.getNextToken. now rewrite H.
Qed.

End PoolFacts.

Section SelectNext.

Variable getAccounts : option (list TM.CloudAccount).
Variable refreshAccessToken : string -> option (string * Z).
Variable generateSessionId : string.

Local Abbreviation getNextToken :=
  (TM.getNextToken getAccounts refreshAccessToken generateSessionId).
Local Abbreviation reloadIfEmpty := (TM.reloadIfEmpty getAccounts generateSessionId).

Lemma reloadIfEmpty_nonempty (tm : TM.TokenManager) :
  TM.tokens tm <> [] -> reloadIfEmpty tm = tm.
Proof.
  intros H. unfold TM.reloadIfEmpty.
  destruct (Nat.eqb _ 0) eqn:E; [apply length_zero_nil in E; contradiction|reflexivity].
Qed.

Lemma exclusion_fallback (ex : gset string) (now : Z) (tm : TM.TokenManager) :
  (forall e, In e (TM.tokens tm) -> e.1 ∈ ex) ->
  TM.candidateTokens ex now tm = TM.tokens tm.
Proof.
  intros Hall.
  assert (Ef : TM.excludedFilteredTokens ex tm = []).
  { apply filter_all_false. intros e He.
    now rewrite (bool_decide_eq_true_2 _ (Hall e He)). }
  assert (Ea : TM.allTokens ex tm = TM.tokens tm)
    by (unfold TM.allTokens; now rewrite Ef).
  assert (Ev : TM.validTokens ex now tm = []).
  { unfold TM.validTokens. rewrite Ea. apply filter_all_false. intros e He.
    now rewrite (bool_decide_eq_true_2 _ (Hall e He)). }
  unfold TM.candidateTokens. now rewrite Ev, Ea.
Qed.

Lemma cooldown_fallback (ex : gset string) (now : Z) (tm : TM.TokenManager) :
  TM.excludedFilteredTokens ex tm <> [] ->
  (forall e, In e (TM.excludedFilteredTokens ex tm) ->
             TM.notCooling (TM.cooldowns tm) now e.1 = false) ->
  TM.candidateTokens ex now tm = TM.excludedFilteredTokens ex tm.
Proof.
  intros Hne Hcool.
  assert (Ea : TM.allTokens ex tm = TM.excludedFilteredTokens ex tm).
  { unfold TM.allTokens. destruct (TM.excludedFilteredTokens ex tm); congruence. }
  assert (Ev : TM.validTokens ex now tm = []).
  { unfold TM.validTokens. rewrite Ea. apply filter_all_false. intros e He.
    rewrite (Hcool e He). now destruct (bool_decide _). }
  unfold TM.candidateTokens. now rewrite Ev, Ea.
Qed.

End SelectNext.

(** ** Session bindings *)

Section Sticky.

Variable getAccounts : option (list TM.CloudAccount).
Variable refreshAccessToken : string -> option (string * Z).
Variable generateSessionId : string.

Local Abbreviation getNextToken :=
  (TM.getNextToken getAccounts refreshAccessToken generateSessionId).
Local Abbreviation finalizeSelectedToken := (TM.finalizeSelectedToken refreshAccessToken).

(** What finalization leaves in the binding table. *)
Lemma finalize_bindings (accId : string) (td : TM.TokenData) (ns nf : Z)
  (sk : option string) (tm : TM.TokenManager) :
  TM.sessionBindings (finalizeSelectedToken accId td ns nf sk tm).2 =
  match sk with
  | Some k =>
      if Js.truthy k
      then <[k := TM.mkBinding accId (nf + TM.stickySessionTtlMs)%Z]>
             (TM.sessionBindings tm)
      else TM.sessionBindings tm
  | None => TM.sessionBindings tm
  end.
Proof.
  unfold TM.finalizeSelectedToken. cbn [snd].
  destruct sk as [k|]; [destruct (Js.truthy k)|]; reflexivity.
Qed.

Lemma getNextToken_chosen (sk : option string) (ex : list string) (now nf : Z)
  (tm : TM.TokenManager) :
  TM.tokens tm <> [] ->
  exists a td tm1,
    TM.chosen sk ex now tm = Some (a, td, tm1) /\
    TM.sessionBindings tm1 = TM.sessionBindings (TM.clearExpiredSessionBindings now tm) /\
    getNextToken sk ex now nf tm
    = finalizeSelectedToken a td (now / 1000) nf (Js.trim <$> sk) tm1.
Proof.
  intros Hne. unfold TM.getNextToken, TM.chosen.
  rewrite (reloadIfEmpty_nonempty _ _ _ Hne).
  destruct (Nat.eqb _ 0) eqn:E0; [apply length_zero_nil in E0; contradiction|].
  cbv zeta.
  pose proof (candidateTokens_nonempty (list_to_set ex) now
                (TM.clearExpiredSessionBindings now tm) Hne) as Hc.
  set (tmc := TM.clearExpiredSessionBindings now tm) in *.
  set (cands := TM.candidateTokens _ _ _) in *.
  destruct cands as [|c0 cs] eqn:Ec; [contradiction|]. rewrite <- Ec in *.
  destruct (TM.stickyMatch _ _ _ _) as [[sa std]|].
  - exists sa, std, tmc. auto.
  - destruct (cands !! _) as [[a td]|] eqn:El.
    + exists a, td, (TM.setCurrentIndex (S (TM.currentIndex tmc)) tmc). auto.
    + exfalso. apply lookup_ge_None in El.
      assert (length cands <> 0) by (rewrite Ec; cbn; lia).
      pose proof (Nat.mod_upper_bound (TM.currentIndex tmc) (length cands) H). lia.
Qed.

Lemma clearExpired_lookup (now : Z) (tm : TM.TokenManager) (k : string)
  (b : TM.SessionBinding) :
  TM.sessionBindings (TM.clearExpiredSessionBindings now tm) !! k = Some b <->
  TM.sessionBindings tm !! k = Some b /\ (now < TM.expiresAt b)%Z.
Proof.
  unfold TM.clearExpiredSessionBindings. cbn.
  rewrite map_lookup_filter_Some. reflexivity.
Qed.

Lemma clearExpired_delete_expired (now : Z) (tm : TM.TokenManager) (k : string)
  (b : TM.SessionBinding) :
  TM.sessionBindings tm !! k = Some b -> (TM.expiresAt b <= now)%Z ->
  TM.clearExpiredSessionBindings now
    (TM.setSessionBindings (delete k (TM.sessionBindings tm)) tm)
  = TM.clearExpiredSessionBindings now tm.
Proof.
  intros Hk Hexp. unfold TM.clearExpiredSessionBindings, TM.setSessionBindings. cbn.
  f_equal. rewrite map_filter_delete. apply delete_id.
  apply map_lookup_filter_None. right. intros b' Hb'. cbn.
  rewrite Hk in Hb'. injection Hb' as <-. lia.
Qed.

End Sticky.

Section StickySessions.

Variable getAccounts : option (list TM.CloudAccount).
Variable refreshAccessToken : string -> option (string * Z).
Variable generateSessionId : string.

Local Abbreviation getNextToken :=
  (TM.getNextToken getAccounts refreshAccessToken generateSessionId).
Local Abbreviation finalizeSelectedToken := (TM.finalizeSelectedToken refreshAccessToken).

Lemma getNextToken_binding_written (sk : option string) (ex : list string)
  (now nf : Z) (tm : TM.TokenManager) (acc : TM.CloudAccount) (tm' : TM.TokenManager) :
  TM.tokens tm <> [] ->
  getNextToken sk ex now nf tm = (Some acc, tm') ->
  TM.sessionBindings tm' =
  match Js.trim <$> sk with
  | Some k =>
      if Js.truthy k
      then <[k := TM.mkBinding (TM.id acc) (nf + TM.stickySessionTtlMs)%Z]>
             (TM.sessionBindings (TM.clearExpiredSessionBindings now tm))
      else TM.sessionBindings (TM.clearExpiredSessionBindings now tm)
  | None => TM.sessionBindings (TM.clearExpiredSessionBindings now tm)
  end.
Proof.
  intros Hne H.
  destruct (getNextToken_chosen getAccounts refreshAccessToken generateSessionId
              sk ex now nf tm Hne) as (a & td & tm1 & _ & Hb & E).
  rewrite E in H.
  destruct (finalize_id refreshAccessToken a td (now / 1000) nf (Js.trim <$> sk) tm1)
    as (acc' & E1 & Hid).
  assert (acc' = acc) as -> by (rewrite H in E1; cbn in E1; congruence).
  pose proof (finalize_bindings refreshAccessToken a td (now / 1000) nf
                (Js.trim <$> sk) tm1) as Hfb.
  rewrite H in Hfb. cbn [snd] in Hfb. rewrite Hfb, Hb, Hid. reflexivity.
Qed.

Lemma getNextToken_sticky (key : string) (ex : list string) (now nf : Z)
  (tm : TM.TokenManager) (b : TM.SessionBinding) (acc : TM.CloudAccount) :
  TM.tokens tm <> [] ->
  Js.truthy (Js.trim key) = true ->
  TM.sessionBindings tm !! Js.trim key = Some b ->
  (now < TM.expiresAt b)%Z ->
  (getNextToken (Some key) ex now nf tm).1 = Some acc ->
  TM.id acc = TM.accountId b <->
  In (TM.accountId b) (List.map fst (TM.candidateTokens (list_to_set ex) now tm)).
Proof.
  intros Hne Hk Hb Hlt Hacc. split.
  - intros <-.
    destruct (getNextToken_selects getAccounts refreshAccessToken generateSessionId
                (Some key) ex now nf tm) as (acc' & E & Hin).
    + now rewrite reloadIfEmpty_nonempty.
    + rewrite reloadIfEmpty_nonempty in Hin by exact Hne. congruence.
  - intros Hin.
    destruct (getNextToken_chosen getAccounts refreshAccessToken generateSessionId
                (Some key) ex now nf tm Hne) as (a & td & tm1 & Hch & _ & E).
    destruct (finalize_id refreshAccessToken a td (now / 1000) nf
                (Js.trim <$> Some key) tm1) as (acc' & E1 & Hid).
    rewrite <- E, Hacc in E1. injection E1 as <-. rewrite Hid.
    unfold TM.chosen in Hch. cbv zeta in Hch.
    rewrite candidateTokens_clearExpired in Hch.
    unfold TM.stickyMatch in Hch. cbn [fmap option_fmap option_map] in Hch.
    rewrite Hk in Hch.
    rewrite (proj2 (clearExpired_lookup now tm _ b) (conj Hb Hlt)) in Hch.
    rewrite (proj2 (Z.ltb_lt _ _) Hlt) in Hch.
    destruct (find_key_some (TM.accountId b) _ Hin) as [[a' td'] Hf].
    rewrite Hf in Hch. apply find_key_in in Hf as [Hfa _]. cbn in Hfa. congruence.
Qed.

Lemma validTokens_not_cooling (ex : gset string) (now : Z) (tm : TM.TokenManager)
  (a : string) :
  In a (List.map fst (TM.validTokens ex now tm)) ->
  TM.notCooling (TM.cooldowns tm) now a = true.
Proof.
  intros H. apply in_map_iff in H as (e & <- & He).
  unfold TM.validTokens in He. apply filter_In in He as [_ He].
  now destruct (bool_decide _).
Qed.

(** C4.  On a non-empty pool and with a session key whose trimmed form
    [k] is not empty: (a) the selection writes the binding of [k] to the
    selected account, expiring 10 minutes after the time of finalization;
    (b) when [k] holds a binding that has not expired, the selection
    returns the bound account exactly when that account is among the
    candidates, so a bound account that is cooling is not returned while
    some candidate is not cooling; (c) after any selection at time [now] no
    binding with [expiresAt <= now] is left, and an expired binding of [k]
    has no influence on the selection. *)
Theorem C4_session_binding (key : string) (ex : list string) (now nf : Z)
  (tm : TM.TokenManager) :
  TM.tokens tm <> [] ->
  Js.truthy (Js.trim key) = true ->
  (forall acc tm',
     getNextToken (Some key) ex now nf tm = (Some acc, tm') ->
     TM.sessionBindings tm' !! Js.trim key
     = Some (TM.mkBinding (TM.id acc) (nf + 10 * 60 * 1000)%Z)) /\
  (forall b acc,
     TM.sessionBindings tm !! Js.trim key = Some b ->
     (now < TM.expiresAt b)%Z ->
     (getNextToken (Some key) ex now nf tm).1 = Some acc ->
     (TM.id acc = TM.accountId b <->
      In (TM.accountId b)
         (List.map fst (TM.candidateTokens (list_to_set ex) now tm))) /\
     (forall u,
        TM.cooldowns tm !! TM.accountId b = Some u -> (now < u)%Z -> u <> 0%Z ->
        TM.validTokens (list_to_set ex) now tm <> [] ->
        TM.id acc <> TM.accountId b)) /\
  (forall sk' k' b',
     (now <= nf)%Z ->
     TM.sessionBindings (getNextToken sk' ex now nf tm).2 !! k' = Some b' ->
     (now < TM.expiresAt b')%Z) /\
  (forall b,
     TM.sessionBindings tm !! Js.trim key = Some b ->
     (TM.expiresAt b <= now)%Z ->
     getNextToken (Some key) ex now nf tm
     = getNextToken (Some key) ex now nf
         (TM.setSessionBindings (delete (Js.trim key) (TM.sessionBindings tm)) tm)).
Proof.
  intros Hne Hk. repeat apply conj.
  - intros acc tm' H.
    rewrite (getNextToken_binding_written _ _ _ _ _ _ _ Hne H).
    cbn [fmap option_fmap option_map]. rewrite Hk. apply lookup_insert_eq.
  - intros b acc Hb Hlt Hacc. split.
    + now apply (getNextToken_sticky key ex now nf tm b acc).
    + intros u Hu Hnu Hu0 Hv Hid.
      apply (getNextToken_sticky key ex now nf tm b acc Hne Hk Hb Hlt Hacc) in Hid.
      unfold TM.candidateTokens in Hid.
      destruct (TM.validTokens (list_to_set ex) now tm) eqn:Ev; [contradiction|].
      rewrite <- Ev in Hid. apply validTokens_not_cooling in Hid.
      unfold TM.notCooling in Hid. rewrite Hu in Hid.
      apply orb_true_iff in Hid as [Hid|Hid]; [apply Z.eqb_eq in Hid|apply Z.leb_le in Hid]; lia.
  - intros sk' k' b' Hle H.
    destruct (getNextToken sk' ex now nf tm) as [r tm'] eqn:E.
    destruct (getNextToken_selects getAccounts refreshAccessToken generateSessionId
                sk' ex now nf tm) as (acc & Eacc & _);
      [now rewrite reloadIfEmpty_nonempty|].
    rewrite E in Eacc. cbn in Eacc. subst r.
    cbn [snd] in H. rewrite (getNextToken_binding_written _ _ _ _ _ _ _ Hne E) in H.
    assert (Hold : forall m, TM.sessionBindings (TM.clearExpiredSessionBindings now tm)
                              !! m = Some b' -> (now < TM.expiresAt b')%Z)
      by (intros m Hm; now apply clearExpired_lookup in Hm).
    destruct (Js.trim <$> sk') as [k|]; [|now apply (Hold k')].
    destruct (Js.truthy k); [|now apply (Hold k')].
    rewrite lookup_insert in H. destruct (decide (k = k')).
    + injection H as <-. cbn. unfold TM.stickySessionTtlMs. lia.
    + now apply (Hold k').
  - intros b Hb Hexp. unfold TM.getNextToken.
    assert (Hne' : TM.tokens (TM.setSessionBindings
                                (delete (Js.trim key) (TM.sessionBindings tm)) tm) <> [])
      by exact Hne.
    rewrite (reloadIfEmpty_nonempty _ _ _ Hne), (reloadIfEmpty_nonempty _ _ _ Hne').
    cbv zeta. rewrite (clearExpired_delete_expired now tm _ b Hb Hexp).
    change (TM.tokens (TM.setSessionBindings
                         (delete (Js.trim key) (TM.sessionBindings tm)) tm))
      with (TM.tokens tm).
    destruct (Nat.eqb _ 0) eqn:E0; [apply length_zero_nil in E0; contradiction|].
    reflexivity.
Qed.

End StickySessions.

(** Witness of [C4_session_binding]: a request of session [k] at time 1000,
    finalized at 1001, is served by the bound account B and renews the
    binding until 601001. *)
Lemma C4_session_binding_witness :
  TM.tokens Sample.poolABbound <> [] /\
  Js.truthy (Js.trim " k ") = true /\
  TM.sessionBindings
    (TM.getNextToken None Sample.noRefresh "-1" (Some " k ") [] 1000 1001
       Sample.poolABbound).2 !! "k"
  = Some (TM.mkBinding "B" 601001).
Proof.
  assert (H : TM.tokens Sample.poolABbound <> []) by discriminate.
  assert (K : Js.truthy (Js.trim " k ") = true) by reflexivity.
  split; [exact H|]. split; [exact K|].
  set (r := TM.getNextToken None Sample.noRefresh "-1" (Some " k ") [] 1000 1001
              Sample.poolABbound).
  assert (E : r = (Some (TM.toCloudAccount "B" (Sample.tokenData "B" (Some "proj-b")) 1001),
                   r.2)) by (vm_compute; reflexivity).
  exact (proj1 (C4_session_binding None Sample.noRefresh "-1" " k " [] 1000 1001
                  Sample.poolABbound H K) _ _ E).
Defined.

(** ** Endpoint failover *)

Section FailoverFacts.

Import GeminiClient.

Lemma shouldSwitch_transient (e : Thrown) :
  shouldSwitchEndpointOnError e = true -> Transient e.
Proof.
  destruct e as [m [r|]|m]; cbn; try easy.
  destruct (status r =? 401)%Z eqn:E1; [discriminate|].
  destruct (status r =? 403)%Z eqn:E2; [discriminate|]. cbn.
  intros H. apply orb_true_iff in H as [H|H].
  - apply orb_true_iff in H as [H|H]; apply Z.eqb_eq in H; auto.
  - apply Z.leb_le in H. auto.
Qed.

Lemma transient_not_auth (e : Thrown) (st : Z) :
  Transient e -> statusOf e = Some st -> st <> 401%Z /\ st <> 403%Z.
Proof.
  destruct e as [m [r|]|m]; cbn; try easy.
  intros H [= <-]. lia.
Qed.

Lemma extractAxiosErrorMessage_spec (responseData : Json.jsval) :
  extractAxiosErrorMessage responseData =
  match Json.optProp "message" (Json.optProp "error" responseData) with
  | Some (Json.JStr m) => if Js.truthy (Js.trim m) then Some m else None
  | _ => None
  end.
Proof.
  unfold extractAxiosErrorMessage.
  destruct responseData as [[| b | n | t | items | fields]|]; cbn; try reflexivity.
  - now destruct b.
  - now destruct (negb (n =? 0)%Z).
  - now destruct (Js.truthy t).
  - destruct (Js.mapGet "error" fields) as [[| b | n | t | items' | fields']|];
      cbn; try reflexivity.
    + now destruct b.
    + now destruct (negb (n =? 0)%Z).
    + now destruct (Js.truthy t).
Qed.

Lemma handleAxiosError_carried (e : Thrown) : handleAxiosError e = carriedMessage e.
Proof.
  destruct e as [m response|m]; [|reflexivity].
  unfold handleAxiosError, carriedMessage, upstreamErrorMessage, ownMessage.
  rewrite extractAxiosErrorMessage_spec.
  destruct (Json.optProp "message" _) as [[| b | n | t | items | fields]|];
    try reflexivity.
  now destruct (Js.truthy (Js.trim t)).
Qed.

Lemma getInternalBaseUrls_nonempty (fromEnv : option string) :
  getInternalBaseUrls fromEnv <> [].
Proof.
  unfold getInternalBaseUrls.
  destruct (match fromEnv with Some _ => _ | None => _ end); discriminate.
Qed.

Context {T : Type}.
Variable axiosPost : string -> Thrown + T.

Lemma failoverLoop_spec (path : string) (baseUrls : list string) :
  baseUrls <> [] ->
  let '(tried, result) := failoverLoop axiosPost path baseUrls in
  tried <> [] /\
  tried = take (length tried) (List.map (fun u => u +:+ path) baseUrls) /\
  (forall i url, tried !! i = Some url -> S i < length tried ->
                 exists e, axiosPost url = inl e /\ Transient e) /\
  (forall url, List.last tried "" = url ->
               match axiosPost url with
               | inr response => result = inr response
               | inl e => result = inl (carriedMessage e)
               end).
Proof.
  induction baseUrls as [|baseUrl rest IH]; [congruence|]. intros _.
  cbn [failoverLoop].
  destruct (axiosPost (baseUrl +:+ path)) as [e|response] eqn:Epost.
  - destruct rest as [|next rest'].
    + cbn. repeat split; try discriminate.
      * intros i url _ Hi. lia.
      * intros url <-. now rewrite Epost, handleAxiosError_carried.
    + cbn [negb orb].
      destruct (shouldSwitchEndpointOnError e) eqn:Es; cbn [negb].
      * destruct (failoverLoop axiosPost path (next :: rest')) as [tried result] eqn:El.
        destruct IH as (Hne & Htake & Hmid & Hlast); [discriminate|].
        repeat split.
        -- discriminate.
        -- cbn [length]. rewrite (map_cons _ baseUrl), firstn_cons.
           f_equal. exact Htake.
        -- intros [|i] url Hi Hlen.
           ++ injection Hi as <-. exists e. split; [exact Epost|].
              now apply shouldSwitch_transient.
           ++ apply (Hmid i url Hi). cbn in Hlen. lia.
        -- intros url Hl. apply Hlast.
           destruct tried; [contradiction|exact Hl].
      * cbn. repeat split; try discriminate.
        -- intros i url _ Hi. lia.
        -- intros url <-. now rewrite Epost, handleAxiosError_carried.
  - cbn. repeat split; try discriminate.
    + intros i url _ Hi. lia.
    + intros url <-. now rewrite Epost.
Qed.

End FailoverFacts.

(** C6, as amended.  The client requests the configured base urls in
    order and stops at the first that answers or fails for good; every
    endpoint it moved on from failed transiently (no response, or status
    408, 429 or at least 500), so never with 401 or 403; and the outcome is
    that of the last endpoint requested: its response, or an error carrying
    the upstream [error.message] when that is a string with something other
    than white space in it, and the transport error's own message
    otherwise. *)
Theorem C6_endpoint_failover {T : Type} (axiosPost : string -> GeminiClient.Thrown + T)
  (fromEnv : option string) (path : string) :
  let urls := List.map (fun u => u +:+ path) (GeminiClient.getInternalBaseUrls fromEnv) in
  let tried := (GeminiClient.requestWithEndpointFailover axiosPost fromEnv path).1 in
  let result := (GeminiClient.requestWithEndpointFailover axiosPost fromEnv path).2 in
  tried <> [] /\
  tried = take (length tried) urls /\
  (forall i url,
     tried !! i = Some url -> S i < length tried ->
     exists e, axiosPost url = inl e /\ GeminiClient.Transient e /\
               GeminiClient.statusOf e <> Some 401%Z /\
               GeminiClient.statusOf e <> Some 403%Z) /\
  match axiosPost (List.last tried "") with
  | inr response => result = inr response
  | inl e => result = inl (GeminiClient.carriedMessage e)
  end.
Proof.
  cbv zeta. unfold GeminiClient.requestWithEndpointFailover.
  pose proof (failoverLoop_spec axiosPost path _
                (getInternalBaseUrls_nonempty fromEnv)) as H.
  destruct (GeminiClient.failoverLoop axiosPost path _) as [tried result].
  destruct H as (Hne & Htake & Hmid & Hlast). cbn [fst snd].
  split; [exact Hne|]. split; [exact Htake|]. split; [|exact (Hlast _ eq_refl)].
  intros i url Hi Hlen.
  destruct (Hmid i url Hi Hlen) as (e & He & Ht). exists e.
  split; [exact He|]. split; [exact Ht|].
  split; intros Hs; destruct (transient_not_auth e _ Ht Hs); congruence.
Qed.

(** Witness of [C6_endpoint_failover]: the production endpoint answers 503,
    so the daily endpoint is tried; it answers 403 with an error body, whose
    message is thrown. *)
Lemma C6_endpoint_failover_witness :
  (exists e,
     Sample.flakyAxios "https://cloudcode-pa.googleapis.com/v1internal:generateContent"
     = inl e /\ GeminiClient.Transient e) /\
  (GeminiClient.requestWithEndpointFailover Sample.flakyAxios None ":generateContent").2
  = inl "denied".
Proof.
  destruct (C6_endpoint_failover Sample.flakyAxios None ":generateContent")
    as (_ & _ & Hmid & Hlast).
  split.
  - destruct (Hmid 0 "https://cloudcode-pa.googleapis.com/v1internal:generateContent")
      as (e & He & Ht & _); [reflexivity | vm_compute; lia |].
    exists e. split; [exact He | exact Ht].
  - exact Hlast.
Defined.

(** C6 as stated fails on a blank upstream message: the single endpoint
    answers 400 with [error.message] equal to one space, a non-empty
    string, and the error thrown carries the transport message instead. *)
Lemma C6_counterexample :
  GeminiClient.upstreamErrorMessage Sample.blankMessageError = Some (Json.JStr " ") /\
  " " <> "" /\
  (GeminiClient.requestWithEndpointFailover
     (fun _ : string => @inl _ Json.jsval Sample.blankMessageError)
     (Some "https://one.example/v1internal") ":generateContent")
  = (["https://one.example/v1internal:generateContent"],
     inl "Request failed with status code 400").
Proof. split; [reflexivity | split; [discriminate | reflexivity]]. Qed.

(** ** Stream aggregation *)

Section Lines.

Lemma splitLines_nonempty (s : string) : Js.splitLines s <> [].
Proof.
  induction s as [|c s IH]; cbn; [discriminate|].
  destruct (Ascii.eqb c "010"); [discriminate|].
  destruct (Js.splitLines s); [contradiction | discriminate].
Qed.

Lemma removelast_cons2 {A : Type} (x : A) (l : list A) :
  l <> [] -> removelast (x :: l) = x :: removelast l.
Proof. destruct l; [contradiction | reflexivity]. Qed.

Lemma last_cons2 {A : Type} (x d : A) (l : list A) :
  l <> [] -> List.last (x :: l) d = List.last l d.
Proof. destruct l; [contradiction | reflexivity]. Qed.

(** Splitting a text that arrives in two pieces: the complete lines of the
    first piece, then the lines of what was left over followed by the
    second piece. *)
Lemma splitLines_app (a b : string) :
  Js.splitLines (a +:+ b) =
  removelast (Js.splitLines a) ++ Js.splitLines (List.last (Js.splitLines a) "" +:+ b).
Proof.
  induction a as [|c a IH]; [reflexivity|].
  rewrite append_cons. cbn [Js.splitLines].
  pose proof (splitLines_nonempty a) as Hne.
  destruct (Ascii.eqb c "010") eqn:Ec.
  - rewrite removelast_cons2, last_cons2 by exact Hne.
    rewrite IH. reflexivity.
  - rewrite IH. destruct (Js.splitLines a) as [|l0 ls] eqn:Ea; [contradiction|].
    destruct ls as [|l1 ls].
    + cbn [removelast List.last app]. rewrite append_cons. cbn [Js.splitLines].
      rewrite Ec. reflexivity.
    + rewrite (removelast_cons2 l0) by discriminate.
      rewrite (removelast_cons2 (String c l0)) by discriminate.
      rewrite (last_cons2 l0), (last_cons2 (String c l0)) by discriminate.
      reflexivity.
Qed.

Lemma completeLines_app (a b : string) :
  completeLines (a +:+ b) =
  completeLines a ++ completeLines (List.last (Js.splitLines a) "" +:+ b).
Proof.
  unfold completeLines. rewrite splitLines_app.
  apply removelast_app, splitLines_nonempty.
Qed.

Lemma lastLine_app (a b : string) :
  List.last (Js.splitLines (a +:+ b)) "" =
  List.last (Js.splitLines (List.last (Js.splitLines a) "" +:+ b)) "".
Proof.
  rewrite splitLines_app.
  generalize (splitLines_nonempty (List.last (Js.splitLines a) "" +:+ b)).
  generalize (Js.splitLines (List.last (Js.splitLines a) "" +:+ b)) as l2.
  generalize (removelast (Js.splitLines a)) as l1.
  induction l1 as [|x l1 IH]; intros l2 H2; [reflexivity|].
  cbn [app]. rewrite last_cons2; [now apply IH|].
  destruct l1; [exact H2 | discriminate].
Qed.

End Lines.

Section Collecting.

Variable JSON_parse : string -> option Json.json.

Local Abbreviation collectData := (collectData JSON_parse).
Local Abbreviation collectLine := (collectLine JSON_parse).
Local Abbreviation frameOfLine := (frameOfLine JSON_parse).

Lemma concat_snoc (l : list string) (x : string) :
  fold_right String.append "" (l ++ [x]) = fold_right String.append "" l +:+ x.
Proof.
  induction l as [|y l IH]; cbn [app fold_right].
  - now rewrite append_nil_r.
  - now rewrite IH, append_assoc.
Qed.

Lemma collectData_eq (c : Collector) (x : string) :
  collectData c x =
  mkCollector (List.last (Js.splitLines (c_buffer c +:+ x)) "") true
    (fold_left collectLine (completeLines (c_buffer c +:+ x)) (c_collected c)).
Proof. reflexivity. Qed.

(** Feeding the chunks one by one amounts to reading the complete lines of
    the whole text; the unterminated tail stays in the buffer. *)
Lemma fold_collectData (l : list string) :
  let text := fold_right String.append "" l in
  let c := fold_left collectData l newCollector in
  c_buffer c = List.last (Js.splitLines text) "" /\
  c_receivedData c = match l with [] => false | _ => true end /\
  c_collected c = fold_left collectLine (completeLines text) (mkCollected [] None None).
Proof.
  induction l as [|x l IH] using rev_ind; [now cbn|].
  cbv zeta in *. destruct IH as (Hb & _ & Hc).
  rewrite fold_left_app, concat_snoc. cbn [fold_left].
  rewrite collectData_eq. cbn [c_buffer c_receivedData c_collected].
  rewrite Hb, Hc.
  split; [symmetry; apply lastLine_app|]. split; [now destruct l|].
  rewrite (completeLines_app (fold_right String.append "" l) x), fold_left_app.
  reflexivity.
Qed.

Lemma fold_collectLine_frames (lines : list string) (acc : Collected) :
  fold_left collectLine lines acc = fold_left mergeFrame (omap frameOfLine lines) acc.
Proof.
  revert acc. induction lines as [|line lines IH]; intros acc; [reflexivity|].
  change (omap frameOfLine (line :: lines))
    with (match frameOfLine line with
          | Some y => y :: omap frameOfLine lines
          | None => omap frameOfLine lines
          end).
  cbn [fold_left]. unfold ProxyService.collectLine at 2.
  destruct (frameOfLine line); cbn [fold_left]; apply IH.
Qed.

Lemma fold_mergeFrame (frames : list Json.json) (acc : Collected) :
  fold_left mergeFrame frames acc =
  mkCollected (mergedParts acc ++ flat_map frameParts frames)
    (fold_left assignIfTruthy (List.map frameFinishReason frames) (finishReason acc))
    (fold_left assignIfTruthy (List.map frameUsage frames) (usageMetadata acc)).
Proof.
  revert acc. induction frames as [|f frames IH]; intros acc.
  - cbn. rewrite app_nil_r. now destruct acc.
  - cbn [fold_left flat_map List.map]. rewrite IH. cbn.
    now rewrite <- app_assoc.
Qed.

Lemma collectGeminiStreamAsResponse_end (s : ReadableStream) :
  ending s = End ->
  collectGeminiStreamAsResponse JSON_parse s =
  match chunks s with
  | [] => inl "Empty response stream"
  | _ =>
      inr (Some (synthesizedResponse
                   (mkCollected
                      (flat_map frameParts (dataFrames JSON_parse s))
                      (lastTruthy (List.map frameFinishReason (dataFrames JSON_parse s)))
                      (lastTruthy (List.map frameUsage (dataFrames JSON_parse s))))))
  end.
Proof.
  intros He. unfold collectGeminiStreamAsResponse. rewrite He.
  destruct (fold_collectData (chunks s)) as (_ & Hr & Hc). rewrite Hr.
  destruct (chunks s) as [|x l] eqn:E; [reflexivity|]. cbn [negb].
  rewrite Hc, fold_collectLine_frames, fold_mergeFrame. cbn [app].
  unfold dataFrames, streamText, lastTruthy. rewrite E. reflexivity.
Qed.

End Collecting.

Section Unusable.

Import Json.

(** The candidate test of [generateInternalWithStreamFallback], spelled
    out: a response is usable when [candidates] is a non-empty array whose
    first element has a non-empty array at [content.parts]. *)
Lemma hasUsableGeminiCandidate_iff (response : jsval) :
  hasUsableGeminiCandidate response = true <->
  exists first rest part parts,
    optProp "candidates" response = Some (JArr (first :: rest)) /\
    optProp "parts" (optProp "content" (Some first)) = Some (JArr (part :: parts)).
Proof.
  unfold hasUsableGeminiCandidate. split.
  - destruct (optProp "candidates" response) as [[| | | |[|first rest]|]|];
      try discriminate.
    destruct (optProp "parts" _) as [[| | | |[|part parts]|]|] eqn:E;
      try discriminate.
    intros _. exists first, rest, part, parts. split; [reflexivity | exact E].
  - intros (first & rest & part & parts & -> & ->). reflexivity.
Qed.

End Unusable.

(** ** The OpenAI stream mapper *)

Section OpenAIStream.

Variable JSON_parse : string -> option Json.json.
Variable uuidv4 : nat -> string.
Variable streamId : string.
Variable created : Z.
Variable model : string.

Local Abbreviation processPart := (processPart uuidv4 streamId created model).
Local Abbreviation processParts := (processParts uuidv4 streamId created model).
Local Abbreviation processFrame := (processFrame uuidv4 streamId created model).
Local Abbreviation processLine := (processLine JSON_parse uuidv4 streamId created model).
Local Abbreviation onData := (onData JSON_parse uuidv4 streamId created model).
Local Abbreviation onEnd := (onEnd streamId created model).
Local Abbreviation chunkPayload := (chunkPayload streamId created model).

Lemma next_spoke (v : string) (sub : Subscriber) :
  emitted sub <> [] -> emitted (next v sub) <> [].
Proof.
  unfold next. destruct (closed sub); cbn; [auto|].
  intros _. now destruct (emitted sub).
Qed.

Lemma complete_emitted (sub : Subscriber) : emitted (complete sub) = emitted sub.
Proof. unfold complete. now destruct (closed sub). Qed.

Lemma settled_fields (st : OpenAIStreamState) (b : string) (u : nat) :
  settled st ->
  settled (mkOS b (o_sub st) (hasEmittedChunk st) (hasSentDone st) u).
Proof. intros [(A & B & C)|H]; [left; repeat split; assumption | right; exact H]. Qed.

Lemma pushChunk_spoke (payload : Json.json) (st : OpenAIStreamState) :
  settled st -> spoke (pushChunk payload st).
Proof.
  unfold spoke, pushChunk. cbn [o_sub]. intros [(_ & _ & ->)|H].
  - discriminate.
  - now apply next_spoke.
Qed.

Lemma processPart_settled (part : Json.json) (st st' : OpenAIStreamState) :
  settled st -> processPart part st = Some st' -> settled st'.
Proof.
  intros Hs H. unfold ProxyService.processPart in H.
  repeat case_match; try discriminate; injection H as <-;
    try exact Hs; right; apply pushChunk_spoke; try exact Hs;
    now apply settled_fields.
Qed.

Lemma processParts_settled (parts : list Json.json) (st : OpenAIStreamState) :
  settled st -> settled (processParts parts st).1.
Proof.
  revert st. induction parts as [|part parts IH]; intros st Hs; [exact Hs|].
  cbn [ProxyService.processParts].
  destruct (processPart part st) as [st'|] eqn:E; [|exact Hs].
  apply IH. now apply (processPart_settled part st).
Qed.

Lemma processFrame_settled (frame : Json.json) (st : OpenAIStreamState) :
  settled st -> settled (processFrame frame st).
Proof.
  intros Hs. unfold ProxyService.processFrame.
  destruct (Json.strictProp _ _); [|exact Hs].
  destruct (iterate _) as [ps|]; [|exact Hs].
  pose proof (processParts_settled ps st Hs) as Hp.
  destruct (processParts ps st) as [st1 threw]. cbn [fst] in Hp.
  destruct threw; [exact Hp|].
  repeat case_match; try exact Hp.
  right. unfold spoke. cbn [o_sub]. rewrite complete_emitted.
  apply next_spoke. now apply pushChunk_spoke.
Qed.

Lemma processLine_settled (st : OpenAIStreamState) (line : string) :
  settled st -> settled (processLine st line).
Proof.
  intros Hs. unfold ProxyService.processLine.
  destruct (frameOfLine _ _); [now apply processFrame_settled | exact Hs].
Qed.

Lemma onData_settled (st : OpenAIStreamState) (chunk : string) :
  settled st -> settled (onData st chunk).
Proof.
  intros Hs. unfold ProxyService.onData.
  destruct (splitBuffer _) as [lines rest].
  apply (settled_fields st rest (o_uuids st)) in Hs. revert Hs.
  generalize (mkOS rest (o_sub st) (hasEmittedChunk st) (hasSentDone st) (o_uuids st)).
  induction lines as [|line lines IH]; intros st0 Hs; [exact Hs|].
  cbn [fold_left]. apply IH. now apply processLine_settled.
Qed.

Lemma data_phase_settled (l : list string) :
  settled (fold_left onData l newOpenAIStreamState).
Proof.
  assert (H0 : settled newOpenAIStreamState) by (left; repeat split).
  revert H0. generalize newOpenAIStreamState.
  induction l as [|x l IH]; intros st Hs; [exact Hs|].
  cbn [fold_left]. apply IH. now apply onData_settled.
Qed.

Lemma onEnd_silent (st : OpenAIStreamState) :
  silent st ->
  o_sub (onEnd st) =
  mkSub [sseFrame (chunkPayload (Json.JObj [("content", Json.JStr "")]) None); doneFrame]
        (Some Completed).
Proof.
  intros (He & Hd & Hsub). unfold ProxyService.onEnd. rewrite He. cbn [negb].
  unfold pushChunk. cbn [hasSentDone o_sub hasEmittedChunk o_buffer o_uuids].
  rewrite Hd, Hsub. reflexivity.
Qed.

End OpenAIStream.

(** C9.  Provided [JSON.parse] reads the frame's text back as the frame,
    the upstream stream that delivers the scenario frame (a thought part
    "reasoning", a function call fc1 of search with args q = x, a text part
    "answer", and finish reason STOP) as one SSE frame is turned into five
    emissions: a chunk whose delta is reasoning_content "reasoning", a chunk
    whose delta is the tool call with name search and arguments the text of
    the JSON object q = x, a chunk whose delta is content "answer", a chunk
    with empty delta and finish_reason "stop", and the DONE sentinel; then
    the observable completes.  And whenever the upstream ends after a data
    phase in which nothing was emitted, the subscriber receives exactly one
    chunk with empty content followed by one DONE sentinel.  The chunks and
    the sentinel are written out here as the client reads them. *)
Theorem C9_openai_stream_shape
  (JSON_parse : string -> option Json.json) (uuidv4 : nat -> string)
  (streamId : string) (created : Z) (model : string) :
  JSON_parse (Json.stringify Sample.scenarioFrame) = Some Sample.scenarioFrame ->
  let lineFeed := String "010"%char EmptyString in
  let chunk (delta finish_reason : Json.json) : string :=
    "data: " +:+
    Json.stringify
      (Json.JObj [("id", Json.JStr streamId);
                  ("object", Json.JStr "chat.completion.chunk");
                  ("created", Json.JNum created);
                  ("model", Json.JStr model);
                  ("choices",
                   Json.JArr [Json.JObj [("index", Json.JNum 0);
                                         ("delta", delta);
                                         ("finish_reason", finish_reason)]])])
    +:+ lineFeed +:+ lineFeed in
  let sentinel := "data: [DONE]" +:+ lineFeed +:+ lineFeed in
  processStreamResponse JSON_parse uuidv4 streamId created model
    (mkStream ["data: " +:+ Json.stringify Sample.scenarioFrame +:+ lineFeed +:+ lineFeed]
              End)
  = mkSub
      [chunk (Json.JObj [("reasoning_content", Json.JStr "reasoning")]) Json.JNull;
       chunk (Json.JObj
                [("tool_calls",
                  Json.JArr
                    [Json.JObj
                       [("index", Json.JNum 0);
                        ("id", Json.JStr "fc1");
                        ("type", Json.JStr "function");
                        ("function",
                         Json.JObj
                           [("name", Json.JStr "search");
                            ("arguments",
                             Json.JStr ("{" +:+ Json.quote +:+ "q" +:+ Json.quote +:+ ":"
                                        +:+ Json.quote +:+ "x" +:+ Json.quote +:+ "}"))])]])])
             Json.JNull;
       chunk (Json.JObj [("content", Json.JStr "answer")]) Json.JNull;
       chunk (Json.JObj []) (Json.JStr "stop");
       sentinel]
      (Some Completed) /\
  forall upstream : ReadableStream,
    ending upstream = End ->
    emitted (o_sub (fold_left (onData JSON_parse uuidv4 streamId created model)
                      (chunks upstream) newOpenAIStreamState)) = [] ->
    processStreamResponse JSON_parse uuidv4 streamId created model upstream
    = mkSub [chunk (Json.JObj [("content", Json.JStr "")]) Json.JNull; sentinel]
            (Some Completed).
Proof.
  intros Hparse lineFeed chunk sentinel. split.
  - unfold processStreamResponse.
    cbn [chunks ending fold_left].
    set (text := Json.stringify Sample.scenarioFrame) in *.
    assert (E : onData JSON_parse uuidv4 streamId created model newOpenAIStreamState
                  ("data: " +:+ text +:+ lineFeed +:+ lineFeed)
                = processFrame uuidv4 streamId created model Sample.scenarioFrame
                    newOpenAIStreamState).
    { unfold onData.
      replace (splitBuffer (o_buffer newOpenAIStreamState +:+ "data: " +:+ text
                            +:+ lineFeed +:+ lineFeed))
        with (["data: " +:+ text; ""], "") by (vm_compute; reflexivity).
      cbn [fold_left]. unfold processLine, frameOfLine.
      replace (dataOfLine ("data: " +:+ text)) with (Some text)
        by (vm_compute; reflexivity).
      rewrite Hparse.
      replace (dataOfLine "") with (@None string) by reflexivity.
      reflexivity. }
    rewrite E. reflexivity.
  - intros upstream Hend Hquiet. unfold processStreamResponse. rewrite Hend.
    destruct (data_phase_settled JSON_parse uuidv4 streamId created model
                (chunks upstream)) as [Hs|Hs]; [|contradiction].
    rewrite (onEnd_silent streamId created model _ Hs). reflexivity.
Qed.

(** Witness of [C9_openai_stream_shape]: with the parser that reads the
    scenario frame, stream id chatcmpl-1, time 1700 and model gpt-4o, the
    subscriber receives these five texts and the stream completes; a stream
    that ends without a chunk gives the empty-content chunk and the
    sentinel. *)
Lemma C9_openai_stream_shape_witness :
  let run :=
    processStreamResponse Sample.parseScenario (fun _ => "uuid") "chatcmpl-1" 1700 "gpt-4o" in
  let head :=
    "data: {'id':'chatcmpl-1','object':'chat.completion.chunk','created':1700," +:+
    "'model':'gpt-4o','choices':[{'index':0,'delta':" in
  Sample.parseScenario (Json.stringify Sample.scenarioFrame) = Some Sample.scenarioFrame /\
  run (mkStream [Scenarios.doubleQuoted
                   ("data: {'candidates':[{'content':{'parts':[" +:+
                    "{'thought':true,'text':'reasoning'}," +:+
                    "{'functionCall':{'id':'fc1','name':'search','args':{'q':'x'}}}," +:+
                    "{'text':'answer'}]},'finishReason':'STOP'}]}")
                 +:+ Scenarios.lineFeed +:+ Scenarios.lineFeed] End)
  = mkSub
      (List.map (fun text => Scenarios.doubleQuoted text +:+ Scenarios.lineFeed
                             +:+ Scenarios.lineFeed)
         [head +:+ "{'reasoning_content':'reasoning'},'finish_reason':null}]}";
          head +:+ "{'tool_calls':[{'index':0,'id':'fc1','type':'function'," +:+
            "'function':{'name':'search','arguments':'{\'q\':\'x\'}'}}]}," +:+
            "'finish_reason':null}]}";
          head +:+ "{'content':'answer'},'finish_reason':null}]}";
          head +:+ "{},'finish_reason':'stop'}]}";
          "data: [DONE]"])
      (Some Completed) /\
  run (mkStream [] End)
  = mkSub
      (List.map (fun text => Scenarios.doubleQuoted text +:+ Scenarios.lineFeed
                             +:+ Scenarios.lineFeed)
         [head +:+ "{'content':''},'finish_reason':null}]}"; "data: [DONE]"])
      (Some Completed).
Proof.
  assert (H : Sample.parseScenario (Json.stringify Sample.scenarioFrame)
              = Some Sample.scenarioFrame) by reflexivity.
  cbv zeta. split; [exact H|].
  destruct (C9_openai_stream_shape Sample.parseScenario (fun _ => "uuid")
              "chatcmpl-1" 1700 "gpt-4o" H) as [E1 E2].
  split.
  - etransitivity; [|etransitivity; [exact E1|]]; vm_compute; reflexivity.
  - rewrite (E2 (mkStream [] End) eq_refl eq_refl). vm_compute. reflexivity.
Defined.

(** ** The retry loop *)

(** C1, evaluated.  The pool holds three fresh accounts and the client
    rejects every call with "400 invalid argument", which the classifier
    does not retry.  Each handler nevertheless runs its three iterations:
    it selects A with nothing excluded, then C with A excluded, then B with
    A and C excluded, sends one upstream request per account, marks none,
    and throws the last error. *)
Theorem C1_unclassified_error_is_retried :
  let selections := [([], Some "A"); (["A"], Some "C"); (["A"; "C"], Some "B")] in
  let tokens := ["access-A"; "access-C"; "access-B"] in
  let summary {A : Type} (run : (string + A) * World) :=
    (match run.1 with inl e => Some e | inr _ => None end,
     selectionsOf (trace run.2),
     List.map uc_accessToken (upstreamCallsOf (trace run.2)),
     map_to_list (TM.cooldowns (pool run.2))) in
  let expected := (Some "400 invalid argument", selections, tokens, []) in
  let w := initialWorld Sample.poolABC 0 in
  classifyUpstreamError "400 invalid argument" = mkDecision false false false /\
  summary (handleChatCompletions None Sample.noRefresh "-1" Sample.parseHello
             Sample.rejectUnary Sample.rejectStreaming Sample.delay Sample.uuid
             Sample.claudeOf cr_rest cr_model "agent" inr
             Sample.chatRequest w) = expected /\
  summary (handleAnthropicMessages None Sample.noRefresh "-1" Sample.parseHello
             Sample.rejectUnary Sample.rejectStreaming Sample.delay Sample.uuid
             Sample.claudeOf cr_rest cr_model "agent"
             Sample.anthropicRequest w) = expected /\
  summary (handleGeminiGenerateContent None Sample.noRefresh "-1" Sample.parseHello
             Sample.rejectUnary Sample.rejectStreaming Sample.delay Sample.uuid
             (fun m => m) None "models/gemini-2.5-flash" Sample.geminiRequest w)
  = expected /\
  summary (handleGeminiStreamGenerateContent None Sample.noRefresh "-1"
             Sample.rejectStreaming Sample.delay Sample.uuid
             (fun m => m) None "models/gemini-2.5-flash" Sample.geminiRequest w)
  = expected.
Proof. repeat split; vm_compute; reflexivity. Qed.

(** ** Synthetic project ids *)

Section ProjectIds.

Lemma isDigit_lowerChar (c : ascii) : Js.isDigit (Js.lowerChar c) = Js.isDigit c.
Proof. destruct c as [[] [] [] [] [] [] [] []]; reflexivity. Qed.

Lemma allDigits_lower (s : string) : Js.allDigits (Js.toLowerCase s) = Js.allDigits s.
Proof.
  induction s as [|c s IH]; [reflexivity|]. cbn. now rewrite isDigit_lowerChar, IH.
Qed.

Lemma toLowerCase_empty (s : string) : Js.toLowerCase s = "" -> s = "".
Proof. now destruct s. Qed.

Lemma sliceFrom_app (a b : string) : Js.sliceFrom (String.length a) (a +:+ b) = b.
Proof. induction a as [|c a IH]; [now destruct b | exact IH]. Qed.

Lemma isSyntheticProjectId_iff (s : string) :
  TM.isSyntheticProjectId s = true <-> TM.MatchesCloudCode s.
Proof.
  unfold TM.isSyntheticProjectId, TM.MatchesCloudCode. split.
  - intros H. apply andb_true_iff in H as [H Hd]. apply andb_true_iff in H as [Hp Hn].
    apply prefix_split in Hp as [r Hr]. rewrite Hr in Hn, Hd.
    change 11 with (String.length "cloud-code-") in Hn, Hd.
    rewrite sliceFrom_app in Hn, Hd.
    apply toLowerCase_split in Hr as (pfx & digits & -> & Hpfx & <-).
    exists pfx, digits. repeat split; [exact Hpfx | | now rewrite <- allDigits_lower].
    intros ->. discriminate.
  - intros (pfx & digits & -> & Hpfx & Hne & Hd).
    rewrite toLowerCase_app, Hpfx.
    change 11 with (String.length "cloud-code-"). rewrite sliceFrom_app, prefix_app.
    rewrite allDigits_lower, Hd.
    destruct (Js.toLowerCase digits) eqn:E; [|reflexivity].
    now apply toLowerCase_empty in E.
Qed.

Lemma mapGet_mapSet {V : Type} (k : string) (v : V) (m : list (string * V)) :
  Js.mapGet k (Js.mapSet k v m) = Some v.
Proof.
  induction m as [|[k' v'] m IH]; cbn.
  - now rewrite String.eqb_refl.
  - destruct (String.eqb k' k) eqn:E; cbn; [now rewrite String.eqb_refl|].
    now rewrite E.
Qed.

End ProjectIds.

(** ** What a computation adds to the trace *)

Section Hoare.

Context {A : Type}.

Lemma hoare_ret (a : A) (P : Event -> Prop) (Q : A -> Prop) :
  Q a -> hoare (ret a) P Q.
Proof.
  intros Ha w. exists []. cbn. rewrite app_nil_r.
  split; [reflexivity|]. split; [constructor|]. now intros a' [= <-].
Qed.

Lemma hoare_throw (e : string) (P : Event -> Prop) (Q : A -> Prop) :
  hoare (throw e) P Q.
Proof.
  intros w. exists []. cbn. rewrite app_nil_r.
  split; [reflexivity|]. split; [constructor|]. discriminate.
Qed.

Lemma hoare_liftResult (r : string + A) (P : Event -> Prop) :
  hoare (liftResult r) P (fun _ => True).
Proof.
  intros w. exists []. cbn. rewrite app_nil_r.
  split; [reflexivity|]. split; [constructor | trivial].
Qed.

Lemma hoare_weaken (m : M A) (P P' : Event -> Prop) (Q Q' : A -> Prop) :
  hoare m P Q -> (forall e, P e -> P' e) -> (forall a, Q a -> Q' a) ->
  hoare m P' Q'.
Proof.
  intros H HP HQ w. destruct (H w) as (evs & Ht & Hf & Hr).
  exists evs. split; [exact Ht|]. split; [|auto].
  eapply List.Forall_impl; [|exact Hf]. exact HP.
Qed.

Lemma hoare_bind {B : Type} (m : M B) (k : B -> M A) (P : Event -> Prop)
  (R : B -> Prop) (Q : A -> Prop) :
  hoare m P R -> (forall b, R b -> hoare (k b) P Q) -> hoare (bind m k) P Q.
Proof.
  intros Hm Hk w. unfold bind.
  destruct (Hm w) as (evs & Ht & Hf & Hr).
  destruct (m w) as [[e|b] w1]; cbn [fst snd] in *.
  - exists evs. split; [exact Ht|]. split; [exact Hf | discriminate].
  - destruct (Hk b (Hr b eq_refl) w1) as (evs' & Ht' & Hf' & Hr').
    exists (evs ++ evs'). rewrite Ht', Ht, app_assoc.
    split; [reflexivity|]. split; [|exact Hr'].
    apply List.Forall_app. now split.
Qed.

Lemma hoare_tryCatch (m : M A) (h : string -> M A) (P : Event -> Prop)
  (Q : A -> Prop) :
  hoare m P Q -> (forall e, hoare (h e) P Q) -> hoare (tryCatch m h) P Q.
Proof.
  intros Hm Hh w. unfold tryCatch.
  destruct (Hm w) as (evs & Ht & Hf & Hr).
  destruct (m w) as [[e|a] w1]; cbn [fst snd] in *.
  - destruct (Hh e w1) as (evs' & Ht' & Hf' & Hr').
    exists (evs ++ evs'). rewrite Ht', Ht, app_assoc.
    split; [reflexivity|]. split; [|exact Hr'].
    apply List.Forall_app. now split.
  - exists evs. split; [exact Ht|]. split; [exact Hf|exact Hr].
Qed.

Lemma hoare_recoverWith (applies : string -> bool) (retryInline : M A)
  (P : Event -> Prop) (Q : A -> Prop) (e : string) :
  hoare retryInline P Q -> hoare (recoverWith applies retryInline e) P Q.
Proof.
  intros H. unfold recoverWith. destruct (applies e); [exact H | apply hoare_throw].
Qed.

Lemma hoare_withToken (account : TM.CloudAccount) (k : TM.CloudTokenData -> M A)
  (P : Event -> Prop) (Q : A -> Prop) :
  (forall t, TM.token account = Some t -> hoare (k t) P Q) ->
  hoare (withToken account k) P Q.
Proof.
  intros H. unfold withToken.
  destruct (TM.token account) as [t|]; [now apply H | apply hoare_throw].
Qed.

End Hoare.

Section HoarePrimitives.

Lemma hoare_fmap {A B : Type} (f : A -> B) (m : M A) (P : Event -> Prop) :
  hoare m P (fun _ => True) -> hoare (f <$> m) P (fun _ => True).
Proof.
  intros H. unfold fmap, M_fmap.
  apply (hoare_bind m _ P (fun _ => True)); [exact H|].
  intros a _. now apply hoare_ret.
Qed.

Variable JSON_parse : string -> option Json.json.
Variable generateInternal : nat -> UpstreamCall -> string + Json.jsval.
Variable streamGenerateInternal : nat -> UpstreamCall -> string + ReadableStream.
Variable uuidv4 : nat -> string.

Lemma hoare_freshUuid (P : Event -> Prop) :
  hoare (freshUuid uuidv4) P (fun _ => True).
Proof.
  intros w. exists []. cbn. rewrite app_nil_r.
  split; [reflexivity|]. split; [constructor | trivial].
Qed.

Lemma hoare_callGenerateInternal (body : GeminiInternalRequest) (tok : string)
  (proxy : option string) (headers : list (string * string)) (P : Event -> Prop) :
  P (EvUpstream (mkCall false body tok proxy headers)) ->
  hoare (callGenerateInternal generateInternal body tok proxy headers) P
        (fun _ => True).
Proof.
  intros He w. exists [EvUpstream (mkCall false body tok proxy headers)]. cbn.
  split; [reflexivity|]. split; [|trivial]. now repeat constructor.
Qed.

Lemma hoare_callStreamGenerateInternal (body : GeminiInternalRequest) (tok : string)
  (proxy : option string) (headers : list (string * string)) (P : Event -> Prop) :
  P (EvUpstream (mkCall true body tok proxy headers)) ->
  hoare (callStreamGenerateInternal streamGenerateInternal body tok proxy headers) P
        (fun _ => True).
Proof.
  intros He w. exists [EvUpstream (mkCall true body tok proxy headers)]. cbn.
  split; [reflexivity|]. split; [|trivial]. now repeat constructor.
Qed.

Lemma hoare_generateInternalWithStreamFallback (body : GeminiInternalRequest)
  (tok : string) (proxy : option string) (headers : list (string * string))
  (P : Event -> Prop) :
  (forall s, P (EvUpstream (mkCall s body tok proxy headers))) ->
  hoare (generateInternalWithStreamFallback JSON_parse generateInternal
           streamGenerateInternal body tok proxy headers) P (fun _ => True).
Proof.
  intros He. unfold generateInternalWithStreamFallback, mbind, M_bind.
  eapply hoare_bind; [apply hoare_callGenerateInternal, He|].
  intros direct _. destruct (hasUsableGeminiCandidate direct).
  - now apply hoare_ret.
  - eapply hoare_bind; [apply hoare_callStreamGenerateInternal, He|].
    intros stream _. apply hoare_liftResult.
Qed.

End HoarePrimitives.

(** ** The events of one attempt *)

Section AttemptEvents.

Variable JSON_parse : string -> option Json.json.
Variable generateInternal : nat -> UpstreamCall -> string + Json.jsval.
Variable streamGenerateInternal : nat -> UpstreamCall -> string + ReadableStream.
Variable uuidv4 : nat -> string.
Variable envUserAgent : option string.
Variable transformResponse : Json.jsval -> ClaudeResponse.
Variable claudeRequestToGemini : ClaudeRequest -> Json.json.
Variable claudeTargetModel : ClaudeRequest -> string.
Variable claudeUserAgent : string.
Variable convertOpenAIContent : Json.json -> string + Json.json.

Local Abbreviation transformClaudeRequestIn :=
  (transformClaudeRequestIn uuidv4 claudeRequestToGemini claudeTargetModel
     claudeUserAgent).
Local Abbreviation createGeminiInternalRequest :=
  (createGeminiInternalRequest uuidv4 envUserAgent).

Lemma hoare_transformClaudeRequestIn (c : ClaudeRequest) (p : string)
  (P : Event -> Prop) :
  hoare (transformClaudeRequestIn c p) P (fun body => project body = p).
Proof.
  unfold ProxyService.transformClaudeRequestIn, mbind, M_bind.
  eapply hoare_bind; [apply hoare_freshUuid|].
  intros u _. now apply hoare_ret.
Qed.

Lemma hoare_createGeminiInternalRequest (m : string) (r : GeminiRequest)
  (p ty : string) (P : Event -> Prop) :
  hoare (createGeminiInternalRequest m r p ty) P (fun body => project body = p).
Proof.
  unfold ProxyService.createGeminiInternalRequest, mbind, M_bind.
  eapply hoare_bind; [apply hoare_freshUuid|].
  intros u _. now apply hoare_ret.
Qed.

(** The property of events under study, and the projects whose upstream
    requests have it. *)
Variable P : Event -> Prop.

Lemma geminiGenerate_events (m : string) (headers : list (string * string))
  (r : GeminiRequest) (p : string) (t : TM.CloudTokenData) :
  allowsProject P p ->
  hoare (geminiGenerate JSON_parse generateInternal streamGenerateInternal uuidv4
           envUserAgent m headers r p t) P (fun _ => True).
Proof.
  intros Hp. unfold geminiGenerate, mbind, M_bind.
  eapply hoare_bind; [apply hoare_createGeminiInternalRequest|].
  intros body Hb. eapply hoare_bind.
  - apply hoare_generateInternalWithStreamFallback. intros s. now apply Hp.
  - intros response _. unfold liftOption.
    destruct (normalizeGeminiGenerateResponse response);
      [now apply hoare_ret | apply hoare_throw].
Qed.

Lemma geminiStream_events (m : string) (headers : list (string * string))
  (r : GeminiRequest) (p : string) (t : TM.CloudTokenData) :
  allowsProject P p ->
  hoare (geminiStream streamGenerateInternal uuidv4 envUserAgent m headers r p t)
        P (fun _ => True).
Proof.
  intros Hp. unfold geminiStream, mbind, M_bind.
  eapply hoare_bind; [apply hoare_createGeminiInternalRequest|].
  intros body Hb. apply hoare_callStreamGenerateInternal. now apply Hp.
Qed.

Lemma chatUnary_events (r : OpenAIChatRequest) (headers : list (string * string))
  (body : GeminiInternalRequest) (t : TM.CloudTokenData) :
  allowsProject P (project body) ->
  hoare (chatUnary JSON_parse generateInternal streamGenerateInternal
           transformResponse r headers body t) P (fun _ => True).
Proof.
  intros Hb. unfold chatUnary, mbind, M_bind.
  eapply hoare_bind;
    [apply hoare_generateInternalWithStreamFallback; intros s; now apply Hb|].
  intros response _. now apply hoare_ret.
Qed.

Lemma chatStream_events (r : OpenAIChatRequest) (headers : list (string * string))
  (body : GeminiInternalRequest) (t : TM.CloudTokenData) :
  allowsProject P (project body) ->
  hoare (chatStream streamGenerateInternal r headers body t) P (fun _ => True).
Proof.
  intros Hb. unfold chatStream, mbind, M_bind.
  eapply hoare_bind; [apply hoare_callStreamGenerateInternal; now apply Hb|].
  intros stream _. now apply hoare_ret.
Qed.

Lemma anthropicCall_events (r : AnthropicChatRequest)
  (headers : list (string * string)) (body : GeminiInternalRequest)
  (t : TM.CloudTokenData) (finish : AnthropicChatResponse -> AnthropicChatResponse) :
  allowsProject P (project body) ->
  hoare (anthropicCall JSON_parse generateInternal streamGenerateInternal
           transformResponse r headers body t finish) P (fun _ => True).
Proof.
  intros Hb. unfold anthropicCall, mbind, M_bind. destruct (a_stream r).
  - eapply hoare_bind; [apply hoare_callStreamGenerateInternal; now apply Hb|].
    intros stream _. now apply hoare_ret.
  - eapply hoare_bind;
      [apply hoare_generateInternalWithStreamFallback; intros s; now apply Hb|].
    intros response _. now apply hoare_ret.
Qed.

Variable account : TM.CloudAccount.
Hypothesis allows_empty : allowsProject P "".
Hypothesis allows_own :
  forall t, TM.token account = Some t -> allowsProject P (default "" (TM.project_id t)).

Lemma geminiGenerateAttempt_events (m : string) (headers : list (string * string))
  (r : GeminiRequest) :
  hoare (geminiGenerateAttempt JSON_parse generateInternal streamGenerateInternal
           uuidv4 envUserAgent m headers r account) P (fun _ => True).
Proof.
  unfold geminiGenerateAttempt. apply hoare_tryCatch.
  - apply hoare_withToken. intros t Ht. now apply geminiGenerate_events, allows_own.
  - intros e. apply hoare_recoverWith, hoare_withToken. intros t _.
    now apply geminiGenerate_events.
Qed.

Lemma geminiStreamAttempt_events (m : string) (headers : list (string * string))
  (r : GeminiRequest) :
  hoare (geminiStreamAttempt streamGenerateInternal uuidv4 envUserAgent m headers r
           account) P (fun _ => True).
Proof.
  unfold geminiStreamAttempt. apply hoare_tryCatch.
  - apply hoare_withToken. intros t Ht. now apply geminiStream_events, allows_own.
  - intros e. apply hoare_recoverWith, hoare_withToken. intros t _.
    now apply geminiStream_events.
Qed.

Lemma chatAttempt_events (r : OpenAIChatRequest) (headers : list (string * string)) :
  hoare (chatAttempt JSON_parse generateInternal streamGenerateInternal uuidv4
           transformResponse claudeRequestToGemini claudeTargetModel claudeUserAgent
           convertOpenAIContent r headers account) P (fun _ => True).
Proof.
  unfold chatAttempt. apply hoare_tryCatch.
  - unfold mbind, M_bind. eapply hoare_bind; [apply hoare_liftResult|].
    intros claudeRequest _.
    apply hoare_withToken. intros t Ht. cbv zeta.
    eapply hoare_bind; [apply hoare_transformClaudeRequestIn|].
    intros body Hb. cbn in Hb. pose proof (allows_own t Ht) as Hown.
    rewrite <- Hb in Hown. destruct (o_stream r).
    + apply hoare_tryCatch; [now apply chatStream_events|].
      intros _. apply hoare_fmap. now apply chatUnary_events.
    + apply hoare_fmap. now apply chatUnary_events.
  - intros e. apply hoare_recoverWith. unfold mbind, M_bind.
    eapply hoare_bind; [apply hoare_liftResult|].
    intros claudeRequest _.
    eapply hoare_bind; [apply hoare_transformClaudeRequestIn|].
    intros body Hb. cbn in Hb. pose proof allows_empty as Hempty.
    rewrite <- Hb in Hempty. apply hoare_withToken. intros t _.
    destruct (o_stream r).
    + now apply chatStream_events.
    + apply hoare_fmap. now apply chatUnary_events.
Qed.

Lemma anthropicAttempt_events (r : AnthropicChatRequest)
  (headers : list (string * string)) :
  hoare (anthropicAttempt JSON_parse generateInternal streamGenerateInternal uuidv4
           transformResponse claudeRequestToGemini claudeTargetModel claudeUserAgent
           r headers account) P (fun _ => True).
Proof.
  unfold anthropicAttempt, anthropicPrimary, anthropicDowngrade.
  apply hoare_tryCatch; [apply hoare_tryCatch|].
  - apply hoare_withToken. intros t Ht. cbv zeta. unfold mbind, M_bind.
    eapply hoare_bind; [apply hoare_transformClaudeRequestIn|].
    intros body Hb. cbn in Hb. pose proof (allows_own t Ht) as Hown.
    rewrite <- Hb in Hown. now apply anthropicCall_events.
  - intros e. apply hoare_recoverWith. unfold mbind, M_bind.
    eapply hoare_bind; [apply hoare_transformClaudeRequestIn|].
    intros body Hb. cbn in Hb. pose proof allows_empty as Hempty.
    rewrite <- Hb in Hempty. apply hoare_withToken. intros t _.
    now apply anthropicCall_events.
  - intros e. apply hoare_recoverWith, hoare_withToken. intros t Ht.
    unfold mbind, M_bind.
    eapply hoare_bind; [apply hoare_transformClaudeRequestIn|].
    intros body Hb. cbn in Hb. pose proof (allows_own t Ht) as Hown.
    rewrite <- Hb in Hown. now apply anthropicCall_events.
Qed.

End AttemptEvents.

Section NoProject.

Variable account : TM.CloudAccount.
Hypothesis account_has_no_project :
  forall t, TM.token account = Some t -> TM.project_id t = None.

Lemma sendsNoProject_empty : allowsProject sendsNoProject "".
Proof. intros s body tok proxy headers H. exact H. Qed.

Lemma sendsNoProject_own (t : TM.CloudTokenData) :
  TM.token account = Some t ->
  allowsProject sendsNoProject (default "" (TM.project_id t)).
Proof.
  intros Ht. rewrite (account_has_no_project t Ht). apply sendsNoProject_empty.
Qed.

End NoProject.

Section NoSelection.

Lemma notSelection_any (p : string) : allowsProject notSelection p.
Proof. intros s body tok proxy headers _. exact I. Qed.

End NoSelection.

Section Finalization.

Variable refreshAccessToken : string -> option (string * Z).

Lemma finalize_spec (accId : string) (td : TM.TokenData) (ns nf : Z)
  (sk : option string) (tm : TM.TokenManager) :
  exists td',
    (TM.finalizeSelectedToken refreshAccessToken accId td ns nf sk tm).1
    = Some (TM.toCloudAccount accId td' nf) /\
    TM.tokens (TM.finalizeSelectedToken refreshAccessToken accId td ns nf sk tm).2
    = Js.mapSet accId td' (TM.tokens tm) /\
    TM.td_project_id td' = TM.td_project_id (TM.sanitizeProjectId td).
Proof.
  unfold TM.finalizeSelectedToken. cbn [fst snd].
  eexists. split; [reflexivity|]. split.
  - destruct sk as [k|]; [destruct (Js.truthy k)|]; reflexivity.
  - destruct (_ <=? _)%Z; [destruct (refreshAccessToken _) as [[a e]|]|];
      unfold TM.sanitizeProjectId; cbn; destruct (TM.discardsProjectId _); reflexivity.
Qed.

Lemma sanitize_synthetic (td : TM.TokenData) (p : string) :
  TM.td_project_id td = Some p -> TM.MatchesCloudCode (Js.trim p) ->
  TM.td_project_id (TM.sanitizeProjectId td) = None.
Proof.
  intros Hp Hm. unfold TM.sanitizeProjectId, TM.discardsProjectId. rewrite Hp.
  rewrite (proj2 (isSyntheticProjectId_iff _) Hm), orb_true_r. reflexivity.
Qed.

End Finalization.

(** C5.  When the selected token's [project_id], trimmed, matches
    [^cloud-code-\d+$] case-insensitively, finalization returns the account
    with no [project_id] and leaves none in the pool entry; and every
    upstream request the four handlers build in an attempt on that account
    carries [project] equal to the empty string. *)
Theorem C5_synthetic_project_id_discarded
  (refreshAccessToken : string -> option (string * Z))
  (JSON_parse : string -> option Json.json)
  (generateInternal : nat -> UpstreamCall -> string + Json.jsval)
  (streamGenerateInternal : nat -> UpstreamCall -> string + ReadableStream)
  (uuidv4 : nat -> string) (envUserAgent : option string)
  (transformResponse : Json.jsval -> ClaudeResponse)
  (claudeRequestToGemini : ClaudeRequest -> Json.json)
  (claudeTargetModel : ClaudeRequest -> string) (claudeUserAgent : string)
  (convertOpenAIContent : Json.json -> string + Json.json)
  (accId : string) (td : TM.TokenData) (nowSeconds nowFinal : Z)
  (sessionKey : option string) (tm : TM.TokenManager) (p : string) :
  TM.td_project_id td = Some p ->
  TM.MatchesCloudCode (Js.trim p) ->
  let final :=
    TM.finalizeSelectedToken refreshAccessToken accId td nowSeconds nowFinal
      sessionKey tm in
  exists account t,
    final.1 = Some account /\
    TM.token account = Some t /\
    TM.project_id t = None /\
    (Js.mapGet accId (TM.tokens final.2) ≫= TM.td_project_id) = None /\
    (forall m headers r,
       hoare (geminiGenerateAttempt JSON_parse generateInternal streamGenerateInternal
                uuidv4 envUserAgent m headers r account)
             sendsNoProject (fun _ => True)) /\
    (forall m headers r,
       hoare (geminiStreamAttempt streamGenerateInternal uuidv4 envUserAgent m headers
                r account)
             sendsNoProject (fun _ => True)) /\
    (forall r headers,
       hoare (chatAttempt JSON_parse generateInternal streamGenerateInternal uuidv4
                transformResponse claudeRequestToGemini claudeTargetModel
                claudeUserAgent convertOpenAIContent r headers account)
             sendsNoProject (fun _ => True)) /\
    (forall r headers,
       hoare (anthropicAttempt JSON_parse generateInternal streamGenerateInternal
                uuidv4 transformResponse claudeRequestToGemini claudeTargetModel
                claudeUserAgent r headers account)
             sendsNoProject (fun _ => True)).
Proof.
  intros Hp Hm final.
  destruct (finalize_spec refreshAccessToken accId td nowSeconds nowFinal sessionKey tm)
    as (td' & E1 & E2 & E3).
  rewrite (sanitize_synthetic td p Hp Hm) in E3.
  exists (TM.toCloudAccount accId td' nowFinal). eexists.
  split; [exact E1|]. split; [reflexivity|]. split; [exact E3|].
  assert (Hacc : forall t, TM.token (TM.toCloudAccount accId td' nowFinal) = Some t ->
                           TM.project_id t = None)
    by (intros t [= <-]; exact E3).
  split.
  { subst final. rewrite E2, mapGet_mapSet. exact E3. }
  pose proof sendsNoProject_empty as He.
  pose proof (sendsNoProject_own _ Hacc) as Ho.
  split; [intros; now apply geminiGenerateAttempt_events|].
  split; [intros; now apply geminiStreamAttempt_events|].
  split; [intros; now apply chatAttempt_events|].
  intros; now apply anthropicAttempt_events.
Qed.

(** Witness of [C5_synthetic_project_id_discarded]: account A of the sample
    pool carries project id cloud-code-42. *)
Lemma C5_synthetic_project_id_discarded_witness :
  TM.td_project_id (Sample.tokenData "A" (Some "cloud-code-42")) = Some "cloud-code-42" /\
  TM.MatchesCloudCode (Js.trim "cloud-code-42") /\
  exists account t,
    (TM.finalizeSelectedToken Sample.noRefresh "A"
       (Sample.tokenData "A" (Some "cloud-code-42")) 1 1000 None Sample.poolAB).1
    = Some account /\
    TM.token account = Some t /\ TM.project_id t = None.
Proof.
  assert (M : TM.MatchesCloudCode (Js.trim "cloud-code-42"))
    by (apply isSyntheticProjectId_iff; reflexivity).
  split; [reflexivity|]. split; [exact M|].
  destruct (C5_synthetic_project_id_discarded Sample.noRefresh Sample.parseHello
              Sample.rejectUnary Sample.rejectStreaming Sample.uuid None Sample.claudeOf
              cr_rest cr_model "agent" inr "A"
              (Sample.tokenData "A" (Some "cloud-code-42")) 1 1000 None Sample.poolAB
              "cloud-code-42" eq_refl M)
    as (account & t & H1 & H2 & H3 & _).
  exists account, t. repeat split; assumption.
Defined.

(** ** Quota downgrade on the Anthropic surface *)

Section QuotaDowngrade.

Variable JSON_parse : string -> option Json.json.
Variable generateInternal : nat -> UpstreamCall -> string + Json.jsval.
Variable streamGenerateInternal : nat -> UpstreamCall -> string + ReadableStream.
Variable uuidv4 : nat -> string.
Variable transformResponse : Json.jsval -> ClaudeResponse.
Variable claudeRequestToGemini : ClaudeRequest -> Json.json.
Variable claudeTargetModel : ClaudeRequest -> string.
Variable claudeUserAgent : string.

Local Abbreviation anthropicPrimary :=
  (anthropicPrimary JSON_parse generateInternal streamGenerateInternal uuidv4
     transformResponse claudeRequestToGemini claudeTargetModel claudeUserAgent).
Local Abbreviation anthropicDowngrade :=
  (anthropicDowngrade JSON_parse generateInternal streamGenerateInternal uuidv4
     transformResponse claudeRequestToGemini claudeTargetModel claudeUserAgent).
Local Abbreviation anthropicAttempt :=
  (anthropicAttempt JSON_parse generateInternal streamGenerateInternal uuidv4
     transformResponse claudeRequestToGemini claudeTargetModel claudeUserAgent).

Lemma isQuotaExhaustedError_keywords (e : string) :
  AnyCI e quotaKeywords -> isQuotaExhaustedError e = true.
Proof.
  intros H. unfold isQuotaExhaustedError.
  apply AnyCI_includes in H as (kw & Hin & Hhit). cbn [In quotaKeywords] in Hin.
  destruct Hin as [<-|[<-|[<-|[]]]]; rewrite Hhit; now rewrite ?orb_true_r.
Qed.

Lemma anthropicAttempt_downgrades (r : AnthropicChatRequest)
  (headers : list (string * string)) (account : TM.CloudAccount) (w w1 : World)
  (e : string) :
  anthropicPrimary r headers account w = (inl e, w1) ->
  isQuotaExhaustedError e = true ->
  anthropicAttempt r headers account w = anthropicDowngrade r headers account w1.
Proof.
  intros Hp Hq. unfold ProxyService.anthropicAttempt, tryCatch.
  rewrite Hp. unfold recoverWith. now rewrite Hq.
Qed.

Lemma anthropicDowngrade_run (r : AnthropicChatRequest)
  (headers : list (string * string)) (account : TM.CloudAccount)
  (t : TM.CloudTokenData) (w1 : World) :
  TM.token account = Some t ->
  let downgradedBody :=
    mkInternal (default "" (TM.project_id t)) (uuidv4 (uuids w1))
      (claudeRequestToGemini (downgradedRequest r))
      (claudeTargetModel (downgradedRequest r)) claudeUserAgent "generate-content" in
  let run := anthropicDowngrade r headers account w1 in
  (exists more,
     trace run.2 =
     trace w1 ++ EvUpstream (mkCall (a_stream r) downgradedBody (TM.access_token t)
                               (TM.upstream_proxy_url t) headers) :: more /\
     Forall notSelection more) /\
  (forall response, run.1 = inr (AnthropicMessage response) ->
                    ar_model response = a_model r) /\
  (a_stream r = false ->
   forall result, run.1 = inr result -> exists response, result = AnthropicMessage response).
Proof.
  intros Ht downgradedBody run. subst run.
  unfold ProxyService.anthropicDowngrade, withToken. rewrite Ht.
  unfold ProxyService.transformClaudeRequestIn, freshUuid, anthropicCall,
    generateInternalWithStreamFallback, callGenerateInternal,
    callStreamGenerateInternal, liftResult, mbind, M_bind, bind, mret, M_ret, ret.
  cbn [uuids pool clock trace upstreamCalls].
  fold downgradedBody.
  destruct (a_stream r) eqn:Es.
  - destruct (streamGenerateInternal _ _) as [err|stream]; cbn [fst snd trace].
    + split; [exists []; split; [reflexivity | constructor]|].
      split; [discriminate|]. discriminate.
    + split; [exists []; split; [reflexivity | constructor]|].
      split; [discriminate|]. discriminate.
  - destruct (generateInternal _ _) as [err|direct]; cbn [fst snd trace upstreamCalls].
    + split; [exists []; split; [reflexivity | constructor]|].
      split; [discriminate|]. discriminate.
    + destruct (hasUsableGeminiCandidate direct); cbn [fst snd trace upstreamCalls].
      * split; [exists []; split; [reflexivity | constructor]|].
        split; [now intros response [= <-]|]. intros _ result [= <-]. eauto.
      * destruct (streamGenerateInternal _ _) as [err|stream];
          cbn [fst snd trace upstreamCalls].
        -- split; [eexists; split; [rewrite <- app_assoc; reflexivity
                                   | repeat constructor]|].
           split; discriminate.
        -- destruct (collectGeminiStreamAsResponse JSON_parse stream) as [err|resp];
             cbn [fst snd trace].
           ++ split; [eexists; split; [rewrite <- app_assoc; reflexivity
                                      | repeat constructor]|].
              split; discriminate.
           ++ split; [eexists; split; [rewrite <- app_assoc; reflexivity
                                      | repeat constructor]|].
              split; [now intros response [= <-]|]. intros _ result [= <-]. eauto.
Qed.

End QuotaDowngrade.

(** The quota downgrade.  When the Anthropic attempt, after its
    project-context recovery, has failed with a message containing resource
    has been exhausted, resource_exhausted or quota in any case, the handler
    at once sends a request built from the same Claude request with the
    model replaced by gemini-2.5-flash, with the same account's access token
    and proxy, and selects no other account meanwhile; and a message
    response returned from that retry has the model the client asked
    for. *)
Theorem quota_downgrade_same_account
  (JSON_parse : string -> option Json.json)
  (generateInternal : nat -> UpstreamCall -> string + Json.jsval)
  (streamGenerateInternal : nat -> UpstreamCall -> string + ReadableStream)
  (uuidv4 : nat -> string)
  (transformResponse : Json.jsval -> ClaudeResponse)
  (claudeRequestToGemini : ClaudeRequest -> Json.json)
  (claudeTargetModel : ClaudeRequest -> string) (claudeUserAgent : string)
  (r : AnthropicChatRequest) (headers : list (string * string))
  (account : TM.CloudAccount) (t : TM.CloudTokenData) (w w1 : World) (e : string) :
  TM.token account = Some t ->
  anthropicPrimary JSON_parse generateInternal streamGenerateInternal uuidv4
    transformResponse claudeRequestToGemini claudeTargetModel claudeUserAgent
    r headers account w = (inl e, w1) ->
  AnyCI e quotaKeywords ->
  let downgraded := downgradedRequest r in
  let downgradedBody :=
    mkInternal (default "" (TM.project_id t)) (uuidv4 (uuids w1))
      (claudeRequestToGemini downgraded) (claudeTargetModel downgraded)
      claudeUserAgent "generate-content" in
  let run :=
    anthropicAttempt JSON_parse generateInternal streamGenerateInternal uuidv4
      transformResponse claudeRequestToGemini claudeTargetModel claudeUserAgent
      r headers account w in
  cr_model downgraded = "gemini-2.5-flash" /\
  (cr_stream downgraded, cr_metadata downgraded, cr_rest downgraded)
  = (a_stream r, a_metadata r, a_rest r) /\
  (exists more,
     trace run.2 =
     trace w1 ++ EvUpstream (mkCall (a_stream r) downgradedBody (TM.access_token t)
                               (TM.upstream_proxy_url t) headers) :: more /\
     Forall notSelection more) /\
  (forall response, run.1 = inr (AnthropicMessage response) ->
                    ar_model response = a_model r) /\
  (a_stream r = false ->
   forall result, run.1 = inr result -> exists response, result = AnthropicMessage response).
Proof.
  intros Ht Hp Hq downgraded downgradedBody run.
  split; [reflexivity|]. split; [reflexivity|].
  subst run.
  rewrite (anthropicAttempt_downgrades _ _ _ _ _ _ _ _ r headers account w w1 e Hp
             (isQuotaExhaustedError_keywords e Hq)).
  exact (anthropicDowngrade_run JSON_parse generateInternal streamGenerateInternal
           uuidv4 transformResponse claudeRequestToGemini claudeTargetModel
           claudeUserAgent r headers account t w1 Ht).
Qed.

(** An instance of [quota_downgrade_same_account]: the first call for
    claude-sonnet-4-5 is rejected with a quota message, the downgraded call
    succeeds, and the message returned names claude-sonnet-4-5. *)
Lemma quota_downgrade_same_account_witness :
  let account := TM.toCloudAccount "A" (Sample.tokenData "A" None) 0 in
  let w := initialWorld Sample.poolABC 0 in
  let run :=
    anthropicAttempt Sample.parseHello Sample.quotaThenOk Sample.rejectStreaming
      Sample.uuid Sample.claudeOf cr_rest cr_model "agent"
      Sample.anthropicRequest [] account w in
  AnyCI "Resource has been exhausted (e.g. check quota)." quotaKeywords /\
  List.map (fun c => model (uc_body c)) (upstreamCallsOf (trace run.2))
  = ["claude-sonnet-4-5"; "gemini-2.5-flash"] /\
  exists response,
    run.1 = inr (AnthropicMessage response) /\ ar_model response = "claude-sonnet-4-5".
Proof.
  intros account w run.
  assert (Q : AnyCI "Resource has been exhausted (e.g. check quota)." quotaKeywords)
    by (apply AnyCI_decide_true; reflexivity).
  split; [exact Q|]. split; [reflexivity|].
  set (primary := anthropicPrimary Sample.parseHello Sample.quotaThenOk
                    Sample.rejectStreaming Sample.uuid Sample.claudeOf cr_rest cr_model
                    "agent" Sample.anthropicRequest [] account w).
  assert (E : primary = (inl "Resource has been exhausted (e.g. check quota).", primary.2))
    by (vm_compute; reflexivity).
  destruct (quota_downgrade_same_account Sample.parseHello Sample.quotaThenOk
              Sample.rejectStreaming Sample.uuid Sample.claudeOf cr_rest cr_model
              "agent" Sample.anthropicRequest [] account
              (Sample.tokenData_cloud "A") w primary.2 _ eq_refl E Q)
    as (_ & _ & _ & Hmodel & Hmsg).
  fold run in Hmodel, Hmsg.
  destruct run.1 as [err|result] eqn:Er; [vm_compute in Er; discriminate|].
  destruct (Hmsg eq_refl result eq_refl) as [response ->].
  exists response. split; [reflexivity | now apply Hmodel].
Defined.

(** ** The retry loop in general *)

Section RetryLoop.

Variable getAccounts : option (list TM.CloudAccount).
Variable refreshAccessToken : string -> option (string * Z).
Variable generateSessionId : string.
Variable calculateRetryDelay : nat -> Z.

Local Abbreviation retryLoop :=
  (@retryLoop getAccounts refreshAccessToken generateSessionId calculateRetryDelay).
Local Abbreviation selectToken :=
  (selectToken getAccounts refreshAccessToken generateSessionId).

Lemma selectionsOf_app (a b : list Event) :
  selectionsOf (a ++ b) = selectionsOf a ++ selectionsOf b.
Proof. apply omap_app. Qed.

Lemma selectionsOf_none (evs : list Event) :
  Forall notSelection evs -> selectionsOf evs = [].
Proof.
  induction 1 as [|e evs He _ IH]; [reflexivity|].
  destruct e; cbn in *; try exact IH. contradiction.
Qed.

Lemma selectToken_run (sk : option string) (ex : list string) (w : World) :
  exists r w1,
    selectToken sk ex w = (inr r, w1) /\
    trace w1 = trace w ++ [EvSelect sk ex (TM.id <$> r)].
Proof.
  unfold ProxyService.selectToken.
  destruct (TM.getNextToken _ _ _ _ _ _ _ _) as [r tm].
  eexists r, _. split; reflexivity.
Qed.

Lemma markByDecision_run (d : RetryDecision) (accId : string) (w : World) :
  exists w1 evs,
    markByDecision d accId w = (inr tt, w1) /\
    trace w1 = trace w ++ evs /\ Forall notSelection evs.
Proof.
  unfold markByDecision.
  destruct (retry d); [destruct (markAsForbidden d); [|destruct (markAsRateLimited d)]|].
  - eexists _, [_]. split; [reflexivity|]. split; [reflexivity|]. now repeat constructor.
  - eexists _, [_]. split; [reflexivity|]. split; [reflexivity|]. now repeat constructor.
  - exists w, []. rewrite app_nil_r. repeat split. constructor.
  - exists w, []. rewrite app_nil_r. repeat split. constructor.
Qed.

Lemma pause_run (i : nat) (w : World) :
  exists w1 evs,
    (if Nat.ltb 0 i then sleep (calculateRetryDelay (i - 1)) else mret tt) w
    = (inr tt, w1) /\
    trace w1 = trace w ++ evs /\ Forall notSelection evs.
Proof.
  destruct (Nat.ltb 0 i).
  - eexists _, [_]. split; [reflexivity|]. split; [reflexivity|]. now repeat constructor.
  - exists w, []. rewrite app_nil_r. repeat split. constructor.
Qed.

(** Whatever the attempts do, as long as they select no account themselves:
    the loop makes at most [remaining] selections, the first excludes
    [attempted], and each later one excludes in addition the accounts
    selected since. *)
Lemma retryLoop_selections {A : Type} (noAccounts failed : string)
  (sk : option string) (attempt : TM.CloudAccount -> M A) :
  (forall account, hoare (attempt account) notSelection (fun _ => True)) ->
  forall (remaining i : nat) (lastError : option string) (attempted : list string)
         (w : World),
  exists evs,
    trace (retryLoop noAccounts failed sk attempt remaining i lastError attempted w).2
    = trace w ++ evs /\
    length (selectionsOf evs) <= remaining /\
    chained attempted (selectionsOf evs).
Proof.
  intros Hattempt. induction remaining as [|n IH]; intros i lastError attempted w.
  - exists []. cbn. rewrite app_nil_r. repeat split. lia.
  - cbn [ProxyService.retryLoop]. unfold mbind, M_bind, bind.
    destruct (pause_run i w) as (w0 & evs0 & -> & Ht0 & Hn0).
    destruct (selectToken_run sk attempted w0) as (r & w1 & -> & Ht1).
    destruct r as [account|].
    + unfold tryCatch.
      destruct (Hattempt account w1) as (evsa & Hta & Hna & _).
      destruct (attempt account w1) as [[err|v] w2]; cbn [fst snd] in *.
      * destruct (markByDecision_run (classifyUpstreamError err) (TM.id account) w2)
          as (w3 & evsm & -> & Htm & Hnm).
        destruct (IH (S i) (Some err) (setAdd (TM.id account) attempted) w3)
          as (evs' & Ht' & Hlen & Hch).
        exists (evs0 ++ [EvSelect sk attempted (Some (TM.id account))] ++ evsa
                ++ evsm ++ evs').
        split.
        { rewrite Ht', Htm, Hta, Ht1, Ht0. now rewrite <- !app_assoc. }
        rewrite !selectionsOf_app, (selectionsOf_none _ Hn0),
          (selectionsOf_none _ Hna), (selectionsOf_none _ Hnm).
        cbn. split; [lia|]. split; [reflexivity | exact Hch].
      * exists (evs0 ++ [EvSelect sk attempted (Some (TM.id account))] ++ evsa).
        split.
        { rewrite Hta, Ht1, Ht0. now rewrite <- !app_assoc. }
        rewrite !selectionsOf_app, (selectionsOf_none _ Hn0), (selectionsOf_none _ Hna).
        cbn. split; [lia|]. split; reflexivity.
    + exists (evs0 ++ [EvSelect sk attempted None]). cbn [throw fst snd].
      split.
      { rewrite Ht1, Ht0. now rewrite <- !app_assoc. }
      rewrite selectionsOf_app, (selectionsOf_none _ Hn0).
      cbn. split; [lia|]. split; reflexivity.
Qed.

End RetryLoop.

Section HandlerSelections.

Variable getAccounts : option (list TM.CloudAccount).
Variable refreshAccessToken : string -> option (string * Z).
Variable generateSessionId : string.
Variable JSON_parse : string -> option Json.json.
Variable generateInternal : nat -> UpstreamCall -> string + Json.jsval.
Variable streamGenerateInternal : nat -> UpstreamCall -> string + ReadableStream.
Variable calculateRetryDelay : nat -> Z.
Variable uuidv4 : nat -> string.
Variable mapModel : string -> string.
Variable envUserAgent : option string.
Variable transformResponse : Json.jsval -> ClaudeResponse.
Variable claudeRequestToGemini : ClaudeRequest -> Json.json.
Variable claudeTargetModel : ClaudeRequest -> string.
Variable claudeUserAgent : string.
Variable convertOpenAIContent : Json.json -> string + Json.json.

Lemma handlers_select_at_most_three_times :
  (forall r,
     boundedSelections
       (handleChatCompletions getAccounts refreshAccessToken generateSessionId
          JSON_parse generateInternal streamGenerateInternal calculateRetryDelay
          uuidv4 transformResponse claudeRequestToGemini claudeTargetModel
          claudeUserAgent convertOpenAIContent r)) /\
  (forall r,
     boundedSelections
       (handleAnthropicMessages getAccounts refreshAccessToken generateSessionId
          JSON_parse generateInternal streamGenerateInternal calculateRetryDelay
          uuidv4 transformResponse claudeRequestToGemini claudeTargetModel
          claudeUserAgent r)) /\
  (forall m r,
     boundedSelections
       (handleGeminiGenerateContent getAccounts refreshAccessToken generateSessionId
          JSON_parse generateInternal streamGenerateInternal calculateRetryDelay
          uuidv4 mapModel envUserAgent m r)) /\
  (forall m r,
     boundedSelections
       (handleGeminiStreamGenerateContent getAccounts refreshAccessToken
          generateSessionId streamGenerateInternal calculateRetryDelay uuidv4
          mapModel envUserAgent m r)).
Proof.
  pose proof (notSelection_any "") as He.
  assert (Ho : forall (account : TM.CloudAccount) t,
             TM.token account = Some t ->
             allowsProject notSelection (default "" (TM.project_id t)))
    by (intros; apply notSelection_any).
  repeat split; intros; intros w; apply retryLoop_selections; intros account.
  - now apply chatAttempt_events; [|apply Ho].
  - now apply anthropicAttempt_events; [|apply Ho].
  - now apply geminiGenerateAttempt_events; [|apply Ho].
  - now apply geminiStreamAttempt_events; [|apply Ho].
Qed.

End HandlerSelections.

Section Sanitized.

Variable getAccounts : option (list TM.CloudAccount).
Variable refreshAccessToken : string -> option (string * Z).
Variable generateSessionId : string.

Lemma getNextToken_finalized (sk : option string) (ex : list string) (now nf : Z)
  (tm : TM.TokenManager) (account : TM.CloudAccount) :
  (TM.getNextToken getAccounts refreshAccessToken generateSessionId sk ex now nf tm).1
  = Some account ->
  exists a td tm1,
    TM.getNextToken getAccounts refreshAccessToken generateSessionId sk ex now nf tm
    = TM.finalizeSelectedToken refreshAccessToken a td (now / 1000) nf
        (Js.trim <$> sk) tm1.
Proof.
  unfold TM.getNextToken. destruct (Nat.eqb _ 0); [discriminate|]. cbv zeta.
  destruct (TM.candidateTokens _ _ _) as [|c cs]; [discriminate|].
  destruct (TM.stickyMatch _ _ _ _) as [[sa std]|]; [eauto|].
  destruct (_ !! _) as [[a td]|]; [eauto | discriminate].
Qed.

(** No account leaves the pool with a synthetic project id. *)
Lemma getNextToken_project_sanitized (sk : option string) (ex : list string)
  (now nf : Z) (tm : TM.TokenManager) (account : TM.CloudAccount)
  (t : TM.CloudTokenData) (p : string) :
  (TM.getNextToken getAccounts refreshAccessToken generateSessionId sk ex now nf tm).1
  = Some account ->
  TM.token account = Some t -> TM.project_id t = Some p ->
  ~ TM.MatchesCloudCode (Js.trim p).
Proof.
  intros H Ht Hp Hm.
  destruct (getNextToken_finalized sk ex now nf tm account H) as (a & td & tm1 & E).
  rewrite E in H.
  destruct (finalize_spec refreshAccessToken a td (now / 1000) nf (Js.trim <$> sk) tm1)
    as (td' & E1 & _ & E3).
  rewrite E1 in H. injection H as <-. cbn in Ht. injection Ht as <-. cbn in Hp.
  rewrite E3 in Hp. unfold TM.sanitizeProjectId in Hp.
  destruct (TM.discardsProjectId (TM.td_project_id td)) eqn:Ed; [discriminate|].
  rewrite Hp in Ed. cbn in Ed. apply orb_false_iff in Ed as [_ Ed].
  apply isSyntheticProjectId_iff in Hm. congruence.
Qed.

End Sanitized.

(** * Further properties *)

Import ProxyService.
Import GeminiClient.

(** * Further properties *)

(** ** The account pool *)

Section PoolMaps.

Lemma mapGet_mapSet_ne {V : Type} (k k' : string) (v : V) (m : list (string * V)) :
  k <> k' -> Js.mapGet k' (Js.mapSet k v m) = Js.mapGet k' m.
Proof.
  intros Hne. induction m as [|[k0 v0] m IH]; cbn.
  - destruct (String.eqb k k') eqn:E; [apply String.eqb_eq in E; contradiction|reflexivity].
  - destruct (String.eqb k0 k) eqn:E; cbn.
    + apply String.eqb_eq in E. subst k0.
      destruct (String.eqb k k') eqn:E'; [apply String.eqb_eq in E'; contradiction|reflexivity].
    + now rewrite IH.
Qed.

Lemma mapSet_keys {V : Type} (k : string) (v : V) (m : list (string * V)) :
  In k (List.map fst m) -> List.map fst (Js.mapSet k v m) = List.map fst m.
Proof.
  induction m as [|[k0 v0] m IH]; cbn; [tauto|].
  intros H. destruct (String.eqb k0 k) eqn:E; cbn.
  - apply String.eqb_eq in E. now subst.
  - f_equal. apply IH. destruct H as [->|H]; [|exact H].
    rewrite String.eqb_refl in E. discriminate.
Qed.

Lemma mapGet_Some_In {V : Type} (k : string) (m : list (string * V)) :
  is_Some (Js.mapGet k m) <-> In k (List.map fst m).
Proof.
  induction m as [|[k0 v0] m IH]; cbn.
  - split; [intros [? ?]; discriminate | tauto].
  - destruct (String.eqb k0 k) eqn:E.
    + apply String.eqb_eq in E. split; eauto.
    + rewrite IH. split; [tauto|]. intros [->|H]; [|exact H].
      rewrite String.eqb_refl in E. discriminate.
Qed.

End PoolMaps.

Section Trimming.

Lemma trimStart_head (s : string) :
  Js.trimStart s = "" \/
  exists c r, Js.trimStart s = String c r /\ Js.isSpace c = false.
Proof.
  induction s as [|c s IH]; [now left|]. cbn.
  destruct (Js.isSpace c) eqn:E; [exact IH|]. right. eauto.
Qed.

Lemma trimEnd_head (c : ascii) (r : string) :
  Js.isSpace c = false -> exists r', Js.trimEnd (String c r) = String c r'.
Proof.
  intros H. cbn. destruct (Js.trimEnd r); [rewrite H|]; eauto.
Qed.

Lemma trimEnd_idem (s : string) : Js.trimEnd (Js.trimEnd s) = Js.trimEnd s.
Proof.
  induction s as [|c s IH]; [reflexivity|]. cbn.
  destruct (Js.trimEnd s) as [|d t] eqn:E.
  - destruct (Js.isSpace c) eqn:Ec; [reflexivity|]. cbn. now rewrite Ec.
  - cbn [Js.trimEnd]. cbn [Js.trimEnd] in IH. rewrite IH. reflexivity.
Qed.

Lemma trimStart_nonspace (c : ascii) (r : string) :
  Js.isSpace c = false -> Js.trimStart (String c r) = String c r.
Proof. intros H. cbn. now rewrite H. Qed.

Lemma trim_idem (s : string) : Js.trim (Js.trim s) = Js.trim s.
Proof.
  unfold Js.trim. destruct (trimStart_head s) as [E|(c & r & E & Hc)]; rewrite E.
  - reflexivity.
  - destruct (trimEnd_head c r Hc) as [r' E']. rewrite E'.
    rewrite (trimStart_nonspace c r' Hc), <- E'. apply trimEnd_idem.
Qed.

(** A non-empty trimmed string starts and ends with a code unit that is
    not white space. *)
Lemma trim_head (s : string) :
  Js.trim s = "" \/ exists c r, Js.trim s = String c r /\ Js.isSpace c = false.
Proof.
  unfold Js.trim. destruct (trimStart_head s) as [E|(c & r & E & Hc)]; rewrite E.
  - now left.
  - right. destruct (trimEnd_head c r Hc) as [r' E']. eauto.
Qed.

End Trimming.

Section PoolExtras.

Variable getAccounts : option (list TM.CloudAccount).
Variable refreshAccessToken : string -> option (string * Z).
Variable generateSessionId : string.

Local Abbreviation getNextToken :=
  (TM.getNextToken getAccounts refreshAccessToken generateSessionId).

(** X1.  [markAsRateLimited] called with an e-mail address that is not
    itself an account id benches the first account that owns the address:
    its cooldown ends 5 minutes later, until then it is not cooling-free,
    and it is in no list of valid tokens. *)
Theorem mark_by_email_cools_owner (tm : TM.TokenManager) (now : Z)
  (email a : string) (td : TM.TokenData) :
  Js.mapGet email (TM.tokens tm) = None ->
  List.find (fun e => String.eqb (TM.td_email e.2) email) (TM.tokens tm) = Some (a, td) ->
  (0 <= now)%Z ->
  let tm' := TM.markAsRateLimited now email tm in
  TM.cooldowns tm' !! a = Some (now + 5 * 60 * 1000)%Z /\
  (forall t, TM.notCooling (TM.cooldowns tm') t a = (now + 5 * 60 * 1000 <=? t)%Z) /\
  (forall ex t, (t < now + 5 * 60 * 1000)%Z ->
                ~ In a (List.map fst (TM.validTokens ex t tm'))).
Proof.
  intros Hid Hfind Hnow tm'.
  assert (E : TM.cooldowns tm' !! a = Some (now + 5 * 60 * 1000)%Z).
  { subst tm'. unfold TM.markAsRateLimited, TM.markInCooldown, TM.resolveAccountId.
    rewrite Hid, Hfind. cbn. apply lookup_insert_eq. }
  assert (N : forall t, TM.notCooling (TM.cooldowns tm') t a
                        = (now + 5 * 60 * 1000 <=? t)%Z).
  { intros t. unfold TM.notCooling. rewrite E.
    destruct (Z.eqb_spec (now + 5 * 60 * 1000) 0); [lia|reflexivity]. }
  split; [exact E|]. split; [exact N|].
  intros ex t Ht Hin. apply validTokens_not_cooling in Hin.
  rewrite N in Hin. apply Z.leb_le in Hin. lia.
Qed.

(** X2.  A cooldown is overwritten, not extended: an account marked
    forbidden (30 minutes) and then rate-limited is cooling only until 5
    minutes after the second mark. *)
Theorem latest_mark_replaces_cooldown (tm : TM.TokenManager) (x : string)
  (n1 n2 : Z) :
  let key := default x (TM.resolveAccountId tm x) in
  let tm' := TM.markAsRateLimited n2 x (TM.markAsForbidden n1 x tm) in
  TM.cooldowns tm' !! key = Some (n2 + 5 * 60 * 1000)%Z /\
  forall t, (n2 + 5 * 60 * 1000 <= t)%Z ->
            TM.notCooling (TM.cooldowns tm') t key = true.
Proof.
  cbv zeta.
  assert (E : TM.cooldowns (TM.markAsRateLimited n2 x (TM.markAsForbidden n1 x tm))
              !! default x (TM.resolveAccountId tm x) = Some (n2 + 5 * 60 * 1000)%Z).
  { unfold TM.markAsRateLimited, TM.markAsForbidden, TM.markInCooldown.
    cbn. apply lookup_insert_eq. }
  split; [exact E|]. intros t Ht. unfold TM.notCooling. rewrite E.
  apply orb_true_iff. right. now apply Z.leb_le.
Qed.

End PoolExtras.

(** Witness of [mark_by_email_cools_owner]: account A marked by its e-mail
    address at time 1000. *)
Lemma mark_by_email_cools_owner_witness :
  Js.mapGet "A@example.test" (TM.tokens Sample.poolAB) = None /\
  TM.cooldowns (TM.markAsRateLimited 1000 "A@example.test" Sample.poolAB) !! "A"
  = Some 301000%Z.
Proof.
  split; [reflexivity|].
  exact (proj1 (mark_by_email_cools_owner Sample.poolAB 1000 "A@example.test" "A"
                  (Sample.tokenData "A" (Some "cloud-code-42"))
                  eq_refl eq_refl ltac:(discriminate))).
Defined.

Section Loading.

Variable generateSessionId : string.

Local Abbreviation carriesToken := (fun a : TM.CloudAccount => bool_decide (is_Some (TM.token a))).

Lemma convertAccountToToken_Some (a : TM.CloudAccount) :
  is_Some (TM.convertAccountToToken generateSessionId a) <-> is_Some (TM.token a).
Proof.
  unfold TM.convertAccountToToken. destruct (TM.token a); split; intros [? ?]; eauto; discriminate.
Qed.

Lemma loadAccounts_fold (accounts : list TM.CloudAccount) (n : nat)
  (tm : TM.TokenManager) :
  let step := fun (acc : nat * TM.TokenManager) account =>
    match TM.convertAccountToToken generateSessionId account with
    | Some td => (S acc.1, TM.setTokens (Js.mapSet (TM.id account) td (TM.tokens acc.2)) acc.2)
    | None => acc
    end in
  let r := fold_left step accounts (n, tm) in
  r.1 = n + length (List.filter carriesToken accounts) /\
  TM.cooldowns r.2 = TM.cooldowns tm /\
  TM.sessionBindings r.2 = TM.sessionBindings tm /\
  TM.currentIndex r.2 = TM.currentIndex tm /\
  (forall k, In k (List.map fst (TM.tokens r.2)) <->
             In k (List.map fst (TM.tokens tm)) \/
             exists a, In a accounts /\ TM.id a = k /\ is_Some (TM.token a)).
Proof.
  cbv zeta. revert n tm. induction accounts as [|a accounts IH]; intros n tm.
  - cbn. repeat split; try lia; try tauto. intros [H|(a & [] & _)]. exact H.
  - cbn [fold_left List.filter].
    pose proof (convertAccountToToken_Some a) as Hc.
    destruct (TM.convertAccountToToken generateSessionId a) as [td|] eqn:Etd.
    + assert (Ht : is_Some (TM.token a)) by (apply Hc; eauto).
      rewrite (bool_decide_eq_true_2 _ Ht).
      match goal with |- context [fold_left ?f accounts (?n', ?tm')] =>
        destruct (IH n' tm') as (H1 & H2 & H3 & H4 & H5) end.
      cbn [fst snd] in *. rewrite H1, H2, H3, H4. cbn [length].
      repeat split; try lia.
      * intros H. apply H5 in H as [H|(b & Hb & Hk & Hb')].
        -- cbn in H. destruct (decide (k = TM.id a)) as [->|Hne].
           ++ right. exists a. split; [now left|split; [reflexivity|exact Ht]].
           ++ left. apply mapGet_Some_In. apply mapGet_Some_In in H.
              now rewrite mapGet_mapSet_ne in H by congruence.
        -- right. exists b. split; [now right|auto].
      * intros H. apply H5. destruct H as [H|(b & [<-|Hb] & Hk & Hb')].
        -- left. cbn. apply mapGet_Some_In. apply mapGet_Some_In in H.
           destruct (decide (k = TM.id a)) as [->|Hne].
           ++ rewrite mapGet_mapSet. eauto.
           ++ now rewrite mapGet_mapSet_ne by congruence.
        -- left. cbn. apply mapGet_Some_In. subst k. rewrite mapGet_mapSet. eauto.
        -- right. exists b. auto.
    + assert (Ht : ~ is_Some (TM.token a)) by (intros H; apply Hc in H as [? ?]; discriminate).
      rewrite (bool_decide_eq_false_2 _ Ht).
      destruct (IH n tm) as (H1 & H2 & H3 & H4 & H5).
      repeat split; try assumption.
      * intros H. apply H5 in H as [H|(b & Hb & Hk & Hb')]; [now left|].
        right. exists b. split; [now right|auto].
      * intros H. apply H5. destruct H as [H|(b & [<-|Hb] & Hk & Hb')]; [now left| |].
        -- contradiction.
        -- right. exists b. auto.
Qed.

(** X3.  [loadAccounts] only adds to the pool.  When the store cannot be
    read it reports 0 and leaves the pool as it is; otherwise it reports
    the number of stored accounts that carry a token, pools exactly those
    next to the accounts already pooled, and touches neither the cooldowns,
    the session bindings nor the round-robin index. *)
Theorem loadAccounts_only_adds (getAccounts : option (list TM.CloudAccount))
  (tm : TM.TokenManager) :
  let r := TM.loadAccounts getAccounts generateSessionId tm in
  (getAccounts = None -> r = (0, tm)) /\
  (forall accounts, getAccounts = Some accounts ->
     r.1 = length (List.filter carriesToken accounts) /\
     TM.cooldowns r.2 = TM.cooldowns tm /\
     TM.sessionBindings r.2 = TM.sessionBindings tm /\
     TM.currentIndex r.2 = TM.currentIndex tm /\
     (forall k, In k (List.map fst (TM.tokens r.2)) <->
                In k (List.map fst (TM.tokens tm)) \/
                exists a, In a accounts /\ TM.id a = k /\ is_Some (TM.token a))).
Proof.
  cbv zeta. split.
  - intros ->. reflexivity.
  - intros accounts ->. unfold TM.loadAccounts.
    exact (loadAccounts_fold accounts 0 tm).
Qed.

End Loading.

Section RoundRobin.

Variable getAccounts : option (list TM.CloudAccount).
Variable refreshAccessToken : string -> option (string * Z).
Variable generateSessionId : string.

Local Abbreviation getNextToken :=
  (TM.getNextToken getAccounts refreshAccessToken generateSessionId).
Local Abbreviation selectMany :=
  (Runs.selectMany getAccounts refreshAccessToken generateSessionId).

Lemma filter_all_true {A : Type} (f : A -> bool) (l : list A) :
  (forall x, In x l -> f x = true) -> List.filter f l = l.
Proof.
  induction l as [|x l IH]; cbn; intros H; [reflexivity|].
  rewrite (H x (or_introl eq_refl)). f_equal. apply IH. intros y Hy. apply H. now right.
Qed.

(** With nothing excluded and nothing cooling every pooled token is a
    candidate. *)
Lemma candidateTokens_all (now : Z) (tm : TM.TokenManager) :
  TM.cooldowns tm = ∅ ->
  TM.candidateTokens (list_to_set []) now tm = TM.tokens tm.
Proof.
  intros Hc.
  assert (Ef : TM.excludedFilteredTokens (list_to_set []) tm = TM.tokens tm).
  { apply filter_all_true. intros e _. cbn.
    rewrite bool_decide_eq_false_2; [reflexivity|]. apply not_elem_of_empty. }
  assert (Ea : TM.allTokens (list_to_set []) tm = TM.tokens tm).
  { unfold TM.allTokens. rewrite Ef. now destruct (TM.tokens tm). }
  assert (Ev : TM.validTokens (list_to_set []) now tm = TM.tokens tm).
  { unfold TM.validTokens. rewrite Ea. apply filter_all_true. intros e _. cbn.
    rewrite bool_decide_eq_false_2 by apply not_elem_of_empty.
    unfold TM.notCooling. now rewrite Hc, lookup_empty. }
  unfold TM.candidateTokens. rewrite Ev, Ea. now destruct (TM.tokens tm).
Qed.

(** One call without options on a pool with no cooldown: the account at
    the round-robin index, and the index advanced. *)
Lemma getNextToken_round_robin (now nf : Z) (tm : TM.TokenManager) :
  TM.tokens tm <> [] -> TM.cooldowns tm = ∅ ->
  let keys := List.map fst (TM.tokens tm) in
  exists acc tm',
    getNextToken None [] now nf tm = (Some acc, tm') /\
    TM.id acc = nth (TM.currentIndex tm mod length keys) keys "" /\
    List.map fst (TM.tokens tm') = keys /\
    TM.cooldowns tm' = ∅ /\
    TM.currentIndex tm' = S (TM.currentIndex tm).
Proof.
  intros Hne Hc keys.
  destruct (getNextToken_chosen getAccounts refreshAccessToken generateSessionId
              None [] now nf tm Hne) as (a & td & tm1 & Hch & _ & E).
  destruct (finalize_spec refreshAccessToken a td (now / 1000) nf
              (Js.trim <$> None) tm1) as (td2 & E1 & E2 & _).
  rewrite <- E in E1, E2.
  assert (Ec : TM.cooldowns (getNextToken None [] now nf tm).2 = TM.cooldowns tm1 /\
               TM.currentIndex (getNextToken None [] now nf tm).2 = TM.currentIndex tm1).
  { rewrite E. unfold TM.finalizeSelectedToken. cbn. auto. }
  destruct Ec as [Ec Ei].
  unfold TM.chosen in Hch. cbv zeta in Hch.
  rewrite candidateTokens_clearExpired, (candidateTokens_all now tm Hc) in Hch.
  cbn [fmap option_fmap option_map TM.stickyMatch] in Hch.
  destruct (TM.tokens tm !! _) as [[a' td']|] eqn:El; [|discriminate].
  injection Hch as -> -> <-.
  destruct (getNextToken None [] now nf tm) as [r tm'] eqn:Er. cbn [fst snd] in *.
  subst r. exists (TM.toCloudAccount a td2 nf), tm'. split; [reflexivity|].
  assert (Hnth : nth (TM.currentIndex tm mod length keys) keys "" = a).
  { subst keys. rewrite length_map.
    change "" with (fst (("", td) : string * TM.TokenData)). rewrite map_nth.
    cbn [TM.currentIndex TM.clearExpiredSessionBindings TM.setSessionBindings] in El.
    apply nth_lookup_Some with (d := ("", td)) in El. now rewrite El. }
  split; [now rewrite Hnth|].
  split.
  { rewrite E2. cbn [TM.tokens TM.setCurrentIndex TM.clearExpiredSessionBindings
                       TM.setSessionBindings].
    apply mapSet_keys. apply list_elem_of_lookup_2 in El.
    apply list_elem_of_In in El. now apply (in_map fst) in El. }
  rewrite Ec, Ei. cbn. auto.
Qed.

(** X4.  Round-robin.  On a pool without cooldowns, successive calls of
    [getNextToken()] without options return the pooled accounts in pool
    order, starting at the round-robin index and wrapping around: the
    [j]-th call returns the account at position
    [(currentIndex + j) mod size]. *)
Theorem round_robin_order (times : list (Z * Z)) (tm : TM.TokenManager) :
  TM.tokens tm <> [] -> TM.cooldowns tm = ∅ ->
  let keys := List.map fst (TM.tokens tm) in
  (selectMany times tm).1
  = List.map (fun j => Some (nth ((TM.currentIndex tm + j) mod length keys) keys ""))
             (seq 0 (length times)).
Proof.
  intros Hne Hc keys. subst keys. revert tm Hne Hc.
  induction times as [|[now nf] times IH]; intros tm Hne Hc; [reflexivity|].
  cbn [Runs.selectMany length seq List.map].
  destruct (getNextToken_round_robin now nf tm Hne Hc)
    as (acc & tm' & E & Hid & Hk & Hc' & Hi).
  rewrite E.
  assert (Hne' : TM.tokens tm' <> []).
  { intros H0. rewrite H0 in Hk. cbn in Hk. destruct (TM.tokens tm); [contradiction|discriminate]. }
  specialize (IH tm' Hne' Hc'). rewrite Hk, Hi in IH.
  destruct (selectMany times tm') as [ids tm''] eqn:Es. cbn [fst] in *.
  rewrite IH. cbn [fmap option_fmap option_map]. rewrite Hid, Nat.add_0_r.
  f_equal. rewrite <- seq_shift, map_map. apply map_ext. intros j.
  now rewrite Nat.add_succ_r.
Qed.

End RoundRobin.

(** Witness of [round_robin_order]: three calls on the pool A, B. *)
Lemma round_robin_order_witness :
  (Runs.selectMany None Sample.noRefresh "-1" [(1000, 1000); (2000, 2000); (3000, 3000)]%Z
     Sample.poolAB).1
  = [Some "A"; Some "B"; Some "A"].
Proof.
  exact (round_robin_order None Sample.noRefresh "-1"
           [(1000, 1000); (2000, 2000); (3000, 3000)]%Z Sample.poolAB
           ltac:(discriminate) eq_refl).
Defined.

Section SelectionGuarantees.

Variable getAccounts : option (list TM.CloudAccount).
Variable refreshAccessToken : string -> option (string * Z).
Variable generateSessionId : string.

Local Abbreviation getNextToken :=
  (TM.getNextToken getAccounts refreshAccessToken generateSessionId).

(** X5.  When the refresher answers every request with a token that lives
    longer than five minutes, no account leaves [getNextToken] with an
    access token that expires within the next 300 seconds, and the pool
    holds the same access token and expiry as the account returned. *)
Theorem selected_token_is_fresh (sk : option string) (ex : list string)
  (now nf : Z) (tm : TM.TokenManager) (acc : TM.CloudAccount) (tm' : TM.TokenManager) :
  (forall r, exists a e, refreshAccessToken r = Some (a, e) /\ (300 < e)%Z) ->
  getNextToken sk ex now nf tm = (Some acc, tm') ->
  exists t td,
    TM.token acc = Some t /\
    (now / 1000 < TM.expiry_timestamp t - 300)%Z /\
    Js.mapGet (TM.id acc) (TM.tokens tm') = Some td /\
    TM.td_access_token td = TM.access_token t /\
    TM.td_expiry_timestamp td = TM.expiry_timestamp t.
Proof.
  intros Hr H.
  destruct (getNextToken_finalized getAccounts refreshAccessToken generateSessionId
              sk ex now nf tm acc) as (a & td & tm1 & E); [now rewrite H|].
  rewrite E in H. unfold TM.finalizeSelectedToken in H.
  injection H as <- <-.
  eexists _, _. split; [reflexivity|]. cbn [TM.expiry_timestamp TM.access_token TM.id
                                             TM.toCloudAccount].
  split.
  - destruct (_ <=? _)%Z eqn:Ee.
    + destruct (Hr (TM.td_refresh_token td)) as (a' & e & -> & He).
      unfold TM.sanitizeProjectId. destruct (TM.discardsProjectId _); cbn; lia.
    + apply Z.leb_gt in Ee.
      unfold TM.sanitizeProjectId. destruct (TM.discardsProjectId _); cbn; lia.
  - split; [|split; reflexivity].
    destruct sk as [k|]; cbn [fmap option_fmap option_map];
      [destruct (Js.truthy (Js.trim k))|]; cbn [TM.tokens TM.setSessionBindings TM.setTokens];
      apply mapGet_mapSet.
Qed.

Lemma candidates_not_excluded (ex : gset string) (now : Z) (tm : TM.TokenManager)
  (e : string * TM.TokenData) :
  (exists e0, In e0 (TM.tokens tm) /\ e0.1 ∉ ex) ->
  In e (TM.candidateTokens ex now tm) -> e.1 ∉ ex.
Proof.
  intros (e0 & Hin0 & Hex0) Hin.
  assert (Hf : In e0 (TM.excludedFilteredTokens ex tm)).
  { apply filter_In. split; [exact Hin0|]. now rewrite bool_decide_eq_false_2. }
  assert (Ha : TM.allTokens ex tm = TM.excludedFilteredTokens ex tm).
  { unfold TM.allTokens. destruct (TM.excludedFilteredTokens ex tm); [contradiction|reflexivity]. }
  assert (Hall : In e (TM.allTokens ex tm) -> e.1 ∉ ex).
  { rewrite Ha. intros He. apply filter_In in He as [_ He].
    apply negb_true_iff in He. apply bool_decide_eq_false in He. exact He. }
  unfold TM.candidateTokens in Hin.
  destruct (TM.validTokens ex now tm) eqn:Ev; [now apply Hall|].
  rewrite <- Ev in Hin. apply filter_In in Hin as [Hin _]. now apply Hall.
Qed.

Lemma candidates_not_cooling (ex : gset string) (now : Z) (tm : TM.TokenManager)
  (e : string * TM.TokenData) :
  (exists e0, In e0 (TM.tokens tm) /\ (e0.1 ∉ ex) /\
              TM.notCooling (TM.cooldowns tm) now e0.1 = true) ->
  In e (TM.candidateTokens ex now tm) ->
  TM.notCooling (TM.cooldowns tm) now e.1 = true.
Proof.
  intros (e0 & Hin0 & Hex0 & Hc0) Hin.
  assert (Hf : In e0 (TM.excludedFilteredTokens ex tm)).
  { apply filter_In. split; [exact Hin0|]. now rewrite bool_decide_eq_false_2. }
  assert (Ha : TM.allTokens ex tm = TM.excludedFilteredTokens ex tm).
  { unfold TM.allTokens. destruct (TM.excludedFilteredTokens ex tm); [contradiction|reflexivity]. }
  assert (Hv : In e0 (TM.validTokens ex now tm)).
  { apply filter_In. rewrite Ha. split; [exact Hf|].
    now rewrite bool_decide_eq_false_2. }
  unfold TM.candidateTokens in Hin.
  destruct (TM.validTokens ex now tm) eqn:Ev; [contradiction|].
  rewrite <- Ev in Hin. apply (validTokens_not_cooling ex).
  now apply (in_map fst) in Hin.
Qed.

(** X6.  What a selection never returns.  While some pooled account is
    not excluded, [getNextToken] returns no excluded account; while some
    pooled account is neither excluded nor cooling, it returns no cooling
    account.  Both hold whatever the session key is bound to. *)
Theorem selection_avoids_excluded_and_cooling (sk : option string)
  (ex : list string) (now nf : Z) (tm : TM.TokenManager) (acc : TM.CloudAccount) :
  TM.tokens tm <> [] ->
  (getNextToken sk ex now nf tm).1 = Some acc ->
  ((exists e, In e (TM.tokens tm) /\ ~ In e.1 ex) -> ~ In (TM.id acc) ex) /\
  ((exists e, In e (TM.tokens tm) /\ ~ In e.1 ex /\
              TM.notCooling (TM.cooldowns tm) now e.1 = true) ->
   TM.notCooling (TM.cooldowns tm) now (TM.id acc) = true).
Proof.
  intros Hne H.
  destruct (getNextToken_selects getAccounts refreshAccessToken generateSessionId
              sk ex now nf tm) as (acc' & E & Hin);
    [now rewrite reloadIfEmpty_nonempty|].
  rewrite reloadIfEmpty_nonempty in Hin by exact Hne.
  rewrite H in E. injection E as <-.
  apply in_map_iff in Hin as (e & He & Hin). split.
  - intros (e0 & Hin0 & Hex0) Hex.
    assert (Hx : e.1 ∉ (list_to_set ex : gset string)).
    { apply (candidates_not_excluded _ now tm); [|exact Hin].
      exists e0. split; [exact Hin0|]. rewrite elem_of_list_to_set, list_elem_of_In.
      exact Hex0. }
    apply Hx. rewrite elem_of_list_to_set, list_elem_of_In, He. exact Hex.
  - intros (e0 & Hin0 & Hex0 & Hc0). rewrite <- He.
    apply (candidates_not_cooling (list_to_set ex) now tm); [|exact Hin].
    exists e0. split; [exact Hin0|]. split; [|exact Hc0].
    rewrite elem_of_list_to_set, list_elem_of_In. exact Hex0.
Qed.

(** X7.  Session keys are compared after trimming, and a key that is
    blank is no key: the call returns the same account and leaves the
    same pool as a call without session key, writing no binding. *)
Theorem blank_session_key_is_no_key (key : string) (ex : list string)
  (now nf : Z) (tm : TM.TokenManager) :
  getNextToken (Some key) ex now nf tm = getNextToken (Some (Js.trim key)) ex now nf tm /\
  (Js.trim key = "" ->
   getNextToken (Some key) ex now nf tm = getNextToken None ex now nf tm).
Proof.
  split.
  - unfold TM.getNextToken. cbn [fmap option_fmap option_map].
    now rewrite trim_idem.
  - intros Hk. unfold TM.getNextToken. cbn [fmap option_fmap option_map].
    rewrite Hk. destruct (Nat.eqb _ 0); [reflexivity|]. cbv zeta.
    destruct (TM.candidateTokens _ _ _) as [|c cs]; [reflexivity|].
    cbn [TM.stickyMatch Js.truthy].
    destruct (_ !! _) as [[a td]|]; [|reflexivity].
    unfold TM.finalizeSelectedToken. reflexivity.
Qed.

End SelectionGuarantees.

(** Witness of [selected_token_is_fresh]: the pool A, B long after the
    tokens have expired. *)
Lemma selected_token_is_fresh_witness :
  exists acc t,
    (TM.getNextToken None Scenarios.alwaysRefresh "-1" None [] 200000000 200000000
       Sample.poolAB).1 = Some acc /\
    TM.token acc = Some t /\
    (200000000 / 1000 < TM.expiry_timestamp t - 300)%Z.
Proof.
  destruct (TM.getNextToken None Scenarios.alwaysRefresh "-1" None [] 200000000
              200000000 Sample.poolAB) as [[acc|] tm'] eqn:E; [|discriminate E].
  destruct (selected_token_is_fresh None Scenarios.alwaysRefresh "-1" None []
              200000000 200000000 Sample.poolAB acc tm') as (t & td & H1 & H2 & _).
  - intros r. exists ("fresh-" +:+ r), 3600%Z. split; [reflexivity | reflexivity].
  - exact E.
  - exists acc, t. repeat split; assumption.
Defined.

(** Witness of [selection_avoids_excluded_and_cooling]: the pool A, B with
    A excluded. *)
Lemma selection_avoids_excluded_and_cooling_witness :
  exists acc,
    (TM.getNextToken None Sample.noRefresh "-1" None ["A"] 1000 1000 Sample.poolAB).1
    = Some acc /\
    ~ In (TM.id acc) ["A"].
Proof.
  destruct (TM.getNextToken None Sample.noRefresh "-1" None ["A"] 1000 1000
              Sample.poolAB).1 as [acc|] eqn:E; [|discriminate E].
  exists acc. split; [reflexivity|].
  refine (proj1 (selection_avoids_excluded_and_cooling None Sample.noRefresh "-1" None
                   ["A"] 1000 1000 Sample.poolAB acc ltac:(discriminate) E) _).
  exists ("B", Sample.tokenData "B" (Some "proj-b")). split.
  - right. now left.
  - intros [H|[]]. discriminate H.
Defined.

(** ** Base URLs of the upstream client *)

Section BaseUrls.

Lemma stripTrailingSlashes_no_slash (s p : string) :
  stripTrailingSlashes s <> p +:+ "/".
Proof.
  revert p. induction s as [|c s IH]; intros p; cbn.
  - destruct p; discriminate.
  - destruct (stripTrailingSlashes s) as [|d t] eqn:E.
    + destruct (Ascii.eqb_spec c "/"%char) as [->|Hc].
      * destruct p; discriminate.
      * destruct p as [|c' p].
        -- rewrite append_nil_l. congruence.
        -- rewrite append_cons. intros H. injection H as _ H. destruct p; discriminate.
    + destruct p as [|c' p].
      * rewrite append_nil_l. congruence.
      * rewrite append_cons. intros H. injection H as _ H. now apply (IH p).
Qed.

(** X8.  Whatever the environment holds, the upstream client has at
    least one base URL, no base URL ends with a slash, and every internal
    request is sent at least once, first to the first base URL. *)
Theorem base_urls_usable {T : Type} (axiosPost : string -> Thrown + T)
  (fromEnv : option string) (path : string) :
  getInternalBaseUrls fromEnv <> [] /\
  (forall u p, In u (getInternalBaseUrls fromEnv) -> u <> p +:+ "/") /\
  exists rest,
    (requestWithEndpointFailover axiosPost fromEnv path).1
    = (List.hd "" (getInternalBaseUrls fromEnv) +:+ path) :: rest.
Proof.
  split; [apply getInternalBaseUrls_nonempty|]. split.
  - intros u p Hin. unfold getInternalBaseUrls in Hin.
    destruct (match fromEnv with Some _ => _ | None => _ end);
      apply in_map_iff in Hin as (x & <- & _); apply stripTrailingSlashes_no_slash.
  - unfold requestWithEndpointFailover.
    pose proof (getInternalBaseUrls_nonempty fromEnv) as Hne.
    destruct (getInternalBaseUrls fromEnv) as [|u us]; [contradiction|].
    cbn [failoverLoop List.hd].
    destruct (axiosPost (u +:+ path)) as [e|r]; [|eauto].
    destruct (negb _ || negb _); [eauto|].
    destruct (failoverLoop axiosPost path us). eauto.
Qed.

End BaseUrls.

(** ** Session keys *)

Section SessionKeys.

Lemma sessionKeyWith_shape (pfx : string) (metadata : Json.jsval) (k : string) :
  sessionKeyWith pfx metadata = Some k ->
  exists c, k = pfx +:+ c /\ c <> "" /\ Js.trim c = c.
Proof.
  unfold sessionKeyWith. destruct (sessionCandidate metadata) as [[]|]; try discriminate.
  destruct (Js.truthy (Js.trim s)) eqn:E; [|discriminate].
  intros H. injection H as <-. exists (Js.trim s). split; [reflexivity|].
  split; [|apply trim_idem]. intros H0. rewrite H0 in E. discriminate.
Qed.

(** X9.  A session key is the surface's prefix followed by the trimmed,
    non-empty session candidate, so a key of the Anthropic surface is never
    a key of the OpenAI surface: the two cannot share a binding. *)
Theorem session_keys_are_namespaced (ra : AnthropicChatRequest)
  (ro : OpenAIChatRequest) (k : string) :
  getSessionKeyFromAnthropic ra = Some k ->
  (exists c, k = "anthropic:" +:+ c /\ c <> "" /\ Js.trim c = c) /\
  getSessionKeyFromOpenAI ro <> Some k.
Proof.
  intros H. pose proof (sessionKeyWith_shape _ _ _ H) as (c & -> & Hc).
  split; [eauto|]. intros Ho.
  apply sessionKeyWith_shape in Ho as (c' & Hk & _). discriminate.
Qed.

Lemma sessionCandidate_order (metadata : Json.jsval) (i : nat) (name : string)
    (v : Json.json) :
  let names := ["session_id"; "sessionId"; "user_id"; "userId"] in
  let absent (member : Json.jsval) := member = None \/ member = Some Json.JNull in
  names !! i = Some name ->
  (forall j earlier, j < i -> names !! j = Some earlier ->
                     absent (Json.optProp earlier metadata)) ->
  Json.optProp name metadata = Some v -> v <> Json.JNull ->
  sessionCandidate metadata = Some v.
Proof.
  intros names absent Hi Hearlier Hv Hnn. unfold sessionCandidate.
  assert (Hn : forall b, nullish (Some v) b = Some v) by (now destruct v).
  assert (Ha : forall j earlier b, j < i -> names !! j = Some earlier ->
                  nullish (Json.optProp earlier metadata) b = b).
  { intros j earlier b Hj Hl. destruct (Hearlier j earlier Hj Hl) as [-> | ->]; reflexivity. }
  destruct i as [|[|[|[|i]]]]; cbn in Hi; try discriminate; injection Hi as <-.
  - now rewrite Hv, Hn.
  - rewrite (Ha 0 "session_id") by (reflexivity || lia). now rewrite Hv, Hn.
  - rewrite (Ha 0 "session_id"), (Ha 1 "sessionId") by (reflexivity || lia).
    now rewrite Hv, Hn.
  - rewrite (Ha 0 "session_id"), (Ha 1 "sessionId"), (Ha 2 "user_id")
      by (reflexivity || lia).
    exact Hv.
Qed.

Lemma sessionCandidate_none (metadata : Json.jsval) :
  (forall name, In name ["session_id"; "sessionId"; "user_id"; "userId"] ->
                Json.optProp name metadata = None \/
                Json.optProp name metadata = Some Json.JNull) ->
  sessionKeyWith "anthropic:" metadata = None /\ sessionKeyWith "openai:" metadata = None.
Proof.
  intros H. unfold sessionKeyWith, sessionCandidate.
  destruct (H "session_id") as [-> | ->]; [cbn; auto|..];
    (destruct (H "sessionId") as [-> | ->]; [cbn; auto 10|..]);
    (destruct (H "user_id") as [-> | ->]; [cbn; auto 10|..]);
    (destruct (H "userId") as [-> | ->]; [cbn; auto 10|..]); split; reflexivity.
Qed.

(** X10.  The session candidate is the first of [session_id], [sessionId],
    [user_id], [userId], in this order, that is neither [undefined] nor
    [null], not the first usable one: the members after it are not
    consulted, and a candidate that is blank or not a string leaves the
    request without session key, as does a request with none of the four
    members. *)
Theorem session_id_shadows_the_others (ra : AnthropicChatRequest)
  (ro : OpenAIChatRequest) :
  let names := ["session_id"; "sessionId"; "user_id"; "userId"] in
  let absent (member : Json.jsval) := member = None \/ member = Some Json.JNull in
  let key (pfx : string) (v : Json.json) :=
    match v with
    | Json.JStr s => if Js.truthy (Js.trim s) then Some (pfx +:+ Js.trim s) else None
    | _ => None
    end in
  let ordered (metadata : Json.jsval) (pfx : string) (result : option string) :=
    (forall i name v,
       names !! i = Some name ->
       (forall j earlier, j < i -> names !! j = Some earlier ->
                          absent (Json.optProp earlier metadata)) ->
       Json.optProp name metadata = Some v -> v <> Json.JNull ->
       result = key pfx v) /\
    ((forall name, In name names -> absent (Json.optProp name metadata)) ->
     result = None) in
  ordered (a_metadata ra) "anthropic:" (getSessionKeyFromAnthropic ra) /\
  ordered (o_extra ro) "openai:" (getSessionKeyFromOpenAI ro).
Proof.
  cbv zeta. unfold getSessionKeyFromAnthropic, getSessionKeyFromOpenAI.
  split; split.
  - intros i name v Hi He Hv Hn. unfold sessionKeyWith.
    now rewrite (sessionCandidate_order (a_metadata ra) i name v Hi He Hv Hn).
  - intros H. now apply sessionCandidate_none.
  - intros i name v Hi He Hv Hn. unfold sessionKeyWith.
    now rewrite (sessionCandidate_order (o_extra ro) i name v Hi He Hv Hn).
  - intros H. now apply sessionCandidate_none.
Qed.

End SessionKeys.

(** ** Error messages seen by the service and by the controller *)

Section Messages.

(** X11.  The controller and the service recognise the same messages as
    project-context errors. *)
Theorem project_context_tests_agree (message : string) :
  ProxyController.isProjectContextErrorMessage message = isProjectContextError message.
Proof.
  unfold ProxyController.isProjectContextErrorMessage, isProjectContextError,
    isProjectLicenseError, isProjectNotFoundError. cbv zeta.
  now rewrite <- !orb_assoc.
Qed.

End Messages.

(** Witness of [session_keys_are_namespaced]. *)
Lemma session_keys_are_namespaced_witness :
  getSessionKeyFromAnthropic Scenarios.anthropicWithSession = Some "anthropic:s1" /\
  getSessionKeyFromOpenAI Sample.chatRequest <> Some "anthropic:s1".
Proof.
  split; [reflexivity|].
  exact (proj2 (session_keys_are_namespaced Scenarios.anthropicWithSession
                  Sample.chatRequest "anthropic:s1" eq_refl)).
Defined.

(** Witness of [session_id_shadows_the_others]: with [session_id: null]
    and [sessionId: "x"] the key is that of x, whatever [user_id] says. *)
Lemma session_id_shadows_the_others_witness :
  getSessionKeyFromAnthropic Scenarios.anthropicSecondMember = Some "anthropic:x".
Proof.
  refine (proj1 (proj1 (session_id_shadows_the_others Scenarios.anthropicSecondMember
                          Sample.chatRequest))
                1 "sessionId" (Json.JStr "x") eq_refl _ eq_refl ltac:(discriminate)).
  intros [|j] earlier Hj E; [|lia]. injection E as <-. now right.
Defined.

Section Statuses.

Lemma forbidden_hit (message kw : string) :
  In kw forbiddenKeywords ->
  Js.includes (Js.toLowerCase message) kw = true ->
  classifyUpstreamError message = mkDecision true true false.
Proof.
  intros Hin H. apply classify_forbidden. apply List.Exists_exists.
  exists kw. split; [exact Hin|]. now apply includes_lower_iff.
Qed.

(** X12.  The status the controller answers with is one of 401, 403, 429,
    500, 502, 503, 504; and whenever it answers 401 or 403 the service had
    classified the same message as forbidden (retry, bench the account for
    30 minutes). *)
Theorem upstream_status_consistent (message : string) :
  let status := ProxyController.resolveUpstreamStatus message in
  In status [401; 403; 429; 500; 502; 503; 504]%Z /\
  (status = 401%Z \/ status = 403%Z ->
   classifyUpstreamError message = mkDecision true true false).
Proof.
  cbv zeta. unfold ProxyController.resolveUpstreamStatus. cbv zeta.
  repeat match goal with
         | |- context [if ?b then _ else _] => destruct b eqn:?
         end.
  all: split; [cbn; auto 10|]. all: intros [H|H]; try discriminate H.
  - match goal with
    | H1 : (Js.includes _ "401" || _) = true |- _ =>
        apply orb_true_iff in H1 as [H1|H1];
        (eapply forbidden_hit; [|exact H1]); cbn; auto 10
    end.
  - match goal with
    | H1 : (Js.includes _ "403" || _) = true |- _ =>
        apply orb_true_iff in H1 as [H1|H1];
        (eapply forbidden_hit; [|exact H1]); cbn; auto 10
    end.
Qed.

End Statuses.

Section FinishReasons.

Lemma lowerChar_idem (c : ascii) : Js.lowerChar (Js.lowerChar c) = Js.lowerChar c.
Proof. destruct c as [[] [] [] [] [] [] [] []]; reflexivity. Qed.

Lemma upperChar_lowerChar (c : ascii) : Js.upperChar (Js.lowerChar c) = Js.upperChar c.
Proof. destruct c as [[] [] [] [] [] [] [] []]; reflexivity. Qed.

(** A capital that is one code unit is its own capital, and has the small
    letter of the code unit it comes from. *)
Lemma upperChar_single (c d : ascii) :
  Js.upperChar c = Some (String d EmptyString) ->
  Js.upperChar d = Some (String d EmptyString) /\ Js.lowerChar d = Js.lowerChar c.
Proof.
  destruct c as [[] [] [] [] [] [] [] []]; cbn; intros H;
    try discriminate H; injection H as <-; split; reflexivity.
Qed.

Lemma upperChar_length (c : ascii) (u : string) :
  Js.upperChar c = Some u ->
  (exists d, u = String d EmptyString) \/ String.length u = 2.
Proof.
  destruct c as [[] [] [] [] [] [] [] []]; cbn; intros H;
    try discriminate H; injection H as <-; eauto.
Qed.

Lemma string_length_app (a b : string) :
  String.length (a +:+ b) = String.length a + String.length b.
Proof. induction a as [|c a IH]; [reflexivity|]. rewrite append_cons. cbn. now rewrite IH. Qed.

Lemma toUpperCase_length (s upper : string) :
  Js.toUpperCase s = Some upper -> String.length s <= String.length upper.
Proof.
  revert upper. induction s as [|c s IH]; intros upper H.
  - injection H as <-. reflexivity.
  - cbn [Js.toUpperCase] in H.
    destruct (Js.upperChar c) as [u|] eqn:Ec; [|discriminate].
    destruct (Js.toUpperCase s) as [r'|] eqn:Es; [|discriminate].
    injection H as <-. rewrite string_length_app. specialize (IH r' eq_refl).
    destruct (upperChar_length c u Ec) as [[d ->]|E]; cbn in *; lia.
Qed.

Lemma toLowerCase_idem (s : string) : Js.toLowerCase (Js.toLowerCase s) = Js.toLowerCase s.
Proof. induction s; cbn; [reflexivity|]. now rewrite lowerChar_idem, IHs. Qed.

Lemma toUpperCase_lower (s : string) : Js.toUpperCase (Js.toLowerCase s) = Js.toUpperCase s.
Proof. induction s; cbn; [reflexivity|]. now rewrite upperChar_lowerChar, IHs. Qed.

(** Upper-casing that keeps the length works code unit by code unit. *)
Lemma toUpperCase_same_length (s upper : string) :
  Js.toUpperCase s = Some upper -> String.length upper = String.length s ->
  Js.toUpperCase upper = Some upper /\ Js.toLowerCase upper = Js.toLowerCase s.
Proof.
  revert upper. induction s as [|c s IH]; intros upper H Hl.
  - injection H as <-. split; reflexivity.
  - cbn [Js.toUpperCase] in H.
    destruct (Js.upperChar c) as [u|] eqn:Ec; [|discriminate].
    destruct (Js.toUpperCase s) as [r'|] eqn:Es; [|discriminate].
    injection H as <-. rewrite string_length_app in Hl.
    pose proof (toUpperCase_length s r' Es) as Hle.
    destruct (upperChar_length c u Ec) as [[d ->]|E]; [|cbn in Hl; lia].
    rewrite append_cons, append_nil_l in *. cbn in Hl.
    destruct (IH r' eq_refl ltac:(lia)) as [Hu Hlow].
    destruct (upperChar_single c d Ec) as [Hd Hdl].
    cbn [Js.toUpperCase Js.toLowerCase]. rewrite Hd, Hu, Hdl, Hlow.
    now rewrite append_cons, append_nil_l.
Qed.

(** X13.  The OpenAI finish reason of a Gemini finish reason is that of its
    lower-case form, and that of its upper-case form whenever upper-casing
    keeps the length (the text holds no sharp s); and lower-casing the
    result changes nothing. *)
Theorem finish_reason_ignores_case (r : string) :
  mapGeminiFinishReasonToOpenAIFinishReason (Some (Js.toLowerCase r))
  = mapGeminiFinishReasonToOpenAIFinishReason (Some r) /\
  (forall upper,
     Js.toUpperCase r = Some upper -> String.length upper = String.length r ->
     mapGeminiFinishReasonToOpenAIFinishReason (Some upper)
     = mapGeminiFinishReasonToOpenAIFinishReason (Some r)) /\
  forall out, mapGeminiFinishReasonToOpenAIFinishReason (Some r) = Some out ->
              Js.toLowerCase out = out.
Proof.
  unfold mapGeminiFinishReasonToOpenAIFinishReason. repeat split.
  - rewrite toUpperCase_lower, toLowerCase_idem.
    assert (Tl : Js.truthy (Js.toLowerCase r) = Js.truthy r) by now destruct r.
    now rewrite Tl.
  - intros upper Hu Hl. destruct (toUpperCase_same_length r upper Hu Hl) as [Huu Hlow].
    rewrite Huu, Hu, Hlow.
    assert (Tu : Js.truthy upper = Js.truthy r).
    { destruct r, upper; try reflexivity; discriminate Hl. }
    now rewrite Tu.
  - destruct (Js.truthy r); cbn [negb]; [|discriminate].
    intros out.
    repeat match goal with
           | |- context [if ?b then _ else _] => destruct b
           end; intros H; injection H as <-; try reflexivity.
    apply toLowerCase_idem.
Qed.

End FinishReasons.

(** ** Normalisation of Gemini responses *)

Section Normalisation.

Import Json.

Lemma imap_imap {A B C : Type} (f : nat -> B -> C) (g : nat -> A -> B) (l : list A) :
  imap f (imap g l) = imap (fun i x => f i (g i x)) l.
Proof.
  revert f g. induction l as [|x l IH]; intros f g; [reflexivity|].
  cbn. f_equal. apply IH.
Qed.

Lemma imap_ext_all {A B : Type} (f g : nat -> A -> B) (l : list A) :
  (forall i x, f i x = g i x) -> imap f l = imap g l.
Proof.
  revert f g. induction l as [|x l IH]; intros f g H; [reflexivity|].
  cbn. rewrite H. f_equal. apply IH. intros i y. apply H.
Qed.

(** Reading back a member of an object literal. *)
Lemma obj_member (g : string -> jsval) (keys : list string) (k : string) :
  NoDup keys -> In k keys ->
  prop k (obj (List.map (fun k => (k, g k)) keys)) = g k.
Proof.
  unfold obj. cbn [prop]. induction keys as [|k0 keys IH]; intros Hnd Hin; [destruct Hin|].
  apply NoDup_cons in Hnd as [Hk0 Hnd]. cbn [List.map omap fst snd].
  destruct (decide (k = k0)) as [->|Hne].
  - destruct (g k0) as [v|] eqn:E; cbn.
    + now rewrite String.eqb_refl.
    + clear IH Hin Hnd. induction keys as [|k1 keys IH]; [reflexivity|].
      cbn [List.map omap fst snd].
      assert (k1 <> k0) by (intros ->; apply Hk0; constructor).
      destruct (g k1); cbn.
      * destruct (String.eqb_spec k1 k0); [contradiction|]. apply IH.
        intros Hc. apply Hk0. now constructor.
      * apply IH. intros Hc. apply Hk0. now constructor.
  - destruct Hin as [->|Hin]; [contradiction|].
    destruct (g k0); cbn; [|now apply IH].
    destruct (String.eqb_spec k0 k); [congruence|]. now apply IH.
Qed.

Lemma normalizeCandidate_idem (index : nat) (candidate : json) :
  let f := fun (index : nat) (candidate : json) =>
    obj [("content", optProp "content" (Some candidate));
         ("finishReason", optProp "finishReason" (Some candidate));
         ("index",
          match optProp "index" (Some candidate) with
          | Some (JNum n) => Some (JNum n)
          | _ => Some (JNum (Z.of_nat index))
          end)] in
  f index (f index candidate) = f index candidate.
Proof.
  cbv beta zeta.
  generalize (optProp "content" (Some candidate))
             (optProp "finishReason" (Some candidate))
             (optProp "index" (Some candidate)).
  intros [x|] [y|] [[]|]; reflexivity.
Qed.

Local Abbreviation usageKeys :=
  ["promptTokenCount"; "candidatesTokenCount"; "totalTokenCount";
   "thoughtsTokenCount"; "promptTokensDetails";
   "candidatesTokensDetails"; "trafficType"].

Local Abbreviation normalizeCandidate :=
  (fun (index : nat) (candidate : json) =>
     obj [("content", optProp "content" (Some candidate));
          ("finishReason", optProp "finishReason" (Some candidate));
          ("index",
           match optProp "index" (Some candidate) with
           | Some (JNum n) => Some (JNum n)
           | _ => Some (JNum (Z.of_nat index))
           end)]).

Local Abbreviation normalizeUsage :=
  (fun usage : jsval =>
     if truthy usage then obj (List.map (fun k => (k, optProp k usage)) usageKeys)
     else JObj []).

Local Abbreviation asMember :=
  (fun u : json => match u with JObj [] => None | _ => Some u end).

Lemma normalize_normalized (C : list json) (U : jsval) :
  normalizeGeminiGenerateResponse
    (Some (obj [("candidates", Some (JArr C)); ("usageMetadata", U)]))
  = Some (obj [("candidates", Some (JArr (imap normalizeCandidate C)));
               ("usageMetadata", asMember (normalizeUsage U))]).
Proof. destruct U; reflexivity. Qed.

Lemma normalizeUsage_idem (usage : jsval) :
  asMember (normalizeUsage (asMember (normalizeUsage usage)))
  = asMember (normalizeUsage usage).
Proof.
  destruct (asMember (normalizeUsage usage)) as [u|] eqn:E; [|reflexivity].
  assert (Hu : u = normalizeUsage usage).
  { destruct (normalizeUsage usage) as [| | | | |[|]]; congruence. }
  assert (Ht : truthy usage = true).
  { destruct (truthy usage); [reflexivity|]. cbn in E. discriminate. }
  assert (Hobj : exists fields, u = JObj fields).
  { rewrite Hu, Ht. unfold obj. eauto. }
  destruct Hobj as [fields Ef].
  assert (Hidem : normalizeUsage (Some u) = u).
  { assert (Tu : truthy (Some u) = true) by (rewrite Ef; reflexivity).
    cbv beta. rewrite Tu. transitivity (normalizeUsage usage); [|now rewrite Hu].
    cbv beta. rewrite Ht.
    f_equal. apply map_ext_in. intros k Hk. f_equal.
    rewrite Hu. cbv beta. rewrite Ht.
    change (optProp k (Some (obj (List.map (fun k => (k, optProp k usage)) usageKeys))))
      with (prop k (obj (List.map (fun k => (k, optProp k usage)) usageKeys))).
    apply (obj_member (fun k => optProp k usage)); [|exact Hk].
    apply (bool_decide_unpack _). vm_compute. exact I. }
  rewrite Hidem. cbv beta in E. rewrite <- Hu in E. exact E.
Qed.

(** X14.  [normalizeGeminiGenerateResponse] is idempotent: a response it
    has produced is left unchanged by a second pass. *)
Theorem normalizeGeminiGenerateResponse_idempotent (response : jsval) (normalized : json) :
  normalizeGeminiGenerateResponse response = Some normalized ->
  normalizeGeminiGenerateResponse (Some normalized) = Some normalized.
Proof.
  unfold normalizeGeminiGenerateResponse at 1.
  destruct (strictProp "candidates" response) as [cands|]; [|discriminate].
  destruct (strictProp "usageMetadata" response) as [usage|]; [|discriminate].
  intros H.
  assert (E : normalized
              = obj [("candidates",
                      Some (JArr match cands with
                                 | Some (JArr cs) => imap normalizeCandidate cs
                                 | _ => []
                                 end));
                     ("usageMetadata", asMember (normalizeUsage usage))])
    by (injection H as <-; reflexivity).
  assert (HC : imap normalizeCandidate
                 match cands with
                 | Some (JArr cs) => imap normalizeCandidate cs
                 | _ => []
                 end
               = match cands with
                 | Some (JArr cs) => imap normalizeCandidate cs
                 | _ => []
                 end).
  { destruct cands as [[]|]; try reflexivity.
    rewrite imap_imap. apply imap_ext_all. intros i x.
    apply (normalizeCandidate_idem i x). }
  rewrite E, normalize_normalized, normalizeUsage_idem, HC. reflexivity.
Qed.

End Normalisation.

(** Witness of [normalizeGeminiGenerateResponse_idempotent]. *)
Lemma normalizeGeminiGenerateResponse_idempotent_witness :
  exists normalized,
    normalizeGeminiGenerateResponse (Some Sample.helloFrame) = Some normalized /\
    normalizeGeminiGenerateResponse (Some normalized) = Some normalized.
Proof.
  destruct (normalizeGeminiGenerateResponse (Some Sample.helloFrame))
    as [normalized|] eqn:E; [|discriminate E].
  exists normalized. split; [reflexivity|].
  exact (normalizeGeminiGenerateResponse_idempotent (Some Sample.helloFrame)
           normalized E).
Defined.

(** ** Handlers: no account, first success, benching *)

Section SelectionInWorld.

Variable getAccounts : option (list TM.CloudAccount).
Variable refreshAccessToken : string -> option (string * Z).
Variable generateSessionId : string.

Local Abbreviation getNextToken :=
  (TM.getNextToken getAccounts refreshAccessToken generateSessionId).
Local Abbreviation selectToken :=
  (selectToken getAccounts refreshAccessToken generateSessionId).

(** A selection on a non-empty pool: the account comes with its token, it
    is pooled afterwards, and the cooldowns are untouched. *)
Lemma getNextToken_pool (sk : option string) (ex : list string) (now nf : Z)
  (tm : TM.TokenManager) :
  TM.tokens tm <> [] ->
  exists account t tm',
    getNextToken sk ex now nf tm = (Some account, tm') /\
    TM.token account = Some t /\
    is_Some (Js.mapGet (TM.id account) (TM.tokens tm')) /\
    TM.tokens tm' <> [] /\
    TM.cooldowns tm' = TM.cooldowns tm.
Proof.
  intros Hne.
  destruct (getNextToken_chosen getAccounts refreshAccessToken generateSessionId
              sk ex now nf tm Hne) as (a & td & tm1 & Hch & _ & E).
  assert (Hc : TM.cooldowns tm1 = TM.cooldowns tm).
  { unfold TM.chosen in Hch. cbv zeta in Hch.
    destruct (TM.stickyMatch _ _ _ _) as [[sa std]|].
    - injection Hch as _ _ <-. reflexivity.
    - destruct (_ !! _) as [[a' td']|]; [|discriminate].
      injection Hch as _ _ <-. reflexivity. }
  destruct (finalize_spec refreshAccessToken a td (now / 1000) nf (Js.trim <$> sk) tm1)
    as (td' & E1 & E2 & _).
  assert (Ec : TM.cooldowns (TM.finalizeSelectedToken refreshAccessToken a td
                               (now / 1000) nf (Js.trim <$> sk) tm1).2
               = TM.cooldowns tm1).
  { unfold TM.finalizeSelectedToken. cbn [snd].
    destruct (Js.trim <$> sk) as [k|]; [destruct (Js.truthy k)|]; reflexivity. }
  rewrite <- E in E1, E2, Ec.
  destruct (getNextToken sk ex now nf tm) as [r tm'] eqn:Er. cbn [fst snd] in *.
  subst r. eexists _, _, tm'. split; [reflexivity|]. split; [reflexivity|].
  cbn [TM.id TM.toCloudAccount]. rewrite E2, mapGet_mapSet.
  split; [eauto|]. split; [|congruence].
  destruct (TM.tokens tm1) as [|[k v] l]; cbn; [discriminate|].
  destruct (String.eqb k a); discriminate.
Qed.

Lemma selectToken_pool (sk : option string) (ex : list string) (w : World) :
  TM.tokens (pool w) <> [] ->
  exists account t w1,
    selectToken sk ex w = (inr (Some account), w1) /\
    TM.token account = Some t /\
    is_Some (Js.mapGet (TM.id account) (TM.tokens (pool w1))) /\
    TM.tokens (pool w1) <> [] /\
    TM.cooldowns (pool w1) = TM.cooldowns (pool w) /\
    clock w1 = clock w /\
    upstreamCalls w1 = upstreamCalls w /\
    trace w1 = trace w ++ [EvSelect sk ex (Some (TM.id account))].
Proof.
  intros Hne. unfold ProxyService.selectToken.
  destruct (getNextToken_pool sk ex (clock w) (clock w) (pool w) Hne)
    as (account & t & tm' & -> & Ht & Hin & Hne' & Hc).
  exists account, t. eexists. split; [reflexivity|]. cbn. auto 10.
Qed.

End SelectionInWorld.

Section NoAccount.

Variable getAccounts : option (list TM.CloudAccount).
Variable refreshAccessToken : string -> option (string * Z).
Variable generateSessionId : string.
Variable JSON_parse : string -> option Json.json.
Variable generateInternal : nat -> UpstreamCall -> string + Json.jsval.
Variable streamGenerateInternal : nat -> UpstreamCall -> string + ReadableStream.
Variable calculateRetryDelay : nat -> Z.
Variable uuidv4 : nat -> string.
Variable transformResponse : Json.jsval -> ClaudeResponse.
Variable claudeRequestToGemini : ClaudeRequest -> Json.json.
Variable claudeTargetModel : ClaudeRequest -> string.
Variable claudeUserAgent : string.
Variable convertOpenAIContent : Json.json -> string + Json.json.

Local Abbreviation handleChatCompletions :=
  (handleChatCompletions getAccounts refreshAccessToken generateSessionId
     JSON_parse generateInternal streamGenerateInternal calculateRetryDelay
     uuidv4 transformResponse claudeRequestToGemini claudeTargetModel
     claudeUserAgent convertOpenAIContent).
Local Abbreviation handleAnthropicMessages :=
  (handleAnthropicMessages getAccounts refreshAccessToken generateSessionId
     JSON_parse generateInternal streamGenerateInternal calculateRetryDelay
     uuidv4 transformResponse claudeRequestToGemini claudeTargetModel
     claudeUserAgent).
Local Abbreviation retryLoop :=
  (@retryLoop getAccounts refreshAccessToken generateSessionId calculateRetryDelay).

Lemma retryLoop_no_account {A : Type} (noAccounts failed : string)
  (sk : option string) (attempt : TM.CloudAccount -> M A) (remaining : nat)
  (w : World) :
  TM.tokens (TM.reloadIfEmpty getAccounts generateSessionId (pool w)) = [] ->
  let run := retryLoop noAccounts failed sk attempt (S remaining) 0 None [] w in
  run.1 = inl noAccounts /\ trace run.2 = trace w ++ [EvSelect sk [] None].
Proof.
  intros He. cbn [ProxyService.retryLoop Nat.ltb Nat.leb].
  unfold mbind, M_bind, bind, mret, M_ret, ret, ProxyService.selectToken.
  pose proof (getNextToken_empty getAccounts refreshAccessToken generateSessionId
                sk [] (clock w) (clock w) (pool w) He) as Hn.
  destruct (TM.getNextToken _ _ _ _ _ _ _ _) as [r tm]. cbn [fst] in Hn. subst r.
  split; reflexivity.
Qed.

(** X15.  With a pool that is empty and stays empty after the reload from
    the store, [POST chat/completions] and [POST messages] answer 429 with
    the handler's "No available accounts" message, after one selection and
    without any upstream request or delay. *)
Theorem no_account_answers_429 (body : OpenAIChatRequest)
  (abody : AnthropicChatRequest) (w : World) :
  TM.tokens (TM.reloadIfEmpty getAccounts generateSessionId (pool w)) = [] ->
  let chat :=
    ProxyController.sendOpenAIChatCompletionResponse handleChatCompletions body w in
  let messages := ProxyController.anthropicMessages handleAnthropicMessages abody w in
  chat.1 = ProxyController.Failed 429
             (Json.JObj
                [("error",
                  Json.JObj
                    [("message",
                      Json.JStr "No available accounts (all exhausted or rate limited)");
                     ("type", Json.JStr "server_error")])]) /\
  trace chat.2 = trace w ++ [EvSelect (getSessionKeyFromOpenAI body) [] None] /\
  messages.1 = ProxyController.Failed 429
                 (Json.JObj
                    [("type", Json.JStr "error");
                     ("error",
                      Json.JObj [("type", Json.JStr "api_error");
                                 ("message", Json.JStr "No available accounts")])]) /\
  trace messages.2 = trace w ++ [EvSelect (getSessionKeyFromAnthropic abody) [] None].
Proof.
  intros He. cbv zeta.
  unfold ProxyController.sendOpenAIChatCompletionResponse,
    ProxyController.anthropicMessages,
    ProxyService.handleChatCompletions, ProxyService.handleAnthropicMessages.
  cbv zeta. unfold maxRetries.
  destruct (retryLoop_no_account
              "No available accounts (all exhausted or rate limited)"
              "Request failed after retries" (getSessionKeyFromOpenAI body)
              (chatAttempt JSON_parse generateInternal streamGenerateInternal uuidv4
                 transformResponse claudeRequestToGemini claudeTargetModel
                 claudeUserAgent convertOpenAIContent body
                 (buildModelSpecificHeaders (o_model body)))
              2 w He) as [E1 T1].
  destruct (retryLoop_no_account
              "No available accounts" "Request failed after retries"
              (getSessionKeyFromAnthropic abody)
              (anthropicAttempt JSON_parse generateInternal streamGenerateInternal
                 uuidv4 transformResponse claudeRequestToGemini claudeTargetModel
                 claudeUserAgent abody (buildModelSpecificHeaders (a_model abody)))
              2 w He) as [E2 T2].
  destruct (retryLoop _ _ _ (chatAttempt _ _ _ _ _ _ _ _ _ _ _) _ _ _ _ _) as [r1 w1].
  destruct (retryLoop _ _ _ (anthropicAttempt _ _ _ _ _ _ _ _ _ _) _ _ _ _ _) as [r2 w2].
  cbn [fst snd] in *. subst r1 r2. cbn [fst snd].
  repeat split; assumption || (f_equal; vm_compute; reflexivity).
Qed.

End NoAccount.

(** Witness of [no_account_answers_429]: an empty pool and a store that
    cannot be read. *)
Lemma no_account_answers_429_witness :
  (ProxyController.sendOpenAIChatCompletionResponse
     (handleChatCompletions None Sample.noRefresh "-1" Sample.parseHello
        Sample.rejectUnary Sample.rejectStreaming Sample.delay Sample.uuid
        Sample.claudeOf cr_rest cr_model "agent" inr)
     Sample.chatRequest (initialWorld TM.emptyTokenManager 0)).1
  = ProxyController.Failed 429
      (Json.JObj
         [("error",
           Json.JObj
             [("message",
               Json.JStr "No available accounts (all exhausted or rate limited)");
              ("type", Json.JStr "server_error")])]).
Proof.
  exact (proj1 (no_account_answers_429 None Sample.noRefresh "-1" Sample.parseHello
                  Sample.rejectUnary Sample.rejectStreaming Sample.delay Sample.uuid
                  Sample.claudeOf cr_rest cr_model "agent" inr
                  Sample.chatRequest Sample.anthropicRequest
                  (initialWorld TM.emptyTokenManager 0) eq_refl)).
Defined.

Section GeminiStreamHandler.

Variable getAccounts : option (list TM.CloudAccount).
Variable refreshAccessToken : string -> option (string * Z).
Variable generateSessionId : string.
Variable streamGenerateInternal : nat -> UpstreamCall -> string + ReadableStream.
Variable calculateRetryDelay : nat -> Z.
Variable uuidv4 : nat -> string.
Variable mapModel : string -> string.
Variable envUserAgent : option string.

Local Abbreviation handleGeminiStreamGenerateContent :=
  (handleGeminiStreamGenerateContent getAccounts refreshAccessToken generateSessionId
     streamGenerateInternal calculateRetryDelay uuidv4 mapModel envUserAgent).
Local Abbreviation geminiStreamAttempt :=
  (geminiStreamAttempt streamGenerateInternal uuidv4 envUserAgent).
Local Abbreviation geminiStream :=
  (geminiStream streamGenerateInternal uuidv4 envUserAgent).
Local Abbreviation retryLoop :=
  (@retryLoop getAccounts refreshAccessToken generateSessionId calculateRetryDelay).
Local Abbreviation selectToken :=
  (selectToken getAccounts refreshAccessToken generateSessionId).

(** One upstream stream request: the call made and what it leaves. *)
Lemma geminiStream_run (m : string) (headers : list (string * string))
  (r : GeminiRequest) (projectId : string) (t : TM.CloudTokenData) (w : World) :
  let call :=
    mkCall true
      (mkInternal projectId (uuidv4 (uuids w)) (toInternalGeminiRequest r) m
         (default defaultRequestUserAgent envUserAgent) "generate-content")
      (TM.access_token t) (TM.upstream_proxy_url t) headers in
  geminiStream m headers r projectId t w
  = (streamGenerateInternal (upstreamCalls w) call,
     mkWorld (pool w) (clock w) (trace w ++ [EvUpstream call]) (S (upstreamCalls w))
       (S (uuids w))).
Proof. reflexivity. Qed.

(** X16.  When the first upstream answer is a stream,
    [handleGeminiStreamGenerateContent] returns that very stream after
    exactly one selection (nothing excluded) and one upstream request, made
    with the selected account's access token and project: no delay, no
    cooldown mark, no second attempt. *)
Theorem gemini_stream_first_success (requestedModel : string) (r : GeminiRequest)
  (w : World) (s : ReadableStream) :
  TM.tokens (pool w) <> [] ->
  (forall call, streamGenerateInternal (upstreamCalls w) call = inr s) ->
  exists account t call,
    (selectToken None [] w).1 = inr (Some account) /\
    TM.token account = Some t /\
    uc_accessToken call = TM.access_token t /\
    project (uc_body call) = default "" (TM.project_id t) /\
    model (uc_body call) = mapModel (normalizeGeminiModel requestedModel) /\
    let run := handleGeminiStreamGenerateContent requestedModel r w in
    run.1 = inr s /\
    trace run.2 = trace w ++ [EvSelect None [] (Some (TM.id account)); EvUpstream call] /\
    clock run.2 = clock w /\
    TM.cooldowns (pool run.2) = TM.cooldowns (pool w).
Proof.
  intros Hne Hok.
  destruct (selectToken_pool getAccounts refreshAccessToken generateSessionId
              None [] w Hne)
    as (account & t & w1 & Es & Ht & _ & _ & Hc & Hclock & Hup & Htr).
  exists account, t. eexists. rewrite Es. split; [reflexivity|]. split; [exact Ht|].
  unfold ProxyService.handleGeminiStreamGenerateContent. cbv zeta. unfold maxRetries.
  cbn [ProxyService.retryLoop Nat.ltb Nat.leb].
  unfold mbind, M_bind, bind, mret, M_ret, ret. rewrite Es.
  unfold tryCatch, ProxyService.geminiStreamAttempt, tryCatch, withToken.
  rewrite Ht, geminiStream_run, Hup, Hok. cbn [fst snd trace clock pool uc_accessToken
    uc_body project model].
  rewrite Htr, Hclock, Hc, <- app_assoc. repeat split; reflexivity.
Qed.

End GeminiStreamHandler.

(** Witness of [gemini_stream_first_success]: the pool A, B and a client
    that answers with a stream. *)
Lemma gemini_stream_first_success_witness :
  (handleGeminiStreamGenerateContent None Sample.noRefresh "-1" Sample.helloStreaming
     Sample.delay Sample.uuid (fun m => m) None "models/gemini-2.5-flash"
     Sample.geminiRequest (initialWorld Sample.poolAB 1000)).1
  = inr Sample.helloStream.
Proof.
  destruct (gemini_stream_first_success None Sample.noRefresh "-1"
              Sample.helloStreaming Sample.delay Sample.uuid (fun m => m) None
              "models/gemini-2.5-flash" Sample.geminiRequest
              (initialWorld Sample.poolAB 1000) Sample.helloStream
              ltac:(discriminate) (fun _ => eq_refl))
    as (account & t & call & _ & _ & _ & _ & _ & H & _).
  exact H.
Defined.

Section Benching.

Variable getAccounts : option (list TM.CloudAccount).
Variable refreshAccessToken : string -> option (string * Z).
Variable generateSessionId : string.
Variable calculateRetryDelay : nat -> Z.

Local Abbreviation retryLoop :=
  (@retryLoop getAccounts refreshAccessToken generateSessionId calculateRetryDelay).
Local Abbreviation selectToken :=
  (selectToken getAccounts refreshAccessToken generateSessionId).

Lemma benched_weaken (T T' : Z) (tm : TM.TokenManager) (a : string) :
  (T' <= T)%Z -> Runs.benched T tm a -> Runs.benched T' tm a.
Proof. intros H (u & E & Hu). exists u. split; [exact E|lia]. Qed.

Lemma pause_world (i : nat) (w : World) :
  exists w1 evs,
    (if Nat.ltb 0 i then sleep (calculateRetryDelay (i - 1)) else mret tt) w
    = (inr tt, w1) /\
    pool w1 = pool w /\ (clock w <= clock w1)%Z /\
    trace w1 = trace w ++ evs /\ Forall notSelection evs.
Proof.
  destruct (Nat.ltb 0 i).
  - eexists _, [_]. split; [reflexivity|]. cbn. split; [reflexivity|].
    split; [lia|]. split; [reflexivity|]. now repeat constructor.
  - exists w, []. rewrite app_nil_r. repeat split; [lia|constructor].
Qed.

(** The loop over attempts that all fail with a message classified
    forbidden: every account selected is benched for 30 minutes from the
    time of its failure, and a bench of that length already in place
    stays. *)
Lemma retryLoop_benches {A : Type} (noAccounts failed msg : string)
  (sk : option string) (attempt : TM.CloudAccount -> M A) :
  classifyUpstreamError msg = mkDecision true true false ->
  (forall account t, TM.token account = Some t -> Runs.failsWith msg (attempt account)) ->
  forall (remaining i : nat) (lastError : option string) (attempted : list string)
         (w : World),
    TM.tokens (pool w) <> [] ->
    let run := retryLoop noAccounts failed sk attempt remaining i lastError attempted w in
    exists evs,
      run.1 = inl (match remaining with O => default failed lastError | _ => msg end) /\
      trace run.2 = trace w ++ evs /\
      length (selectionsOf evs) = remaining /\
      (forall ex a, In (ex, Some a) (selectionsOf evs) ->
                    Runs.benched (clock w + 30 * 60 * 1000) (pool run.2) a) /\
      (forall T a, (T <= clock w + 30 * 60 * 1000)%Z ->
                   Runs.benched T (pool w) a -> Runs.benched T (pool run.2) a).
Proof.
  intros Hclass Hattempt.
  induction remaining as [|n IH]; intros i lastError attempted w Hne; cbv zeta.
  - exists []. cbn. rewrite app_nil_r. repeat split; [intros ? ? []|auto].
  - cbn [ProxyService.retryLoop]. unfold mbind, M_bind, bind.
    destruct (pause_world i w) as (w0 & evs0 & -> & Hp0 & Hc0 & Ht0 & Hn0).
    assert (Hne0 : TM.tokens (pool w0) <> []) by now rewrite Hp0.
    destruct (selectToken_pool getAccounts refreshAccessToken generateSessionId
                sk attempted w0 Hne0)
      as (account & t & w1 & -> & Htok & Hin & Hne1 & Hcd1 & Hc1 & _ & Ht1).
    unfold tryCatch.
    destruct (Hattempt account t Htok w1) as (evsa & Hr & Hpa & Hca & Hta & Hna).
    destruct (attempt account w1) as [res w2]. cbn [fst snd] in *. subst res.
    rewrite Hclass. unfold markByDecision. cbn [retry markAsForbidden].
    unfold tmMarkAsForbidden.
    set (w3 := mkWorld (TM.markAsForbidden (clock w2) (TM.id account) (pool w2))
                 (clock w2) (trace w2 ++ [EvMarkForbidden (TM.id account)])
                 (upstreamCalls w2) (uuids w2)).
    assert (Hne3 : TM.tokens (pool w3) <> []) by (cbn; now rewrite Hpa).
    assert (Hb3 : Runs.benched (clock w2 + 30 * 60 * 1000) (pool w3) (TM.id account)).
    { eexists. split; [|reflexivity]. cbn [pool w3]. unfold TM.markAsForbidden.
      rewrite markInCooldown_known by now rewrite Hpa. reflexivity. }
    assert (Hkeep : forall T a, (T <= clock w + 30 * 60 * 1000)%Z ->
                                Runs.benched T (pool w) a -> Runs.benched T (pool w3) a).
    { intros T a HT (u & Eu & Hu).
      destruct (decide (a = TM.id account)) as [->|Hna'].
      - apply (benched_weaken (clock w2 + 30 * 60 * 1000)); [lia|exact Hb3].
      - exists u. split; [|exact Hu]. cbn [pool w3].
        unfold TM.markAsForbidden, TM.markInCooldown.
        rewrite resolveAccountId_known by now rewrite Hpa. cbn.
        rewrite lookup_insert_ne by congruence.
        now rewrite Hpa, Hcd1, Hp0. }
    destruct (IH (S i) (Some msg) (setAdd (TM.id account) attempted) w3 Hne3)
      as (evs' & Hr' & Ht' & Hlen & Hsel & Hpres).
    cbv zeta in Hr', Ht', Hsel, Hpres.
    destruct (retryLoop _ _ _ _ n _ _ _ w3) as [res' w'] eqn:Erun.
    cbn [fst snd] in *.
    exists (evs0 ++ [EvSelect sk attempted (Some (TM.id account))] ++ evsa
            ++ [EvMarkForbidden (TM.id account)] ++ evs').
    split.
    { rewrite Hr'. now destruct n. }
    split.
    { rewrite Ht'. cbn [trace w3]. rewrite Hta, Ht1, Ht0. now rewrite <- !app_assoc. }
    rewrite !selectionsOf_app, (selectionsOf_none _ Hn0), (selectionsOf_none _ Hna).
    change (selectionsOf [EvSelect sk attempted (Some (TM.id account))])
      with [(attempted, Some (TM.id account))].
    change (selectionsOf [EvMarkForbidden (TM.id account)])
      with (@nil (list string * option string)).
    cbn [app length]. split; [now rewrite Hlen|]. split.
    + intros ex a [Ha|Ha].
      * injection Ha as _ <-.
        apply (benched_weaken (clock w2 + 30 * 60 * 1000)); [lia|].
        apply Hpres; [cbn; lia|exact Hb3].
      * apply (benched_weaken (clock w2 + 30 * 60 * 1000)); [lia|].
        now apply (Hsel ex a).
    + intros T a HT Hb. apply Hpres; [cbn; lia|]. now apply Hkeep.
Qed.

End Benching.

Section FailingUpstream.

Variable getAccounts : option (list TM.CloudAccount).
Variable refreshAccessToken : string -> option (string * Z).
Variable generateSessionId : string.
Variable JSON_parse : string -> option Json.json.
Variable generateInternal : nat -> UpstreamCall -> string + Json.jsval.
Variable streamGenerateInternal : nat -> UpstreamCall -> string + ReadableStream.
Variable calculateRetryDelay : nat -> Z.
Variable uuidv4 : nat -> string.
Variable mapModel : string -> string.
Variable envUserAgent : option string.
Variable transformResponse : Json.jsval -> ClaudeResponse.
Variable claudeRequestToGemini : ClaudeRequest -> Json.json.
Variable claudeTargetModel : ClaudeRequest -> string.
Variable claudeUserAgent : string.
Variable convertOpenAIContent : Json.json -> string + Json.json.

Variable msg : string.
Hypothesis unary_fails : forall n call, generateInternal n call = inl msg.
Hypothesis stream_fails : forall n call, streamGenerateInternal n call = inl msg.

Local Abbreviation generateInternalWithStreamFallback :=
  (generateInternalWithStreamFallback JSON_parse generateInternal streamGenerateInternal).
Local Abbreviation callStreamGenerateInternal :=
  (callStreamGenerateInternal streamGenerateInternal).
Local Abbreviation transformClaudeRequestIn :=
  (transformClaudeRequestIn uuidv4 claudeRequestToGemini claudeTargetModel
     claudeUserAgent).
Local Abbreviation createGeminiInternalRequest :=
  (createGeminiInternalRequest uuidv4 envUserAgent).

Lemma unary_call_fails (body : GeminiInternalRequest) (tok : string)
  (proxy : option string) (headers : list (string * string)) (w : World) :
  generateInternalWithStreamFallback body tok proxy headers w
  = (inl msg,
     mkWorld (pool w) (clock w)
       (trace w ++ [EvUpstream (mkCall false body tok proxy headers)])
       (S (upstreamCalls w)) (uuids w)).
Proof.
  unfold ProxyService.generateInternalWithStreamFallback, mbind, M_bind, bind,
    callGenerateInternal.
  now rewrite unary_fails.
Qed.

Lemma stream_call_fails (body : GeminiInternalRequest) (tok : string)
  (proxy : option string) (headers : list (string * string)) (w : World) :
  callStreamGenerateInternal body tok proxy headers w
  = (inl msg,
     mkWorld (pool w) (clock w)
       (trace w ++ [EvUpstream (mkCall true body tok proxy headers)])
       (S (upstreamCalls w)) (uuids w)).
Proof. unfold ProxyService.callStreamGenerateInternal. now rewrite stream_fails. Qed.

Lemma transformClaudeRequestIn_run (c : ClaudeRequest) (p : string) (w : World) :
  transformClaudeRequestIn c p w
  = (inr (mkInternal p (uuidv4 (uuids w)) (claudeRequestToGemini c)
            (claudeTargetModel c) claudeUserAgent "generate-content"),
     mkWorld (pool w) (clock w) (trace w) (upstreamCalls w) (S (uuids w))).
Proof. reflexivity. Qed.

Lemma createGeminiInternalRequest_run (m : string) (r : GeminiRequest)
  (p ty : string) (w : World) :
  createGeminiInternalRequest m r p ty w
  = (inr (mkInternal p (uuidv4 (uuids w)) (toInternalGeminiRequest r) m
            (default defaultRequestUserAgent envUserAgent) ty),
     mkWorld (pool w) (clock w) (trace w) (upstreamCalls w) (S (uuids w))).
Proof. reflexivity. Qed.

(** Unfolds an attempt down to the upstream calls, which fail. *)
Ltac run_attempt Ht :=
  unfold tryCatch, withToken, recoverWith, mbind, M_bind, bind, fmap, M_fmap, bind,
    throw;
  repeat first
    [ rewrite Ht
    | rewrite transformClaudeRequestIn_run
    | rewrite createGeminiInternalRequest_run
    | rewrite unary_call_fails
    | rewrite stream_call_fails
    | progress cbn [fst snd pool clock trace upstreamCalls uuids] ].

Ltac quiet :=
  cbn [fst snd pool clock trace];
  repeat split; try reflexivity;
  try (rewrite <- ?app_assoc; reflexivity);
  repeat constructor.

Lemma geminiStreamAttempt_fails (m : string) (headers : list (string * string))
  (r : GeminiRequest) (account : TM.CloudAccount) (t : TM.CloudTokenData) :
  TM.token account = Some t ->
  Runs.failsWith msg
    (geminiStreamAttempt streamGenerateInternal uuidv4 envUserAgent m headers r account).
Proof.
  intros Ht w. unfold geminiStreamAttempt, geminiStream. run_attempt Ht.
  destruct (isProjectContextError msg); run_attempt Ht.
  - eexists [_; _]. quiet.
  - eexists [_]. quiet.
Qed.

Lemma geminiGenerateAttempt_fails (m : string) (headers : list (string * string))
  (r : GeminiRequest) (account : TM.CloudAccount) (t : TM.CloudTokenData) :
  TM.token account = Some t ->
  Runs.failsWith msg
    (geminiGenerateAttempt JSON_parse generateInternal streamGenerateInternal uuidv4
       envUserAgent m headers r account).
Proof.
  intros Ht w. unfold geminiGenerateAttempt, geminiGenerate. run_attempt Ht.
  destruct (isProjectContextError msg); run_attempt Ht.
  - eexists [_; _]. quiet.
  - eexists [_]. quiet.
Qed.

Lemma chatAttempt_fails (r : OpenAIChatRequest) (headers : list (string * string))
  (account : TM.CloudAccount) (t : TM.CloudTokenData) (converted : Json.json) :
  convertOpenAIContent (o_rest r) = inr converted ->
  TM.token account = Some t ->
  Runs.failsWith msg
    (chatAttempt JSON_parse generateInternal streamGenerateInternal uuidv4
       transformResponse claudeRequestToGemini claudeTargetModel claudeUserAgent
       convertOpenAIContent r headers account).
Proof.
  intros Hconv Ht w.
  unfold chatAttempt, chatStream, chatUnary, convertOpenAIToClaude, liftResult.
  rewrite Hconv. run_attempt Ht.
  destruct (o_stream r); run_attempt Ht;
    destruct (isProjectContextError msg); run_attempt Ht.
  - eexists [_; _; _]. quiet.
  - eexists [_; _]. quiet.
  - eexists [_; _]. quiet.
  - eexists [_]. quiet.
Qed.

Lemma anthropicAttempt_fails (r : AnthropicChatRequest)
  (headers : list (string * string)) (account : TM.CloudAccount)
  (t : TM.CloudTokenData) :
  TM.token account = Some t ->
  Runs.failsWith msg
    (anthropicAttempt JSON_parse generateInternal streamGenerateInternal uuidv4
       transformResponse claudeRequestToGemini claudeTargetModel claudeUserAgent
       r headers account).
Proof.
  intros Ht w.
  unfold anthropicAttempt, anthropicPrimary, anthropicDowngrade, anthropicCall.
  run_attempt Ht.
  destruct (a_stream r); run_attempt Ht;
    destruct (isProjectContextError msg); run_attempt Ht;
    destruct (isQuotaExhaustedError msg); run_attempt Ht.
  all: first [ solve [eexists [_; _; _]; quiet] | solve [eexists [_; _]; quiet]
             | solve [eexists [_]; quiet] ].
Qed.

End FailingUpstream.

Section ForbiddenUpstream.

Variable getAccounts : option (list TM.CloudAccount).
Variable refreshAccessToken : string -> option (string * Z).
Variable generateSessionId : string.
Variable JSON_parse : string -> option Json.json.
Variable generateInternal : nat -> UpstreamCall -> string + Json.jsval.
Variable streamGenerateInternal : nat -> UpstreamCall -> string + ReadableStream.
Variable calculateRetryDelay : nat -> Z.
Variable uuidv4 : nat -> string.
Variable mapModel : string -> string.
Variable envUserAgent : option string.
Variable transformResponse : Json.jsval -> ClaudeResponse.
Variable claudeRequestToGemini : ClaudeRequest -> Json.json.
Variable claudeTargetModel : ClaudeRequest -> string.
Variable claudeUserAgent : string.
Variable convertOpenAIContent : Json.json -> string + Json.json.

(** X17.  When every upstream call is rejected with a message of the
    forbidden class (401, 403, unauthorized, ...), each of the four
    handlers makes its three attempts, fails with that message, and leaves
    every account it selected in cooldown until at least 30 minutes after
    the start of the run; for [handleChatCompletions] this is so for the
    requests that [convertOpenAIToClaude] converts without throwing, the
    others never reaching the upstream call. *)
Theorem forbidden_failures_bench_accounts (msg : string) :
  AnyCI msg forbiddenKeywords ->
  (forall n call, generateInternal n call = inl msg) ->
  (forall n call, streamGenerateInternal n call = inl msg) ->
  (forall r converted,
     convertOpenAIContent (o_rest r) = inr converted ->
     Runs.benchesEveryAttempt msg
       (handleChatCompletions getAccounts refreshAccessToken generateSessionId
          JSON_parse generateInternal streamGenerateInternal calculateRetryDelay
          uuidv4 transformResponse claudeRequestToGemini claudeTargetModel
          claudeUserAgent convertOpenAIContent r)) /\
  (forall r,
     Runs.benchesEveryAttempt msg
       (handleAnthropicMessages getAccounts refreshAccessToken generateSessionId
          JSON_parse generateInternal streamGenerateInternal calculateRetryDelay
          uuidv4 transformResponse claudeRequestToGemini claudeTargetModel
          claudeUserAgent r)) /\
  (forall m r,
     Runs.benchesEveryAttempt msg
       (handleGeminiGenerateContent getAccounts refreshAccessToken generateSessionId
          JSON_parse generateInternal streamGenerateInternal calculateRetryDelay
          uuidv4 mapModel envUserAgent m r)) /\
  (forall m r,
     Runs.benchesEveryAttempt msg
       (handleGeminiStreamGenerateContent getAccounts refreshAccessToken
          generateSessionId streamGenerateInternal calculateRetryDelay uuidv4
          mapModel envUserAgent m r)).
Proof.
  intros Hf Hu Hs. pose proof (classify_forbidden msg Hf) as Hc.
  repeat split; intros; intros w Hne;
    unfold handleChatCompletions, handleAnthropicMessages,
      handleGeminiGenerateContent, handleGeminiStreamGenerateContent; cbv zeta;
    match goal with
    | |- context [retryLoop _ _ _ _ ?na ?fl ?sk ?att maxRetries 0 None [] w] =>
        destruct (retryLoop_benches getAccounts refreshAccessToken generateSessionId
                    calculateRetryDelay na fl msg sk att Hc) with
          (remaining := maxRetries) (i := 0) (lastError := @None string)
          (attempted := @nil string) (w := w)
          as (evs & Hr & Ht & Hl & Hb & _);
        [ | exact Hne | exists evs; auto ]
    end.
  - intros account t Ht.
    match goal with
    | Hconv : convertOpenAIContent _ = inr ?c |- _ =>
        now apply chatAttempt_fails with (t := t) (converted := c)
    end.
  - intros account t Ht. now apply anthropicAttempt_fails with (t := t).
  - intros account t Ht. now apply geminiGenerateAttempt_fails with (t := t).
  - intros account t Ht. now apply geminiStreamAttempt_fails with (t := t).
Qed.

End ForbiddenUpstream.

(** Witness of [forbidden_failures_bench_accounts]: a client that answers
    403 to every call. *)
Lemma forbidden_failures_bench_accounts_witness :
  AnyCI "403 Forbidden" forbiddenKeywords /\
  Runs.benchesEveryAttempt "403 Forbidden"
    (handleChatCompletions None Sample.noRefresh "-1" Sample.parseHello
       Scenarios.forbidUnary Scenarios.forbidStreaming Sample.delay Sample.uuid
       Sample.claudeOf cr_rest cr_model "agent" inr Sample.chatRequest).
Proof.
  assert (F : AnyCI "403 Forbidden" forbiddenKeywords)
    by (apply AnyCI_decide_true; reflexivity).
  split; [exact F|].
  exact (proj1 (forbidden_failures_bench_accounts None Sample.noRefresh "-1"
                  Sample.parseHello Scenarios.forbidUnary Scenarios.forbidStreaming
                  Sample.delay Sample.uuid (fun m => m) None Sample.claudeOf cr_rest
                  cr_model "agent" inr "403 Forbidden" F
                  (fun _ _ => eq_refl) (fun _ _ => eq_refl))
               Sample.chatRequest Json.JNull eq_refl).
Defined.

(** ** The API key guard *)

Section ApiKeys.

Import ApiKeyAuth.

Lemma trimEnd_noWhitespace (s : string) : noWhitespace s = true -> Js.trimEnd s = s.
Proof.
  induction s as [|c s IH]; [reflexivity|]. cbn. intros H.
  apply andb_true_iff in H as [Hc Hs]. rewrite (IH Hs).
  destruct s; [|reflexivity]. apply negb_true_iff in Hc. now rewrite Hc.
Qed.

Lemma trim_noWhitespace (s : string) : noWhitespace s = true -> Js.trim s = s.
Proof.
  intros H. unfold Js.trim.
  assert (E : Js.trimStart s = s).
  { destruct s as [|c s]; [reflexivity|]. cbn in *.
    apply andb_true_iff in H as [Hc _]. apply negb_true_iff in Hc. now rewrite Hc. }
  rewrite E. now apply trimEnd_noWhitespace.
Qed.

Lemma splitWhitespaceFrom_pieces (afterSpace : bool) (s : string) :
  Forall (fun piece => noWhitespace piece = true) (splitWhitespaceFrom afterSpace s).
Proof.
  revert afterSpace. induction s as [|c s IH]; intros afterSpace; cbn.
  - now repeat constructor.
  - destruct (Js.isSpace c) eqn:Ec.
    + destruct afterSpace; [apply IH|]. constructor; [reflexivity|apply IH].
    + specialize (IH false). destruct (splitWhitespaceFrom false s) as [|p ps].
      * repeat constructor. cbn. now rewrite Ec.
      * apply List.Forall_cons_iff in IH as [Hp Hps]. constructor; [|exact Hps].
        cbn. now rewrite Ec, Hp.
Qed.

Lemma bearerToken_clean (authorizationHeader token : string) :
  bearerToken authorizationHeader = Some token ->
  token <> "" /\ Js.trim token = token.
Proof.
  unfold bearerToken, splitWhitespace.
  pose proof (splitWhitespaceFrom_pieces false (Js.trim authorizationHeader)) as H.
  destruct (splitWhitespaceFrom false _) as [|scheme [|tok [|x l]]]; try discriminate.
  destruct (Js.truthy tok && _) eqn:E; [|discriminate].
  intros H0. injection H0 as <-. apply andb_true_iff in E as [E _].
  split; [now destruct tok|].
  apply trim_noWhitespace.
  apply List.Forall_cons_iff in H as [_ H]. now apply List.Forall_cons_iff in H as [H _].
Qed.

Lemma firstNonBlank_clean (values : list Json.json) (v : string) :
  firstNonBlank values = Some v -> v <> "" /\ Js.trim v = v.
Proof.
  induction values as [|x values IH]; [discriminate|]. cbn.
  destruct x; try exact IH.
  destruct (Js.truthy (Js.trim s)) eqn:E; [|exact IH].
  intros H. injection H as <-. split; [now destruct (Js.trim s)|apply trim_idem].
Qed.

Lemma readHeaderValue_clean (headerValue : option RequestHeaderValue) (v : string) :
  readHeaderValue headerValue = Some v -> v <> "" /\ Js.trim v = v.
Proof.
  destruct headerValue as [[s|values]|]; cbn; [| apply firstNonBlank_clean | discriminate].
  destruct (Js.truthy (Js.trim s)) eqn:E; [|discriminate].
  intros H. injection H as <-. split; [now destruct (Js.trim s)|apply trim_idem].
Qed.

Lemma extractApiKeyToken_clean (headers : RequestHeaders) (token : string) :
  extractApiKeyToken headers = Some token -> token <> "" /\ Js.trim token = token.
Proof.
  unfold extractApiKeyToken.
  destruct (readHeaderValue (headers !! "authorization") ≫= bearerToken) as [t|] eqn:E.
  - intros H. injection H as <-.
    destruct (readHeaderValue (headers !! "authorization")) as [a|]; [|discriminate].
    now apply (bearerToken_clean a).
  - destruct (readHeaderValue (headers !! "x-api-key")) as [x|] eqn:Ex.
    + intros H. injection H as <-. now apply (readHeaderValue_clean _ _ Ex).
    + apply readHeaderValue_clean.
Qed.

(** X18.  The token taken from the request headers is never empty and
    carries no white space at either end.  A configured [api_key] with
    leading or trailing white space therefore matches no request at all:
    the guard rejects every client. *)
Theorem padded_api_key_locks_out (apiKey : string) (headers : RequestHeaders) :
  (forall token, extractApiKeyToken headers = Some token ->
                 token <> "" /\ Js.trim token = token) /\
  (hasConfiguredApiKey (Some apiKey) = true -> Js.trim apiKey <> apiKey ->
   ProxyGuard.canActivate (Some apiKey) headers = inl "API key validation failed").
Proof.
  split; [apply extractApiKeyToken_clean|].
  intros Hc Hpad. unfold ProxyGuard.canActivate. rewrite Hc. cbn [negb].
  rewrite bool_decide_eq_false_2; [reflexivity|].
  intros E. apply extractApiKeyToken_clean in E as [_ E]. contradiction.
Qed.

End ApiKeys.

Section Admission.

Import ApiKeyAuth.

Lemma splitWhitespaceFrom_word (afterSpace : bool) (s : string) :
  noWhitespace s = true -> s <> "" -> splitWhitespaceFrom afterSpace s = [s].
Proof.
  revert afterSpace. induction s as [|c s IH]; intros afterSpace H Hne; [contradiction|].
  cbn in *. apply andb_true_iff in H as [Hc Hs]. apply negb_true_iff in Hc.
  rewrite Hc. destruct s as [|d s]; [reflexivity|].
  now rewrite (IH false Hs).
Qed.

Lemma splitWhitespace_two (a b : string) :
  noWhitespace a = true -> noWhitespace b = true -> b <> "" ->
  splitWhitespace (a +:+ " " +:+ b) = [a; b].
Proof.
  intros Ha Hb Hne. unfold splitWhitespace.
  induction a as [|c a IH].
  - rewrite append_nil_l, append_cons, append_nil_l. cbn.
    now rewrite (splitWhitespaceFrom_word true b Hb Hne).
  - cbn in Ha. apply andb_true_iff in Ha as [Hc Ha]. apply negb_true_iff in Hc.
    rewrite append_cons. cbn [splitWhitespaceFrom]. rewrite Hc, (IH Ha). reflexivity.
Qed.

Lemma noWhitespace_app (a b : string) :
  noWhitespace (a +:+ b) = noWhitespace a && noWhitespace b.
Proof.
  induction a as [|c a IH]; [now rewrite append_nil_l|].
  rewrite append_cons. cbn. now rewrite IH, andb_assoc.
Qed.

Lemma isSpace_lowerChar (c : ascii) : Js.isSpace (Js.lowerChar c) = Js.isSpace c.
Proof. destruct c as [[] [] [] [] [] [] [] []]; reflexivity. Qed.

Lemma noWhitespace_lower (s : string) :
  noWhitespace (Js.toLowerCase s) = noWhitespace s.
Proof. induction s as [|c s IH]; [reflexivity|]. cbn. now rewrite isSpace_lowerChar, IH. Qed.

(** A header value made of two words separated by one space is its own
    trimmed form. *)
Lemma trim_two_words (a b : string) :
  noWhitespace a = true -> a <> "" -> noWhitespace b = true -> b <> "" ->
  Js.trim (a +:+ " " +:+ b) = a +:+ " " +:+ b.
Proof.
  intros Ha Hna Hb Hnb. unfold Js.trim.
  assert (Es : Js.trimStart (a +:+ " " +:+ b) = a +:+ " " +:+ b).
  { destruct a as [|c a]; [contradiction|]. rewrite append_cons. cbn in *.
    apply andb_true_iff in Ha as [Hc _]. apply negb_true_iff in Hc. now rewrite Hc. }
  rewrite Es. clear Es Hna.
  assert (Eb : Js.trimEnd (" " +:+ b) = " " +:+ b).
  { rewrite append_cons, append_nil_l. cbn [Js.trimEnd].
    rewrite (trimEnd_noWhitespace b Hb). destruct b; [contradiction|reflexivity]. }
  induction a as [|c a IH].
  - now rewrite append_nil_l.
  - cbn in Ha. apply andb_true_iff in Ha as [_ Ha].
    rewrite append_cons. cbn [Js.trimEnd]. rewrite (IH Ha).
    destruct (a +:+ " " +:+ b) eqn:E; [|reflexivity].
    destruct a; discriminate.
Qed.

(** X19.  Who the guard lets in.  Without a configured key (none, or a
    blank one) everybody.  With a configured key free of white space: the
    client that sends it as [Authorization: <scheme> <key>] with the scheme
    reading bearer in any letter case, whatever the other headers; and the
    client that sends it as [x-api-key] without an [Authorization]
    header. *)
Theorem guard_lets_key_holders_in (apiKey scheme : string) (headers : RequestHeaders) :
  (forall blank, hasConfiguredApiKey blank = false ->
                 ProxyGuard.canActivate blank headers = inr true) /\
  (noWhitespace apiKey = true -> apiKey <> "" ->
   Js.toLowerCase scheme = "bearer" ->
   ProxyGuard.canActivate (Some apiKey)
     (<["authorization" := HeaderString (scheme +:+ " " +:+ apiKey)]> headers)
   = inr true) /\
  (noWhitespace apiKey = true -> apiKey <> "" ->
   headers !! "authorization" = None ->
   ProxyGuard.canActivate (Some apiKey) (<["x-api-key" := HeaderString apiKey]> headers)
   = inr true).
Proof.
  split; [|split].
  - intros blank Hb. unfold ProxyGuard.canActivate. now rewrite Hb.
  - intros Hk Hne Hs.
    assert (Hsw : noWhitespace scheme = true).
    { rewrite <- noWhitespace_lower, Hs. reflexivity. }
    assert (Hsn : scheme <> "") by (intros ->; discriminate).
    assert (Hcfg : hasConfiguredApiKey (Some apiKey) = true).
    { cbn. rewrite (trim_noWhitespace _ Hk). now destruct apiKey. }
    unfold ProxyGuard.canActivate. rewrite Hcfg. cbn [negb].
    unfold extractApiKeyToken. rewrite lookup_insert_eq.
    cbn [readHeaderValue]. rewrite (trim_two_words _ _ Hsw Hsn Hk Hne).
    assert (Ht : Js.truthy (scheme +:+ " " +:+ apiKey) = true).
    { destruct scheme; [contradiction|reflexivity]. }
    rewrite Ht. cbn [mbind option_bind]. unfold bearerToken.
    rewrite (trim_two_words _ _ Hsw Hsn Hk Hne), (splitWhitespace_two _ _ Hsw Hk Hne), Hs.
    assert (Hkt : Js.truthy apiKey = true) by now destruct apiKey.
    rewrite Hkt. cbn. now rewrite bool_decide_eq_true_2.
  - intros Hk Hne Hauth.
    assert (Hcfg : hasConfiguredApiKey (Some apiKey) = true).
    { cbn. rewrite (trim_noWhitespace _ Hk). now destruct apiKey. }
    unfold ProxyGuard.canActivate. rewrite Hcfg. cbn [negb].
    unfold extractApiKeyToken.
    rewrite lookup_insert_ne by discriminate. rewrite Hauth.
    cbn [readHeaderValue mbind option_bind]. rewrite lookup_insert_eq.
    cbn [readHeaderValue]. rewrite (trim_noWhitespace _ Hk).
    assert (Hkt : Js.truthy apiKey = true) by now destruct apiKey.
    rewrite Hkt. now rewrite bool_decide_eq_true_2.
Qed.

End Admission.

(** ** Model routing *)

Section Routing.

Import ModelMapping.

Lemma mapGet_In {V : Type} (k : string) (v : V) (m : list (string * V)) :
  Js.mapGet k m = Some v -> In (k, v) m.
Proof.
  induction m as [|[k0 v0] m IH]; cbn; [discriminate|].
  destruct (String.eqb_spec k0 k) as [->|_].
  - intros H. injection H as ->. now left.
  - intros H. right. now apply IH.
Qed.

Lemma builtin_targets_fixed :
  Forall (fun entry : string * string => mapClaudeModelToGemini entry.2 = Model entry.2)
         CLAUDE_TO_GEMINI.
Proof. repeat (constructor; [vm_compute; reflexivity|]). constructor. Qed.

(** X20.  The built-in mapping is a projection: a model name it returns
    is mapped to itself, so mapping twice is mapping once. *)
Theorem mapClaudeModelToGemini_idempotent (input name : string) :
  mapClaudeModelToGemini input = Model name ->
  mapClaudeModelToGemini name = Model name.
Proof.
  unfold mapClaudeModelToGemini at 1. unfold lookup.
  destruct (Js.mapGet input CLAUDE_TO_GEMINI) as [value|] eqn:E.
  - destruct (Js.truthy value) eqn:Et.
    + intros H. injection H as <-. apply mapGet_In in E.
      pose proof builtin_targets_fixed as F.
      rewrite List.Forall_forall in F. exact (F _ E).
    + intros H. injection H as <-.
      unfold mapClaudeModelToGemini, lookup. rewrite E, Et. reflexivity.
  - destruct (bool_decide _) eqn:Ep; [discriminate|].
    intros H. injection H as <-.
    unfold mapClaudeModelToGemini, lookup. rewrite E, Ep. reflexivity.
Qed.

Lemma lookup_empty_claude (model : string) :
  Js.startsWith (Js.toLowerCase model) "claude-" = true -> lookup [] model = None.
Proof.
  intros H. unfold lookup. cbn [Js.mapGet].
  destruct (bool_decide (model ∈ objectPrototypeKeys)) eqn:E; [|reflexivity].
  apply bool_decide_eq_true in E. unfold objectPrototypeKeys in E.
  repeat (apply elem_of_cons in E as [->|E]; [vm_compute in H; discriminate|]).
  now apply elem_of_nil in E.
Qed.

Lemma resolveModelRoute_exact (model : string) (customMapping : StringRecord) :
  resolveModelRoute model customMapping [] []
  = default (mapClaudeModelToGemini model) (lookup customMapping model).
Proof.
  unfold resolveModelRoute. cbv zeta. cbn [fold_right].
  destruct (lookup customMapping model) as [r|]; [reflexivity|].
  cbn [orElse default].
  change (lookup [] "gpt-4-series") with (@None Routed).
  change (lookup [] "gpt-4o-series") with (@None Routed).
  change (lookup [] "gpt-5-series") with (@None Routed).
  assert (C : forall k, lookup [] (claudeFamilyKey k) = None).
  { intros k. unfold claudeFamilyKey.
    destruct (_ || _); [reflexivity|]. destruct (_ || _); reflexivity. }
  rewrite C.
  destruct (isGpt4Family _), (isGpt4oFamily _), (Js.startsWith _ "gpt-5");
    cbn [orElse default];
    (destruct (Js.startsWith _ "claude-") eqn:Ec;
     [rewrite (lookup_empty_claude model Ec)|]; reflexivity).
Qed.

Lemma resolveModelRoute_builtin (model : string) :
  resolveModelRoute model [] [] [] = mapClaudeModelToGemini model.
Proof.
  rewrite resolveModelRoute_exact. unfold lookup at 1. cbn [Js.mapGet].
  destruct (bool_decide (_ ∈ objectPrototypeKeys)) eqn:E; [|reflexivity].
  apply bool_decide_eq_true in E. unfold objectPrototypeKeys in E.
  repeat (apply elem_of_cons in E as [->|E]; [reflexivity|]).
  now apply elem_of_nil in E.
Qed.

(** X21.  [mapModel] calls [resolveModelRoute] with empty OpenAI and
    Anthropic group mappings, and with those the family rules (GPT-4,
    GPT-4o/3.5, GPT-5, Claude series) never apply: the route is the exact
    custom entry when there is one, the built-in mapping otherwise.  Without
    any configured mapping, [mapModel] is the built-in mapping of the model
    name stripped of a leading models/ and trimmed. *)
Theorem family_rules_are_dead (model : string) (customMapping : StringRecord) :
  resolveModelRoute model customMapping [] []
  = default (mapClaudeModelToGemini model) (lookup customMapping model) /\
  ModelRouting.mapModel None None model
  = mapClaudeModelToGemini (Js.trim (normalizeGeminiModel model)).
Proof.
  split; [apply resolveModelRoute_exact|].
  unfold ModelRouting.mapModel, ModelRouting.spread. cbv zeta.
  cbn [default app fold_left List.filter List.find].
  apply resolveModelRoute_builtin.
Qed.

End Routing.

(** Witness of [mapClaudeModelToGemini_idempotent]. *)
Lemma mapClaudeModelToGemini_idempotent_witness :
  ModelMapping.mapClaudeModelToGemini "gpt-4" = ModelMapping.Model "gemini-2.5-flash" /\
  ModelMapping.mapClaudeModelToGemini "gemini-2.5-flash"
  = ModelMapping.Model "gemini-2.5-flash".
Proof.
  split; [reflexivity|].
  exact (mapClaudeModelToGemini_idempotent "gpt-4" "gemini-2.5-flash" eq_refl).
Defined.

Section ModelList.

Import ModelMapping.

Local Abbreviation before := (fun a b : string => String.ltb a b = true).

Lemma leb_ne_ltb (a b : string) : String.leb a b = true -> a <> b -> String.ltb a b = true.
Proof.
  unfold String.leb, String.ltb. destruct (String.compare a b) eqn:E; try easy.
  intros _ H. now apply String.compare_eq_iff in E.
Qed.

Lemma insertSorted_In (x y : string) (l : list string) :
  In y (insertSorted x l) <-> y = x \/ In y l.
Proof.
  induction l as [|z l IH]; cbn; [intuition|].
  destruct (String.leb x z); cbn; [intuition|]. rewrite IH. intuition.
Qed.

Lemma insertSorted_sorted (x : string) (l : list string) :
  Sorted before l -> ~ In x l -> Sorted before (insertSorted x l).
Proof.
  induction l as [|z l IH]; cbn; intros Hs Hx.
  - repeat constructor.
  - destruct (String.leb x z) eqn:E.
    + constructor; [exact Hs|]. constructor. apply leb_ne_ltb; [exact E|]. intuition.
    + apply Sorted_inv in Hs as [Hs Hhd]. constructor; [apply IH; intuition|].
      assert (Hzx : String.ltb z x = true).
      { apply leb_ne_ltb; [|intuition].
        destruct (String.leb_total x z) as [H|H]; [congruence|exact H]. }
      destruct l as [|z' l]; cbn; [now constructor|].
      destruct (String.leb x z'); constructor; [exact Hzx|].
      now apply HdRel_inv in Hhd.
Qed.

Lemma sort_In (x : string) (l : list string) : In x (sort l) <-> In x l.
Proof.
  induction l as [|y l IH]; cbn; [tauto|]. rewrite insertSorted_In, IH. intuition.
Qed.

Lemma sort_sorted (l : list string) : List.NoDup l -> Sorted before (sort l).
Proof.
  induction 1 as [|x l Hx _ IH]; cbn; [constructor|].
  apply insertSorted_sorted; [exact IH|]. now rewrite sort_In.
Qed.

Lemma setAdd_In (x y : string) (l : list string) :
  In y (setAdd x l) <-> y = x \/ In y l.
Proof.
  unfold setAdd. destruct (bool_decide (x ∈ l)) eqn:E.
  - apply bool_decide_eq_true in E. apply list_elem_of_In in E.
    split; [tauto|]. intros [->|H]; assumption.
  - rewrite in_app_iff. cbn. intuition.
Qed.

Lemma NoDup_snoc (x : string) (l : list string) :
  List.NoDup l -> ~ In x l -> List.NoDup (l ++ [x]).
Proof.
  induction 1 as [|y l Hy _ IH]; cbn; intros Hx.
  - constructor; [tauto|constructor].
  - constructor; [|apply IH; tauto].
    rewrite in_app_iff. cbn. intuition.
Qed.

Lemma setAdd_NoDup (x : string) (l : list string) :
  List.NoDup l -> List.NoDup (setAdd x l).
Proof.
  intros H. unfold setAdd. destruct (bool_decide (x ∈ l)) eqn:E; [exact H|].
  apply bool_decide_eq_false in E. rewrite list_elem_of_In in E.
  now apply NoDup_snoc.
Qed.

Lemma addAll_spec (ids acc : list string) :
  let r := fold_left (fun modelIds modelId => setAdd modelId modelIds) ids acc in
  (forall x, In x r <-> In x ids \/ In x acc) /\ (List.NoDup acc -> List.NoDup r).
Proof.
  cbv zeta. revert acc. induction ids as [|i ids IH]; intros acc; cbn.
  - split; [tauto|auto].
  - destruct (IH (setAdd i acc)) as [H1 H2]. split.
    + intros x. rewrite H1, setAdd_In. intuition.
    + intros H. apply H2. now apply setAdd_NoDup.
Qed.

(** X22.  The model list is in strictly ascending order of code units (so
    it has no duplicate), and it holds exactly the keys of the built-in
    mapping, the keys of the custom mapping, the 21 image variants and the
    extra dynamic models. *)
Theorem getAllDynamicModels_sorted_union (customMapping : StringRecord) :
  Sorted before (getAllDynamicModels customMapping) /\
  forall modelId,
    In modelId (getAllDynamicModels customMapping) <->
    In modelId getSupportedModels \/ In modelId (List.map fst customMapping) \/
    In modelId dynamicImageModels \/ In modelId EXTRA_DYNAMIC_MODELS.
Proof.
  unfold getAllDynamicModels. cbv zeta.
  set (add := fun modelIds modelId => setAdd modelId modelIds).
  destruct (addAll_spec getSupportedModels []) as [I1 N1].
  destruct (addAll_spec (List.map fst customMapping) (fold_left add getSupportedModels []))
    as [I2 N2].
  destruct (addAll_spec dynamicImageModels
              (fold_left add (List.map fst customMapping)
                 (fold_left add getSupportedModels []))) as [I3 N3].
  destruct (addAll_spec EXTRA_DYNAMIC_MODELS
              (fold_left add dynamicImageModels
                 (fold_left add (List.map fst customMapping)
                    (fold_left add getSupportedModels [])))) as [I4 N4].
  fold add in I1, N1, I2, N2, I3, N3, I4, N4.
  split.
  - apply sort_sorted. apply N4, N3, N2, N1. constructor.
  - intros x. rewrite sort_In, I4, I3, I2, I1. cbn [In]. tauto.
Qed.

End ModelList.

(** ** Streams handed to the client *)

Section Passthrough.

Import OpenAICompat.

Lemma passthrough_fold (l e : list string) (b : bool) :
  fold_left passthroughData l (mkPassthrough (mkSub e None) b)
  = mkPassthrough (mkSub (e ++ l) None) (b || match l with [] => false | _ => true end).
Proof.
  revert e b. induction l as [|x l IH]; intros e b; cbn [fold_left].
  - now rewrite app_nil_r, orb_false_r.
  - unfold passthroughData at 2. cbn [p_sub next closed emitted].
    rewrite IH, <- app_assoc. cbn. now rewrite orb_true_r.
Qed.

(** X23.  [passthroughSseStream] forwards every chunk of the upstream
    stream, unchanged and in order.  It completes when the stream ends
    after at least one chunk, fails with "Empty response stream" when the
    stream ends without any, and passes an upstream error on after the
    chunks received before it. *)
Theorem passthrough_forwards_everything (upstreamStream : ReadableStream) :
  emitted (passthroughSseStream upstreamStream) = chunks upstreamStream /\
  closed (passthroughSseStream upstreamStream)
  = Some match ending upstreamStream, chunks upstreamStream with
         | End, [] => Errored "Empty response stream"
         | End, _ => Completed
         | Error message, _ => Errored message
         end.
Proof.
  unfold passthroughSseStream. cbv zeta. unfold newSubscriber.
  rewrite passthrough_fold. cbn [app orb].
  destruct (ending upstreamStream); [destruct (chunks upstreamStream)|];
    split; reflexivity.
Qed.

End Passthrough.

Section SyntheticStream.

Import OpenAICompat Json.

Lemma next_fold (frames e : list string) :
  fold_left (fun sub frame => next frame sub) frames (mkSub e None)
  = mkSub (e ++ frames) None.
Proof.
  revert e. induction frames as [|x l IH]; intros e; cbn [fold_left].
  - now rewrite app_nil_r.
  - unfold next at 2. cbn [closed emitted]. now rewrite IH, <- app_assoc.
Qed.

Lemma substring_sliceFrom (i k : nat) (s : string) :
  String.substring i k s +:+ Js.sliceFrom (i + k) s = Js.sliceFrom i s.
Proof.
  revert i k. induction s as [|c s IH]; intros i k.
  - destruct i, k; reflexivity.
  - destruct i as [|i].
    + cbn [Nat.add Js.sliceFrom]. destruct k as [|k]; [reflexivity|].
      cbn [String.substring Js.sliceFrom]. rewrite append_cons. f_equal.
      exact (IH 0 k).
    + cbn [Nat.add String.substring Js.sliceFrom]. apply IH.
Qed.

Lemma sliceFrom_all (i : nat) (s : string) :
  String.length s <= i -> Js.sliceFrom i s = "".
Proof.
  revert i. induction s as [|c s IH]; intros i H; [now destruct i|].
  destruct i as [|i]; cbn in *; [lia|]. apply IH. lia.
Qed.

End SyntheticStream.

Section SyntheticFrames.

Import OpenAICompat Json.

Lemma concat_empty_cons (x : string) (l : list string) :
  String.concat "" (x :: l) = x +:+ String.concat "" l.
Proof.
  destruct l as [|y l]; cbn [String.concat]; [|now rewrite append_nil_l].
  induction x as [|c x IH]; [reflexivity|]. now rewrite append_cons, <- IH.
Qed.

Lemma substring_length (s : string) (i k : nat) :
  String.length (String.substring i k s) = Nat.min k (String.length s - i).
Proof.
  revert i k. induction s as [|c s IH]; intros i k.
  - destruct i, k; reflexivity.
  - destruct i as [|i].
    + destruct k as [|k]; [reflexivity|]. cbn [String.substring String.length].
      rewrite (IH 0 k). lia.
    + cbn [String.substring String.length]. rewrite (IH i k). reflexivity.
Qed.

(** The chunk objects of the loop: every piece but the last is 80 code
    units long and travels with [finish_reason: null] and the zero usage;
    the last one carries what is left, the finish reason and the usage. *)
Lemma loop_chunks (streamId created : json) (model : jsval) (finishReason : json)
    (usage : jsval) (content : string) (fuel index : nat) :
  String.length content - index <= fuel -> index < String.length content ->
  exists earlier final,
    Js.sliceFrom index content = String.concat "" (earlier ++ [final]) /\
    Forall (fun piece => String.length piece = 80) earlier /\
    1 <= String.length final <= 80 /\
    List.map (contentChunk streamId created model finishReason usage content)
             (loopIndices content fuel index)
    = List.map (fun piece =>
                  syntheticChunk streamId created model
                    (JObj [("content", JStr piece)]) JNull (Some zeroUsage)) earlier
      ++ [syntheticChunk streamId created model
            (JObj [("content", JStr final)]) finishReason usage].
Proof.
  revert index. induction fuel as [|fuel IH]; intros index H Hlt; [lia|].
  cbn [loopIndices]. rewrite (proj2 (Nat.ltb_lt _ _) Hlt). cbn [List.map].
  assert (Hlen := substring_length content index chunkSize).
  destruct (Nat.ltb_spec (index + chunkSize) (String.length content)) as [Hn|Hn].
  - destruct (IH (index + chunkSize)) as (earlier & final & Hc & He & Hf & Hm);
      [unfold chunkSize in *; lia|exact Hn|].
    exists (pieceAt content index :: earlier), final.
    split; [|split; [|split; [exact Hf|]]].
    + cbn [app]. rewrite concat_empty_cons, <- Hc. symmetry. apply substring_sliceFrom.
    + constructor; [|exact He]. unfold pieceAt. rewrite Hlen.
      unfold chunkSize in *. lia.
    + rewrite Hm. cbn [List.map app]. f_equal. unfold contentChunk.
      replace (isLastAt content index) with false; [reflexivity|].
      symmetry. unfold isLastAt. now apply Nat.leb_gt.
  - exists [], (pieceAt content index).
    assert (El : loopIndices content fuel (index + chunkSize) = []).
    { destruct fuel; [reflexivity|]. cbn [loopIndices].
      now rewrite (proj2 (Nat.ltb_ge _ _) Hn). }
    rewrite El. cbn [List.map app String.concat].
    split; [|split; [constructor|split]].
    + rewrite <- (substring_sliceFrom index chunkSize content).
      rewrite (sliceFrom_all (index + chunkSize)) by exact Hn.
      unfold pieceAt. generalize (String.substring index chunkSize content).
      intros s. induction s as [|c s IHs]; [reflexivity|]. now rewrite append_cons, IHs.
    + unfold pieceAt. rewrite Hlen. unfold chunkSize in *. lia.
    + unfold contentChunk.
      replace (isLastAt content index) with true; [reflexivity|].
      symmetry. unfold isLastAt. now apply Nat.leb_le.
Qed.

Lemma syntheticChunk_members (streamId created : json) (model : jsval)
    (delta finish_reason : json) (chunkUsage : jsval) :
  let member (name : string) (value : jsval) :=
    match value with Some v => [(name, v)] | None => [] end in
  syntheticChunk streamId created model delta finish_reason chunkUsage
  = JObj ([("id", streamId); ("object", JStr "chat.completion.chunk");
           ("created", created)]
          ++ member "model" model
          ++ [("choices", JArr [JObj [("index", JNum 0); ("delta", delta);
                                      ("finish_reason", finish_reason)]])]
          ++ member "usage" chunkUsage).
Proof. destruct model, chunkUsage; reflexivity. Qed.

Lemma orValue_read (value : jsval) (fallback : json) :
  orValue value fallback
  = match value with
    | Some v => if truthy (Some v) then v else fallback
    | None => fallback
    end.
Proof. now destruct value. Qed.

Lemma syntheticContent_read (response : json) :
  syntheticContent response
  = match optProp "content"
            (optProp "message" (optIndex0 (prop "choices" response))) with
    | Some (JStr s) => s
    | _ => ""
    end.
Proof.
  unfold syntheticContent. cbv zeta.
  destruct (optProp "message" (optIndex0 (prop "choices" response))) as [[| | | | |]|];
    try reflexivity.
  - destruct b; reflexivity.
  - cbn. destruct (n =? 0)%Z; reflexivity.
  - cbn. destruct s; reflexivity.
Qed.

(** X24.  [createSyntheticOpenAIStream] cuts the content of the
    response in pieces of 80 code units (the last one holds what is
    left) and writes one [data:] frame for each, in order, then the
    [DONE] frame, and completes.  Every frame but the last chunk's carries
    [finish_reason: null] and the usage of zeros; the last chunk carries
    the finish reason of the response (stop when it has none) and its
    usage.  A response without text gives one chunk with an empty delta.
    The chunks take [id] and [created] from the response when it has
    them, and its model. *)
Theorem synthetic_stream_delivers_content (uuid : string) (now : Z) (response : json) :
  let lineFeed := String "010"%char EmptyString in
  let choice := optIndex0 (prop "choices" response) in
  let content :=
    match optProp "content" (optProp "message" choice) with
    | Some (JStr s) => s
    | _ => ""
    end in
  let finishReason :=
    match optProp "finish_reason" choice with
    | None | Some JNull => JStr "stop"
    | Some reason => reason
    end in
  let orElse (value : jsval) (fallback : json) :=
    match value with
    | Some v => if truthy (Some v) then v else fallback
    | None => fallback
    end in
  let member (name : string) (value : jsval) :=
    match value with Some v => [(name, v)] | None => [] end in
  let frame (delta finish_reason : json) (usage : jsval) :=
    "data: "
    +:+ stringify
          (JObj ([("id", orElse (prop "id" response) (JStr ("chatcmpl-" +:+ uuid)));
                  ("object", JStr "chat.completion.chunk");
                  ("created", orElse (prop "created" response) (JNum (now / 1000)))]
                 ++ member "model" (prop "model" response)
                 ++ [("choices", JArr [JObj [("index", JNum 0); ("delta", delta);
                                             ("finish_reason", finish_reason)]])]
                 ++ member "usage" usage))
    +:+ lineFeed +:+ lineFeed in
  let zeros :=
    JObj [("prompt_tokens", JNum 0); ("completion_tokens", JNum 0);
          ("total_tokens", JNum 0)] in
  let sentinel := "data: [DONE]" +:+ lineFeed +:+ lineFeed in
  let sub := createSyntheticOpenAIStream uuid now response in
  closed sub = Some Completed /\
  (content = "" ->
   emitted sub = [frame (JObj []) finishReason (prop "usage" response); sentinel]) /\
  (content <> "" ->
   exists earlier final,
     String.concat "" (earlier ++ [final]) = content /\
     Forall (fun piece => String.length piece = 80) earlier /\
     1 <= String.length final <= 80 /\
     emitted sub
     = List.map (fun piece => frame (JObj [("content", JStr piece)]) JNull (Some zeros))
                earlier
       ++ [frame (JObj [("content", JStr final)]) finishReason (prop "usage" response);
           sentinel]).
Proof.
  cbv zeta. rewrite <- syntheticContent_read.
  assert (Hf : match optProp "finish_reason" (optIndex0 (prop "choices" response)) with
               | None | Some JNull => JStr "stop"
               | Some reason => reason
               end = syntheticFinishReason response).
  { unfold syntheticFinishReason. cbv zeta.
    destruct (optProp "finish_reason" (optIndex0 (prop "choices" response)))
      as [[| | | | |]|]; reflexivity. }
  rewrite Hf. clear Hf.
  assert (He : emitted (createSyntheticOpenAIStream uuid now response)
               = List.map sseFrame (syntheticPayloads uuid now response) ++ [doneFrame]).
  { unfold createSyntheticOpenAIStream, newSubscriber. now rewrite next_fold. }
  rewrite He. clear He.
  split; [|split].
  - unfold createSyntheticOpenAIStream, newSubscriber. now rewrite next_fold.
  - intros Ec. unfold syntheticPayloads. cbv zeta. rewrite Ec.
    cbn [List.map app]. rewrite syntheticChunk_members.
    rewrite !orValue_read. reflexivity.
  - intros Ec. unfold syntheticPayloads. cbv zeta.
    destruct (syntheticContent response) as [|c content'] eqn:Econtent; [congruence|].
    set (content := String c content') in *.
    destruct (loop_chunks
                (orValue (prop "id" response) (JStr ("chatcmpl-" +:+ uuid)))
                (orValue (prop "created" response) (JNum (now / 1000)))
                (prop "model" response) (syntheticFinishReason response)
                (prop "usage" response) content (String.length content) 0)
      as (earlier & final & Hc & Hl & Hfin & Hm); [lia|subst content; cbn; lia|].
    exists earlier, final. split; [now rewrite <- Hc|]. split; [exact Hl|].
    split; [exact Hfin|].
    rewrite Hm, map_app, map_map, <- app_assoc. cbn [List.map app]. f_equal.
    + apply map_ext. intros piece. rewrite syntheticChunk_members, !orValue_read.
      reflexivity.
    + rewrite syntheticChunk_members, !orValue_read. reflexivity.
Qed.

End SyntheticFrames.

Section ClaudeToOpenAI.

Import OpenAICompat Json.

Lemma joinedBlocks_text (blocks : list ClaudeBlocks.Block) :
  joinedBlocks "text" "text" (List.map ClaudeBlocks.blockJson blocks)
  = String.concat "" (List.map ClaudeBlocks.textOf blocks).
Proof.
  unfold joinedBlocks. induction blocks as [|block blocks IH]; [reflexivity|].
  cbn [List.map]. rewrite (concat_empty_cons (ClaudeBlocks.textOf block)).
  destruct block as [text| |]; cbn [ClaudeBlocks.blockJson ClaudeBlocks.textOf].
  - change (List.filter _ (?b :: ?l)) with (b :: List.filter (hasType "text") l).
    cbn [List.map]. rewrite concat_empty_cons, IH. f_equal.
    cbn. now destruct text.
  - change (List.filter _ (?b :: ?l)) with (List.filter (hasType "text") l).
    now rewrite IH, append_nil_l.
  - change (List.filter _ (?b :: ?l)) with (List.filter (hasType "text") l).
    now rewrite IH, append_nil_l.
Qed.

Lemma roundDouble_safe (z : Z) : (Z.abs z < 2 ^ 53)%Z -> Js.roundDouble z = z.
Proof. intros H. unfold Js.roundDouble. apply Z.ltb_lt in H. now rewrite H. Qed.

(** X25.  From a Claude response whose content is a list of text, thinking
    and tool-use blocks to the OpenAI response, and on to the synthetic
    stream of the stream fallback: the message content that is streamed is
    the texts of the text blocks put end to end; the model is the one the
    client asked for; the finish reason is stop, length or tool_calls for
    the stop reasons end_turn, max_tokens and tool_use, the stop reason
    itself for any other non-empty text, and stop when there is none; and
    [total_tokens] is the sum of the two token counts, rounded to a number:
    the sum itself when it is below 2^53. *)
Theorem claude_text_reaches_openai (uuid : string) (now : Z) (claudeResponse : json)
  (model : string) (blocks : list ClaudeBlocks.Block) :
  prop "content" claudeResponse = Some (JArr (List.map ClaudeBlocks.blockJson blocks)) ->
  exists response,
    convertClaudeToOpenAIResponse uuid now (Some claudeResponse) model = Some response /\
    prop "model" response = Some (JStr model) /\
    syntheticContent response = String.concat "" (List.map ClaudeBlocks.textOf blocks) /\
    (forall reason,
       prop "stop_reason" claudeResponse = Some (JStr reason) -> reason <> "" ->
       syntheticFinishReason response
       = JStr (if String.eqb reason "end_turn" then "stop"
               else if String.eqb reason "max_tokens" then "length"
               else if String.eqb reason "tool_use" then "tool_calls"
               else reason)) /\
    (prop "stop_reason" claudeResponse = None \/
     prop "stop_reason" claudeResponse = Some JNull ->
     syntheticFinishReason response = JStr "stop") /\
    forall input_tokens output_tokens,
      optProp "input_tokens" (prop "usage" claudeResponse) = Some (JNum input_tokens) ->
      optProp "output_tokens" (prop "usage" claudeResponse) = Some (JNum output_tokens) ->
      optProp "total_tokens" (prop "usage" response)
      = Some (JNum (Js.roundDouble (input_tokens + output_tokens))) /\
      ((Z.abs (input_tokens + output_tokens) < 2 ^ 53)%Z ->
       optProp "total_tokens" (prop "usage" response)
       = Some (JNum (input_tokens + output_tokens))).
Proof.
  intros Hcontent.
  assert (Hnn : claudeResponse <> JNull) by (intros ->; discriminate Hcontent).
  assert (Es : strictProp "stop_reason" (Some claudeResponse)
               = Some (prop "stop_reason" claudeResponse))
    by (destruct claudeResponse; try reflexivity; contradiction).
  assert (Ec : optProp "content" (Some claudeResponse) = prop "content" claudeResponse)
    by (destruct claudeResponse; try reflexivity; contradiction).
  assert (Eu : optProp "usage" (Some claudeResponse) = prop "usage" claudeResponse)
    by (destruct claudeResponse; try reflexivity; contradiction).
  unfold convertClaudeToOpenAIResponse. rewrite Es, Ec, Eu, Hcontent. cbv zeta.
  cbn [mbind option_bind]. rewrite joinedBlocks_text.
  set (text := String.concat "" _).
  set (reasoning := joinedBlocks "thinking" "thinking" _).
  set (calls := toolCallsOf _).
  eexists. split; [reflexivity|]. split; [reflexivity|].
  split; [|split; [|split]].
  - unfold syntheticContent. destruct calls, (Js.truthy reasoning), text; reflexivity.
  - intros reason -> Hreason. unfold syntheticFinishReason.
    assert (Ht : Js.truthy reason = true) by (now destruct reason).
    unfold mapAnthropicStopReasonToOpenAIFinishReason, isString.
    cbn [truthy negb]. rewrite Ht. cbn [negb].
    destruct (String.eqb reason "end_turn"), (String.eqb reason "max_tokens"),
      (String.eqb reason "tool_use"), calls, (Js.truthy reasoning), (Js.truthy text);
      reflexivity.
  - intros Hstop. unfold syntheticFinishReason.
    destruct Hstop as [-> | ->];
      destruct calls, (Js.truthy reasoning), (Js.truthy text); reflexivity.
  - intros i o Hi Ho. rewrite Hi, Ho.
    assert (E : optProp "total_tokens"
                  (prop "usage"
                     (obj
                        [("id", Some (JStr ("chatcmpl-" +:+ uuid)));
                         ("object", Some (JStr "chat.completion"));
                         ("created", Some (JNum (now / 1000)));
                         ("model", Some (JStr model));
                         ("choices",
                          Some (JArr
                            [obj [("index", Some (JNum 0));
                                  ("message",
                                   Some (obj
                                     [("role", Some (JStr "assistant"));
                                      ("content",
                                       Some (if Js.truthy text then JStr text else JNull));
                                      ("tool_calls",
                                       match calls with
                                       | [] => None
                                       | _ => Some (JArr calls)
                                       end);
                                      ("reasoning_content",
                                       if Js.truthy reasoning then Some (JStr reasoning)
                                       else None)]));
                                  ("finish_reason",
                                   Some (mapAnthropicStopReasonToOpenAIFinishReason
                                           (prop "stop_reason" claudeResponse)))]]));
                         ("usage",
                          Some (JObj [("prompt_tokens", orValue (Some (JNum i)) (JNum 0));
                                      ("completion_tokens",
                                       orValue (Some (JNum o)) (JNum 0));
                                      ("total_tokens",
                                       add (orValue (Some (JNum i)) (JNum 0))
                                           (orValue (Some (JNum o)) (JNum 0)))]))]))
                = Some (JNum (Js.roundDouble (i + o)))).
    { cbn [obj omap fst snd prop optProp Js.mapGet String.eqb Ascii.eqb Bool.eqb].
      unfold orValue. cbn [truthy].
      destruct (i =? 0)%Z eqn:Ei, (o =? 0)%Z eqn:Eo; cbn [negb add toNumber];
        rewrite ?Z.eqb_eq in *; subst; repeat f_equal; lia. }
    split; [exact E|]. intros Hsafe. rewrite E. now rewrite roundDouble_safe.
Qed.

End ClaudeToOpenAI.

(** Witness of [claude_text_reaches_openai]: a thinking block and two
    text blocks, 3 and 4 tokens. *)
Lemma claude_text_reaches_openai_witness :
  exists response,
    OpenAICompat.convertClaudeToOpenAIResponse "u1" 1700000000000
      (Some Scenarios.claudeHello) "gpt-4o" = Some response /\
    OpenAICompat.syntheticContent response = "Hello, world" /\
    OpenAICompat.syntheticFinishReason response = Json.JStr "stop" /\
    Json.optProp "total_tokens" (Json.prop "usage" response) = Some (Json.JNum 7).
Proof.
  destruct (claude_text_reaches_openai "u1" 1700000000000 Scenarios.claudeHello
              "gpt-4o"
              [ClaudeBlocks.Thinking "hm"; ClaudeBlocks.Text "Hello, ";
               ClaudeBlocks.Text "world"] eq_refl)
    as (response & H1 & _ & H3 & H4 & _ & H6).
  exists response. split; [exact H1|]. split; [exact H3|].
  split; [exact (H4 "end_turn" eq_refl ltac:(discriminate))|].
  exact (proj2 (H6 3%Z 4%Z eq_refl eq_refl) ltac:(reflexivity)).
Defined.

(** ** OpenAI requests *)

Section ToolArguments.

Import OpenAICompat OpenAIRequests Json.

Variable JSON_parse : string -> option json.

Lemma stringify_object_not_blank (fields : list (string * json)) :
  Js.truthy (stringify (JObj fields)) = true /\
  Js.truthy (Js.trim (stringify (JObj fields))) = true.
Proof.
  cbn [stringify]. change "{" with (String "{"%char ""). rewrite append_cons.
  split; [reflexivity|]. unfold Js.trim. cbn [Js.trimStart].
  change (Js.isSpace "{"%char) with false. cbv iota.
  destruct (trimEnd_head "{"%char ("" +:+ joinWith ","
              (List.map (fun kv => quoted kv.1 +:+ ":" +:+ stringify kv.2) fields) +:+ "}")
              eq_refl) as [r' E].
  now rewrite E.
Qed.

(** X26.  The input of a tool-use block is always a record: the parsed
    arguments when they are one, an empty record for blank arguments, and
    a record wrapping the value or the raw text otherwise.  Arguments that
    are the serialisation of a record, as [normalizeToolCallArguments]
    writes them into a tool call, are read back as that record. *)
Theorem tool_arguments_round_trip (argumentsString : string)
  (fields : list (string * json)) :
  isRecord (parseOpenAIFunctionArguments JSON_parse argumentsString) = true /\
  (Js.trim argumentsString = "" ->
   parseOpenAIFunctionArguments JSON_parse argumentsString = JObj []) /\
  (JSON_parse (stringify (JObj fields)) = Some (JObj fields) ->
   parseOpenAIFunctionArguments JSON_parse
     (normalizeToolCallArguments (Some (JObj fields)))
   = JObj fields).
Proof.
  split; [|split].
  - unfold parseOpenAIFunctionArguments. destruct (_ || _); [reflexivity|].
    destruct (JSON_parse argumentsString) as [parsed|]; [|reflexivity].
    destruct (isRecord parsed) eqn:E; [exact E|reflexivity].
  - intros H. unfold parseOpenAIFunctionArguments. rewrite H. cbn.
    now rewrite orb_true_r.
  - intros H. unfold parseOpenAIFunctionArguments.
    cbn [normalizeToolCallArguments].
    destruct (stringify_object_not_blank fields) as [-> ->]. cbn [negb orb].
    now rewrite H.
Qed.

End ToolArguments.

Section DataUris.

Import OpenAICompat OpenAIRequests Json.

Lemma prefix_sliceFrom (p s : string) :
  String.prefix p s = true -> s = p +:+ Js.sliceFrom (String.length p) s.
Proof.
  revert s. induction p as [|c p IH]; intros s H; [reflexivity|].
  destruct s as [|d s]; [discriminate|]. cbn [String.prefix] in H.
  destruct (ascii_dec c d) as [->|]; [|discriminate].
  rewrite append_cons. cbn [String.length Js.sliceFrom]. f_equal. now apply IH.
Qed.

Lemma untilSemicolon_parts (s a b : string) :
  untilSemicolon s = (a, b) ->
  s = a +:+ b /\ ~ In ";"%char (list_ascii_of_string a) /\
  (b = "" \/ String.prefix ";" b = true).
Proof.
  revert a b. induction s as [|c s IH]; intros a b H; cbn [untilSemicolon] in H.
  - injection H as <- <-. split; [reflexivity|]. split; [intros []|now left].
  - destruct (Ascii.eqb_spec c ";"%char) as [->|Hc].
    + injection H as <- <-. split; [reflexivity|]. split; [intros []|right].
      cbn. now destruct s.
    + destruct (untilSemicolon s) as [a' b'] eqn:E. injection H as <- <-.
      destruct (IH a' b' eq_refl) as (-> & Hn & Hb).
      split; [reflexivity|]. split; [|exact Hb].
      cbn [list_ascii_of_string]. intros [Hin|Hin]; [now apply Hc|now apply Hn].
Qed.

Lemma untilSemicolon_app (mime rest : string) :
  ~ In ";"%char (list_ascii_of_string mime) ->
  untilSemicolon (mime +:+ ";" +:+ rest) = (mime, ";" +:+ rest).
Proof.
  induction mime as [|c mime IH]; intros H.
  - rewrite append_nil_l. change ";" with (String ";"%char ""). rewrite append_cons.
    reflexivity.
  - rewrite append_cons. cbn [untilSemicolon].
    destruct (Ascii.eqb_spec c ";"%char) as [->|_]; [exfalso; apply H; now left|].
    rewrite IH; [reflexivity|]. intros Hin. apply H. now right.
Qed.

Lemma noLineTerminator_chars (s : string) :
  noLineTerminator s = true <->
  ~ In "010"%char (list_ascii_of_string s) /\ ~ In "013"%char (list_ascii_of_string s).
Proof.
  induction s as [|c s IH]; cbn [noLineTerminator list_ascii_of_string].
  - split; [intros _; split; intros []|reflexivity].
  - unfold ModelRouting.isLineTerminator. cbv zeta.
    assert (E : forall d : ascii,
               Nat.eqb (nat_of_ascii c) (nat_of_ascii d) = Ascii.eqb c d).
    { intros d. destruct (Ascii.eqb_spec c d) as [->|Hn]; [apply Nat.eqb_refl|].
      apply Nat.eqb_neq. intros E. apply Hn.
      now rewrite <- (ascii_nat_embedding c), <- (ascii_nat_embedding d), E. }
    rewrite (E "010"%char : Nat.eqb _ 10 = _), (E "013"%char : Nat.eqb _ 13 = _).
    destruct (Ascii.eqb_spec c "010"%char) as [->|H10]; cbn [orb negb andb].
    { split; [discriminate|]. intros [H _]. exfalso. apply H. now left. }
    destruct (Ascii.eqb_spec c "013"%char) as [->|H13]; cbn [orb negb andb].
    { split; [discriminate|]. intros [_ H]. exfalso. apply H. now left. }
    rewrite IH. cbn [In]. tauto.
Qed.

(** [matchDataUri] finds the groups of a base64 data URI, and of nothing
    else. *)
Lemma matchDataUri_groups (url mime data : string) :
  matchDataUri url = Some (mime, data) <->
  url = "data:" +:+ mime +:+ ";base64," +:+ data /\
  mime <> "" /\ ~ In ";"%char (list_ascii_of_string mime) /\
  data <> "" /\
  ~ In "010"%char (list_ascii_of_string data) /\
  ~ In "013"%char (list_ascii_of_string data).
Proof.
  split.
  - unfold matchDataUri, Js.startsWith.
    destruct (String.prefix "data:" url) eqn:Hp; [|discriminate].
    apply prefix_sliceFrom in Hp. change (String.length "data:") with 5 in Hp.
    destruct (untilSemicolon (Js.sliceFrom 5 url)) as [a b] eqn:Eu.
    apply untilSemicolon_parts in Eu as (Es & Hn & _).
    destruct (Js.truthy a) eqn:Ta; [|discriminate].
    destruct (String.prefix ";base64," b) eqn:Hb; [|discriminate]. cbn [andb].
    apply prefix_sliceFrom in Hb. change (String.length ";base64,") with 8 in Hb.
    remember (Js.sliceFrom 8 b) as d eqn:Ed. clear Ed.
    destruct (Js.truthy d) eqn:Td; [|discriminate].
    destruct (noLineTerminator d) eqn:Hl; [|discriminate].
    cbn [andb]. intros H. injection H as <- <-.
    apply noLineTerminator_chars in Hl as [H10 H13].
    split; [rewrite Hp, Es, Hb; reflexivity|].
    split; [now destruct a|]. split; [exact Hn|].
    split; [now destruct d|]. now split.
  - intros (-> & Hm & Hs & Hd & H10 & H13). unfold matchDataUri, Js.startsWith.
    rewrite prefix_app.
    change 8 with (String.length ";base64,").
    change 5 with (String.length "data:"). rewrite sliceFrom_app.
    change (mime +:+ ";base64," +:+ data) with (mime +:+ ";" +:+ ("base64," +:+ data)).
    rewrite (untilSemicolon_app _ _ Hs).
    assert (Tm : Js.truthy mime = true) by now destruct mime.
    assert (Td : Js.truthy data = true) by now destruct data.
    rewrite Tm.
    change (";" +:+ "base64," +:+ data) with (";base64," +:+ data).
    rewrite prefix_app, sliceFrom_app. cbn [andb]. rewrite Td.
    now rewrite (proj2 (noLineTerminator_chars data) (conj H10 H13)).
Qed.

(** X27.  An image part with a non-empty URL becomes an image block
    exactly when the URL is a base64 data URI, that is [data:], a
    non-empty media type without semicolon, [;base64,] and non-empty data
    without line feed or carriage return; the block carries that media
    type and that data.  Every other non-empty URL, a [data:] URL that is
    not base64 included, becomes a text block that quotes the URL. *)
Theorem image_parts_are_decoded (url text : string) :
  let base64DataUri (mime data : string) :=
    url = "data:" +:+ mime +:+ ";base64," +:+ data /\
    mime <> "" /\ ~ In ";"%char (list_ascii_of_string mime) /\
    data <> "" /\
    ~ In "010"%char (list_ascii_of_string data) /\
    ~ In "013"%char (list_ascii_of_string data) in
  let converted := convertPart (mkPart "image_url" (Some text) (Some url)) in
  url <> "" ->
  (forall mime data,
     base64DataUri mime data ->
     converted = [JObj [("type", JStr "image");
                        ("source", JObj [("type", JStr "base64");
                                         ("media_type", JStr mime);
                                         ("data", JStr data)])]]) /\
  ((forall mime data, ~ base64DataUri mime data) ->
   converted = [JObj [("type", JStr "text"); ("text", JStr ("[image_url] " +:+ url))]]).
Proof.
  cbv zeta. intros Hu.
  assert (E : convertPart (mkPart "image_url" (Some text) (Some url))
              = match matchDataUri url with
                | Some (mime, data) =>
                    [JObj [("type", JStr "image");
                           ("source", JObj [("type", JStr "base64");
                                            ("media_type", JStr mime);
                                            ("data", JStr data)])]]
                | None => [textBlock ("[image_url] " +:+ url)]
                end).
  { unfold convertPart.
    cbn [part_type part_text part_image_url orEmpty default from_option id]. unfold id.
    change (String.eqb "image_url" "text") with false.
    change (String.eqb "image_url" "image_url") with true. cbn [andb].
    assert (Tu : Js.truthy url = true) by now destruct url.
    now rewrite Tu. }
  rewrite E. split.
  - intros mime data H. now rewrite (proj2 (matchDataUri_groups url mime data) H).
  - intros H. destruct (matchDataUri url) as [[mime data]|] eqn:Em; [|reflexivity].
    exfalso. exact (H mime data (proj1 (matchDataUri_groups url mime data) Em)).
Qed.

End DataUris.

(** Witness of [image_parts_are_decoded]: a PNG data URI, and a [data:]
    URL that is not base64. *)
Lemma image_parts_are_decoded_witness :
  OpenAIRequests.convertPart
    (OpenAIRequests.mkPart "image_url" None (Some "data:image/png;base64,iVBORw0KGgo="))
  = [Json.JObj [("type", Json.JStr "image");
                ("source", Json.JObj [("type", Json.JStr "base64");
                                      ("media_type", Json.JStr "image/png");
                                      ("data", Json.JStr "iVBORw0KGgo=")])]] /\
  OpenAIRequests.convertPart
    (OpenAIRequests.mkPart "image_url" None (Some "data:text/plain,hello"))
  = [Json.JObj [("type", Json.JStr "text");
                ("text", Json.JStr "[image_url] data:text/plain,hello")]].
Proof.
  split.
  - refine (proj1 (image_parts_are_decoded "data:image/png;base64,iVBORw0KGgo=" ""
                     ltac:(discriminate)) "image/png" "iVBORw0KGgo=" _).
    split; [reflexivity|]. split; [discriminate|].
    repeat split; try discriminate; cbn; intuition discriminate.
  - refine (proj2 (image_parts_are_decoded "data:text/plain,hello" ""
                     ltac:(discriminate)) _).
    intros mime data (E & _). 
    assert (Hin : In ";"%char (list_ascii_of_string "data:text/plain,hello")).
    { rewrite E. change "data:" with (String "d" (String "a" (String "t" (String "a" (String ":" "")))))%string.
      rewrite !append_cons, append_nil_l. do 5 right.
      clear E. induction mime as [|c mime IH]; [now left|right; exact IH]. }
    cbn in Hin. intuition discriminate.
Defined.

Section OpenAIToClaude.

Import OpenAICompat OpenAIRequests Json.

Variable JSON_parse : string -> option json.
Variable uuidv4 : nat -> string.

Local Abbreviation convertMessage := (convertMessage JSON_parse uuidv4).
Local Abbreviation convertMessages := (convertMessages JSON_parse uuidv4).
Local Abbreviation convertOpenAIToClaude := (convertOpenAIToClaude JSON_parse uuidv4).

Local Abbreviation notSystem :=
  (fun msg : OpenAIMessage => negb (String.eqb (role msg) "system")).
Local Abbreviation userOrAssistant :=
  (fun m : json => prop "role" m = Some (JStr "user") \/
                   prop "role" m = Some (JStr "assistant")).

(** Reading a member of an object literal whose keys are distinct. *)
Lemma prop_obj (members : list (string * jsval)) (k : string) (v : jsval) :
  List.NoDup (List.map fst members) -> In (k, v) members ->
  prop k (obj members) = v.
Proof.
  unfold obj. cbn [prop].
  induction members as [|[k0 v0] members IH]; cbn [List.map fst]; intros Hnd Hin;
    [destruct Hin|].
  apply List.NoDup_cons_iff in Hnd as [Hk0 Hnd]. cbn [omap fst snd].
  destruct Hin as [E|Hin].
  - injection E as -> ->. destruct v as [x|]; cbn.
    + now rewrite String.eqb_refl.
    + clear IH Hnd. induction members as [|[k1 v1] members IH]; [reflexivity|].
      cbn [List.map fst omap snd] in *.
      assert (Hk : ~ In k (List.map fst members)) by (intros Hc; apply Hk0; now right).
      destruct v1; cbn.
      * destruct (String.eqb_spec k1 k) as [->|_]; [exfalso; apply Hk0; now left|].
        now apply IH.
      * now apply IH.
  - assert (k0 <> k).
    { intros ->. apply Hk0. now apply (in_map fst) in Hin. }
    destruct v0; cbn; [|now apply IH].
    destruct (String.eqb_spec k0 k); [contradiction|]. now apply IH.
Qed.

Lemma convertMessage_spec (acc : Converted) (msg : OpenAIMessage) :
  match convertMessage acc msg with
  | Some acc' =>
      is_Some (content msg) /\
      exists new,
        anthropicMessages acc' = anthropicMessages acc ++ new /\
        length new = (if notSystem msg then 1 else 0) /\
        Forall userOrAssistant new
  | None => content msg = None
  end.
Proof.
  unfold OpenAIRequests.convertMessage.
  destruct (String.eqb (role msg) "system") eqn:Es.
  - destruct (content msg) as [[]|]; cbn; try reflexivity;
      (split; [eauto|]; exists []; rewrite app_nil_r; repeat split; constructor).
  - destruct (String.eqb (role msg) "tool") eqn:Et.
    + destruct (content msg) as [[]|]; cbn -[extractOpenAITextContent]; try reflexivity.
      all: destruct (Js.truthy (orEmpty (tool_call_id msg)));
        [|destruct (Js.truthy (orEmpty (name msg)))].
      all: cbn; (split; [eauto|]); eexists [_]; repeat split;
        repeat constructor.
    + destruct (content msg) as [[]|]; cbn -[convertOpenAIPartsToAnthropicContent];
        try reflexivity.
      all: (split; [eauto|]); eexists [_]; repeat split.
      all: constructor; [|constructor].
      all: destruct (String.eqb (role msg) "assistant"); cbn; auto.
Qed.

Lemma convertMessages_spec (msgs : list OpenAIMessage) (acc : Converted) :
  match convertMessages msgs acc with
  | Some acc' =>
      Forall (fun msg => is_Some (content msg)) msgs /\
      exists new,
        anthropicMessages acc' = anthropicMessages acc ++ new /\
        length new = length (List.filter notSystem msgs) /\
        Forall userOrAssistant new
  | None => ~ Forall (fun msg => is_Some (content msg)) msgs
  end.
Proof.
  revert acc. induction msgs as [|msg msgs IH]; intros acc; cbn [OpenAIRequests.convertMessages].
  - split; [constructor|]. exists []. rewrite app_nil_r. repeat split. constructor.
  - pose proof (convertMessage_spec acc msg) as Hm.
    destruct (convertMessage acc msg) as [acc1|]; cbn [mbind option_bind].
    + destruct Hm as (Hc & new1 & E1 & L1 & F1).
      specialize (IH acc1). destruct (convertMessages msgs acc1) as [acc2|].
      * destruct IH as (Hcs & new2 & E2 & L2 & F2).
        split; [now constructor|]. exists (new1 ++ new2).
        rewrite E2, E1, <- app_assoc. split; [reflexivity|].
        split; [|now apply List.Forall_app].
        rewrite length_app, L1, L2. cbn [List.filter].
        now destruct (notSystem msg).
      * intros H. apply IH. now apply List.Forall_cons_iff in H as [_ H].
    + intros H. apply List.Forall_cons_iff in H as [[c H] _]. congruence.
Qed.

(** X28.  [convertOpenAIToClaude] succeeds exactly when every message has
    a content: a message whose content is [null] or missing (an assistant
    message that only carries tool calls, say) makes it throw.  When it
    succeeds, the system messages are lifted out of the conversation: the
    Claude request has one message for each message that is not a system
    message, each with role user or assistant, the model of the request,
    and [metadata.source] equal to openai whatever [extra] said. *)
Theorem openai_messages_conversion (request : OpenAIChatRequest) :
  let msgs := default [] (messages request) in
  (is_Some (convertOpenAIToClaude request) <->
   Forall (fun msg => is_Some (content msg)) msgs) /\
  forall claude,
    convertOpenAIToClaude request = Some claude ->
    exists converted,
      prop "messages" claude = Some (JArr converted) /\
      length converted = length (List.filter notSystem msgs) /\
      Forall userOrAssistant converted /\
      optProp "source" (prop "metadata" claude) = Some (JStr "openai") /\
      prop "model" claude = Some (JStr (model request)).
Proof.
  cbv zeta. unfold OpenAIRequests.convertOpenAIToClaude.
  pose proof (convertMessages_spec (default [] (messages request)) (mkConverted [] [] 0))
    as H.
  destruct (convertMessages _ _) as [converted|]; cbn [mbind option_bind].
  - destruct H as (Hc & new & E & L & F). cbn [anthropicMessages app] in E.
    split; [split; eauto|].
    intros claude Hcl. injection Hcl as <-. exists new. rewrite <- E.
    assert (Hnd : List.NoDup (List.map fst
              [("model", Some (JStr (model request)));
               ("messages", Some (JArr (anthropicMessages converted)));
               ("system", @None json); ("tools", @None json); ("max_tokens", @None json);
               ("temperature", @None json); ("top_p", @None json); ("stream", @None json);
               ("metadata", @None json)])).
    { apply NoDup_ListNoDup. apply (bool_decide_unpack _). vm_compute. exact I. }
    split; [apply prop_obj; [exact Hnd|cbn; auto]|].
    split; [now rewrite E|]. split; [now rewrite E|]. split.
    + erewrite prop_obj; [|exact Hnd|cbn; auto 10].
      cbn [optProp prop]. apply mapGet_mapSet.
    + apply prop_obj; [exact Hnd|cbn; auto].
  - split; [|discriminate]. split; [intros [? ?]; discriminate|]. intros Hf. contradiction.
Qed.

End OpenAIToClaude.

(** ** The end of an OpenAI stream *)

Section StreamTermination.

Import StreamStates.

Variable JSON_parse : string -> option Json.json.
Variable uuidv4 : nat -> string.
Variable streamId : string.
Variable created : Z.
Variable model : string.

Local Abbreviation processPart := (processPart uuidv4 streamId created model).
Local Abbreviation processParts := (processParts uuidv4 streamId created model).
Local Abbreviation processFrame := (processFrame uuidv4 streamId created model).
Local Abbreviation processLine := (processLine JSON_parse uuidv4 streamId created model).
Local Abbreviation onData := (onData JSON_parse uuidv4 streamId created model).
Local Abbreviation onEnd := (onEnd streamId created model).
Local Abbreviation chunkPayload := (chunkPayload streamId created model).

Lemma chunk_frame_not_done (delta : Json.json) (finish_reason : option string) :
  sseFrame (chunkPayload delta finish_reason) <> doneFrame.
Proof.
  unfold sseFrame, doneFrame, ProxyService.chunkPayload.
  cbn [Json.stringify]. rewrite !append_cons. discriminate.
Qed.

Lemma wellFormed_fields (st : OpenAIStreamState) (b : string) (u : nat) :
  wellFormed st ->
  wellFormed (mkOS b (o_sub st) (hasEmittedChunk st) (hasSentDone st) u).
Proof. intros [H|H]; [left|right]; exact H. Qed.

Lemma pushChunk_wellFormed (delta : Json.json) (finish_reason : option string)
    (st : OpenAIStreamState) :
  wellFormed st -> wellFormed (pushChunk (chunkPayload delta finish_reason) st).
Proof.
  intros [(Hc & Hd & He & Hn)|(Hd & Hc & Ht)].
  - left. unfold streaming, pushChunk, next. cbn [o_sub hasSentDone hasEmittedChunk].
    rewrite Hc. cbn [closed emitted]. repeat split; try assumption; try discriminate.
    + intros H. now destruct (emitted (o_sub st)).
    + rewrite in_app_iff. intros [H|[H|[]]]; [now apply Hn|].
      now apply chunk_frame_not_done in H.
  - right. unfold finished, pushChunk, next. cbn [o_sub hasSentDone].
    rewrite Hc. split; [exact Hd|]. split; assumption.
Qed.

Lemma processPart_wellFormed (part : Json.json) (st st' : OpenAIStreamState) :
  wellFormed st -> processPart part st = Some st' -> wellFormed st'.
Proof.
  intros Hs H. unfold ProxyService.processPart in H.
  repeat case_match; try discriminate; injection H as <-;
    try exact Hs; apply pushChunk_wellFormed; try exact Hs;
    now apply wellFormed_fields.
Qed.

Lemma processParts_wellFormed (parts : list Json.json) (st : OpenAIStreamState) :
  wellFormed st -> wellFormed (processParts parts st).1.
Proof.
  revert st. induction parts as [|part parts IH]; intros st Hs; [exact Hs|].
  cbn [ProxyService.processParts].
  destruct (processPart part st) as [st'|] eqn:E; [|exact Hs].
  apply IH. now apply (processPart_wellFormed part st).
Qed.

(** Closing an open stream that has emitted something: the [[DONE]] frame,
    then completion. *)
Lemma close_finished (st : OpenAIStreamState) (b : string) (e : bool) (u : nat) :
  wellFormed st -> hasEmittedChunk st = true ->
  finished (mkOS b (complete (next doneFrame (o_sub st))) e true u).
Proof.
  intros [(Hc & Hd & He & Hn)|(Hd & Hc & Ht)] Hem.
  - split; [reflexivity|]. cbn [o_sub]. unfold next, complete. rewrite Hc.
    cbn [closed emitted]. split; [reflexivity|].
    exists (emitted (o_sub st)). repeat split; [|exact Hn].
    intros H. apply He in H. congruence.
  - split; [reflexivity|]. cbn [o_sub]. unfold next, complete. rewrite Hc.
    rewrite Hc. split; assumption.
Qed.

Lemma processFrame_wellFormed (frame : Json.json) (st : OpenAIStreamState) :
  wellFormed st -> wellFormed (processFrame frame st).
Proof.
  intros Hs. unfold ProxyService.processFrame.
  destruct (Json.strictProp _ _); [|exact Hs].
  destruct (iterate _) as [ps|]; [|exact Hs].
  pose proof (processParts_wellFormed ps st Hs) as Hp.
  destruct (processParts ps st) as [st1 threw]. cbn [fst] in Hp.
  destruct threw; [exact Hp|].
  repeat case_match; try exact Hp.
  right. apply close_finished; [|reflexivity].
  now apply pushChunk_wellFormed.
Qed.

Lemma processLine_wellFormed (st : OpenAIStreamState) (line : string) :
  wellFormed st -> wellFormed (processLine st line).
Proof.
  intros Hs. unfold ProxyService.processLine.
  destruct (frameOfLine _ _); [now apply processFrame_wellFormed | exact Hs].
Qed.

Lemma onData_wellFormed (st : OpenAIStreamState) (chunk : string) :
  wellFormed st -> wellFormed (onData st chunk).
Proof.
  intros Hs. unfold ProxyService.onData.
  destruct (splitBuffer _) as [lines rest].
  apply (wellFormed_fields st rest (o_uuids st)) in Hs. revert Hs.
  generalize (mkOS rest (o_sub st) (hasEmittedChunk st) (hasSentDone st) (o_uuids st)).
  induction lines as [|line lines IH]; intros st0 Hs; [exact Hs|].
  cbn [fold_left]. apply IH. now apply processLine_wellFormed.
Qed.

Lemma data_phase_wellFormed (l : list string) :
  wellFormed (fold_left onData l newOpenAIStreamState).
Proof.
  assert (H0 : wellFormed newOpenAIStreamState).
  { left. repeat split; auto. }
  revert H0. generalize newOpenAIStreamState.
  induction l as [|x l IH]; intros st Hs; [exact Hs|].
  cbn [fold_left]. apply IH. now apply onData_wellFormed.
Qed.

Lemma onEnd_terminated (st : OpenAIStreamState) :
  wellFormed st -> terminated (o_sub (onEnd st)).
Proof.
  intros Hs. unfold ProxyService.onEnd.
  destruct Hs as [(Hc & Hd & He & Hn)|(Hd & Hc & Ht)].
  - assert (Hw : wellFormed st) by (left; repeat split; assumption || apply He).
    destruct (hasEmittedChunk st) eqn:Hem; cbn [negb].
    + rewrite Hd. cbn [negb o_sub o_buffer hasEmittedChunk hasSentDone o_uuids].
      now apply (close_finished st "" true 0 Hw).
    + cbn [pushChunk hasSentDone]. rewrite Hd.
      cbn [negb o_sub o_buffer hasEmittedChunk hasSentDone o_uuids].
      refine (proj2 (close_finished
        (pushChunk (chunkPayload (Json.JObj [("content", Json.JStr "")]) None) st)
        "" true 0 _ eq_refl)).
      now apply pushChunk_wellFormed.
  - destruct (hasEmittedChunk st); unfold pushChunk; cbn [negb hasSentDone];
      rewrite Hd; cbn [negb o_sub]; unfold next, complete; rewrite ?Hc;
      cbn [closed]; rewrite ?Hc; split; assumption.
Qed.

(** X29.  What a subscriber of [processStreamResponse] sees at the end.
    When the upstream stream ends, the subscriber has been completed and has
    received at least one chunk followed by exactly one [[DONE]] frame, the
    last frame of all.  When the upstream stream fails, the subscriber
    receives the error and no [[DONE]] frame, unless a finish reason had
    already closed the stream in the same way. *)
Theorem openai_stream_ends_with_done (upstreamStream : ReadableStream) :
  let sub := processStreamResponse JSON_parse uuidv4 streamId created model
               upstreamStream in
  match ending upstreamStream with
  | End => terminated sub
  | Error message =>
      (closed sub = Some (Errored message) /\ ~ In doneFrame (emitted sub)) \/
      terminated sub
  end.
Proof.
  unfold processStreamResponse.
  pose proof (data_phase_wellFormed (chunks upstreamStream)) as Hs.
  destruct (ending upstreamStream) as [|message]; cbn zeta.
  - now apply onEnd_terminated.
  - unfold onError, error. cbn [o_sub].
    destruct Hs as [(Hc & Hd & He & Hn)|(Hd & Hc & Ht)].
    + left. rewrite Hc. split; [reflexivity | exact Hn].
    + right. rewrite Hc. split; assumption.
Qed.

End StreamTermination.

(** ** Wildcard rules of the configured mapping *)

Section WildcardRules.

Import ModelMapping ModelRouting.

Local Abbreviation codeUnits := list_ascii_of_string.
Local Abbreviation noLineTerminator := OpenAIRequests.noLineTerminator.

Lemma includes_star_cons (c : ascii) (r : string) :
  Js.includes (String c r) "*" = false ->
  Ascii.eqb c "*" = false /\ Js.includes r "*" = false.
Proof.
  cbn [Js.includes String.prefix]. intros H.
  apply orb_false_iff in H as [H1 H2]. split; [|exact H2].
  destruct (Ascii.eqb_spec c "*") as [->|_]; [|reflexivity].
  cbn in H1. now destruct r.
Qed.

Lemma wildcardTest_star (s : string) : wildcardTest "*" s = noLineTerminator s.
Proof.
  induction s as [|d s IH]; [reflexivity|].
  cbn [OpenAIRequests.noLineTerminator]. rewrite <- IH. reflexivity.
Qed.

Lemma wildcardTest_prefix (pre s : string) :
  Js.includes pre "*" = false ->
  wildcardTest (pre +:+ "*") s = true <->
  exists head tail : string,
    s = head +:+ tail /\
    List.map canonicalize (codeUnits head) = List.map canonicalize (codeUnits pre) /\
    noLineTerminator tail = true.
Proof.
  revert s. induction pre as [|c pre IH]; intros s Hs.
  - rewrite append_nil_l, wildcardTest_star. split.
    + intros H. exists "", s. now rewrite append_nil_l.
    + intros (head & tail & -> & Hh & Ht).
      destruct head; [now rewrite append_nil_l | discriminate].
  - apply includes_star_cons in Hs as [Hc Hs]. rewrite append_cons.
    cbn [wildcardTest]. rewrite Hc. destruct s as [|d s].
    + split; [discriminate|]. intros (head & tail & E & Hh & _).
      destruct head; [discriminate|]. rewrite append_cons in E. discriminate.
    + rewrite andb_true_iff, (IH s Hs). split.
      * intros (Hcd & head & tail & -> & Hh & Ht).
        exists (String d head), tail. rewrite append_cons.
        repeat split; [|exact Ht]. cbn [list_ascii_of_string List.map].
        apply Ascii.eqb_eq in Hcd. now rewrite Hcd, Hh.
      * intros (head & tail & E & Hh & Ht). destruct head as [|d' head]; [discriminate|].
        rewrite append_cons in E. injection E as -> ->.
        cbn [list_ascii_of_string List.map] in Hh. injection Hh as Hd Hh.
        split; [apply Ascii.eqb_eq; now rewrite Hd|].
        now exists head, tail.
Qed.

(** X30.  A configured rule [prefix*] (the prefix itself without a star)
    applies to exactly the model names that, stripped of a leading models/
    and trimmed, start with the prefix in any letter case and go on without
    a line break.  With that rule as the whole configured mapping,
    [mapModel] answers the rule's target for those names and the built-in
    mapping for all others. *)
Theorem prefix_rule_routes (pre target model : string) :
  Js.includes pre "*" = false ->
  Js.truthy target = true ->
  let name := Js.trim (normalizeGeminiModel model) in
  (wildcardTest (pre +:+ "*") name = true <->
   exists head tail : string,
     name = head +:+ tail /\
     List.map canonicalize (codeUnits head) = List.map canonicalize (codeUnits pre) /\
     noLineTerminator tail = true) /\
  mapModel (Some [(pre +:+ "*", target)]) None model
  = if wildcardTest (pre +:+ "*") name then Model target
    else mapClaudeModelToGemini name.
Proof.
  intros Hpre Ht name. split; [now apply wildcardTest_prefix|].
  unfold mapModel, spread. cbv zeta.
  cbn [default from_option]. unfold id.
  cbn [app fold_left Js.mapSet fst snd].
  assert (Hu : usable (pre +:+ "*", target) = true).
  { unfold usable. cbn [fst snd]. rewrite Ht.
    destruct pre; [reflexivity | now rewrite append_cons]. }
  assert (Hw : isWildcard (pre +:+ "*", target) = true).
  { unfold isWildcard. cbn [fst]. apply includes_iff. now exists pre, "". }
  cbn [List.filter]. rewrite Hu. cbn [List.filter]. rewrite Hw.
  cbn [negb List.find fst snd fold_left]. fold name.
  destruct (wildcardTest (pre +:+ "*") name); [reflexivity|].
  apply resolveModelRoute_builtin.
Qed.

Lemma prefix_rule_routes_witness :
  mapModel (Some [("gpt-*", "gemini-3-flash")]) None "models/GPT-4o"
  = Model "gemini-3-flash".
Proof.
  exact (proj2 (prefix_rule_routes "gpt-" "gemini-3-flash" "models/GPT-4o"
                  eq_refl eq_refl)).
Defined.

End WildcardRules.

(** ** Selection, seen from outside *)

Section SelectNextTotal.

Variable getAccounts : option (list TM.CloudAccount).
Variable refreshAccessToken : string -> option (string * Z).
Variable generateSessionId : string.

Local Abbreviation getNextToken :=
  (TM.getNextToken getAccounts refreshAccessToken generateSessionId).
Local Abbreviation reloadIfEmpty := (TM.reloadIfEmpty getAccounts generateSessionId).

Lemma excluded_existsb (k : string) (ex : list string) :
  bool_decide (k ∈ (list_to_set ex : gset string)) = existsb (String.eqb k) ex.
Proof.
  destruct (existsb (String.eqb k) ex) eqn:E.
  - apply bool_decide_eq_true. apply existsb_exists in E as (x & Hx & Hk).
    apply String.eqb_eq in Hk as ->. apply elem_of_list_to_set.
    now apply list_elem_of_In.
  - apply bool_decide_eq_false. intros H. apply elem_of_list_to_set in H.
    apply list_elem_of_In in H.
    assert (existsb (String.eqb k) ex = true); [|congruence].
    apply existsb_exists. exists k. split; [exact H | apply String.eqb_refl].
Qed.

Lemma excluded_In (k : string) (ex : list string) :
  k ∈ (list_to_set ex : gset string) <-> In k ex.
Proof. rewrite elem_of_list_to_set. apply list_elem_of_In. Qed.

Lemma keptKeys (ex : list string) (tm : TM.TokenManager) :
  List.map fst (TM.excludedFilteredTokens (list_to_set ex) tm)
  = List.filter (fun k => negb (existsb (String.eqb k) ex)) (List.map fst (TM.tokens tm)).
Proof.
  unfold TM.excludedFilteredTokens.
  induction (TM.tokens tm) as [|e l IH]; [reflexivity|].
  cbn [List.filter List.map]. rewrite excluded_existsb.
  destruct (existsb _ ex); cbn [negb List.map]; now rewrite IH.
Qed.

Lemma notCooling_iff (cd : gmap string Z) (now : Z) (k : string) :
  TM.notCooling cd now k = true <->
  ~ exists cooldownUntil,
      cd !! k = Some cooldownUntil /\ cooldownUntil <> 0%Z /\ (now < cooldownUntil)%Z.
Proof.
  unfold TM.notCooling. destruct (cd !! k) as [u|].
  - rewrite orb_true_iff, Z.eqb_eq, Z.leb_le. split.
    + intros H (u' & E & Hn & Hl). injection E as <-. lia.
    + intros H. destruct (Z.eq_dec u 0%Z) as [->|Hn]; [now left|].
      destruct (Z_le_gt_dec u now) as [Hl|Hg]; [now right|].
      exfalso. apply H. exists u. repeat split; [exact Hn | lia].
  - split; [|reflexivity]. intros _ (u & E & _). discriminate.
Qed.

Lemma candidateTokens_pool (ex : gset string) (now : Z) (tm : TM.TokenManager)
  (e : string * TM.TokenData) :
  In e (TM.candidateTokens ex now tm) -> In e (TM.tokens tm).
Proof.
  assert (Ha : forall x, In x (TM.allTokens ex tm) -> In x (TM.tokens tm)).
  { intros x. unfold TM.allTokens.
    destruct (TM.excludedFilteredTokens ex tm) as [|y l] eqn:E; [auto|].
    rewrite <- E. unfold TM.excludedFilteredTokens. intros H.
    now apply filter_In in H. }
  unfold TM.candidateTokens.
  destruct (TM.validTokens ex now tm) as [|y l] eqn:E; [apply Ha|].
  rewrite <- E. unfold TM.validTokens. intros H. apply filter_In in H. now apply Ha.
Qed.

Lemma lookup_nth_key {V : Type} (l : list (string * V)) (i : nat) (a : string) (v : V) :
  l !! i = Some (a, v) -> nth i (List.map fst l) "" = a.
Proof.
  revert i. induction l as [|e l IH]; intros [|i] H; try discriminate.
  - now injection H as ->.
  - cbn. now apply IH.
Qed.

(** Without a session key the account returned is the candidate at the
    round-robin index. *)
Lemma getNextToken_position (ex : list string) (now nf : Z) (tm : TM.TokenManager)
  (acc : TM.CloudAccount) :
  TM.tokens tm <> [] ->
  (getNextToken None ex now nf tm).1 = Some acc ->
  let candidates := List.map fst (TM.candidateTokens (list_to_set ex) now tm) in
  TM.id acc = nth (TM.currentIndex tm mod length candidates) candidates "".
Proof.
  intros Hne Hacc candidates.
  destruct (getNextToken_chosen getAccounts refreshAccessToken generateSessionId
              None ex now nf tm Hne) as (a & td & tm1 & Hch & _ & E).
  rewrite E in Hacc.
  destruct (finalize_id refreshAccessToken a td (now / 1000) nf (Js.trim <$> None) tm1)
    as (acc' & E1 & Hid).
  rewrite E1 in Hacc. injection Hacc as ->. rewrite Hid.
  unfold TM.chosen in Hch. cbn [fmap option_fmap option_map TM.stickyMatch] in Hch.
  rewrite candidateTokens_clearExpired in Hch.
  change (TM.currentIndex (TM.clearExpiredSessionBindings now tm))
    with (TM.currentIndex tm) in Hch.
  destruct (TM.candidateTokens (list_to_set ex) now tm !! _) as [[a' td']|] eqn:El;
    [|discriminate].
  injection Hch as <- _ _. subst candidates. rewrite length_map.
  symmetry. exact (lookup_nth_key _ _ _ _ El).
Qed.

(** What the reload leaves in an empty pool. *)
Lemma reload_keys (tm : TM.TokenManager) (k : string) :
  TM.tokens tm = [] ->
  (In k (List.map fst (TM.tokens (reloadIfEmpty tm))) <->
   exists accounts a,
     getAccounts = Some accounts /\ In a accounts /\ TM.id a = k /\ is_Some (TM.token a)).
Proof.
  intros He. unfold TM.reloadIfEmpty, TM.loadAccounts. rewrite He. cbn [length Nat.eqb].
  destruct getAccounts as [accounts|].
  - destruct (loadAccounts_fold generateSessionId accounts 0 tm) as (_ & _ & _ & _ & Hk).
    cbv zeta in Hk. rewrite Hk, He. cbn [List.map]. split.
    + intros [[]|(a & Ha)]. now exists accounts, a.
    + intros (accounts' & a & E & Ha). injection E as <-. right. now exists a.
  - cbn [snd]. rewrite He. split; [intros [] | intros (? & ? & E & _); discriminate].
Qed.

(** C3.  On a pool that is not empty, [getNextToken] returns an account of
    the pool: not an excluded one while some account is not excluded, and
    not a cooling one while some account is neither excluded nor cooling.
    When every account is excluded the selection is made in the full pool,
    and when the accounts that are not excluded are all cooling it is made
    among them, cooldowns ignored: without a session key, the account at
    the round-robin index of that list.  On an empty pool the accounts are
    reloaded from the store, and an account of the store that carries a
    token is returned if there is one.  The result is [null] exactly when
    the pool is empty and the store cannot be read or holds no account
    with a token. *)
Theorem C3_select_next_total (sk : option string) (ex : list string) (now nf : Z)
  (tm : TM.TokenManager) :
  let keys := List.map fst (TM.tokens tm) in
  let excluded (k : string) := In k ex in
  let cooling (k : string) :=
    exists cooldownUntil,
      TM.cooldowns tm !! k = Some cooldownUntil /\ cooldownUntil <> 0%Z /\
      (now < cooldownUntil)%Z in
  let kept := List.filter (fun k => negb (existsb (String.eqb k) ex)) keys in
  let result (sessionKey : option string) := (getNextToken sessionKey ex now nf tm).1 in
  (keys <> [] ->
   exists acc,
     result sk = Some acc /\ In (TM.id acc) keys /\
     ((exists k, In k keys /\ ~ excluded k) -> ~ excluded (TM.id acc)) /\
     ((exists k, In k keys /\ ~ excluded k /\ ~ cooling k) -> ~ cooling (TM.id acc))) /\
  (keys <> [] -> (forall k, In k keys -> excluded k) ->
   exists acc,
     result None = Some acc /\
     TM.id acc = nth (TM.currentIndex tm mod length keys) keys "") /\
  (kept <> [] -> (forall k, In k kept -> cooling k) ->
   exists acc,
     result None = Some acc /\
     TM.id acc = nth (TM.currentIndex tm mod length kept) kept "") /\
  (keys = [] ->
   forall accounts, getAccounts = Some accounts ->
     (exists a, In a accounts /\ is_Some (TM.token a)) ->
     exists acc a,
       result sk = Some acc /\ In a accounts /\ is_Some (TM.token a) /\
       TM.id a = TM.id acc) /\
  (result sk = None <->
   keys = [] /\
   match getAccounts with
   | None => True
   | Some accounts => forall a, In a accounts -> TM.token a = None
   end).
Proof.
  cbv zeta.
  assert (Hkeys : List.map fst (TM.tokens tm) <> [] -> TM.tokens tm <> []).
  { intros H E. apply H. now rewrite E. }
  assert (Hsel : forall s, TM.tokens tm <> [] ->
            exists acc e,
              (getNextToken s ex now nf tm).1 = Some acc /\ e.1 = TM.id acc /\
              In e (TM.candidateTokens (list_to_set ex) now tm)).
  { intros s Hne.
    destruct (getNextToken_selects getAccounts refreshAccessToken generateSessionId
                s ex now nf tm) as (acc & E & Hin).
    - now rewrite reloadIfEmpty_nonempty.
    - rewrite reloadIfEmpty_nonempty in Hin by exact Hne.
      apply in_map_iff in Hin as (e & He & Hin). now exists acc, e. }
  repeat apply conj.
  - intros Hne. apply Hkeys in Hne.
    destruct (Hsel sk Hne) as (acc & e & E & He & Hin).
    exists acc. repeat apply conj.
    + exact E.
    + rewrite <- He. apply in_map. now apply candidateTokens_pool in Hin.
    + intros (k & Hk & Hnx). rewrite <- He, <- excluded_In.
      apply (candidates_not_excluded (list_to_set ex) now tm e); [|exact Hin].
      apply in_map_iff in Hk as (e0 & <- & He0). exists e0.
      split; [exact He0 | now rewrite excluded_In].
    + intros (k & Hk & Hnx & Hnc). rewrite <- He. apply notCooling_iff.
      apply (candidates_not_cooling (list_to_set ex) now tm e); [|exact Hin].
      apply in_map_iff in Hk as (e0 & <- & He0). exists e0.
      split; [exact He0|]. split; [now rewrite excluded_In | now apply notCooling_iff].
  - intros Hne Hall. apply Hkeys in Hne.
    destruct (Hsel None Hne) as (acc & e & E & _).
    exists acc. split; [exact E|].
    rewrite (getNextToken_position ex now nf tm acc Hne E).
    rewrite exclusion_fallback; [reflexivity|].
    intros e0 He0. apply excluded_In, Hall. now apply in_map.
  - intros Hkept Hcool.
    assert (Hne : TM.tokens tm <> []).
    { intros E. apply Hkept. now rewrite E. }
    destruct (Hsel None Hne) as (acc & e & E & _).
    exists acc. split; [exact E|].
    rewrite (getNextToken_position ex now nf tm acc Hne E).
    rewrite cooldown_fallback, keptKeys; [reflexivity| |].
    + intros E0. apply Hkept. now rewrite <- keptKeys, E0.
    + intros e0 He0. destruct (TM.notCooling _ now e0.1) eqn:Ec; [|reflexivity].
      exfalso. apply notCooling_iff in Ec. apply Ec, Hcool.
      rewrite <- keptKeys. now apply in_map.
  - intros He accounts Hacc (a & Ha & Hta).
    apply map_eq_nil in He.
    assert (Hin : In (TM.id a) (List.map fst (TM.tokens (reloadIfEmpty tm)))).
    { apply reload_keys; [exact He|]. now exists accounts, a. }
    destruct (getNextToken_selects getAccounts refreshAccessToken generateSessionId
                sk ex now nf tm) as (acc & E & Hc).
    + intros E0. now rewrite E0 in Hin.
    + apply in_map_iff in Hc as (e & Hid & Hc). apply candidateTokens_pool in Hc.
      assert (Hk : In (TM.id acc) (List.map fst (TM.tokens (reloadIfEmpty tm))))
        by (rewrite <- Hid; now apply in_map).
      apply reload_keys in Hk as (accounts' & a' & E' & Ha' & Hid' & Ht'); [|exact He].
      rewrite Hacc in E'. injection E' as <-. now exists acc, a'.
  - intros HN.
    assert (Hr : TM.tokens (reloadIfEmpty tm) = []).
    { destruct (TM.tokens (reloadIfEmpty tm)) eqn:E; [reflexivity|].
      destruct (getNextToken_selects getAccounts refreshAccessToken generateSessionId
                  sk ex now nf tm) as (acc & E' & _); [now rewrite E|congruence]. }
    assert (He : TM.tokens tm = []).
    { destruct (TM.tokens tm) eqn:E; [reflexivity|].
      rewrite reloadIfEmpty_nonempty in Hr by (rewrite E; discriminate). congruence. }
    split; [now rewrite He|].
    assert (Hst : forall accounts, getAccounts = Some accounts ->
                  forall a, In a accounts -> TM.token a = None).
    { intros accounts Eg a Ha. destruct (TM.token a) as [t|] eqn:Et; [|reflexivity].
      exfalso.
      assert (Hin : In (TM.id a) (List.map fst (TM.tokens (reloadIfEmpty tm)))).
      { apply reload_keys; [exact He|]. exists accounts, a. rewrite Et. eauto. }
      now rewrite Hr in Hin. }
    destruct getAccounts as [accounts|]; [now apply Hst | exact I].
  - intros [He Hstore]. apply map_eq_nil in He. apply getNextToken_empty.
    destruct (TM.tokens (reloadIfEmpty tm)) as [|e l] eqn:E; [reflexivity|].
    assert (Hin : In e.1 (List.map fst (TM.tokens (reloadIfEmpty tm))))
      by (rewrite E; now left).
    apply reload_keys in Hin as (accounts & a & Eg & Ha & _ & Ht); [|exact He].
    rewrite Eg in Hstore. rewrite (Hstore a Ha) in Ht. now destruct Ht.
Qed.

End SelectNextTotal.

(** Witness of [C3_select_next_total]: an empty pool is reloaded from a
    store that holds account A; with A and B both excluded the first
    account of the pool A, B is returned; with A excluded and B cooling, B
    is returned; and an empty pool over an unreadable store gives [null]. *)
Lemma C3_select_next_total_witness :
  let store := Some [TM.toCloudAccount "A" (Sample.tokenData "A" None) 0] in
  let coolingB := TM.markAsRateLimited 1000 "B" Sample.poolAB in
  (exists acc,
     (TM.getNextToken store Sample.noRefresh "-1" None [] 1000 1000
        TM.emptyTokenManager).1 = Some acc /\ TM.id acc = "A") /\
  (exists acc,
     (TM.getNextToken None Sample.noRefresh "-1" None ["A"; "B"] 1000 1000
        Sample.poolAB).1 = Some acc /\ TM.id acc = "A") /\
  (exists acc,
     (TM.getNextToken None Sample.noRefresh "-1" None ["A"] 2000 2000 coolingB).1
     = Some acc /\ TM.id acc = "B") /\
  (TM.getNextToken None Sample.noRefresh "-1" None [] 1000 1000 TM.emptyTokenManager).1
  = None.
Proof.
  cbv zeta. repeat apply conj.
  - destruct (C3_select_next_total
                (Some [TM.toCloudAccount "A" (Sample.tokenData "A" None) 0])
                Sample.noRefresh "-1" None [] 1000 1000 TM.emptyTokenManager)
      as (_ & _ & _ & H & _).
    destruct (H eq_refl _ eq_refl) as (acc & a & E & Ha & _ & Hid).
    + eexists. split; [now left | cbn; eauto].
    + exists acc. split; [exact E|]. destruct Ha as [<-|[]]. now rewrite <- Hid.
  - destruct (C3_select_next_total None Sample.noRefresh "-1" None ["A"; "B"]
                1000 1000 Sample.poolAB) as (_ & H & _).
    refine (H _ _); [discriminate|]. cbn. intuition.
  - destruct (C3_select_next_total None Sample.noRefresh "-1" None ["A"] 2000 2000
                (TM.markAsRateLimited 1000 "B" Sample.poolAB)) as (_ & _ & H & _).
    refine (H _ _); [discriminate|]. intros k [<-|[]].
    exists 301000%Z. split; [reflexivity|]. split; [discriminate | reflexivity].
  - apply (C3_select_next_total None Sample.noRefresh "-1" None [] 1000 1000
             TM.emptyTokenManager). split; [reflexivity | exact I].
Defined.

(** ** The stream fallback, frame by frame *)

Section StreamFallback.

Import GeminiFrames.

Variable JSON_parse : string -> option Json.json.

Local Abbreviation frameOfLine := (frameOfLine JSON_parse).
Local Abbreviation dataFrames := (dataFrames JSON_parse).

Lemma splitLines_line (line rest : string) :
  (forall c, In c (list_ascii_of_string line) -> c <> "010"%char) ->
  Js.splitLines (line +:+ lineFeed +:+ rest) = line :: Js.splitLines rest.
Proof.
  induction line as [|c line IH]; intros H.
  - rewrite append_nil_l. reflexivity.
  - rewrite append_cons. cbn [Js.splitLines].
    destruct (Ascii.eqb_spec c "010"%char) as [->|_].
    + exfalso. apply (H "010"%char); [now left | reflexivity].
    + rewrite IH; [reflexivity|]. intros d Hd. apply H. now right.
Qed.

Lemma trimEnd_append (a t : string) :
  t <> "" -> Js.trimEnd t = t -> Js.trimEnd (a +:+ t) = a +:+ t.
Proof.
  intros Hne Ht. induction a as [|c a IH]; [now rewrite append_nil_l|].
  rewrite append_cons. cbn [Js.trimEnd]. rewrite IH.
  destruct (a +:+ t) eqn:E; [|reflexivity].
  destruct a; [rewrite append_nil_l in E; contradiction | now rewrite append_cons in E].
Qed.

Lemma dataOfLine_data (text : string) :
  dataText text -> dataOfLine ("data: " +:+ text) = Some text.
Proof.
  intros (Hne & Hdone & Ht & _). unfold dataOfLine, Js.trim.
  change (Js.trimStart ("data: " +:+ text)) with ("data: " +:+ text).
  rewrite (trimEnd_append "data: " text Hne Ht).
  unfold Js.startsWith. rewrite prefix_app. cbn [negb].
  change (Js.sliceFrom 6 ("data: " +:+ text)) with text.
  destruct (String.eqb_spec text "[DONE]"); [contradiction | reflexivity].
Qed.

Lemma concat_fold (l : list string) :
  String.concat "" l = fold_right String.append "" l.
Proof.
  induction l as [|x l IH]; [reflexivity|].
  rewrite concat_empty_cons, IH. reflexivity.
Qed.

(** The complete lines of a text made of SSE events. *)
Lemma completeLines_events (texts : list string) :
  Forall dataText texts ->
  completeLines (String.concat "" (List.map sseEvent texts))
  = flat_map (fun text => ["data: " +:+ text; ""]) texts.
Proof.
  induction 1 as [|text texts Ht _ IH]; [reflexivity|].
  cbn [List.map flat_map]. rewrite concat_empty_cons, completeLines_app.
  assert (Hs : Js.splitLines (sseEvent text) = ["data: " +:+ text; ""; ""]).
  { unfold sseEvent.
    replace ("data: " +:+ text +:+ lineFeed +:+ lineFeed)
      with (("data: " +:+ text) +:+ lineFeed +:+ lineFeed)
      by (now rewrite <- !append_assoc).
    rewrite splitLines_line.
    - reflexivity.
    - destruct Ht as (_ & _ & _ & Hl). intros c Hc.
      change ("data: " +:+ text) with
        (String "d" (String "a" (String "t" (String "a" (String ":" (String " " text))))))
        in Hc.
      cbn [list_ascii_of_string In] in Hc.
      destruct Hc as [<-|[<-|[<-|[<-|[<-|[<-|Hc]]]]]]; try discriminate.
      now apply Hl. }
  unfold completeLines at 1. rewrite Hs. cbn [removelast List.last app].
  rewrite append_nil_l, IH. reflexivity.
Qed.

Lemma frameOfLine_data (text : string) :
  dataText text -> frameOfLine ("data: " +:+ text) = JSON_parse text.
Proof. intros H. unfold ProxyService.frameOfLine. now rewrite dataOfLine_data. Qed.

Lemma frames_of_events (events : list (string * Frame)) :
  Forall (fun event => dataText event.1 /\ JSON_parse event.1 = Some (frameJson event.2))
         events ->
  omap frameOfLine (flat_map (fun text => ["data: " +:+ text; ""]) (List.map fst events))
  = List.map (fun event => frameJson event.2) events.
Proof.
  induction 1 as [|[text frame] events [Ht Hp] _ IH]; [reflexivity|].
  cbn [fst snd] in Ht, Hp. cbn [List.map flat_map app fst snd].
  change (omap frameOfLine (("data: " +:+ text) :: "" :: ?l))
    with (match frameOfLine ("data: " +:+ text) with
          | Some f => f :: omap frameOfLine l
          | None => omap frameOfLine l
          end).
  now rewrite (frameOfLine_data text Ht), Hp, IH.
Qed.

Lemma frameParts_frameJson (frame : Frame) :
  frameParts (frameJson frame) = List.map Json.JObj (parts frame).
Proof.
  destruct frame as [ps fr um]. unfold frameParts, frameCandidate, frameJson.
  cbn [parts finishReason usageMetadata].
  assert (E : List.filter isGeminiPart (List.map Json.JObj ps) = List.map Json.JObj ps).
  { induction ps as [|p ps IH]; [reflexivity|]. cbn. now rewrite IH. }
  destruct fr, um; cbn; exact E.
Qed.

Lemma frameFinishReason_frameJson (frame : Frame) :
  frameFinishReason (frameJson frame) = Json.JStr <$> finishReason frame.
Proof. destruct frame as [ps [fr|] [um|]]; reflexivity. Qed.

Lemma frameUsage_frameJson (frame : Frame) :
  frameUsage (frameJson frame) = Json.JObj <$> usageMetadata frame.
Proof. destruct frame as [ps [fr|] [um|]]; reflexivity. Qed.

Lemma flat_map_parts (frames : list Frame) :
  flat_map frameParts (List.map frameJson frames)
  = List.map Json.JObj (List.concat (List.map parts frames)).
Proof.
  induction frames as [|f frames IH]; [reflexivity|].
  cbn [List.map flat_map List.concat]. now rewrite frameParts_frameJson, IH, map_app.
Qed.

Lemma lastTruthy_present {A : Type} (asJson : A -> Json.json) (values : list (option A))
  (found : option A) :
  Forall (fun value => forall v, value = Some v -> Json.truthy (Some (asJson v)) = true)
         values ->
  fold_left assignIfTruthy (List.map (fmap asJson) values) (asJson <$> found)
  = asJson <$> fold_left (fun found value =>
                            match value with Some v => Some v | None => found end)
                         values found.
Proof.
  intros H. revert found. induction H as [|value values Hv _ IH]; intros found;
    [reflexivity|].
  cbn [List.map fold_left]. destruct value as [v|]; cbn [fmap option_fmap option_map].
  - unfold assignIfTruthy at 2. rewrite (Hv v eq_refl). apply (IH (Some v)).
  - unfold assignIfTruthy at 2. cbn [Json.truthy]. apply IH.
Qed.

(** C7.  When the unary answer has no usable candidate (no non-empty array
    at [candidates], or none at [candidates[0].content.parts]), the same
    body is sent once more, as a streaming call, and nothing else is sent.
    If the stream ends without a chunk the error "Empty response stream"
    is raised.  If it delivers, cut into chunks in any way, the SSE events
    of a sequence of frames, the result is a response with one candidate
    that holds the parts of all the frames in order, the last finish reason
    a frame carried and the last usage metadata a frame carried. *)
Theorem C7_empty_unary_stream_fallback
  (generateInternal : nat -> UpstreamCall -> string + Json.jsval)
  (streamGenerateInternal : nat -> UpstreamCall -> string + ReadableStream)
  (body : GeminiInternalRequest) (accessToken : string)
  (upstreamProxyUrl : option string) (extraHeaders : list (string * string))
  (w : World) (direct : Json.jsval) (stream : ReadableStream)
  (events : list (string * Frame)) :
  let unary := mkCall false body accessToken upstreamProxyUrl extraHeaders in
  let streaming := mkCall true body accessToken upstreamProxyUrl extraHeaders in
  generateInternal (upstreamCalls w) unary = inr direct ->
  ~ (exists first rest part parts,
       Json.optProp "candidates" direct = Some (Json.JArr (first :: rest)) /\
       Json.optProp "parts" (Json.optProp "content" (Some first))
       = Some (Json.JArr (part :: parts))) ->
  streamGenerateInternal (S (upstreamCalls w)) streaming = inr stream ->
  ending stream = End ->
  String.concat "" (chunks stream)
  = String.concat "" (List.map (fun event => sseEvent event.1) events) ->
  Forall (fun event =>
            dataText event.1 /\ JSON_parse event.1 = Some (frameJson event.2) /\
            finishReason event.2 <> Some "") events ->
  let run :=
    generateInternalWithStreamFallback JSON_parse generateInternal
      streamGenerateInternal body accessToken upstreamProxyUrl extraHeaders w in
  trace run.2 = trace w ++ [EvUpstream unary; EvUpstream streaming] /\
  (chunks stream = [] -> run.1 = inl "Empty response stream") /\
  (chunks stream <> [] -> run.1 = inr (Some (merged (List.map snd events)))).
Proof.
  intros unary streaming Hgen Hun Hstr Hend Htext Hev run.
  assert (Hun' : hasUsableGeminiCandidate direct = false).
  { destruct (hasUsableGeminiCandidate direct) eqn:E; [|reflexivity].
    exfalso. apply Hun. now apply hasUsableGeminiCandidate_iff. }
  subst run unary streaming.
  unfold generateInternalWithStreamFallback, mbind, M_bind, bind,
    callGenerateInternal, callStreamGenerateInternal, liftResult, mret, M_ret, ret.
  rewrite Hgen, Hun'. cbn [upstreamCalls pool clock trace uuids]. rewrite Hstr.
  rewrite (collectGeminiStreamAsResponse_end JSON_parse stream Hend).
  cbn [fst snd trace]. rewrite <- app_assoc. cbn [app].
  destruct (chunks stream) eqn:Ec.
  - split; [reflexivity|]. split; [reflexivity | congruence].
  - split; [reflexivity|]. split; [discriminate|]. intros _.
    assert (Hframes : dataFrames stream
                      = List.map (fun event => frameJson event.2) events).
    { unfold ProxyService.dataFrames, streamText.
      rewrite Ec, <- concat_fold, Htext, <- (map_map fst sseEvent).
      rewrite completeLines_events.
      - apply frames_of_events. eapply List.Forall_impl; [|exact Hev]. cbn. tauto.
      - apply Forall_map. eapply List.Forall_impl; [|exact Hev]. cbn. tauto. }
    rewrite Hframes, <- (map_map snd frameJson).
    set (frames := List.map snd events).
    assert (Hfr : Forall (fun f => finishReason f <> Some "") frames).
    { apply Forall_map. eapply List.Forall_impl; [|exact Hev]. cbn. tauto. }
    unfold synthesizedResponse, merged, lastTruthy.
    cbn [mergedParts ProxyService.finishReason ProxyService.usageMetadata].
    rewrite flat_map_parts.
    rewrite !map_map.
    rewrite (map_ext _ (fun f => Json.JStr <$> finishReason f))
      by (intros f; apply frameFinishReason_frameJson).
    rewrite (map_ext (fun f => frameUsage (frameJson f))
                     (fun f => Json.JObj <$> usageMetadata f))
      by (intros f; apply frameUsage_frameJson).
    rewrite <- (map_map finishReason (fmap Json.JStr)).
    rewrite <- (map_map usageMetadata (fmap Json.JObj)).
    rewrite (lastTruthy_present Json.JStr _ None), (lastTruthy_present Json.JObj _ None).
    + fold (lastPresent (List.map finishReason frames)).
      fold (lastPresent (List.map usageMetadata frames)).
      destruct (lastPresent (List.map finishReason frames)),
        (lastPresent (List.map usageMetadata frames)); reflexivity.
    + apply Forall_map. apply Forall_forall. intros f _ v _. reflexivity.
    + apply Forall_map. eapply List.Forall_impl; [|exact Hfr]. cbn.
      intros f Hf v Hv. rewrite Hv in Hf. destruct v; [congruence | reflexivity].
Qed.

End StreamFallback.

(** Witness of [C7_empty_unary_stream_fallback]: the unary answer is
    [{candidates: []}]; the stream delivers, in three chunks, a frame with
    the text "hello " and a frame with the text "world", finish reason STOP
    and a usage of 7 tokens. *)
Lemma C7_empty_unary_stream_fallback_witness :
  (generateInternalWithStreamFallback Scenarios.parseFrames Sample.emptyUnary
     Scenarios.framesStreaming Sample.someBody "token" None []
     (initialWorld TM.emptyTokenManager 0)).1
  = inr (Some
           (Json.JObj
              [("candidates",
                Json.JArr
                  [Json.JObj
                     [("content",
                       Json.JObj
                         [("role", Json.JStr "model");
                          ("parts",
                           Json.JArr [Json.JObj [("text", Json.JStr "hello ")];
                                      Json.JObj [("text", Json.JStr "world")]])]);
                      ("finishReason", Json.JStr "STOP")]]);
               ("usageMetadata", Json.JObj [("totalTokenCount", Json.JNum 7)])])).
Proof.
  refine (proj2 (proj2
    (C7_empty_unary_stream_fallback Scenarios.parseFrames Sample.emptyUnary
       Scenarios.framesStreaming Sample.someBody "token" None []
       (initialWorld TM.emptyTokenManager 0) _ Scenarios.framesStream
       [(Scenarios.textHello, Scenarios.frameHello);
        (Scenarios.textWorld, Scenarios.frameWorld)]
       eq_refl _ eq_refl eq_refl eq_refl _)) _).
  - intros (first & rest & part & parts & H & _). discriminate H.
  - repeat constructor; try discriminate; try reflexivity;
      intros c Hc; vm_compute in Hc;
      repeat (destruct Hc as [<-|Hc]; [discriminate|]); destruct Hc.
  - discriminate.
Defined.

(** ** The quota downgrade of a streaming request *)

(** C8, evaluated.  The pool holds three fresh accounts.  A streaming
    request for claude-sonnet-4-5 has its first upstream call rejected with
    a quota message: the handler calls upstream again at once, for
    gemini-2.5-flash with the same access token and without another
    selection, and returns that stream handed to
    [processAnthropicInternalStream] with the model gemini-2.5-flash.  The
    model the client asked for is not passed on: the same request for
    claude-opus-4-5 gets the very same result.  The same request without
    streaming gets a message whose model is claude-sonnet-4-5. *)
Theorem C8_stream_downgrade_drops_requested_model :
  let quota := "Resource has been exhausted (e.g. check quota)." in
  let request (requested : string) (stream : bool) :=
    mkAnthropicRequest requested stream None Json.JNull in
  let run (requested : string) (stream : bool) :=
    handleAnthropicMessages None Sample.noRefresh "-1" Sample.parseHello
      Sample.quotaThenOk Scenarios.quotaThenStream Sample.delay Sample.uuid
      Sample.claudeOf cr_rest cr_model "agent" (request requested stream)
      (initialWorld Sample.poolABC 0) in
  let calls (requested : string) (stream : bool) :=
    List.map (fun c => (model (uc_body c), uc_accessToken c))
             (upstreamCallsOf (trace (run requested stream).2)) in
  isQuotaExhaustedError quota = true /\
  (run "claude-sonnet-4-5" true).1
  = inr (AnthropicStream Sample.helloStream "gemini-2.5-flash") /\
  calls "claude-sonnet-4-5" true
  = [("claude-sonnet-4-5", "access-A"); ("gemini-2.5-flash", "access-A")] /\
  selectionsOf (trace (run "claude-sonnet-4-5" true).2) = [([], Some "A")] /\
  (run "claude-opus-4-5" true).1 = (run "claude-sonnet-4-5" true).1 /\
  exists response,
    (run "claude-sonnet-4-5" false).1 = inr (AnthropicMessage response) /\
    ar_model response = "claude-sonnet-4-5".
Proof.
  cbv zeta. repeat split; try (vm_compute; reflexivity).
  eexists. split; vm_compute; reflexivity.
Qed.
